(** * Vedam open-source admin dashboard: the members cache, the GitHub
      client and the aggregation functions, embedded in Rocq.

    Part one embeds the code, module by module:
    - [Js]        : the JavaScript built-ins the code relies on
                    (truthiness, [trim], [includes], [parseInt],
                    [Array.prototype.sort], objects used as dictionaries);
    - [Eff]       : state, exceptions and [try]/[catch];
    - [Json]      : JSON values, [JSON.stringify] and [JSON.parse];
    - [DataStore] : [data-store.js], the members cache over
                    [localStorage] and the document store;
    - [GitHubApi] : the GitHub API functions, [githubApiRequest] and the
                    fetchers built on it;
    - [Dashboard] : [getPRTrendsData] of the dashboard page;
    - [Analytics] : [getLanguageData] and the rankings of [analytics.js];
    - [MemberLookup], [ActivitySnapshot], [Utils] : [getMemberById], the
                    activity snapshot and the display name;
    - [DashboardStats], [AnalyticsStats] : the statistics of the two
                    pages and [getRepositoryData];
    - [Auth]      : the admin session of the authentication module;
    - [Build]     : the literals of the build script.

    Part two names what the properties are stated with; part three
    proves them.

    JavaScript numbers are embedded as [Z] wherever the code only
    counts; [NaN] is made explicit where the code can produce it. A
    string is the sequence of bytes of its UTF-8 encoding. *)

From Stdlib Require Import ZArith String Ascii List Bool Lia.
From Stdlib Require Import DecimalString DecimalPos DecimalFacts.
From stdpp Require Import base option list sorting gmap strings.
Import ListNotations.

Local Open Scope Z_scope.

(** ** JavaScript built-ins *)

Module Js.

(** [x || 0] on a count that may be [undefined] or [null]. *)
Definition or0 (x : option Z) : Z :=
  match x with Some z => z | None => 0 end.

(** Truthiness of a count that may be missing: a number other than [0]. *)
Definition truthyZ (x : option Z) : bool :=
  match x with Some z => negb (z =? 0) | None => false end.

(** Truthiness of a string: every string but the empty one. *)
Definition truthyStr (s : string) : bool :=
  match s with EmptyString => false | String _ _ => true end.

(** [a || b] on counts: the first operand when it is truthy. *)
Definition orZ (a b : option Z) : option Z :=
  if truthyZ a then a else b.

(** [s1 === s2] on strings. *)
Definition streq (s1 s2 : string) : bool := bool_decide (s1 = s2).

(** White space as [trim] and [parseInt] see it: the code points of
    ECMAScript's WhiteSpace and LineTerminator, in UTF-8.

    One byte: TAB, LF, VT, FF, CR (U+0009 to U+000D) and SPACE. *)
Definition isSpace (c : ascii) : bool :=
  let n := nat_of_ascii c in
  ((n =? 32) || ((9 <=? n) && (n <=? 13)))%nat.

(** Two bytes: the no-break space U+00A0, [C2 A0]. *)
Definition isSpace2 (c1 c2 : ascii) : bool :=
  ((nat_of_ascii c1 =? 194) && (nat_of_ascii c2 =? 160))%nat.

(** Three bytes: U+1680 [E1 9A 80]; U+2000 to U+200A [E2 80 80..8A]; the
    line and paragraph separators U+2028 and U+2029 [E2 80 A8..A9];
    U+202F [E2 80 AF]; U+205F [E2 81 9F]; U+3000 [E3 80 80]; and the
    byte order mark U+FEFF [EF BB BF]. *)
Definition isSpace3 (c1 c2 c3 : ascii) : bool :=
  let n1 := nat_of_ascii c1 in
  let n2 := nat_of_ascii c2 in
  let n3 := nat_of_ascii c3 in
  (((n1 =? 225) && (n2 =? 154) && (n3 =? 128))
   || ((n1 =? 226) && (n2 =? 128)
       && (((128 <=? n3) && (n3 <=? 138)) || (n3 =? 168) || (n3 =? 169)
           || (n3 =? 175)))
   || ((n1 =? 226) && (n2 =? 129) && (n3 =? 159))
   || ((n1 =? 227) && (n2 =? 128) && (n3 =? 128))
   || ((n1 =? 239) && (n2 =? 187) && (n3 =? 191)))%nat.

(** [String.prototype.trimStart]: the white-space code points at the
    start are dropped. *)
Fixpoint trimStart (s : string) : string :=
  match s with
  | EmptyString => EmptyString
  | String c1 r1 =>
      if isSpace c1 then trimStart r1
      else
        match r1 with
        | String c2 r2 =>
            if isSpace2 c1 c2 then trimStart r2
            else
              match r2 with
              | String c3 r3 => if isSpace3 c1 c2 c3 then trimStart r3 else s
              | EmptyString => s
              end
        | EmptyString => s
        end
  end.

(** [String.prototype.trimEnd]: the text is cut where nothing but white
    space follows. No white-space code point starts with a continuation
    byte, so the cut never falls inside a character. *)
Fixpoint trimEnd (s : string) : string :=
  match s with
  | EmptyString => EmptyString
  | String c r =>
      match trimStart s with
      | EmptyString => EmptyString
      | String _ _ => String c (trimEnd r)
      end
  end.

(** [String.prototype.trim] *)
Definition trim (s : string) : string := trimEnd (trimStart s).

(** [Array.prototype.sort(cmp)]: the sort is stable (ECMAScript 2019),
    so for a consistent comparator its result is that of a stable
    insertion sort: [x] goes in front of the first element it does not
    compare greater than. *)
Fixpoint insertBy {A} (cmp : A -> A -> Z) (x : A) (l : list A) : list A :=
  match l with
  | [] => [x]
  | y :: r => if cmp x y <=? 0 then x :: y :: r else y :: insertBy cmp x r
  end.

Definition sort {A} (cmp : A -> A -> Z) (l : list A) : list A :=
  fold_right (insertBy cmp) [] l.

(** [Array.prototype.slice(0, n)] *)
Definition slice0 {A} (n : nat) (l : list A) : list A := firstn n l.

(** *** Plain objects used as dictionaries

    An object literal [{}] filled through [obj[k] = v] is embedded by its
    own properties, in insertion order. What such an object inherits from
    [Object.prototype] is embedded where the code reads a property it has
    not written: in the user cache of the GitHub functions and in the
    language counts of the analytics page. The language breakdown of
    [fetchUserLanguages] is embedded by its own properties only. *)
Abbreviation Obj V := (list (string * V)).

Fixpoint objGet {V} (o : Obj V) (k : string) : option V :=
  match o with
  | [] => None
  | (k', v) :: r => if streq k' k then Some v else objGet r k
  end.

(** [o[k] = v]: overwrite in place, or append a new property. *)
Fixpoint objSet {V} (o : Obj V) (k : string) (v : V) : Obj V :=
  match o with
  | [] => [(k, v)]
  | (k', v') :: r =>
      if streq k' k then (k', v) :: r else (k', v') :: objSet r k v
  end.

(** The functions every object inherits from [Object.prototype], in a
    browser. *)
Definition objectPrototypeFunctions : list string :=
  ["constructor"; "__defineGetter__"; "__defineSetter__"; "hasOwnProperty";
   "__lookupGetter__"; "__lookupSetter__"; "isPrototypeOf";
   "propertyIsEnumerable"; "toString"; "valueOf"; "toLocaleString"]%string.

Definition inheritsFunction (k : string) : bool :=
  existsb (streq k) objectPrototypeFunctions.

(** The accessor through which an object's prototype is read and
    replaced; it is inherited from [Object.prototype] as well. *)
Definition protoKey : string := "__proto__".

Definition isDigit (c : ascii) : bool :=
  let n := nat_of_ascii c in ((48 <=? n) && (n <=? 57))%nat.

Fixpoint allDigits (s : string) : bool :=
  match s with
  | EmptyString => true
  | String c r => isDigit c && allDigits r
  end.

Fixpoint digitsValue (acc : N) (s : string) : N :=
  match s with
  | EmptyString => acc
  | String c r => digitsValue (acc * 10 + N.of_nat (nat_of_ascii c - 48))%N r
  end.

(** A property key that is a canonical array index: decimal digits, no
    leading zero, at most [2^32 - 2]. *)
Definition isArrayIndex (k : string) : bool :=
  match k with
  | EmptyString => false
  | String c r =>
      allDigits k
      && (negb (Ascii.eqb c "0"%char) || streq r EmptyString)
      && (digitsValue 0 k <=? 4294967294)%N
  end.

(** [Object.entries(o)]: array-index keys first, in ascending numeric
    order, then the other string keys in insertion order. *)
Definition entries {V} (o : Obj V) : list (string * V) :=
  sort (fun a b => Z.of_N (digitsValue 0 (fst a)) - Z.of_N (digitsValue 0 (fst b)))
       (filter (fun e => isArrayIndex (fst e) = true) o)
  ++ filter (fun e => isArrayIndex (fst e) <> true) o.

(** [Math.max(...l)]; [None] stands for [-Infinity], the result on an
    empty list. *)
Definition mathMax (l : list Z) : option Z :=
  match l with
  | [] => None
  | x :: r => Some (fold_left Z.max r x)
  end.

(** A number that may be [NaN]. *)
Inductive JsNum :=
| NaN
| Num (z : Z).

(** The longest prefix of decimal digits. *)
Fixpoint leadingDigits (s : string) : string :=
  match s with
  | EmptyString => EmptyString
  | String c r => if isDigit c then String c (leadingDigits r) else EmptyString
  end.

Definition digitsNum (negative : bool) (s : string) : JsNum :=
  match leadingDigits s with
  | EmptyString => NaN
  | d =>
      let v := Z.of_N (digitsValue 0 d) in
      Num (if negative then - v else v)
  end.

(** [parseInt(s, 10)]: leading white space, an optional sign, then as
    many decimal digits as there are; [NaN] when there is none. *)
Definition parseInt (s : string) : JsNum :=
  match trimStart s with
  | String c r =>
      if Ascii.eqb c "-"%char then digitsNum true r
      else if Ascii.eqb c "+"%char then digitsNum false r
      else digitsNum false (String c r)
  | EmptyString => NaN
  end.

(** [n.toString()] for an integer. *)
Definition numToString (z : Z) : string :=
  NilZero.string_of_int (Z.to_int z).

Fixpoint isPrefix (p s : string) : bool :=
  match p, s with
  | EmptyString, _ => true
  | String a p', String b s' => Ascii.eqb a b && isPrefix p' s'
  | String _ _, EmptyString => false
  end.

(** [s.includes(p)] *)
Fixpoint includes (s p : string) : bool :=
  isPrefix p s
  || match s with
     | EmptyString => false
     | String _ r => includes r p
     end.

End Js.

(** ** Effects: state, exceptions, [try]/[catch] *)

Module Eff.

(** What the code can throw. *)
Inductive Error :=
| QuotaExceededError
| SyntaxError
| TypeError
| NetworkError
| FirestoreError
| ApiError (status : Z).

Inductive Result (A : Type) :=
| Ok (a : A)
| Throw (e : Error).

Arguments Ok {A} a.
Arguments Throw {A} e.

(** A computation over the state [S] that returns or throws. *)
Definition M (S A : Type) : Type := S -> Result A * S.

Definition ret {S A} (a : A) : M S A := fun s => (Ok a, s).

Definition throw {S A} (e : Error) : M S A := fun s => (Throw e, s).

Definition bind {S A B} (m : M S A) (k : A -> M S B) : M S B :=
  fun s =>
    match m s with
    | (Ok a, s') => k a s'
    | (Throw e, s') => (Throw e, s')
    end.

(** [try { m } catch (e) { h e }] *)
Definition tryCatch {S A} (m : M S A) (h : Error -> M S A) : M S A :=
  fun s =>
    match m s with
    | (Ok a, s') => (Ok a, s')
    | (Throw e, s') => h e s'
    end.

(** Console output: [console.log], [console.warn], [console.error]. *)
Inductive Level := LevelLog | LevelWarn | LevelError.

Definition gets {S A} (f : S -> A) : M S A := fun s => (Ok (f s), s).

Definition modify {S} (f : S -> S) : M S unit := fun s => (Ok tt, f s).

End Eff.

Declare Scope eff_scope.
Delimit Scope eff_scope with eff.
Notation "x <- m ;; k" := (Eff.bind m (fun x => k))
  (at level 100, m at next level, right associativity,
   format "'[v' x  <-  m  ;; '/' k ']'") : eff_scope.
Notation "m ;;; k" := (Eff.bind m (fun _ => k))
  (at level 100, right associativity,
   format "'[v' m  ;;; '/' k ']'") : eff_scope.

(** ** JSON values, [JSON.stringify] and [JSON.parse] *)

Module Json.

Local Open Scope string_scope.

#[warnings="-register-all"]
Inductive json :=
| JNull
| JBool (b : bool)
| JNum (z : Z)
| JStr (s : string)
| JArr (l : list json)
| JObj (fields : list (string * json)).

(** Truthiness of a value: [null], [false], [0] and the empty string
    are falsy. *)
Definition truthy (v : json) : bool :=
  match v with
  | JNull => false
  | JBool b => b
  | JNum z => negb (z =? 0)%Z
  | JStr s => Js.truthyStr s
  | JArr _ => true
  | JObj _ => true
  end.

Definition dquote : ascii := "034"%char.
Definition backslash : ascii := "092"%char.

Definition hexDigit (n : nat) : ascii :=
  if (n <? 10)%nat then ascii_of_nat (48 + n) else ascii_of_nat (87 + n).

(** One character of a quoted string: the quote and the backslash are
    escaped, a control character is written by its short escape or as
    [\u00XX]. *)
Definition escapeChar (c : ascii) : string :=
  let n := nat_of_ascii c in
  if Ascii.eqb c dquote then String backslash (String dquote EmptyString)
  else if Ascii.eqb c backslash
  then String backslash (String backslash EmptyString)
  else if (n =? 8)%nat then String backslash "b"
  else if (n =? 9)%nat then String backslash "t"
  else if (n =? 10)%nat then String backslash "n"
  else if (n =? 12)%nat then String backslash "f"
  else if (n =? 13)%nat then String backslash "r"
  else if (n <? 32)%nat
  then String backslash
         (String "u" (String "0" (String "0"
            (String (hexDigit (n / 16)) (String (hexDigit (n mod 16))
               EmptyString)))))
  else String c EmptyString.

Fixpoint escape (s : string) : string :=
  match s with
  | EmptyString => EmptyString
  | String c r => String.append (escapeChar c) (escape r)
  end.

Definition quote (s : string) : string :=
  String dquote (String.append (escape s) (String dquote EmptyString)).

Fixpoint joinWith (sep : string) (l : list string) : string :=
  match l with
  | [] => EmptyString
  | [x] => x
  | x :: r => String.append x (String.append sep (joinWith sep r))
  end.

(** [JSON.stringify(v)] *)
Fixpoint stringify (v : json) : string :=
  match v with
  | JNull => "null"
  | JBool true => "true"
  | JBool false => "false"
  | JNum z => Js.numToString z
  | JStr s => quote s
  | JArr l =>
      String.append "[" (String.append (joinWith "," (map stringify l)) "]")
  | JObj fields =>
      String.append "{"
        (String.append
           (joinWith ","
              (map (fun kv =>
                      String.append (quote (fst kv))
                        (String.append ":" (stringify (snd kv))))
                 fields))
           "}")
  end.

(** JSON white space. *)
Definition isWs (c : ascii) : bool :=
  let n := nat_of_ascii c in
  ((n =? 32) || (n =? 9) || (n =? 10) || (n =? 13))%nat.

Fixpoint skipWs (s : string) : string :=
  match s with
  | EmptyString => EmptyString
  | String c r => if isWs c then skipWs r else s
  end.

(** [s] without the prefix [p], when it starts with it. *)
Fixpoint stripPrefix (p s : string) : option string :=
  match p, s with
  | EmptyString, _ => Some s
  | String a p', String b s' =>
      if Ascii.eqb a b then stripPrefix p' s' else None
  | String _ _, EmptyString => None
  end.

Definition hexValue (c : ascii) : option nat :=
  let n := nat_of_ascii c in
  if ((48 <=? n) && (n <=? 57))%nat then Some (n - 48)%nat
  else if ((97 <=? n) && (n <=? 102))%nat then Some (n - 87)%nat
  else if ((65 <=? n) && (n <=? 70))%nat then Some (n - 55)%nat
  else None.

(** The UTF-8 encoding of the code point [n]. *)
Definition utf8 (n : N) : string :=
  let byte (k : N) := ascii_of_N k in
  if (n <? 128)%N then String (byte n) EmptyString
  else if (n <? 2048)%N then
    String (byte (192 + n / 64)%N)
      (String (byte (128 + n mod 64)%N) EmptyString)
  else if (n <? 65536)%N then
    String (byte (224 + n / 4096)%N)
      (String (byte (128 + (n / 64) mod 64)%N)
         (String (byte (128 + n mod 64)%N) EmptyString))
  else
    String (byte (240 + n / 262144)%N)
      (String (byte (128 + (n / 4096) mod 64)%N)
         (String (byte (128 + (n / 64) mod 64)%N)
            (String (byte (128 + n mod 64)%N) EmptyString))).

(** The code unit four hexadecimal digits write. *)
Definition hex4 (h1 h2 h3 h4 : ascii) : option N :=
  match hexValue h1, hexValue h2, hexValue h3, hexValue h4 with
  | Some a, Some b, Some c, Some d =>
      Some (((N.of_nat a * 16 + N.of_nat b) * 16 + N.of_nat c) * 16
            + N.of_nat d)%N
  | _, _, _, _ => None
  end.

(** The characters of a string literal after its opening quote, up to
    the closing one. An escape [\uXXXX] yields the UTF-8 bytes of its
    code point, and a high surrogate followed by the escape of a low one
    those of the pair's code point. A surrogate outside such a pair has no
    UTF-8 encoding, and so no string here: the literal is refused, where
    [JSON.parse] builds a string holding the lone surrogate. *)
Fixpoint parseChars (s : string) : option (string * string) :=
  match s with
  | EmptyString => None
  | String c r =>
      if Ascii.eqb c dquote then Some (EmptyString, r)
      else if Ascii.eqb c backslash then
        match r with
        | String e r1 =>
            let simple (x : ascii) :=
              match parseChars r1 with
              | Some (t, rest) => Some (String x t, rest)
              | None => None
              end in
            if Ascii.eqb e dquote then simple dquote
            else if Ascii.eqb e backslash then simple backslash
            else if Ascii.eqb e "/"%char then simple "/"%char
            else if Ascii.eqb e "b"%char then simple "008"%char
            else if Ascii.eqb e "f"%char then simple "012"%char
            else if Ascii.eqb e "n"%char then simple "010"%char
            else if Ascii.eqb e "r"%char then simple "013"%char
            else if Ascii.eqb e "t"%char then simple "009"%char
            else if Ascii.eqb e "u"%char then
              match r1 with
              | String h1 (String h2 (String h3 (String h4 r2))) =>
                  match hex4 h1 h2 h3 h4 with
                  | Some n =>
                      if ((n <? 55296) || (57343 <? n))%N then
                        match parseChars r2 with
                        | Some (t, rest) =>
                            Some (String.append (utf8 n) t, rest)
                        | None => None
                        end
                      else if (n <? 56320)%N then
                        match r2 with
                        | String b (String u (String l1 (String l2
                            (String l3 (String l4 r3))))) =>
                            if Ascii.eqb b backslash && Ascii.eqb u "u"%char
                            then
                              match hex4 l1 l2 l3 l4 with
                              | Some m =>
                                  if ((56320 <=? m) && (m <=? 57343))%N then
                                    match parseChars r3 with
                                    | Some (t, rest) =>
                                        Some (String.append
                                                (utf8 (65536
                                                       + (n - 55296) * 1024
                                                       + (m - 56320))%N)
                                                t, rest)
                                    | None => None
                                    end
                                  else None
                              | None => None
                              end
                            else None
                        | _ => None
                        end
                      else None
                  | None => None
                  end
              | _ => None
              end
            else None
        | EmptyString => None
        end
      else if (nat_of_ascii c <? 32)%nat then None
      else
        match parseChars r with
        | Some (t, rest) => Some (String c t, rest)
        | None => None
        end
  end.

(** The leading decimal digits of a text, and what follows them. *)
Fixpoint splitDigits (s : string) : string * string :=
  match s with
  | EmptyString => (EmptyString, EmptyString)
  | String c r =>
      if Js.isDigit c
      then let '(d, t) := splitDigits r in (String c d, t)
      else (EmptyString, s)
  end.

(** A fraction or an exponent follows. *)
Definition startsFraction (rest : string) : bool :=
  match rest with
  | String c _ =>
      Ascii.eqb c "."%char || Ascii.eqb c "e"%char || Ascii.eqb c "E"%char
  | EmptyString => false
  end.

(** An integer literal: an optional minus sign and digits without a
    leading zero. The embedding has the integers for numbers: a literal
    with a fraction or an exponent, which [JSON.parse] reads, has no
    value here and is refused. *)
Definition parseNumber (s : string) : option (Z * string) :=
  let '(negative, body) :=
    match s with
    | String c r => if Ascii.eqb c "-"%char then (true, r) else (false, s)
    | EmptyString => (false, s)
    end in
  let '(d, rest) := splitDigits body in
  match d with
  | EmptyString => None
  | String c0 d' =>
      if Ascii.eqb c0 "0"%char && Js.truthyStr d' then None
      else if startsFraction rest then None
      else
        let v := Z.of_N (Js.digitsValue 0 d) in
        Some (if negative then (- v)%Z else v, rest)
  end.

(** Recursive descent; [fuel] bounds the nesting and the number of
    elements, and the length of the text is always enough. *)
Fixpoint parseValue (fuel : nat) (s : string) {struct fuel}
  : option (json * string) :=
  match fuel with
  | O => None
  | S fuel' =>
      match skipWs s with
      | EmptyString => None
      | String c r =>
          if Ascii.eqb c "n"%char then
            option_map (fun rest => (JNull, rest)) (stripPrefix "ull" r)
          else if Ascii.eqb c "t"%char then
            option_map (fun rest => (JBool true, rest)) (stripPrefix "rue" r)
          else if Ascii.eqb c "f"%char then
            option_map (fun rest => (JBool false, rest)) (stripPrefix "alse" r)
          else if Ascii.eqb c dquote then
            option_map (fun p => (JStr (fst p), snd p)) (parseChars r)
          else if Ascii.eqb c "["%char then
            match skipWs r with
            | String c' r' =>
                if Ascii.eqb c' "]"%char then Some (JArr [], r')
                else parseElements fuel' r []
            | EmptyString => None
            end
          else if Ascii.eqb c "{"%char then
            match skipWs r with
            | String c' r' =>
                if Ascii.eqb c' "}"%char then Some (JObj [], r')
                else parseFields fuel' r []
            | EmptyString => None
            end
          else
            option_map (fun p => (JNum (fst p), snd p))
              (parseNumber (String c r))
      end
  end

with parseElements (fuel : nat) (s : string) (acc : list json) {struct fuel}
  : option (json * string) :=
  match fuel with
  | O => None
  | S fuel' =>
      match parseValue fuel' s with
      | Some (v, r) =>
          match skipWs r with
          | String c r' =>
              if Ascii.eqb c ","%char then parseElements fuel' r' (v :: acc)
              else if Ascii.eqb c "]"%char
              then Some (JArr (rev (v :: acc)), r')
              else None
          | EmptyString => None
          end
      | None => None
      end
  end

with parseFields (fuel : nat) (s : string) (acc : list (string * json))
  {struct fuel} : option (json * string) :=
  match fuel with
  | O => None
  | S fuel' =>
      match skipWs s with
      | String q r0 =>
          if Ascii.eqb q dquote then
            match parseChars r0 with
            | Some (k, r1) =>
                match skipWs r1 with
                | String c1 r2 =>
                    if Ascii.eqb c1 ":"%char then
                      match parseValue fuel' r2 with
                      | Some (v, r3) =>
                          match skipWs r3 with
                          | String c r' =>
                              if Ascii.eqb c ","%char
                              then parseFields fuel' r' ((k, v) :: acc)
                              else if Ascii.eqb c "}"%char
                              then Some (JObj (rev ((k, v) :: acc)), r')
                              else None
                          | EmptyString => None
                          end
                      | None => None
                      end
                    else None
                | EmptyString => None
                end
            | None => None
            end
          else None
      | EmptyString => None
      end
  end.

(** [JSON.parse(s)]; [None] stands for the [SyntaxError] it throws. It
    is also the answer to the two kinds of text that [JSON.parse] reads
    and the embedding has no value for (a number that is not an integer
    literal, a lone surrogate escape); no text that [stringify] writes is
    of those kinds. *)
Definition parse (s : string) : option json :=
  match parseValue (S (String.length s)) s with
  | Some (v, rest) =>
      match skipWs rest with
      | EmptyString => Some v
      | String _ _ => None
      end
  | None => None
  end.

End Json.

(** ** Shared data store for members ([data-store.js]) *)

Module DataStore.

Import Eff Json.

Local Open Scope string_scope.
Local Open Scope eff_scope.

Definition CACHE_KEY : string := "members_cache".
Definition CACHE_TIMESTAMP_KEY : string := "members_cache_timestamp".

(** One document of the [Members] collection: its id and its fields. *)
Record Doc := {
  docId : string;
  docData : list (string * json)
}.

(** The module's variables and the world it runs in. *)
Record State := {
  members : json;                      (* [let members = []] *)
  lastFetchTime : Js.JsNum;            (* [let lastFetchTime = 0] *)
  storage : gmap string string;        (* [localStorage] *)
  quota : nat;                         (* characters [localStorage] holds *)
  now : Z;                             (* [Date.now()] *)
  console : list (Level * string);     (* console output, latest first *)
  queries : nat;                       (* calls of [getDocs] so far *)
  firestore : nat -> option (list Doc) (* reply to the n-th [getDocs];
                                          [None]: the query fails *)
}.

Definition initial (q : nat) (t : Z) (fs : nat -> option (list Doc)) : State :=
  {| members := JArr []; lastFetchTime := Js.Num 0; storage := ∅;
     quota := q; now := t; console := []; queries := 0; firestore := fs |}.

Definition withMembers (v : json) (s : State) : State :=
  {| members := v; lastFetchTime := lastFetchTime s; storage := storage s;
     quota := quota s; now := now s; console := console s;
     queries := queries s; firestore := firestore s |}.

Definition withLastFetchTime (t : Js.JsNum) (s : State) : State :=
  {| members := members s; lastFetchTime := t; storage := storage s;
     quota := quota s; now := now s; console := console s;
     queries := queries s; firestore := firestore s |}.

Definition withStorage (m : gmap string string) (s : State) : State :=
  {| members := members s; lastFetchTime := lastFetchTime s; storage := m;
     quota := quota s; now := now s; console := console s;
     queries := queries s; firestore := firestore s |}.

Definition withConsole (l : list (Level * string)) (s : State) : State :=
  {| members := members s; lastFetchTime := lastFetchTime s;
     storage := storage s; quota := quota s; now := now s; console := l;
     queries := queries s; firestore := firestore s |}.

Definition withQueries (n : nat) (s : State) : State :=
  {| members := members s; lastFetchTime := lastFetchTime s;
     storage := storage s; quota := quota s; now := now s;
     console := console s; queries := n; firestore := firestore s |}.

(** *** [localStorage] *)

(** Characters held: keys and values together. *)
Definition storageSize (m : gmap string string) : nat :=
  map_fold (fun k v acc => String.length k + String.length v + acc)%nat
    0%nat m.

Definition getItem (k : string) : M State (option string) :=
  gets (fun s => storage s !! k).

(** [setItem] stores the value, or throws [QuotaExceededError] and leaves
    the storage as it was when the result would not fit. *)
Definition setItem (k v : string) : M State unit :=
  fun s =>
    let m := <[ k := v ]> (storage s) in
    if (storageSize m <=? quota s)%nat
    then (Ok tt, withStorage m s)
    else (Throw QuotaExceededError, s).

Definition removeItem (k : string) : M State unit :=
  modify (fun s => withStorage (delete k (storage s)) s).

Definition consoleLog (msg : string) : M State unit :=
  modify (fun s => withConsole ((LevelLog, msg) :: console s) s).

Definition consoleError (msg : string) : M State unit :=
  modify (fun s => withConsole ((LevelError, msg) :: console s) s).

(** [JSON.parse] as a computation that throws. *)
Definition JSON_parse (text : string) : M State json :=
  match parse text with
  | Some v => ret v
  | None => throw SyntaxError
  end.

(** [!x] for what [getItem] returns: [null] or a string. *)
Definition missing (x : option string) : bool :=
  match x with
  | Some v => negb (Js.truthyStr v)
  | None => true
  end.

Definition textOf (x : option string) : string :=
  match x with Some v => v | None => EmptyString end.

(** The function returns [members] or [null]; [null] is [JNull]. *)
Definition loadFromCache : M State json :=
  tryCatch
    (cachedData <- getItem CACHE_KEY ;;
     cachedTimestamp <- getItem CACHE_TIMESTAMP_KEY ;;
     if missing cachedData || missing cachedTimestamp then ret JNull
     else
       parsed <- JSON_parse (textOf cachedData) ;;
       modify (withMembers parsed) ;;;
       modify (withLastFetchTime (Js.parseInt (textOf cachedTimestamp))) ;;;
       consoleLog "Loaded members from cache" ;;;
       gets members)
    (fun _ =>
       consoleError "Error loading from cache:" ;;;
       ret JNull).

Definition saveToCache (membersData : json) : M State unit :=
  tryCatch
    (timestamp <- gets now ;;
     setItem CACHE_KEY (stringify membersData) ;;;
     setItem CACHE_TIMESTAMP_KEY (Js.numToString timestamp) ;;;
     modify (withLastFetchTime (Js.Num timestamp)) ;;;
     consoleLog "Saved members to cache")
    (fun _ =>
       consoleError "Error saving to cache:" ;;;
       tryCatch
         (removeItem CACHE_KEY ;;;
          removeItem CACHE_TIMESTAMP_KEY)
         (fun _ => consoleError "Could not clear cache:")).

Definition clearMembersCache : M State unit :=
  tryCatch
    (removeItem CACHE_KEY ;;;
     removeItem CACHE_TIMESTAMP_KEY ;;;
     consoleLog "Cleared members cache")
    (fun _ => consoleError "Error clearing cache:").

(** [await getDocs(membersRef)]: counts the query; throws when it
    fails. *)
Definition getDocs : M State (list Doc) :=
  fun s =>
    let s' := withQueries (S (queries s)) s in
    match firestore s (queries s) with
    | Some docs => (Ok docs, s')
    | None => (Throw FirestoreError, s')
    end.

(** [{ id: doc.id, ...doc.data() }] *)
Definition docToMember (doc : Doc) : json :=
  JObj (fold_left (fun o kv => Js.objSet o (fst kv) (snd kv)) (docData doc)
          [("id", JStr (docId doc))]).

Definition loadMembersData (skipCache : bool) : M State json :=
  fromCache <-
    (if negb skipCache then
       cached <- loadFromCache ;;
       if truthy cached then
         consoleLog "Using cached members data (no Firebase read)" ;;;
         ret (Some cached)
       else ret None
     else ret None) ;;
  match fromCache with
  | Some cached => ret cached
  | None =>
      tryCatch
        (consoleLog
           "Cache missing or force refresh - Fetching members from Firebase..." ;;;
         docs <- getDocs ;;
         modify (withMembers (JArr (map docToMember docs))) ;;;
         current <- gets members ;;
         saveToCache current ;;;
         gets members)
        (fun _ =>
           consoleError "Error loading members:" ;;;
           cached <- loadFromCache ;;
           if truthy cached then
             consoleLog "Using existing cache due to error" ;;;
             ret cached
           else
             modify (withMembers (JArr [])) ;;;
             ret (JArr []))
  end.

Definition getMembers : M State json := gets members.

Definition setMembers (newMembers : json) : M State unit :=
  modify (withMembers newMembers) ;;;
  saveToCache newMembers.

Definition isCacheFresh : M State bool :=
  cachedData <- getItem CACHE_KEY ;;
  cachedTimestamp <- getItem CACHE_TIMESTAMP_KEY ;;
  ret (negb (missing cachedData) && negb (missing cachedTimestamp)).

End DataStore.

(** ** GitHub API functions ([github-api.js]) *)

Module GitHubApi.

Import Eff Json.

Local Open Scope string_scope.
Local Open Scope eff_scope.

(** A JavaScript value read off a parsed body: [None] is [undefined]. *)
Abbreviation jsval := (option json).

Record Response := {
  status : Z;
  headers : list (string * string);
  body : option json   (* what [response.json()] yields; [None]: it rejects *)
}.

Record Request := {
  url : string;
  authorization : option string
}.

Inductive Event :=
| EvFetch (req : Request)
| EvSleep (ms : Z).

Record UserInfo := {
  username : jsval;
  name : jsval;
  avatar_url : jsval;
  html_url : jsval;
  public_repos : jsval;
  followers : jsval;
  following : jsval;
  bio : jsval;
  location : jsval;
  blog : jsval;
  company : jsval
}.

(** *** The user cache

    [githubUserCache] is an object literal [{}], read by
    [githubUserCache[k]] and written by [githubUserCache[k] = v] with a
    user-info object or [null]. A read finds what the object holds itself
    and what it inherits. A write under a name it inherits makes a
    property of its own, except under [__proto__]: that write goes to the
    accessor the object inherits from [Object.prototype], which makes the
    value written the prototype of the object. *)

(** The prototype of the cache. *)
Inductive Prototype :=
| ObjectPrototype                     (* [Object.prototype], as for [{}] *)
| ProfilePrototype (info : UserInfo)  (* a user-info object, itself a
                                         plain object *)
| NullPrototype.                      (* [null] *)

Record Cache := {
  own : gmap string (option UserInfo); (* its own properties;
                                          [Some None]: [null] *)
  prototype : Prototype
}.

(** [{}] *)
Definition emptyObject : Cache :=
  {| own := ∅; prototype := ObjectPrototype |}.

(** A value read off the cache, and so a value the profile fetch can
    return. *)
Inductive Cached :=
| Profile (info : UserInfo)  (* a user-info object *)
| Null                       (* [null] *)
| Builtin (k : string)       (* the function [Object.prototype[k]] *)
| ObjectProto                (* [Object.prototype] itself *)
| Plain (v : json).          (* what a user-info object holds in a field,
                                other than [null] *)

(** The property [k] of a user-info object, when it has one of its
    own. *)
Definition infoField (info : UserInfo) (k : string) : option jsval :=
  if Js.streq k "username" then Some (username info)
  else if Js.streq k "name" then Some (name info)
  else if Js.streq k "avatar_url" then Some (avatar_url info)
  else if Js.streq k "html_url" then Some (html_url info)
  else if Js.streq k "public_repos" then Some (public_repos info)
  else if Js.streq k "followers" then Some (followers info)
  else if Js.streq k "following" then Some (following info)
  else if Js.streq k "bio" then Some (bio info)
  else if Js.streq k "location" then Some (location info)
  else if Js.streq k "blog" then Some (blog info)
  else if Js.streq k "company" then Some (company info)
  else None.

(** [Object.prototype[k]] for a name other than [__proto__]. *)
Definition inheritedFromObject (k : string) : option Cached :=
  if Js.inheritsFunction k then Some (Builtin k) else None.

(** [githubUserCache[k]]; [None] is [undefined]. Read through the
    accessor [__proto__], the prototype itself comes back. *)
Definition cacheGet (c : Cache) (k : string) : option Cached :=
  match own c !! k with
  | Some (Some info) => Some (Profile info)
  | Some None => Some Null
  | None =>
      match prototype c with
      | NullPrototype => None
      | ObjectPrototype =>
          if Js.streq k Js.protoKey then Some ObjectProto
          else inheritedFromObject k
      | ProfilePrototype info =>
          if Js.streq k Js.protoKey then Some (Profile info)
          else
            match infoField info k with
            | Some None => None
            | Some (Some JNull) => Some Null
            | Some (Some v) => Some (Plain v)
            | None => inheritedFromObject k
            end
      end
  end.

(** [githubUserCache[k] = v], for the values the code writes: a
    user-info object ([Some info]) or [null] ([None]). *)
Definition cacheSet (c : Cache) (k : string) (v : option UserInfo) : Cache :=
  let stored := {| own := <[ k := v ]> (own c); prototype := prototype c |} in
  match own c !! k, prototype c with
  | Some _, _ => stored
  | None, NullPrototype => stored
  | None, _ =>
      if Js.streq k Js.protoKey
      then {| own := own c;
              prototype := match v with
                           | Some info => ProfilePrototype info
                           | None => NullPrototype
                           end |}
      else stored
  end.

(** Truthiness of what the fetch returns. *)
Definition truthyCached (v : Cached) : bool :=
  match v with
  | Null => false
  | Plain x => truthy x
  | Profile _ => true
  | Builtin _ => true
  | ObjectProto => true
  end.

(** [githubInfo?.k] for [k] one of [public_repos], [followers] and
    [following], the properties the callers of the fetch read; [proj] is
    that field of a user-info object. Neither [Object.prototype] nor one
    of its functions has such a property. *)
Definition optField (githubInfo : Cached) (k : string)
  (proj : UserInfo -> jsval) : jsval :=
  match githubInfo with
  | Profile info => proj info
  | Plain (JObj fields) => Js.objGet fields k
  | Plain _ => None
  | Null => None
  | Builtin _ => None
  | ObjectProto => None
  end.

(** The module's variables and the world it runs in. *)
Record World := {
  GITHUB_TOKEN : string;               (* constant set at build time *)
  githubUserCache : Cache;             (* [let githubUserCache = {}] *)
  rateLimitReset : option Js.JsNum;    (* [None]: [null] *)
  rateLimitRemaining : option Js.JsNum;
  tokenWarningShown : bool;            (* [window._githubTokenWarningShown] *)
  clock : Z;                           (* [Date.now()] *)
  trace : list Event;                  (* requests and delays, latest first *)
  console : list (Level * string);     (* console output, latest first *)
  network : nat -> Request -> option Response
                                       (* reply to the n-th [fetch];
                                          [None]: the request rejects *)
}.

Definition withCache (c : Cache) (w : World) : World :=
  {| GITHUB_TOKEN := GITHUB_TOKEN w; githubUserCache := c;
     rateLimitReset := rateLimitReset w;
     rateLimitRemaining := rateLimitRemaining w;
     tokenWarningShown := tokenWarningShown w; clock := clock w;
     trace := trace w; console := console w; network := network w |}.

Definition withReset (r : option Js.JsNum) (w : World) : World :=
  {| GITHUB_TOKEN := GITHUB_TOKEN w; githubUserCache := githubUserCache w;
     rateLimitReset := r; rateLimitRemaining := rateLimitRemaining w;
     tokenWarningShown := tokenWarningShown w; clock := clock w;
     trace := trace w; console := console w; network := network w |}.

Definition withRemaining (r : option Js.JsNum) (w : World) : World :=
  {| GITHUB_TOKEN := GITHUB_TOKEN w; githubUserCache := githubUserCache w;
     rateLimitReset := rateLimitReset w; rateLimitRemaining := r;
     tokenWarningShown := tokenWarningShown w; clock := clock w;
     trace := trace w; console := console w; network := network w |}.

Definition withWarningShown (b : bool) (w : World) : World :=
  {| GITHUB_TOKEN := GITHUB_TOKEN w; githubUserCache := githubUserCache w;
     rateLimitReset := rateLimitReset w;
     rateLimitRemaining := rateLimitRemaining w;
     tokenWarningShown := b; clock := clock w;
     trace := trace w; console := console w; network := network w |}.

Definition withClock (t : Z) (w : World) : World :=
  {| GITHUB_TOKEN := GITHUB_TOKEN w; githubUserCache := githubUserCache w;
     rateLimitReset := rateLimitReset w;
     rateLimitRemaining := rateLimitRemaining w;
     tokenWarningShown := tokenWarningShown w; clock := t;
     trace := trace w; console := console w; network := network w |}.

Definition withTrace (t : list Event) (w : World) : World :=
  {| GITHUB_TOKEN := GITHUB_TOKEN w; githubUserCache := githubUserCache w;
     rateLimitReset := rateLimitReset w;
     rateLimitRemaining := rateLimitRemaining w;
     tokenWarningShown := tokenWarningShown w; clock := clock w;
     trace := t; console := console w; network := network w |}.

Definition withConsole (l : list (Level * string)) (w : World) : World :=
  {| GITHUB_TOKEN := GITHUB_TOKEN w; githubUserCache := githubUserCache w;
     rateLimitReset := rateLimitReset w;
     rateLimitRemaining := rateLimitRemaining w;
     tokenWarningShown := tokenWarningShown w; clock := clock w;
     trace := trace w; console := l; network := network w |}.

Definition consoleWarn (msg : string) : M World unit :=
  modify (fun w => withConsole ((LevelWarn, msg) :: console w) w).

Definition consoleError (msg : string) : M World unit :=
  modify (fun w => withConsole ((LevelError, msg) :: console w) w).

Definition isFetch (e : Event) : bool :=
  match e with EvFetch _ => true | EvSleep _ => false end.

(** The number of requests sent so far. *)
Definition fetchCount (w : World) : nat :=
  length (List.filter isFetch (trace w)).

(** [await fetch(url, { headers })] *)
Definition fetch (req : Request) : M World Response :=
  fun w =>
    let w' := withTrace (EvFetch req :: trace w) w in
    match network w (fetchCount w) req with
    | Some response => (Ok response, w')
    | None => (Throw NetworkError, w')
    end.

(** [await new Promise(r => setTimeout(r, ms))]: the clock moves on by
    the delay. *)
Definition sleep (ms : Z) : M World unit :=
  modify (fun w => withClock (clock w + ms) (withTrace (EvSleep ms :: trace w) w)).

Definition lower (c : ascii) : ascii :=
  let n := nat_of_ascii c in
  if ((65 <=? n) && (n <=? 90))%nat then ascii_of_nat (n + 32) else c.

Fixpoint lowercase (s : string) : string :=
  match s with
  | EmptyString => EmptyString
  | String c r => String (lower c) (lowercase r)
  end.

(** [response.headers.get(name)]: names compare without case; [None] is
    [null]. *)
Fixpoint headerGet (hs : list (string * string)) (name : string)
  : option string :=
  match hs with
  | [] => None
  | (n, v) :: r =>
      if Js.streq (lowercase n) (lowercase name) then Some v
      else headerGet r name
  end.

(** [response.ok] *)
Definition ok (r : Response) : bool :=
  ((200 <=? status r) && (status r <=? 299))%Z.

(** [await response.json()] *)
Definition jsonOf (r : Response) : M World json :=
  match body r with
  | Some v => ret v
  | None => throw SyntaxError
  end.

Definition timesThousand (x : Js.JsNum) : Js.JsNum :=
  match x with
  | Js.Num z => Js.Num (z * 1000)
  | Js.NaN => Js.NaN
  end.

(** [rateLimitReset ? Math.max(0, rateLimitReset - Date.now() + 1000)
                   : 60000] *)
Definition waitTimeOf (reset : option Js.JsNum) (nowMs : Z) : Z :=
  match reset with
  | Some (Js.Num z) =>
      if negb (z =? 0)%Z then Z.max 0 (z - nowMs + 1000) else 60000
  | Some Js.NaN => 60000
  | None => 60000
  end.

Definition handleRateLimit (response : Response) : M World unit :=
  let remaining := headerGet (headers response) "X-RateLimit-Remaining" in
  let reset := headerGet (headers response) "X-RateLimit-Reset" in
  (match remaining with
   | Some text => modify (withRemaining (Some (Js.parseInt text)))
   | None => ret tt
   end) ;;;
  (match reset with
   | Some text =>
       modify (withReset (Some (timesThousand (Js.parseInt text))))
   | None => ret tt
   end) ;;;
  tracked <- gets rateLimitRemaining ;;
  if (status response =? 429)%Z
     || match tracked with
        | Some (Js.Num 0) => true
        | _ => false
        end
  then
    knownReset <- gets rateLimitReset ;;
    nowMs <- gets clock ;;
    let waitTime := waitTimeOf knownReset nowMs in
    consoleWarn "Rate limit hit. Waiting before retrying..." ;;;
    sleep waitTime
  else ret tt.

Definition PLACEHOLDER : string := "VITE_GITHUB_TOKEN".

(** [GITHUB_TOKEN && GITHUB_TOKEN !== 'VITE_GITHUB_TOKEN' &&
     GITHUB_TOKEN.trim() !== ''] *)
Definition hasTokenOf (token : string) : bool :=
  Js.truthyStr token
  && negb (Js.streq token PLACEHOLDER)
  && negb (Js.streq (Js.trim token) EmptyString).

(** The [for (let attempt = 0; attempt < maxRetries; attempt++)] loop of
    [githubApiRequest], with the [fetch] that follows it; [left] is
    [maxRetries - attempt]. *)
Fixpoint attemptLoop (left attempt maxRetries : nat) (req : Request)
  (hasToken : bool) : M World Response :=
  match left with
  | O => fetch req
  | S left' =>
      response <- fetch req ;;
      if (status response =? 429)%Z then
        handleRateLimit response ;;;
        if (attempt <? maxRetries - 1)%nat
        then attemptLoop left' (S attempt) maxRetries req hasToken
        else ret response
      else if (status response =? 403)%Z then
        retry <-
          (match headerGet (headers response) "X-RateLimit-Remaining" with
           | Some text =>
               if Js.streq text "0" then
                 handleRateLimit response ;;;
                 ret (attempt <? maxRetries - 1)%nat
               else ret false
           | None => ret false
           end) ;;
        if (retry : bool)
        then attemptLoop left' (S attempt) maxRetries req hasToken
        else
          (if hasToken
           then consoleWarn
                  "GitHub API 403 Forbidden - token may be invalid or expired."
           else consoleWarn
                  "GitHub API 403 Forbidden - token may be missing or invalid.") ;;;
          ret response
      else ret response
  end.

(** [githubApiRequest(url, {}, maxRetries)]; every caller leaves
    [options] at its default. *)
Definition githubApiRequest (target : string) (maxRetries : nat)
  : M World Response :=
  token <- gets GITHUB_TOKEN ;;
  let hasToken := hasTokenOf token in
  (if hasToken then ret tt
   else
     shown <- gets tokenWarningShown ;;
     if shown then ret tt
     else
       consoleWarn
         "GitHub token not found or invalid. Using unauthenticated requests (60 req/hour limit)." ;;;
       modify (withWarningShown true)) ;;;
  let req :=
    {| url := target;
       authorization :=
         if hasToken then Some (String.append "token " token) else None |} in
  attemptLoop maxRetries 0 maxRetries req hasToken.

(** *** Reading parsed bodies *)

(** [v.k] on a value that has been read: [null] and [undefined] throw
    [TypeError]; an object yields its property. Of the properties of
    arrays and strings only those the code reads are looked after where
    it reads them. *)
Definition propOf (v : jsval) (k : string) : Result jsval :=
  match v with
  | None => Throw TypeError
  | Some JNull => Throw TypeError
  | Some (JObj fields) => Ok (Js.objGet fields k)
  | Some _ => Ok None
  end.

(** A step that reads and computes without touching the world. *)
Definition lift {A} (r : Result A) : M World A := fun w => (r, w).

Definition getProp (v : jsval) (k : string) : M World jsval :=
  lift (propOf v k).

Definition truthyVal (v : jsval) : bool :=
  match v with
  | Some x => truthy x
  | None => false
  end.

(** [v || d] *)
Definition orElse (v : jsval) (d : json) : jsval :=
  if truthyVal v then v else Some d.

(** [String(v)] for a parsed value: an array joins its elements with
    commas, writing [null] as nothing; an object is [[object Object]]. *)
Fixpoint jsonToStr (v : json) : string :=
  match v with
  | JNull => "null"
  | JBool true => "true"
  | JBool false => "false"
  | JNum z => Js.numToString z
  | JStr s => s
  | JArr l =>
      joinWith ","
        (map (fun x => match x with
                       | JNull => EmptyString
                       | _ => jsonToStr x
                       end) l)
  | JObj _ => "[object Object]"
  end.

(** [`${v}`] *)
Definition toStr (v : jsval) : string :=
  match v with
  | None => "undefined"
  | Some x => jsonToStr x
  end.

Definition userUrl (githubUsername : string) : string :=
  String.append "https://api.github.com/users/" githubUsername.

Definition buildUserInfo (userData : json) : M World UserInfo :=
  login <- getProp (Some userData) "login" ;;
  nm <- getProp (Some userData) "name" ;;
  avatar <- getProp (Some userData) "avatar_url" ;;
  html <- getProp (Some userData) "html_url" ;;
  repos <- getProp (Some userData) "public_repos" ;;
  fols <- getProp (Some userData) "followers" ;;
  fing <- getProp (Some userData) "following" ;;
  b <- getProp (Some userData) "bio" ;;
  loc <- getProp (Some userData) "location" ;;
  bl <- getProp (Some userData) "blog" ;;
  comp <- getProp (Some userData) "company" ;;
  ret {| username := login; name := nm; avatar_url := avatar;
         html_url := html; public_repos := repos; followers := fols;
         following := fing;
         bio := orElse b (JStr EmptyString);
         location := orElse loc (JStr EmptyString);
         blog := orElse bl (JStr EmptyString);
         company := orElse comp (JStr EmptyString) |}.

(** [fetchGitHubUserInfo(githubUsername, useCache)]: it returns a
    user-info object or [null], or whatever else the cache yields under
    the handle. *)
Definition fetchGitHubUserInfo (githubUsername : string) (useCache : bool)
  : M World Cached :=
  cached <- gets (fun w => cacheGet (githubUserCache w) githubUsername) ;;
  match (if useCache then cached else None) with
  | Some hit => ret hit
  | None =>
      tryCatch
        (response <- githubApiRequest (userUrl githubUsername) 3 ;;
         if ok response then
           userData <- jsonOf response ;;
           userInfo <- buildUserInfo userData ;;
           modify (fun w =>
                     withCache (cacheSet (githubUserCache w) githubUsername
                                  (Some userInfo)) w) ;;;
           ret (Profile userInfo)
         else if (status response =? 404)%Z then
           consoleWarn "GitHub user not found (404)" ;;;
           modify (fun w =>
                     withCache (cacheSet (githubUserCache w) githubUsername
                                  None) w) ;;;
           ret Null
         else if (status response =? 403)%Z || (status response =? 429)%Z
         then
           consoleWarn "GitHub API 403/429 for user - skipping" ;;;
           ret Null
         else
           consoleError "GitHub API error" ;;;
           ret Null)
        (fun _ =>
           consoleError "Error fetching GitHub user info:" ;;;
           ret Null)
  end.

(** *** Language breakdown *)

(** [!GITHUB_TOKEN || GITHUB_TOKEN === 'VITE_GITHUB_TOKEN' ||
     GITHUB_TOKEN.trim() === ''] *)
Definition noToken (token : string) : bool :=
  negb (Js.truthyStr token)
  || Js.streq token PLACEHOLDER
  || Js.streq (Js.trim token) EmptyString.

Fixpoint charsOf (s : string) : list json :=
  match s with
  | EmptyString => []
  | String c r => JStr (String c EmptyString) :: charsOf r
  end.

(** The elements [repos.slice(0, n)] ranges over: those of an array, the
    characters of a string (one for each byte here); any other value has
    no [slice]. *)
Definition sliceOf (repos : json) (n : nat) : M World (list json) :=
  match repos with
  | JArr l => ret (Js.slice0 n l)
  | JStr t => ret (Js.slice0 n (charsOf t))
  | _ => throw TypeError
  end.

(** [repos.length], as far as the code compares it. *)
Definition lengthOf (repos : json) : M World jsval :=
  match repos with
  | JArr l => ret (Some (JNum (Z.of_nat (length l))))
  | JStr t => ret (Some (JNum (Z.of_nat (String.length t))))
  | other => getProp (Some other) "length"
  end.

Definition natOfLength (v : jsval) : nat :=
  match v with
  | Some (JNum z) => Z.to_nat z
  | _ => 0
  end.

Fixpoint indexed (i : nat) (l : list json) : list (string * json) :=
  match l with
  | [] => []
  | x :: r => (Js.numToString (Z.of_nat i), x) :: indexed (S i) r
  end.

(** [Object.entries(v)] *)
Definition objectEntries (v : json) : M World (list (string * json)) :=
  match v with
  | JNull => throw TypeError
  | JObj fields => ret (Js.entries fields)
  | JArr l => ret (indexed 0 l)
  | JStr t => ret (indexed 0 (charsOf t))
  | JBool _ => ret []
  | JNum _ => ret []
  end.

(** The byte count the API reports. It sends numbers; the sum over
    anything else is not a number and is taken as [0] here. *)
Definition bytesOf (v : json) : Z :=
  match v with
  | JNum z => z
  | _ => 0
  end.

(** Body of [Object.entries(repoLanguages).forEach(([lang, bytes]) =>
    ...)]. The names of the result are as the code leaves them, but for
    [__proto__], which the code never stores; a sum is text instead of a
    number when [bytes] is not a number or the name is that of a property
    every object inherits. *)
Definition addLanguage (breakdown : Js.Obj Z) (e : string * json)
  : Js.Obj Z :=
  if Js.truthyStr (fst e) && Js.truthyStr (Js.trim (fst e))
  then Js.objSet breakdown (fst e)
         (Js.or0 (Js.objGet breakdown (fst e)) + bytesOf (snd e))
  else breakdown.

Definition languagesUrl (fullName : jsval) : string :=
  String.append "https://api.github.com/repos/"
    (String.append (toStr fullName) "/languages").

Definition isThrottled (response : Response) : bool :=
  ((status response =? 403) || (status response =? 429))%Z.

(** [for (const repo of reposToCheck) { try { ... } catch { ... } }].
    Nothing is written to [languageBreakdown] before the last point at
    which the [try] block can throw, so the handler resumes with the value
    the iteration started from. *)
Fixpoint languagesLoop (repos : list json) (breakdown : Js.Obj Z)
  : M World (Js.Obj Z) :=
  match repos with
  | [] => ret breakdown
  | repo :: rest =>
      step <-
        tryCatch
          (fullName <- getProp (Some repo) "full_name" ;;
           langResponse <- githubApiRequest (languagesUrl fullName) 3 ;;
           if ok langResponse then
             repoLanguages <- jsonOf langResponse ;;
             es <- objectEntries repoLanguages ;;
             sleep 300 ;;;
             ret (fold_left addLanguage es breakdown, false)
           else if isThrottled langResponse then ret (breakdown, true)
           else
             sleep 300 ;;;
             ret (breakdown, false))
          (fun _ =>
             consoleError "Error fetching languages for repository:" ;;;
             ret (breakdown, false)) ;;
      if (snd step : bool) then ret (fst step)
      else languagesLoop rest (fst step)
  end.

Definition userReposUrl (githubUsername : string) (query : string) : string :=
  String.append "https://api.github.com/users/"
    (String.append githubUsername (String.append "/repos?sort=updated" query)).

Definition fetchUserLanguages (githubUsername : string) (limit : nat)
  : M World (Js.Obj Z) :=
  tryCatch
    (token <- gets GITHUB_TOKEN ;;
     if noToken token then ret []
     else
       reposResponse <-
         githubApiRequest
           (userReposUrl githubUsername
              (String.append "&per_page=" (Js.numToString (Z.of_nat limit))))
           3 ;;
       if negb (ok reposResponse) then ret []
       else
         repos <- jsonOf reposResponse ;;
         len <- lengthOf repos ;;
         reposToCheck <- sliceOf repos (Nat.min 20 (natOfLength len)) ;;
         languagesLoop reposToCheck [])
    (fun _ =>
       consoleError "Error fetching user languages:" ;;;
       ret []).

(** *** Repository list *)

Record RepoSummary := {
  repoId : jsval;
  repoName : jsval;
  full_name : jsval;
  description : jsval;
  repoUrl : jsval;
  language : jsval;
  stars : jsval;
  forks : jsval;
  open_issues : jsval;
  is_private : jsval;
  created_at : jsval;
  updated_at : jsval;
  pushed_at : jsval;
  default_branch : jsval
}.

Definition bindR {A B} (r : Result A) (k : A -> Result B) : Result B :=
  match r with
  | Ok a => k a
  | Throw e => Throw e
  end.

Definition summarizeRepo (repo : json) : Result RepoSummary :=
  bindR (propOf (Some repo) "id") (fun id =>
  bindR (propOf (Some repo) "name") (fun nm =>
  bindR (propOf (Some repo) "full_name") (fun full =>
  bindR (propOf (Some repo) "description") (fun descr =>
  bindR (propOf (Some repo) "html_url") (fun html =>
  bindR (propOf (Some repo) "language") (fun lang =>
  bindR (propOf (Some repo) "stargazers_count") (fun st =>
  bindR (propOf (Some repo) "forks_count") (fun fk =>
  bindR (propOf (Some repo) "open_issues_count") (fun oi =>
  bindR (propOf (Some repo) "private") (fun priv =>
  bindR (propOf (Some repo) "created_at") (fun created =>
  bindR (propOf (Some repo) "updated_at") (fun updated =>
  bindR (propOf (Some repo) "pushed_at") (fun pushed =>
  bindR (propOf (Some repo) "default_branch") (fun branch =>
  Ok {| repoId := id; repoName := nm; full_name := full;
        description := orElse descr (JStr EmptyString);
        repoUrl := html;
        language := orElse lang JNull;
        stars := orElse st (JNum 0);
        forks := orElse fk (JNum 0);
        open_issues := orElse oi (JNum 0);
        is_private := priv; created_at := created;
        updated_at := updated; pushed_at := pushed;
        default_branch := branch |})))))))))))))).

(** [repos.forEach(repo => { if (allRepos.length < limit)
    allRepos.push({...}) })] *)
Fixpoint pushRepos (limit : nat) (repos : list json)
  (allRepos : list RepoSummary) : Result (list RepoSummary) :=
  match repos with
  | [] => Ok allRepos
  | repo :: rest =>
      if (length allRepos <? limit)%nat then
        bindR (summarizeRepo repo) (fun summary =>
        pushRepos limit rest (allRepos ++ [summary]))
      else pushRepos limit rest allRepos
  end.

Definition perPage : nat := 100.

Definition relNext : string :=
  String.append "rel=" (String dquote (String.append "next" (String dquote EmptyString))).

Definition reposPageUrl (githubUsername : string) (page : nat) : string :=
  userReposUrl githubUsername
    (String.append "&per_page="
       (String.append (Js.numToString (Z.of_nat perPage))
          (String.append "&page=" (Js.numToString (Z.of_nat page))))).

(** [repos.forEach]: only an array has it. *)
Definition elementsOf (repos : json) : Result (list json) :=
  match repos with
  | JArr l => Ok l
  | _ => Throw TypeError
  end.

(** [!linkHeader || linkHeader.includes('rel="next"')] *)
Definition mayHaveNext (linkHeader : option string) : bool :=
  match linkHeader with
  | None => true
  | Some h => negb (Js.truthyStr h) || Js.includes h relNext
  end.

(** The [while (hasMore && allRepos.length < limit)] loop; [fuel] bounds
    the iterations and [None] is returned when it runs out. *)
Fixpoint reposLoop (fuel : nat) (githubUsername : string) (limit : nat)
  (allRepos : list RepoSummary) (page : nat) (hasMore : bool)
  : M World (option (list RepoSummary)) :=
  if hasMore && (length allRepos <? limit)%nat then
    match fuel with
    | O => ret None
    | S fuel' =>
        response <- githubApiRequest (reposPageUrl githubUsername page) 3 ;;
        if negb (ok response) then
          if (status response =? 404)%Z then ret (Some allRepos)
          else if isThrottled response then
            consoleWarn "GitHub API 403/429 for repos - returning partial results" ;;;
            ret (Some allRepos)
          else throw (ApiError (status response))
        else
          repos <- jsonOf response ;;
          len <- lengthOf repos ;;
          match len with
          | Some (JNum 0) =>
              reposLoop fuel' githubUsername limit allRepos page false
          | _ =>
              items <- lift (elementsOf repos) ;;
              allRepos' <- lift (pushRepos limit items allRepos) ;;
              let linkHeader := headerGet (headers response) "Link" in
              let hasMore' :=
                (length items =? perPage)%nat && mayHaveNext linkHeader in
              (if hasMore' then sleep 100 else ret tt) ;;;
              reposLoop fuel' githubUsername limit allRepos' (S page) hasMore'
          end
    end
  else ret (Some allRepos).

(** [fetchUserRepositories(githubUsername, limit)]; the loop runs at most
    [limit] times, so the result is never [None]. *)
Definition fetchUserRepositories (githubUsername : string) (limit : nat)
  : M World (option (list RepoSummary)) :=
  tryCatch
    (reposLoop limit githubUsername limit [] 1 true)
    (fun _ =>
       consoleError "Error fetching repositories:" ;;;
       ret (Some [])).

(** *** Recent commits *)

Record CommitSummary := {
  sha : jsval;
  message : jsval;
  author : jsval;
  date : jsval;
  commitUrl : jsval;
  repository : jsval;
  repositoryUrl : jsval
}.

Fixpoint firstLineOf (s : string) : string :=
  match s with
  | EmptyString => EmptyString
  | String c r =>
      if Ascii.eqb c "010"%char then EmptyString else String c (firstLineOf r)
  end.

(** [v.split('\n')[0]]: only a string has [split]. *)
Definition firstLine (v : jsval) : Result jsval :=
  match v with
  | Some (JStr t) => Ok (Some (JStr (firstLineOf t)))
  | _ => Throw TypeError
  end.

Definition summarizeCommit (repoFullName repoHtmlUrl : jsval) (commit : json)
  : Result CommitSummary :=
  bindR (propOf (Some commit) "sha") (fun sh =>
  bindR (propOf (Some commit) "commit") (fun inner =>
  bindR (propOf inner "message") (fun msg =>
  bindR (firstLine msg) (fun line =>
  bindR (propOf inner "author") (fun auth =>
  bindR (propOf auth "name") (fun authName =>
  bindR (propOf auth "date") (fun authDate =>
  bindR (propOf (Some commit) "html_url") (fun html =>
  Ok {| sha := sh; message := line; author := authName; date := authDate;
        commitUrl := html; repository := repoFullName;
        repositoryUrl := repoHtmlUrl |})))))))).

(** [commits.forEach(commit => { if (allCommits.length < limit)
    allCommits.push({...}) })]. What has been pushed stays pushed when a
    later commit makes the callback throw: the list comes back with the
    error. *)
Fixpoint pushCommits (limit : nat) (repoFullName repoHtmlUrl : jsval)
  (commits : list json) (allCommits : list CommitSummary)
  : list CommitSummary * option Error :=
  match commits with
  | [] => (allCommits, None)
  | commit :: rest =>
      if (length allCommits <? limit)%nat then
        match summarizeCommit repoFullName repoHtmlUrl commit with
        | Ok summary =>
            pushCommits limit repoFullName repoHtmlUrl rest
              (allCommits ++ [summary])
        | Throw e => (allCommits, Some e)
        end
      else pushCommits limit repoFullName repoHtmlUrl rest allCommits
  end.

Definition commitsUrl (fullName : jsval) (githubUsername : string) : string :=
  String.append "https://api.github.com/repos/"
    (String.append (toStr fullName)
       (String.append "/commits?author="
          (String.append githubUsername
             "&per_page=10&sort=author-date&order=desc"))).

Section WithDates.

(** [dateOf v] is [new Date(v).getTime()], [NaN] for an invalid date. *)
Variable dateOf : jsval -> Js.JsNum.

(** [(a, b) => new Date(b.date) - new Date(a.date)]; a comparator result
    of [NaN] counts as [0]. *)
Definition byDateDesc (a b : CommitSummary) : Z :=
  match dateOf (date b), dateOf (date a) with
  | Js.Num x, Js.Num y => x - y
  | _, _ => 0
  end.

(** [for (const repo of repos.slice(0, 10)) { ... }] *)
Fixpoint commitsLoop (githubUsername : string) (limit : nat)
  (repos : list json) (allCommits : list CommitSummary)
  : M World (list CommitSummary) :=
  match repos with
  | [] => ret allCommits
  | repo :: rest =>
      if (limit <=? length allCommits)%nat then ret allCommits
      else
        step <-
          tryCatch
            (fullName <- getProp (Some repo) "full_name" ;;
             commitsResponse <-
               githubApiRequest (commitsUrl fullName githubUsername) 3 ;;
             if ok commitsResponse then
               commits <- jsonOf commitsResponse ;;
               items <- lift (elementsOf commits) ;;
               htmlUrl <- getProp (Some repo) "html_url" ;;
               match pushCommits limit fullName htmlUrl items allCommits with
               | (pushed, None) =>
                   sleep 300 ;;;
                   ret (pushed, false)
               | (pushed, Some _) =>
                   consoleError "Error fetching commits from repository:" ;;;
                   ret (pushed, false)
               end
             else if isThrottled commitsResponse then ret (allCommits, true)
             else
               sleep 300 ;;;
               ret (allCommits, false))
            (fun _ =>
               consoleError "Error fetching commits from repository:" ;;;
               ret (allCommits, false)) ;;
        if (snd step : bool) then ret (fst step)
        else commitsLoop githubUsername limit rest (fst step)
  end.

Definition fetchRecentCommits (githubUsername : string) (limit : nat)
  : M World (list CommitSummary) :=
  tryCatch
    (token <- gets GITHUB_TOKEN ;;
     if noToken token then ret []
     else
       reposResponse <-
         githubApiRequest (userReposUrl githubUsername "&per_page=10") 3 ;;
       if negb (ok reposResponse) then ret []
       else
         repos <- jsonOf reposResponse ;;
         firstTen <- sliceOf repos 10 ;;
         allCommits <- commitsLoop githubUsername limit firstTen [] ;;
         ret (Js.slice0 limit (Js.sort byDateDesc allCommits)))
    (fun _ =>
       consoleError "Error fetching recent commits:" ;;;
       ret []).

End WithDates.

End GitHubApi.

(** ** Member records (spec section 3), as the aggregation code reads them *)

(** One entry of [githubActivity.recentPRs]; [created_at] is the epoch
    time in milliseconds of [new Date(pr.created_at)], [None] for an
    invalid date (every comparison with it is false). *)
Record PullRequest := { created_at : option Z }.

(** One element of a list-form [languages] value. *)
Inductive LangEntry :=
| LangString (s : string)
| LangObject (name : option string) (count value : option Z)
| LangOther.

(** [githubActivity.languages]: a name->count object (own enumerable
    properties in enumeration order), an array, or another truthy
    value. *)
Inductive Languages :=
| LangMap (entries : list (string * Z))
| LangList (entries : list LangEntry)
| LangScalar.

Record GithubActivity := {
  publicRepos : option Z;
  privateRepos : option Z;
  totalStars : option Z;
  totalForks : option Z;
  pullRequests : option Z;
  mergedPRs : option Z;
  openPRs : option Z;
  closedPRs : option Z;
  commits : option Z;
  contributions : option Z;
  issues : option Z;
  recentPRs : option (list PullRequest);
  languages : option Languages
}.

Record Member := {
  displayName : option string;
  firstName : option string;
  lastName : option string;
  githubActivity : option GithubActivity
}.

(** ** Dashboard page module *)

Module Dashboard.

Section WithCalendar.

(** [midnightDaysAgo k] is the local midnight, in epoch milliseconds, of
    the calendar day [k] days before today: what
    [new Date(d.getFullYear(), d.getMonth(), d.getDate())] yields after
    [d.setDate(d.getDate() - k)]. *)
Variable midnightDaysAgo : nat -> Z.

Definition dayStarts (days : nat) : list Z :=
  map (fun i => midnightDaysAgo (days - 1 - i)%nat) (seq 0 days).

(** [m.githubActivity?.recentPRs || []] *)
Definition recentOf (m : Member) : list PullRequest :=
  match githubActivity m with
  | Some a => match recentPRs a with Some l => l | None => [] end
  | None => []
  end.

(** [m.githubActivity?.pullRequests || 0] *)
Definition pullRequestsOf (m : Member) : Z :=
  match githubActivity m with
  | Some a => Js.or0 (pullRequests a)
  | None => 0
  end.

(** The inner [for] loop over [dayStarts]: the first day whose
    [start, start + 24h) window holds [created]. *)
Fixpoint findDay (created : Z) (starts : list Z) (i : nat) : option nat :=
  match starts with
  | [] => None
  | start :: rest =>
      if (start <=? created) && (created <? start + 24 * 60 * 60 * 1000)
      then Some i
      else findDay created rest (S i)
  end.

(** [recent.forEach(pr => ...)] *)
Definition bucketPR (starts : list Z) (buckets : list Z) (pr : PullRequest)
  : list Z :=
  match created_at pr with
  | None => buckets
  | Some created =>
      match findDay created starts 0 with
      | Some i => alter (fun n => n + 1) i buckets
      | None => buckets
      end
  end.

(** [members.forEach(m => ...)], threading [buckets] and [hasTimestamps]. *)
Definition bucketMember (starts : list Z) (st : list Z * bool) (m : Member)
  : list Z * bool :=
  let recent := recentOf m in
  let has := if (0 <? length recent)%nat then true else snd st in
  (fold_left (bucketPR starts) recent (fst st), has).

(** The fallback [for (let i = 0; i < days; i++)] loop; [n] counts the
    iterations left. *)
Fixpoint fallbackLoop (n i : nat) (base rem : Z) (buckets : list Z)
  : list Z :=
  match n with
  | O => buckets
  | S n' =>
      let buckets' := <[ i := base + (if 0 <? rem then 1 else 0) ]> buckets in
      let rem' := if 0 <? rem then rem - 1 else rem in
      fallbackLoop n' (S i) base rem' buckets'
  end.

Definition totalPRsOf (members : list Member) : Z :=
  fold_left (fun sum m => sum + pullRequestsOf m) members 0.

Definition getPRTrendsData (members : list Member) (days : nat) : list Z :=
  let starts := dayStarts days in
  let buckets := replicate days 0 in
  let '(buckets, hasTimestamps) :=
    fold_left (bucketMember starts) members (buckets, false) in
  if hasTimestamps then buckets
  else
    let totalPRs := totalPRsOf members in
    let base := totalPRs / Z.of_nat days in
    let rem := totalPRs - base * Z.of_nat days in
    fallbackLoop days 0 base rem buckets.

End WithCalendar.

End Dashboard.

(** ** Analytics page module *)

Module Analytics.

Local Open Scope string_scope.

(** The value [getLanguageData] returns. *)
Record LanguageData := {
  labels : list string;
  data : list Z;
  isBytes : bool
}.

Definition noLanguageData : LanguageData :=
  {| labels := ["No Language Data"]; data := [1]; isBytes := false |}.

(** [languageCounts[langName] = (languageCounts[langName] || 0) + langCount]
    on the plain object [languageCounts]. A name the object holds no
    count for is looked up on [Object.prototype]. Under [__proto__] the
    read yields that prototype and the write of the text that [+] makes
    of it is ignored: the counts stay as they are. Under the name of an
    inherited function, [+] joins the text of the function and the count,
    and what is stored is text: [None] stands for that outcome, after
    which the counts are no longer numbers and the order [sort] leaves
    them in is the engine's. *)
Definition addCount (counts : Js.Obj Z) (langName : string) (langCount : Z)
  : option (Js.Obj Z) :=
  if Js.streq langName Js.protoKey then Some counts
  else
    match Js.objGet counts langName with
    | None =>
        if Js.inheritsFunction langName then None
        else Some (Js.objSet counts langName (Js.or0 None + langCount))
    | held => Some (Js.objSet counts langName (Js.or0 held + langCount))
    end.

(** [l.forEach(x => ...)], for a body that may end in [None]. *)
Fixpoint forEach {X S} (body : S -> X -> option S) (l : list X) (st : S)
  : option S :=
  match l with
  | [] => Some st
  | x :: r =>
      match body st x with
      | Some st' => forEach body r st'
      | None => None
      end
  end.

(** Body of [Object.entries(languages).forEach(([lang, count]) => ...)];
    [count] is [Number(count) || 0] already. *)
Definition addMapEntry (counts : Js.Obj Z) (e : string * Z)
  : option (Js.Obj Z) :=
  let langName := Js.trim (fst e) in
  let langCount := snd e in
  if Js.truthyStr langName
     && (0 <? langCount)%Z
     && negb (Js.streq langName "Unknown")
     && negb (Js.streq langName "null")
  then addCount counts langName langCount
  else Some counts.

(** Body of [languages.forEach(lang => ...)] on the array form. *)
Definition addListEntry (counts : Js.Obj Z) (lang : LangEntry)
  : option (Js.Obj Z) :=
  match lang with
  | LangString s =>
      let langName := Js.trim s in
      if Js.truthyStr langName && negb (Js.streq langName "Unknown")
      then addCount counts langName 1
      else Some counts
  | LangObject (Some name) count value =>
      if Js.truthyStr name then
        let langName := Js.trim name in
        (* Number(lang.count || lang.value || 1) || 1 *)
        let langCount :=
          Js.or0 (Js.orZ (Js.orZ (Js.orZ count value) (Some 1)) (Some 1)) in
        if Js.truthyStr langName
           && negb (Js.streq langName "Unknown")
           && (0 <? langCount)%Z
        then addCount counts langName langCount
        else Some counts
      else Some counts
  | LangObject None _ _ => Some counts
  | LangOther => Some counts
  end.

(** Body of [members.forEach(member => ...)], threading [languageCounts]
    and [hasLanguageData]. *)
Definition addMember (st : Js.Obj Z * bool) (member : Member)
  : option (Js.Obj Z * bool) :=
  match githubActivity member with
  | Some a =>
      match languages a with
      | Some (LangMap es) =>
          match forEach addMapEntry es (fst st) with
          | Some counts => Some (counts, true)
          | None => None
          end
      | Some (LangList es) =>
          match forEach addListEntry es (fst st) with
          | Some counts => Some (counts, true)
          | None => None
          end
      | Some LangScalar => Some (fst st, true)
      | None => Some st
      end
  | None => Some st
  end.

Definition languageCountsOf (members : list Member)
  : option (Js.Obj Z * bool) :=
  forEach addMember members ([], false).

(** [.sort(([, a], [, b]) => b - a)] *)
Definition byCountDesc (a b : string * Z) : Z := snd b - snd a.

(** [getLanguageData(members)]; [None] when a count has become text. *)
Definition getLanguageData (members : list Member) : option LanguageData :=
  match languageCountsOf members with
  | None => None
  | Some (languageCounts, hasLanguageData) =>
      if negb hasLanguageData || (length languageCounts =? 0)%nat
      then Some noLanguageData
      else
        let sortedLanguages :=
          List.filter
            (fun e =>
               Js.truthyStr (fst e)
               && negb (Js.streq (Js.trim (fst e)) EmptyString)
               && negb (Js.streq (Js.trim (fst e)) "Unknown"))
            (Js.slice0 15 (Js.sort byCountDesc (Js.entries languageCounts))) in
        match Js.mathMax (map snd sortedLanguages) with
        | None => Some noLanguageData
        | Some maxValue =>
            Some {| labels := map fst sortedLanguages;
                    data := map snd sortedLanguages;
                    isBytes := (10000 <? maxValue)%Z |}
        end
  end.

(** The name-resolution chain shared by the rankings:
    [member.displayName ||
     `${member.firstName || ''} ${member.lastName || ''}`.trim() ||
     "Unknown"]. *)
Definition strOrEmpty (s : option string) : string :=
  match s with Some x => x | None => EmptyString end.

Definition resolveName (member : Member) : string :=
  if Js.truthyStr (strOrEmpty (displayName member))
  then strOrEmpty (displayName member)
  else
    let fullName :=
      Js.trim (String.append (strOrEmpty (firstName member))
                 (String.append " " (strOrEmpty (lastName member)))) in
    if Js.truthyStr fullName then fullName else "Unknown".

Record Committer := {
  committerName : string;
  committerCommits : Z;
  committerContributions : Z
}.

Record PRCreator := {
  creatorName : string;
  prs : Z;
  merged : Z;
  open : Z;
  closed : Z
}.

(** [member.githubActivity && member.githubActivity.commits !== undefined
     && member.githubActivity.commits !== null] *)
Definition hasCommits (member : Member) : bool :=
  match githubActivity member with
  | Some a => match commits a with Some _ => true | None => false end
  | None => false
  end.

Definition toCommitter (member : Member) : Committer :=
  match githubActivity member with
  | Some a =>
      {| committerName := resolveName member;
         committerCommits := Js.or0 (commits a);
         committerContributions := Js.or0 (contributions a) |}
  | None =>
      {| committerName := resolveName member;
         committerCommits := 0;
         committerContributions := 0 |}
  end.

Definition getTopCommitters (members : list Member) : list Committer :=
  Js.slice0 10
    (Js.sort (fun a b => committerCommits b - committerCommits a)
       (map toCommitter (List.filter hasCommits members))).

(** [member.githubActivity && (member.githubActivity.pullRequests ||
     member.githubActivity.mergedPRs || member.githubActivity.openPRs)] *)
Definition hasPRs (member : Member) : bool :=
  match githubActivity member with
  | Some a =>
      Js.truthyZ (Js.orZ (Js.orZ (pullRequests a) (mergedPRs a)) (openPRs a))
  | None => false
  end.

Definition toPRCreator (member : Member) : PRCreator :=
  match githubActivity member with
  | Some a =>
      {| creatorName := resolveName member;
         prs := Js.or0 (pullRequests a);
         merged := Js.or0 (mergedPRs a);
         open := Js.or0 (openPRs a);
         closed := Js.or0 (closedPRs a) |}
  | None =>
      {| creatorName := resolveName member;
         prs := 0; merged := 0; open := 0; closed := 0 |}
  end.

Definition getTopPRCreators (members : list Member) : list PRCreator :=
  Js.slice0 10
    (Js.sort (fun a b => prs b - prs a)
       (map toPRCreator (List.filter hasPRs members))).

End Analytics.

(** ** Looking a member up ([getMemberById] of [data-store.js]) *)

Module MemberLookup.

Import Eff Json DataStore.

Local Open Scope string_scope.
Local Open Scope eff_scope.

(** [m.id] on an element of the collection: [null] has no properties and
    reading one throws; an object yields its property; numbers, strings,
    booleans and arrays have no [id]. [None] is [undefined]. *)
Definition idOf (m : json) : Result (option json) :=
  match m with
  | JNull => Throw TypeError
  | JObj fields => Ok (Js.objGet fields "id")
  | _ => Ok None
  end.

(** [x === memberId] for a string [memberId]. *)
Definition sameId (x : option json) (memberId : string) : bool :=
  match x with
  | Some (JStr s) => Js.streq s memberId
  | _ => false
  end.

(** [l.find(m => m.id === memberId)]: the first element that matches;
    [None] is [undefined]. *)
Fixpoint findById (l : list json) (memberId : string)
  : Result (option json) :=
  match l with
  | [] => Ok None
  | m :: rest =>
      match idOf m with
      | Throw e => Throw e
      | Ok x => if sameId x memberId then Ok (Some m) else findById rest memberId
      end
  end.

(** [members.find(...)]: only an array has [find]. *)
Definition getMemberById (memberId : string) : M State (option json) :=
  current <- gets members ;;
  match current with
  | JArr l => fun s => (findById l memberId, s)
  | _ => throw TypeError
  end.

End MemberLookup.

(** ** The user cache and the activity snapshot ([github-api.js]) *)

Module ActivitySnapshot.

Import Eff Json GitHubApi.

Local Open Scope string_scope.
Local Open Scope eff_scope.

(** [githubUserCache = {}] *)
Definition clearGitHubCache : M World unit :=
  modify (withCache emptyObject).

(** The object [getUserActivitySnapshot] returns. *)
Record Snapshot := {
  snapPublicRepos : jsval;
  snapFollowers : jsval;
  snapFollowing : jsval;
  snapContributions : Z;
  snapCommits : Z;
  snapPullRequests : Z;
  snapMergedPRs : Z;
  snapOpenPRs : Z;
  snapClosedPRs : Z;
  snapIssues : Z;
  snapRecentPRs : list json;
  snapTotalStars : Z;
  snapTotalForks : Z
}.

Definition snapshotOf (repos fols fing : jsval) : Snapshot :=
  {| snapPublicRepos := repos; snapFollowers := fols; snapFollowing := fing;
     snapContributions := 0; snapCommits := 0; snapPullRequests := 0;
     snapMergedPRs := 0; snapOpenPRs := 0; snapClosedPRs := 0;
     snapIssues := 0; snapRecentPRs := []; snapTotalStars := 0;
     snapTotalForks := 0 |}.

(** [getUserActivitySnapshot(githubUsername)]; [opts] is not read. *)
Definition getUserActivitySnapshot (githubUsername : string)
  : M World Snapshot :=
  tryCatch
    (githubInfo <- fetchGitHubUserInfo githubUsername true ;;
     ret (snapshotOf
            (orElse (optField githubInfo "public_repos" public_repos) (JNum 0))
            (orElse (optField githubInfo "followers" followers) (JNum 0))
            (orElse (optField githubInfo "following" following) (JNum 0))))
    (fun _ =>
       consoleError "Error in getUserActivitySnapshot:" ;;;
       ret (snapshotOf (Some (JNum 0)) (Some (JNum 0)) (Some (JNum 0)))).

End ActivitySnapshot.

(** ** Utility functions ([utils.js]) *)

Module Utils.

Import Analytics.

Local Open Scope string_scope.

(** [getMemberDisplayName(member)] *)
Definition getMemberDisplayName (member : Member) : string :=
  if Js.truthyStr (strOrEmpty (displayName member))
  then strOrEmpty (displayName member)
  else
    let first := strOrEmpty (firstName member) in
    let last := strOrEmpty (lastName member) in
    let fullName := Js.trim (String.append first (String.append " " last)) in
    if Js.truthyStr fullName then fullName else "N/A".

End Utils.

(** ** Dashboard page module: the statistics and the ranking *)

Module DashboardStats.

Import Analytics.

Local Open Scope string_scope.

(** The numbers [updateDashboardStats] hands to the five stat elements of
    the page: [total], [totalRepos], [totalStars], [totalPRs] and
    [totalCommits]. *)
Record Stats := {
  statMembers : Z;
  statRepos : Z;
  statStars : Z;
  statPRs : Z;
  statCommits : Z
}.

(** Body of [members.forEach((member) => ...)]. *)
Definition addStats (st : Stats) (member : Member) : Stats :=
  match githubActivity member with
  | Some a =>
      {| statMembers := statMembers st;
         statRepos :=
           statRepos st + (Js.or0 (publicRepos a) + Js.or0 (privateRepos a));
         statStars := statStars st + Js.or0 (totalStars a);
         statPRs := statPRs st + Js.or0 (pullRequests a);
         statCommits :=
           statCommits st
           + match commits a with Some c => c | None => 0 end |}
  | None => st
  end.

Definition updateDashboardStats (members : list Member) : Stats :=
  fold_left addStats members
    {| statMembers := Z.of_nat (length members); statRepos := 0;
       statStars := 0; statPRs := 0; statCommits := 0 |}.

(** The dashboard's own [getTopCommitters]: its entries carry the name
    and the commits. The filter and the name chain are, word for word,
    those of the analytics page. *)
Record TopCommitter := {
  topName : string;
  topCommits : Z
}.

Definition toTopCommitter (member : Member) : TopCommitter :=
  match githubActivity member with
  | Some a =>
      {| topName := resolveName member; topCommits := Js.or0 (commits a) |}
  | None => {| topName := resolveName member; topCommits := 0 |}
  end.

Definition getTopCommitters (members : list Member) : list TopCommitter :=
  Js.slice0 10
    (Js.sort (fun a b => topCommits b - topCommits a)
       (map toTopCommitter (List.filter hasCommits members))).

End DashboardStats.

(** ** Analytics page module: the statistics *)

(** A member as the statistics read it: the record above with the two
    fields of the GitHub link. [githubConnected] is the truthiness of the
    flag; [githubUsername] is the handle, [None] when it is missing or
    empty. *)
Record Account := {
  person : Member;
  githubConnected : bool;
  githubUsername : option string
}.

Module AnalyticsStats.

Import Eff Json GitHubApi Analytics.

Local Open Scope string_scope.
Local Open Scope eff_scope.

(** [Math.round(a / n)] for integers [a] and [n > 0]: the nearest
    integer, a half going up. The quotient of the code is a double; for
    the counts below [2^51] it rounds as the exact quotient does. *)
Definition roundDiv (a n : Z) : Z := (2 * a + n) / (2 * n).

(** [member.githubUsername] is truthy. *)
Definition hasUsername (m : Account) : bool :=
  Js.truthyStr (strOrEmpty (githubUsername m)).

(** The running totals of [getActivityStats]. *)
Record Tally := {
  tallyRepos : Z;
  tallyStars : Z;
  tallyPRs : Z;
  tallyCommits : Z;
  tallyIssues : Z;
  tallyForks : Z;
  memberCount : Z;
  tallyConnected : Z
}.

(** Body of [members.forEach((member) => ...)] in [getActivityStats]. *)
Definition countMember (t : Tally) (m : Account) : Tally :=
  if githubConnected m then
    match githubActivity (person m) with
    | Some a =>
        {| tallyRepos :=
             tallyRepos t + (Js.or0 (publicRepos a) + Js.or0 (privateRepos a));
           tallyStars := tallyStars t + Js.or0 (totalStars a);
           tallyPRs := tallyPRs t + Js.or0 (pullRequests a);
           tallyCommits :=
             tallyCommits t + match commits a with Some c => c | None => 0 end;
           tallyIssues := tallyIssues t + Js.or0 (issues a);
           tallyForks := tallyForks t + Js.or0 (totalForks a);
           memberCount := memberCount t + 1;
           tallyConnected := tallyConnected t + 1 |}
    | None =>
        {| tallyRepos := tallyRepos t; tallyStars := tallyStars t;
           tallyPRs := tallyPRs t; tallyCommits := tallyCommits t;
           tallyIssues := tallyIssues t; tallyForks := tallyForks t;
           memberCount :=
             if hasUsername m then memberCount t + 1 else memberCount t;
           tallyConnected := tallyConnected t + 1 |}
    end
  else t.

(** The object [getActivityStats] returns. *)
Record ActivityStats := {
  actTotalRepos : Z;
  actTotalStars : Z;
  actTotalPRs : Z;
  actTotalCommits : Z;
  actTotalIssues : Z;
  actTotalForks : Z;
  avgRepos : Z;
  avgStars : Z;
  avgPRs : Z;
  connectedMembers : Z
}.

Definition average (sum count : Z) : Z :=
  if (0 <? count)%Z then roundDiv sum count else 0.

Definition getActivityStats (members : list Account) : ActivityStats :=
  let t :=
    fold_left countMember members
      {| tallyRepos := 0; tallyStars := 0; tallyPRs := 0; tallyCommits := 0;
         tallyIssues := 0; tallyForks := 0; memberCount := 0;
         tallyConnected := 0 |} in
  {| actTotalRepos := tallyRepos t; actTotalStars := tallyStars t;
     actTotalPRs := tallyPRs t; actTotalCommits := tallyCommits t;
     actTotalIssues := tallyIssues t; actTotalForks := tallyForks t;
     avgRepos := average (tallyRepos t) (memberCount t);
     avgStars := average (tallyStars t) (memberCount t);
     avgPRs := average (tallyPRs t) (memberCount t);
     connectedMembers := tallyConnected t |}.

(** The object [getPRActivityData] returns. *)
Record PRActivity := {
  prTotal : Z;
  prOpen : Z;
  prMerged : Z;
  prClosed : Z
}.

Definition addPRs (acc : PRActivity) (member : Member) : PRActivity :=
  match githubActivity member with
  | Some a =>
      {| prTotal := prTotal acc + Js.or0 (pullRequests a);
         prOpen := prOpen acc + Js.or0 (openPRs a);
         prMerged := prMerged acc + Js.or0 (mergedPRs a);
         prClosed := prClosed acc + Js.or0 (closedPRs a) |}
  | None => acc
  end.

Definition getPRActivityData (members : list Member) : PRActivity :=
  fold_left addPRs members
    {| prTotal := 0; prOpen := 0; prMerged := 0; prClosed := 0 |}.

(** One entry of [getTopContributors]. *)
Record Contributor := {
  contributorName : string;
  contributorContributions : Z;
  contributorRepos : Z
}.

(** [member.githubActivity && member.githubActivity.contributions !==
     undefined && member.githubActivity.contributions !== null] *)
Definition hasContributions (member : Member) : bool :=
  match githubActivity member with
  | Some a => match contributions a with Some _ => true | None => false end
  | None => false
  end.

Definition toContributor (member : Member) : Contributor :=
  match githubActivity member with
  | Some a =>
      {| contributorName := resolveName member;
         contributorContributions := Js.or0 (contributions a);
         contributorRepos :=
           Js.or0 (publicRepos a) + Js.or0 (privateRepos a) |}
  | None =>
      {| contributorName := resolveName member;
         contributorContributions := 0; contributorRepos := 0 |}
  end.

Definition getTopContributors (members : list Member) : list Contributor :=
  Js.slice0 10
    (Js.sort (fun a b => contributorContributions b - contributorContributions a)
       (map toContributor (List.filter hasContributions members))).

(** The running totals of [getRepositoryData]. [repoPublic] also takes
    what the API reports, which need not be a number: [None] stands for
    the string that [+=] makes of the total from then on. *)
Record RepoTotals := {
  repoPublic : option Z;
  repoPrivate : Z;
  repoStars : Z;
  repoForks : Z;
  repoPRs : Z;
  repoCommits : Z
}.

(** [total += v || 0] for a value read off a parsed body. *)
Definition plusVal (total : option Z) (v : jsval) : option Z :=
  match total with
  | None => None
  | Some t =>
      if truthyVal v then
        match v with
        | Some (JNum z) => Some (t + z)
        | Some (JBool _) => Some (t + 1)
        | _ => None
        end
      else Some t
  end.

Definition plusNum (total : option Z) (z : Z) : option Z :=
  match total with
  | Some t => Some (t + z)
  | None => None
  end.

Definition withPublic (p : option Z) (t : RepoTotals) : RepoTotals :=
  {| repoPublic := p; repoPrivate := repoPrivate t; repoStars := repoStars t;
     repoForks := repoForks t; repoPRs := repoPRs t;
     repoCommits := repoCommits t |}.

(** The stored part of one turn: [if (member.githubActivity) { ... }]. *)
Definition addStored (t : RepoTotals) (m : Account) : RepoTotals :=
  match githubActivity (person m) with
  | Some a =>
      {| repoPublic := plusNum (repoPublic t) (Js.or0 (publicRepos a));
         repoPrivate := repoPrivate t + Js.or0 (privateRepos a);
         repoStars := repoStars t + Js.or0 (totalStars a);
         repoForks := repoForks t + Js.or0 (totalForks a);
         repoPRs := repoPRs t + Js.or0 (pullRequests a);
         repoCommits := repoCommits t + Js.or0 (commits a) |}
  | None => t
  end.

(** [!member.githubActivity || !member.githubActivity.publicRepos] *)
Definition lacksPublicRepos (m : Account) : bool :=
  match githubActivity (person m) with
  | Some a => negb (Js.truthyZ (publicRepos a))
  | None => true
  end.

(** The [for (const member of members)] loop of [getRepositoryData]. *)
Fixpoint repositoryLoop (members : list Account) (t : RepoTotals)
  : M World RepoTotals :=
  match members with
  | [] => ret t
  | m :: rest =>
      if githubConnected m && hasUsername m then
        let t1 := addStored t m in
        if lacksPublicRepos m && hasUsername m then
          t2 <-
            tryCatch
              (githubInfo <-
                 fetchGitHubUserInfo (strOrEmpty (githubUsername m)) true ;;
               if truthyCached githubInfo then
                 ret (withPublic
                        (plusVal (repoPublic t1)
                           (optField githubInfo "public_repos" public_repos))
                        t1)
               else ret t1)
              (fun _ =>
                 consoleError "Error fetching repo data for member:" ;;;
                 ret t1) ;;
          repositoryLoop rest t2
        else repositoryLoop rest t1
      else repositoryLoop rest t
  end.

Definition getRepositoryData (members : list Account) : M World RepoTotals :=
  repositoryLoop members
    {| repoPublic := Some 0; repoPrivate := 0; repoStars := 0;
       repoForks := 0; repoPRs := 0; repoCommits := 0 |}.

End AnalyticsStats.

(** ** Authentication module ([auth.js]) *)

Module Auth.

Local Open Scope string_scope.

(** A Firebase user, as far as the module looks at it; [email] is [None]
    for [null]. *)
Record User := {
  uid : string;
  email : option string
}.

(** What an [await] rejects with and what the module throws: an error
    with its message, and the [code] a Firebase error carries ([None]:
    [undefined], as for [new Error(...)]). *)
Record Failure := {
  code : option string;
  message : string
}.

(** [new Error(msg)] *)
Definition newError (msg : string) : Failure :=
  {| code := None; message := msg |}.

(** Calls to the identity provider. *)
Inductive Call :=
| SignIn (address password : string)
| SignOut.

(** The module's variable and the world it runs in. *)
Record Session := {
  currentUser : option User;            (* [let currentUser = null] *)
  calls : list Call;                    (* provider calls, latest first *)
  console : list (Eff.Level * string);  (* console output, latest first *)
  signInReply : nat -> string -> string -> User + Failure;
                                        (* reply to the n-th provider call *)
  signOutReply : nat -> option Failure  (* [None]: the sign-out succeeds *)
}.

Definition withUser (u : option User) (s : Session) : Session :=
  {| currentUser := u; calls := calls s; console := console s;
     signInReply := signInReply s; signOutReply := signOutReply s |}.

Definition withCalls (l : list Call) (s : Session) : Session :=
  {| currentUser := currentUser s; calls := l; console := console s;
     signInReply := signInReply s; signOutReply := signOutReply s |}.

Definition logError (msg : string) (s : Session) : Session :=
  {| currentUser := currentUser s; calls := calls s;
     console := (Eff.LevelError, msg) :: console s;
     signInReply := signInReply s; signOutReply := signOutReply s |}.

(** A computation over the session that returns ([inl]) or throws
    ([inr]). *)
Definition Act (A : Type) : Type := Session -> (A + Failure) * Session.

Definition andThen {A B} (m : Act A) (k : A -> Act B) : Act B :=
  fun s =>
    match m s with
    | (inl a, s') => k a s'
    | (inr e, s') => (inr e, s')
    end.

(** [try { m } catch (error) { h error }] *)
Definition orCatch {A} (m : Act A) (h : Failure -> Act A) : Act A :=
  fun s =>
    match m s with
    | (inl a, s') => (inl a, s')
    | (inr e, s') => h e s'
    end.

(** [await signInWithEmailAndPassword(auth, email, password)], down to
    [userCredential.user]. *)
Definition signInWithEmailAndPassword (address password : string) : Act User :=
  fun s =>
    (signInReply s (length (calls s)) address password,
     withCalls (SignIn address password :: calls s) s).

(** [await signOut(auth)] *)
Definition signOut : Act unit :=
  fun s =>
    (match signOutReply s (length (calls s)) with
     | None => inl tt
     | Some e => inr e
     end,
     withCalls (SignOut :: calls s) s).

Definition PLACEHOLDER : string := "VITE_ADMIN_EMAIL".

Section WithAdminEmail.

(** The constant [ADMIN_EMAIL], set at build time. *)
Variable ADMIN_EMAIL : string.

(** [ADMIN_EMAIL === 'VITE_ADMIN_EMAIL' || !ADMIN_EMAIL ||
     ADMIN_EMAIL.trim() === ''] *)
Definition notConfigured : bool :=
  Js.streq ADMIN_EMAIL PLACEHOLDER
  || negb (Js.truthyStr ADMIN_EMAIL)
  || Js.streq (Js.trim ADMIN_EMAIL) EmptyString.

(** [user.email === ADMIN_EMAIL] *)
Definition isAdmin (user : User) : bool :=
  match email user with
  | Some e => Js.streq e ADMIN_EMAIL
  | None => false
  end.

Definition checkAdminStatus (user : User) : Act bool :=
  fun s =>
    if notConfigured
    then (inl false,
          logError "ADMIN_EMAIL not configured. Authentication will fail." s)
    else (inl (isAdmin user), s).

(** The [catch] block of [adminLogin]: the known Firebase codes are
    replaced by an error of the module's own; any other error is thrown
    again as it is. *)
Definition translate (error : Failure) : Failure :=
  match code error with
  | Some c =>
      if Js.streq c "auth/invalid-email"
      then newError "Invalid email address."
      else if Js.streq c "auth/user-disabled"
      then newError "This account has been disabled."
      else if Js.streq c "auth/user-not-found"
              || Js.streq c "auth/wrong-password"
      then newError "Invalid email or password."
      else if Js.streq c "auth/too-many-requests"
      then newError "Too many failed login attempts. Please try again later."
      else if Js.streq c "auth/network-request-failed"
      then newError "Network error. Please check your internet connection."
      else error
  | None => error
  end.

Definition adminLogin (address password : string) : Act User :=
  orCatch
    (fun s =>
       if notConfigured then
         (inr (newError
                 "Admin email not configured. Please contact the administrator."),
          logError
            "ADMIN_EMAIL not configured. Please set VITE_ADMIN_EMAIL environment variable."
            s)
       else
         andThen (signInWithEmailAndPassword address password) (fun user =>
           if negb (isAdmin user) then
             andThen signOut (fun _ s1 =>
               (inr (newError "Access denied. Admin privileges required."), s1))
           else
             fun s1 => (inl user, withUser (Some user) s1)) s)
    (fun error s => (inr (translate error), logError "Login error:" s)).

Definition adminLogout : Act unit :=
  orCatch
    (andThen signOut (fun _ s => (inl tt, withUser None s)))
    (fun error s => (inr error, logError "Logout error:" s)).

Definition getCurrentUser : Act (option User) :=
  fun s => (inl (currentUser s), s).

(** [if (handler) handler(...)] *)
Definition notify (handler : option (Act unit)) : Act unit :=
  match handler with
  | Some h => h
  | None => fun s => (inl tt, s)
  end.

(** The callback [initializeAuth] hands to [onAuthStateChanged]; [user] is
    [None] for [null]. The two handlers are the caller's. *)
Definition authStateChanged (onAuthenticated : option (User -> Act unit))
  (onUnauthenticated : option (Act unit)) (user : option User) : Act unit :=
  match user with
  | Some u =>
      orCatch
        (andThen (checkAdminStatus u) (fun admin =>
           if (admin : bool) then
             fun s =>
               notify (option_map (fun h => h u) onAuthenticated)
                 (withUser (Some u) s)
           else
             andThen signOut (fun _ => notify onUnauthenticated)))
        (fun _ s =>
           andThen signOut (fun _ => notify onUnauthenticated)
             (logError "Auth error:" s))
  | None =>
      fun s => notify onUnauthenticated (withUser None s)
  end.

End WithAdminEmail.

End Auth.

(** ** Build script ([build.js]) *)

Module Build.

Import Json.

Local Open Scope string_scope.

(** [s.replace(/c/g, by)] for a pattern of the one character [c]. *)
Fixpoint replaceAll (c : ascii) (by_ : string) (s : string) : string :=
  match s with
  | EmptyString => EmptyString
  | String x r =>
      if Ascii.eqb x c then String.append by_ (replaceAll c by_ r)
      else String x (replaceAll c by_ r)
  end.

(** The five replacements, in the order of the code: backslashes first,
    then double quotes, newlines, carriage returns and tabs. *)
Definition escapeValue (strValue : string) : string :=
  replaceAll "009"%char (String backslash "t")
    (replaceAll "013"%char (String backslash "r")
       (replaceAll "010"%char (String backslash "n")
          (replaceAll dquote (String backslash (String dquote EmptyString))
             (replaceAll backslash (String backslash (String backslash EmptyString))
                strValue)))).

(** [!value || (typeof value === 'string' && value.trim() === '')] for
    what [process.env[key]] holds: a string, or [undefined]. *)
Definition unset (value : option string) : bool :=
  match value with
  | Some v => negb (Js.truthyStr v) || Js.streq (Js.trim v) EmptyString
  | None => true
  end.

Definition literal (value : string) : string :=
  String dquote (String.append (escapeValue value) (String dquote EmptyString)).

(** [getEnvValue(key)] over the environment [env]; [None] stands for the
    [Error] it throws. *)
Definition getEnvValue (env : string -> option string) (key : string)
  : option string :=
  match env key with
  | Some value => if unset (Some value) then None else Some (literal value)
  | None => None
  end.

(** [getOptionalEnvValue(key, placeholder)] *)
Definition getOptionalEnvValue (env : string -> option string)
  (key placeholder : string) : string :=
  match env key with
  | Some value => if unset (Some value) then placeholder else literal value
  | None => placeholder
  end.

End Build.

(** * Specification vocabulary and example inputs *)

(** ** Time-bucket fallback *)

Section TrendTerms.

Import Dashboard.

Definition sumZ (l : list Z) : Z := fold_right Z.add 0 l.

Definition noTimestamps (members : list Member) : Prop :=
  Forall (fun m => recentOf m = []) members.

End TrendTerms.

(** ** Descending order and the top of a sorted list *)

Section Ordering.

Context {A : Type} (key : A -> Z).

(** The comparator [(a, b) => key(b) - key(a)]. *)
Definition descBy (a b : A) : Z := key b - key a.

Definition sortedDesc (l : list A) : Prop :=
  StronglySorted (fun a b => key b <= key a) l.

Definition hasKey (v : Z) (x : A) : bool := key x =? v.

(** What [cands.sort((a, b) => key(b) - key(a)).slice(0, n)] guarantees
    about its result [out]. *)
Record TopSpec (n : nat) (cands out : list A) : Prop := {
  top_length : length out = Nat.min n (length cands);
  top_sorted : sortedDesc out;
  top_best : exists rest,
      out ++ rest ≡ₚ cands
      /\ forall x y, In x out -> In y rest -> key y <= key x;
  top_stable : forall v,
      List.filter (hasKey v) out `prefix_of` List.filter (hasKey v) cands
}.

End Ordering.

(** ** Rankings *)

Section TopNTerms.

Import Analytics.

Local Open Scope string_scope.

(** The fallback chain display name, trimmed first + last name,
    ["Unknown"]. *)
Definition NameChain (member : Member) (name : string) : Prop :=
  let fullName :=
    Js.trim (String.append (strOrEmpty (firstName member))
               (String.append " " (strOrEmpty (lastName member)))) in
  match displayName member with
  | Some (String c d) => name = String c d
  | _ => if decide (fullName = EmptyString) then name = "Unknown"
         else name = fullName
  end.

Definition memberWith (name : string) (a : GithubActivity) : Member :=
  {| displayName := Some name; firstName := None; lastName := None;
     githubActivity := Some a |}.

(** A member whose ranked field [pullRequests] is defined, as [0]. *)
Definition zeroPRs : Member :=
  memberWith "Ada"
    {| publicRepos := None; privateRepos := None; totalStars := None;
       totalForks := None; pullRequests := Some 0; mergedPRs := None;
       openPRs := None; closedPRs := None; commits := None;
       contributions := None; issues := None; recentPRs := None;
       languages := None |}.

(** A member whose ranked field [pullRequests] is not defined. *)
Definition mergedOnly : Member :=
  memberWith "Bob"
    {| publicRepos := None; privateRepos := None; totalStars := None;
       totalForks := None; pullRequests := None; mergedPRs := Some 2;
       openPRs := None; closedPRs := None; commits := None;
       contributions := None; issues := None; recentPRs := None;
       languages := None |}.

(** A member with [n] commits. *)
Definition committer (name : string) (n : Z) : Member :=
  memberWith name
    {| publicRepos := None; privateRepos := None; totalStars := None;
       totalForks := None; pullRequests := None; mergedPRs := None;
       openPRs := None; closedPRs := None; commits := Some n;
       contributions := None; issues := None; recentPRs := None;
       languages := None |}.

Definition sampleTeam : list Member :=
  [committer "Ada" 5; committer "Bob" 9; committer "Cy" 5].

End TopNTerms.

(** ** Language distribution *)

Section LanguageDistributionTerms.

Import Analytics.

Local Open Scope string_scope.

(** What one entry of a name->count mapping contributes, in the words of
    the specification: its trimmed name with its count, unless the name
    is empty, ["Unknown"] or ["null"] or the count is not positive. *)
Definition specMapEntry (e : string * Z) : option (string * Z) :=
  let k := Js.trim (fst e) in
  if decide (k = EmptyString \/ k = "Unknown" \/ k = "null" \/ snd e <= 0)
  then None else Some (k, snd e).

(** The count of a list entry object: its [count], else its [value],
    else [1], where a missing or zero number counts as absent. *)
Definition specListCount (count value : option Z) : Z :=
  match count, value with
  | Some c, Some v => if decide (c = 0) then if decide (v = 0) then 1 else v else c
  | Some c, None => if decide (c = 0) then 1 else c
  | None, Some v => if decide (v = 0) then 1 else v
  | None, None => 1
  end.

(** What one element of a list-form value contributes: a string counts
    once under its trimmed name; an object with a name counts
    [specListCount] under its trimmed name; an empty name, ["Unknown"]
    and negative counts are left out. *)
Definition specListEntry (lang : LangEntry) : option (string * Z) :=
  match lang with
  | LangString s =>
      let k := Js.trim s in
      if decide (k = EmptyString \/ k = "Unknown") then None else Some (k, 1)
  | LangObject (Some name) count value =>
      let k := Js.trim name in
      let n := specListCount count value in
      if decide (k = EmptyString \/ k = "Unknown" \/ n <= 0) then None
      else Some (k, n)
  | LangObject None _ _ => None
  | LangOther => None
  end.

Definition specMember (m : Member) : list (string * Z) :=
  match githubActivity m with
  | Some a =>
      match languages a with
      | Some (LangMap es) => omap specMapEntry es
      | Some (LangList es) => omap specListEntry es
      | Some LangScalar => []
      | None => []
      end
  | None => []
  end.

(** Every contribution of every member, in order. *)
Definition specContributions (members : list Member) : list (string * Z) :=
  concat (map specMember members).

(** The sum of the contributions made under the name [k]. *)
Definition totalFor (k : string) (cs : list (string * Z)) : Z :=
  sumZ (map snd (List.filter (fun c => Js.streq (fst c) k) cs)).

(** No member carries a list-form [languages] value. *)
Definition mappingOnly (members : list Member) : Prop :=
  Forall (fun m =>
            match githubActivity m with
            | Some a =>
                match languages a with
                | Some (LangList _) => False
                | _ => True
                end
            | None => True
            end) members.

(** A contribution added to a mapping from name to sum. *)
Definition addContribution (o : Js.Obj Z) (c : string * Z) : Js.Obj Z :=
  Js.objSet o (fst c) (Js.or0 (Js.objGet o (fst c)) + snd c).

(** The contributions made under another name than [__proto__]. *)
Definition written (cs : list (string * Z)) : list (string * Z) :=
  List.filter (fun c => negb (Js.streq (fst c) Js.protoKey)) cs.

(** A contribution is made under the name of a function that every
    object inherits. *)
Definition inheritedName (cs : list (string * Z)) : Prop :=
  exists c, c ∈ cs /\ Js.inheritsFunction (fst c) = true.

(** The code's [languageCounts] after the contributions [cs]. *)
Definition countAll (cs : list (string * Z)) (o : Js.Obj Z)
  : option (Js.Obj Z) :=
  forEach (fun o c => addCount o (fst c) (snd c)) cs o.

(** What every contribution satisfies. *)
Definition goodContribution (c : string * Z) : Prop :=
  fst c <> EmptyString /\ Js.trim (fst c) = fst c /\ fst c <> "Unknown"
  /\ 0 < snd c.

Definition languagesMember (l : Languages) : Member :=
  {| displayName := None; firstName := None; lastName := None;
     githubActivity :=
       Some {| publicRepos := None; privateRepos := None;
               totalStars := None; totalForks := None;
               pullRequests := None; mergedPRs := None; openPRs := None;
               closedPRs := None; commits := None; contributions := None;
               issues := None; recentPRs := None; languages := Some l |} |}.

(** The specification's example input [{JS: 500, Unknown: 10, Go: 0}]. *)
Definition exampleMapping : Member :=
  languagesMember (LangMap [("JS", 500); ("Unknown", 10); ("Go", 0)]).

(** A list-form value with the name ["null"] and an entry whose count
    is [0]. *)
Definition exampleList : Member :=
  languagesMember
    (LangList [LangString "null"; LangObject (Some "Go") (Some 0) None]).

(** A mapping with a language named as a function that every object
    inherits. *)
Definition exampleInherited : Member :=
  languagesMember (LangMap [("JS", 500); ("constructor", 3)]).

End LanguageDistributionTerms.

(** ** JSON texts *)

Section JsonTerms.

Import Json.

Local Open Scope nat_scope.
Local Open Scope string_scope.

(** What may follow a value inside a text: nothing, a comma, or a
    closing bracket. *)
Definition closes (rest : string) : bool :=
  match rest with
  | EmptyString => true
  | String c _ =>
      Ascii.eqb c ","%char || Ascii.eqb c "]"%char || Ascii.eqb c "}"%char
  end.

(** The fuel that parsing back the text of [v] takes. *)
Fixpoint need (v : json) : nat :=
  match v with
  | JArr l => S (fold_right (fun x n => S (need x + n)) 0 l)
  | JObj fields => S (fold_right (fun kv n => S (need (snd kv) + n)) 0 fields)
  | _ => 1
  end.

Definition needAll (l : list json) : nat :=
  fold_right (fun x n => S (need x + n)) 0 l.

Definition needFields (fields : list (string * json)) : nat :=
  fold_right (fun kv n => S (need (snd kv) + n)) 0 fields.

(** The characters a value's text can start with. *)
Definition valueStart (c : ascii) : bool :=
  Js.isDigit c
  || Ascii.eqb c "-"%char || Ascii.eqb c "n"%char || Ascii.eqb c "t"%char
  || Ascii.eqb c "f"%char || Ascii.eqb c dquote || Ascii.eqb c "["%char
  || Ascii.eqb c "{"%char.

(** Parsing back the text of [v], followed by [rest]. *)
Definition parsesBack (v : json) : Prop :=
  forall fuel rest,
    need v <= fuel -> closes rest = true ->
    parseValue fuel (String.append (stringify v) rest) = Some (v, rest).

Definition fieldText (kv : string * json) : string :=
  String.append (quote (fst kv)) (String.append ":" (stringify (snd kv))).

End JsonTerms.

(** ** The members cache *)

Section MembersCacheTerms.

Import Eff Json DataStore.

Local Open Scope string_scope.

(** [localStorage] has room for writing [v] under [k]. *)
Definition accepts (s : State) (k v : string) : Prop :=
  (storageSize (<[ k := v ]> (storage s)) <= quota s)%nat.

(** Both writes of [saveToCache membersData] go through. *)
Definition persistable (membersData : json) (s : State) : Prop :=
  accepts s CACHE_KEY (stringify membersData)
  /\ accepts (withStorage (<[ CACHE_KEY := stringify membersData ]> (storage s)) s)
       CACHE_TIMESTAMP_KEY (Js.numToString (now s)).

(** Both persisted keys are present, as [isCacheFresh] tests it. *)
Definition cacheValid (s : State) : Prop :=
  fst (isCacheFresh s) = Ok true.

Definition cacheCleared (s : State) : Prop :=
  storage s !! CACHE_KEY = None /\ storage s !! CACHE_TIMESTAMP_KEY = None.

(** The state [saveToCache] leaves when both writes go through. *)
Definition savedState (membersData : json) (s : State) : State :=
  withConsole ((LevelLog, "Saved members to cache") :: console s)
    (withLastFetchTime (Js.Num (now s))
       (withStorage
          (<[ CACHE_TIMESTAMP_KEY := Js.numToString (now s) ]>
             (<[ CACHE_KEY := stringify membersData ]> (storage s)))
          s)).

(** The state [saveToCache] leaves when a write is refused: the error is
    on the console and both keys are removed. [kept] is the storage the
    failed attempt left behind. *)
Definition failedState (kept : gmap string string) (s : State) : State :=
  withStorage (delete CACHE_TIMESTAMP_KEY (delete CACHE_KEY kept))
    (withConsole ((LevelError, "Error saving to cache:") :: console s) s).

Definition sampleMembers : json :=
  JArr [JObj [("id", JStr "m1"); ("displayName", JStr "Ada")]].

Definition sampleDoc : Doc :=
  {| docId := "m1"; docData := [("displayName", JStr "Ada")] |}.

(** A browser whose storage has room, and one whose storage is full. *)
Definition roomyBrowser : State :=
  initial 4096 1700000000000 (fun _ => Some [sampleDoc]).

Definition fullBrowser : State :=
  initial 0 1700000000000 (fun _ => Some [sampleDoc]).

End MembersCacheTerms.

(** ** The HTTP client wrapper *)

Section ClientWrapperTerms.

Import Eff Json GitHubApi.

Local Open Scope string_scope.

(** A throttling response: 429, or 403 with [X-RateLimit-Remaining: 0]. *)
Definition throttled (r : Response) : bool :=
  (status r =? 429)%Z
  || ((status r =? 403)%Z
      && match headerGet (headers r) "X-RateLimit-Remaining" with
         | Some text => Js.streq text "0"
         | None => false
         end).

(** The request [githubApiRequest] sends for [target]. *)
Definition requestFor (target : string) (w : World) : Request :=
  {| url := target;
     authorization :=
       if hasTokenOf (GITHUB_TOKEN w)
       then Some (String.append "token " (GITHUB_TOKEN w)) else None |}.

(** The reply to the [k]-th request from now on. *)
Definition replyAt (w : World) (k : nat) (req : Request) : option Response :=
  network w (fetchCount w + k)%nat req.

(** The reset time known once the headers of [r] have been read. *)
Definition resetAfter (r : Response) (known : option Js.JsNum)
  : option Js.JsNum :=
  match headerGet (headers r) "X-RateLimit-Reset" with
  | Some text => Some (timesThousand (Js.parseInt text))
  | None => known
  end.

Definition remainingAfter (r : Response) (known : option Js.JsNum)
  : option Js.JsNum :=
  match headerGet (headers r) "X-RateLimit-Remaining" with
  | Some text => Some (Js.parseInt text)
  | None => known
  end.

(** The delay before the retry that follows the throttling response [r]. *)
Definition delayFor (r : Response) (known : option Js.JsNum) (nowMs : Z) : Z :=
  waitTimeOf (resetAfter r known) nowMs.

(** The world after [fetch] has answered. *)
Definition fetched (req : Request) (w : World) : World :=
  withTrace (EvFetch req :: trace w) w.

(** The world after [handleRateLimit] has waited on [r]. *)
Definition waited (r : Response) (w : World) : World :=
  let d := delayFor r (rateLimitReset w) (clock w) in
  withClock (clock w + d)
    (withTrace (EvSleep d :: trace w)
       (withConsole
          ((LevelWarn, "Rate limit hit. Waiting before retrying...") :: console w)
          (withReset (resetAfter r (rateLimitReset w))
             (withRemaining (remainingAfter r (rateLimitRemaining w)) w)))).

(** One turn of the loop on a response that is not throttling: it is
    returned at once; a 403 is also reported on the console. *)
Definition reported (hasToken : bool) (r : Response) (w : World) : World :=
  if (status r =? 403)%Z
  then withConsole
         ((LevelWarn,
           if hasToken
           then "GitHub API 403 Forbidden - token may be invalid or expired."
           else "GitHub API 403 Forbidden - token may be missing or invalid.")
          :: console w) w
  else w.

(** The world once the missing-token warning has been dealt with. *)
Definition prelude (w : World) : World :=
  if hasTokenOf (GITHUB_TOKEN w) then w
  else if tokenWarningShown w then w
  else withWarningShown true
         (withConsole
            ((LevelWarn,
              "GitHub token not found or invalid. Using unauthenticated requests (60 req/hour limit).")
             :: console w) w).

(** GitHub answers the first request with a 429 whose reset time is five
    seconds ahead, and every later one with a 200. *)
Definition throttledOnce : World :=
  {| GITHUB_TOKEN := "ghp_example"; githubUserCache := emptyObject;
     rateLimitReset := None; rateLimitRemaining := None;
     tokenWarningShown := false; clock := 1700000000000; trace := [];
     console := [];
     network := fun n _ =>
       match n with
       | O => Some {| status := 429;
                      headers := [("x-ratelimit-reset", "1700000005")];
                      body := None |}
       | _ => Some {| status := 200; headers := [];
                      body := Some (JObj [("login", JStr "ada")]) |}
       end |}.

(** What a call of the wrapper leaves alone: the token, the user cache
    and the network; and it never takes a request back. *)
Definition framed (w w' : World) : Prop :=
  GITHUB_TOKEN w' = GITHUB_TOKEN w
  /\ githubUserCache w' = githubUserCache w
  /\ network w' = network w
  /\ (fetchCount w <= fetchCount w')%nat.

End ClientWrapperTerms.

(** ** The user profile fetch *)

Section UserProfileTerms.

Import Eff Json GitHubApi.

Local Open Scope string_scope.

(** The user-info object built from a parsed body. *)
Definition userInfoOf (userData : json) : Result UserInfo :=
  match propOf (Some userData) "login" with
  | Throw e => Throw e
  | Ok _ =>
      let field k :=
        match propOf (Some userData) k with Ok v => v | Throw _ => None end in
      Ok {| username := field "login"; name := field "name";
            avatar_url := field "avatar_url"; html_url := field "html_url";
            public_repos := field "public_repos";
            followers := field "followers"; following := field "following";
            bio := orElse (field "bio") (JStr EmptyString);
            location := orElse (field "location") (JStr EmptyString);
            blog := orElse (field "blog") (JStr EmptyString);
            company := orElse (field "company") (JStr EmptyString) |}
  end.

(** The world after the profile has been stored under the handle. *)
Definition remembered (u : string) (v : option UserInfo) (w : World) : World :=
  withCache (cacheSet (githubUserCache w) u v) w.

Definition warned (msg : string) (w : World) : World :=
  withConsole ((LevelWarn, msg) :: console w) w.

(** A world in which GitHub always answers [status] with [payload]. *)
Definition answering (code : Z) (payload : option json) : World :=
  {| GITHUB_TOKEN := PLACEHOLDER; githubUserCache := emptyObject;
     rateLimitReset := None; rateLimitRemaining := None;
     tokenWarningShown := false; clock := 1700000000000; trace := [];
     console := [];
     network := fun _ _ =>
       Some {| status := code; headers := []; body := payload |} |}.

End UserProfileTerms.

(** ** The repository list fetch *)

Section RepositoryListTerms.

Import Eff Json GitHubApi.

Local Open Scope string_scope.

(** The outcome of a run of the loop: it ends, and what it returns fits
    the limit. *)
Definition boundedOutcome (limit : nat)
  (res : Result (option (list RepoSummary))) : Prop :=
  match res with
  | Ok (Some l) => (length l <= limit)%nat
  | Ok None => False
  | Throw _ => True
  end.

(** The server signals that no page follows: a [Link] header that does
    not offer [rel="next"]. *)
Definition noNextPage (r : Response) : Prop :=
  exists h, headerGet (headers r) "Link" = Some h
            /\ Js.truthyStr h = true /\ Js.includes h relNext = false.

Definition sampleRepo : json :=
  JObj [("id", JNum 1); ("name", JStr "site"); ("full_name", JStr "ada/site")].


Definition returnedCount (run : Result (option (list RepoSummary)) * World)
  : option nat :=
  match fst run with
  | Ok (Some l) => Some (length l)
  | _ => None
  end.

End RepositoryListTerms.

(** ** Fetchers and failures *)

Section DegradeTerms.

Import Eff Json GitHubApi.

Local Open Scope string_scope.

(** The last console line is an error. *)
Definition errorLogged (w : World) : Prop :=
  exists msg, head (console w) = Some (LevelError, msg).

End DegradeTerms.

(** ** Worlds for the fetchers *)

Section FetcherExamples.

Import Eff Json GitHubApi.

Local Open Scope string_scope.

(** No network: every request is rejected. *)
Definition offline : World :=
  {| GITHUB_TOKEN := "ghp_example"; githubUserCache := emptyObject;
     rateLimitReset := None; rateLimitRemaining := None;
     tokenWarningShown := false; clock := 1700000000000; trace := [];
     console := []; network := fun _ _ => None |}.

End FetcherExamples.

(** ** Members for the trend *)

Section TrendExamples.

Import Dashboard.

Local Open Scope string_scope.

(** A member with [n] pull requests and no [recentPRs]. *)
Definition memberWithPRs (n : Z) : Member :=
  {| displayName := Some "Ada"; firstName := None; lastName := None;
     githubActivity :=
       Some {| publicRepos := None; privateRepos := None;
               totalStars := None; totalForks := None;
               pullRequests := Some n; mergedPRs := None; openPRs := None;
               closedPRs := None; commits := None; contributions := None;
               issues := None; recentPRs := Some []; languages := None |} |}.

End TrendExamples.

(** ** The members cache: the persisted copy and the documents *)

Section MembersCacheMoreTerms.

Import Eff Json DataStore.

Local Open Scope string_scope.

(** The persisted copy can be used and holds [v]: both keys hold text,
    the text of the data key parses to [v], and [v] is truthy. *)
Definition cacheUsable (s : State) (v : json) : Prop :=
  exists text stamp,
    storage s !! CACHE_KEY = Some text
    /\ storage s !! CACHE_TIMESTAMP_KEY = Some stamp
    /\ Js.truthyStr text = true /\ Js.truthyStr stamp = true
    /\ parse text = Some v /\ truthy v = true.



(** The collection built from the documents of a query. *)
Definition membersOf (docs : list Doc) : json :=
  JArr (map docToMember docs).

(** No document carries a field named [id] of its own. *)
Definition plainDocs (docs : list Doc) : Prop :=
  Forall (fun d => "id" ∉ map fst (docData d)) docs.


End MembersCacheMoreTerms.

(** ** The HTTP client wrapper: what a call adds to the world *)

Section ClientWrapperMoreTerms.

Import Eff Json GitHubApi.

Local Open Scope string_scope.

Definition isSleep (e : Event) : bool := negb (isFetch e).

(** The requests and the delays among some events. *)
Definition fetches (evs : list Event) : nat := length (List.filter isFetch evs).
Definition sleeps (evs : list Event) : nat := length (List.filter isSleep evs).

(** The time spent waiting in some events. *)
Definition sleptFor (evs : list Event) : Z :=
  fold_right (fun e t => match e with EvSleep ms => ms + t | EvFetch _ => t end)
    0 evs.

(** An event of a call of the wrapper for [req]: that request, or a
    delay that is not negative. *)
Definition wrapperEvent (req : Request) (e : Event) : Prop :=
  match e with
  | EvFetch q => q = req
  | EvSleep ms => 0 <= ms
  end.

(** The warning about the missing token. *)
Definition tokenWarning : string :=
  "GitHub token not found or invalid. Using unauthenticated requests (60 req/hour limit).".

Definition isTokenWarning (m : Level * string) : bool :=
  match fst m with
  | LevelWarn => Js.streq (snd m) tokenWarning
  | _ => false
  end.

Definition tokenWarnings (w : World) : nat :=
  length (List.filter isTokenWarning (console w)).

(** [w'] is [w] after the events [evs], latest first, and the console
    lines [msgs]; the token, the user cache, the network and the warning
    flag are as they were. *)
Definition advanced (w w' : World) (evs : list Event)
  (msgs : list (Level * string)) : Prop :=
  trace w' = (evs ++ trace w)%list
  /\ console w' = (msgs ++ console w)%list
  /\ clock w' = clock w + sleptFor evs
  /\ GITHUB_TOKEN w' = GITHUB_TOKEN w
  /\ githubUserCache w' = githubUserCache w
  /\ network w' = network w
  /\ tokenWarningShown w' = tokenWarningShown w.

(** A call of the wrapper for [req] that may send up to [most] requests
    took [w] to [w']: it sent [req] at least once and at most
    [max 1 most] times, waited at most [most] times and never for a
    negative time, and did not warn about the token. *)
Definition settled (req : Request) (most : nat) (w w' : World) : Prop :=
  exists evs msgs,
    advanced w w' evs msgs
    /\ Forall (wrapperEvent req) evs
    /\ (1 <= fetches evs <= Nat.max 1 most)%nat
    /\ (sleeps evs <= most)%nat
    /\ Forall (fun m => isTokenWarning m = false) msgs.

(** GitHub throttles every request. *)
Definition alwaysThrottled : World :=
  {| GITHUB_TOKEN := "ghp_example"; githubUserCache := emptyObject;
     rateLimitReset := None; rateLimitRemaining := None;
     tokenWarningShown := false; clock := 1700000000000; trace := [];
     console := [];
     network := fun _ _ =>
       Some {| status := 429; headers := []; body := None |} |}.

End ClientWrapperMoreTerms.

(** ** The fetchers: counting requests *)

Section FetcherBoundTerms.

Import Eff Json GitHubApi.

Local Open Scope string_scope.

(** [w'] is [w] after at least [least] and at most [most] requests, with
    the same token and the same network. *)
Definition asked (least most : nat) (w w' : World) : Prop :=
  (fetchCount w + least <= fetchCount w')%nat
  /\ (fetchCount w' <= fetchCount w + most)%nat
  /\ GITHUB_TOKEN w' = GITHUB_TOKEN w
  /\ network w' = network w.

(** Every language recorded has a name that is not blank, and is
    recorded once. *)
Definition namedOnce (breakdown : Js.Obj Z) : Prop :=
  Forall (fun k => Js.truthyStr (Js.trim k) = true) (map fst breakdown)
  /\ NoDup (map fst breakdown).

(** Upper bounds on the requests of the two fetchers that walk over
    repositories: one call of the wrapper for the list, one for each of
    at most 20 (at most 10) repositories, three attempts each. *)
Definition languageRequests : nat := 3 + 3 * 20.
Definition commitRequests : nat := 3 + 3 * 10.

(** The pages the repository fetch may ask for: [limit / 100], rounded
    up. *)
Definition pagesFor (limit : nat) : nat := (limit + 99) / 100.

Section DateTerms.

Variable dateOf : jsval -> Js.JsNum.

(** The commit carries a date that [new Date] reads. *)
Definition validDate (c : CommitSummary) : Prop :=
  dateOf (date c) <> Js.NaN.

(** The time of the commit, in milliseconds. *)
Definition dateKey (c : CommitSummary) : Z :=
  match dateOf (date c) with
  | Js.Num z => z
  | Js.NaN => 0
  end.

End DateTerms.

(** GitHub lists two repositories and reports the languages of each. *)
Definition twoRepositories : World :=
  {| GITHUB_TOKEN := "ghp_example"; githubUserCache := emptyObject;
     rateLimitReset := None; rateLimitRemaining := None;
     tokenWarningShown := false; clock := 1700000000000; trace := [];
     console := [];
     network := fun n _ =>
       match n with
       | O => Some {| status := 200; headers := [];
                      body := Some (JArr [JObj [("full_name", JStr "ada/site")];
                                          JObj [("full_name", JStr "ada/tool")]]) |}
       | _ => Some {| status := 200; headers := [];
                      body := Some (JObj [("Rocq", JNum 700); (" ", JNum 5);
                                          ("OCaml", JNum 300)]) |}
       end |}.

End FetcherBoundTerms.

(** ** Pull requests by day *)

Section TimestampTerms.

Import Dashboard.

(** Every entry of [recentPRs], member after member. *)
Definition allRecent (members : list Member) : list PullRequest :=
  concat (map recentOf members).

(** The day a pull request is counted under, if any. *)
Definition dayOf (starts : list Z) (pr : PullRequest) : option nat :=
  match created_at pr with
  | Some created => findDay created starts 0
  | None => None
  end.

Definition landsOn (starts : list Z) (i : nat) (pr : PullRequest) : bool :=
  bool_decide (dayOf starts pr = Some i).

Definition counted (starts : list Z) (pr : PullRequest) : bool :=
  bool_decide (is_Some (dayOf starts pr)).

(** [created] falls in the 24 hours that begin at [start]. *)
Definition inDay (start created : Z) : Prop :=
  start <= created < start + 24 * 60 * 60 * 1000.

(** A member with pull requests created at the given times. *)
Definition memberCreatedAt (times : list (option Z)) : Member :=
  {| displayName := None; firstName := None; lastName := None;
     githubActivity :=
       Some {| publicRepos := None; privateRepos := None;
               totalStars := None; totalForks := None;
               pullRequests := Some 40; mergedPRs := None; openPRs := None;
               closedPRs := None; commits := None; contributions := None;
               issues := None;
               recentPRs := Some (map (fun t => {| created_at := t |}) times);
               languages := None |} |}.

End TimestampTerms.

(** ** Statistics *)

Section StatisticsTerms.

Import Analytics AnalyticsStats.

Local Open Scope string_scope.

(** The activity snapshots the analytics statistics add up: those of the
    connected members. *)
Definition connectedActivities (members : list Account) : list GithubActivity :=
  omap (fun m => if githubConnected m then githubActivity (person m) else None)
    members.

(** The members the averages are taken over: connected, with a snapshot
    or at least a handle. *)
Definition averagedOver (m : Account) : bool :=
  githubConnected m
  && (bool_decide (is_Some (githubActivity (person m))) || hasUsername m).

(** A number read off the snapshot of a member, [0] without one. *)
Definition perMember (g : GithubActivity -> Z) (m : Member) : Z :=
  match githubActivity m with
  | Some a => g a
  | None => 0
  end.

Definition reposOf (a : GithubActivity) : Z :=
  Js.or0 (publicRepos a) + Js.or0 (privateRepos a).

(** [avg] is [sum / count] rounded to the nearest integer, a half going
    up. *)
Definition nearest (sum count avg : Z) : Prop :=
  2 * sum - count < 2 * count * avg <= 2 * sum + count.

(** Every member with a snapshot is connected. *)
Definition snapshotsConnected (members : list Account) : Prop :=
  Forall (fun m => is_Some (githubActivity (person m)) ->
                   githubConnected m = true) members.

(** The members [getRepositoryData] looks at, and those it asks GitHub
    about. *)
Definition tracked (m : Account) : bool :=
  githubConnected m && hasUsername m.

Definition needsLookup (m : Account) : bool :=
  tracked m && lacksPublicRepos m.

Definition trackedActivities (members : list Account) : list GithubActivity :=
  omap (fun m => if tracked m then githubActivity (person m) else None) members.

(** A member has no name to show. *)
Definition nameless (member : Member) : Prop :=
  Js.truthyStr (strOrEmpty (displayName member)) = false
  /\ Js.trim (String.append (strOrEmpty (firstName member))
                (String.append " " (strOrEmpty (lastName member))))
     = EmptyString.

Definition activityWith (repos stars : Z) : GithubActivity :=
  {| publicRepos := Some repos; privateRepos := None;
     totalStars := Some stars; totalForks := None; pullRequests := None;
     mergedPRs := None; openPRs := None; closedPRs := None; commits := None;
     contributions := None; issues := None; recentPRs := None;
     languages := None |}.

Definition accountWith (handle : string) (a : option GithubActivity) : Account :=
  {| person := {| displayName := Some handle; firstName := None;
                  lastName := None; githubActivity := a |};
     githubConnected := true; githubUsername := Some handle |}.

Definition sampleAccounts : list Account :=
  [accountWith "ada" (Some (activityWith 3 10));
   accountWith "bob" (Some (activityWith 4 1));
   accountWith "cy" None].

End StatisticsTerms.

(** ** The admin session *)

Section AuthTerms.

Import Auth.

Local Open Scope string_scope.

(** What can happen to the module between two looks at the current
    user: a login, a logout, or the provider reporting a user (or
    none). *)
Inductive Op :=
| Login (address password : string)
| Logout
| StateChanged (user : option User).

(** The Firebase codes [adminLogin] replaces by a message of its own. *)
Definition knownCodes : list string :=
  ["auth/invalid-email"; "auth/user-disabled"; "auth/user-not-found";
   "auth/wrong-password"; "auth/too-many-requests";
   "auth/network-request-failed"].

(** The rejection is for an unknown account or for a wrong password. *)
Definition badCredentials (e : Failure) : Prop :=
  code e = Some "auth/user-not-found" \/ code e = Some "auth/wrong-password".

Section WithAdminEmail.

Variable ADMIN_EMAIL : string.

(** The current user, if any, is the configured administrator. *)
Definition adminOrNone (s : Session) : Prop :=
  match currentUser s with
  | Some u => email u = Some ADMIN_EMAIL /\ notConfigured ADMIN_EMAIL = false
  | None => True
  end.

(** A handler of the caller leaves the current user to the module. *)
Definition keeps (h : Act unit) : Prop :=
  forall s, adminOrNone s -> adminOrNone (snd (h s)).

Section WithHandlers.

Variable onAuthenticated : option (User -> Act unit).
Variable onUnauthenticated : option (Act unit).

(** The session after [op], whether it returned or threw. *)
Definition perform (s : Session) (op : Op) : Session :=
  match op with
  | Login address password => snd (adminLogin ADMIN_EMAIL address password s)
  | Logout => snd (adminLogout s)
  | StateChanged user =>
      snd (authStateChanged ADMIN_EMAIL onAuthenticated onUnauthenticated
             user s)
  end.

Definition run (ops : list Op) (s : Session) : Session :=
  fold_left perform ops s.

End WithHandlers.

(** The user is turned away by [checkAdminStatus]. *)
Definition turnedAway (u : User) : Prop :=
  notConfigured ADMIN_EMAIL = true \/ email u <> Some ADMIN_EMAIL.

End WithAdminEmail.

(** A provider that knows two accounts and refuses every other address
    as unknown; signing out always succeeds. *)
Definition sampleReply (n : nat) (address password : string) : User + Failure :=
  if Js.streq address "admin@vedam.org" || Js.streq address "guest@vedam.org"
  then inl {| uid := address; email := Some address |}
  else inr {| code := Some "auth/user-not-found";
              message := "There is no user record for this identifier." |}.

Definition freshSession : Session :=
  {| currentUser := None; calls := []; console := [];
     signInReply := sampleReply; signOutReply := fun _ => None |}.

End AuthTerms.

(** ** The literals of the build script *)

Section BuildTerms.

Import Json Build.

Local Open Scope string_scope.

(** What the escape [\c] stands for between double quotes, for the
    escapes the build script writes. *)
Definition escaped (c : ascii) : option ascii :=
  if Ascii.eqb c backslash then Some backslash
  else if Ascii.eqb c dquote then Some dquote
  else if Ascii.eqb c "n" then Some "010"%char
  else if Ascii.eqb c "r" then Some "013"%char
  else if Ascii.eqb c "t" then Some "009"%char
  else None.

(** The string that the body of a double-quoted JavaScript literal
    denotes: a backslash starts an escape; a bare double quote would end
    the literal and a bare line break is not allowed in one, so there is
    no reading ([None]) for a body that holds one. *)
Fixpoint readBody (body : string) : option string :=
  match body with
  | EmptyString => Some EmptyString
  | String c rest =>
      if Ascii.eqb c backslash then
        match rest with
        | String d rest' =>
            match escaped d, readBody rest' with
            | Some x, Some s => Some (String x s)
            | _, _ => None
            end
        | EmptyString => None
        end
      else if Ascii.eqb c dquote || Ascii.eqb c "010"%char
              || Ascii.eqb c "013"%char
      then None
      else
        match readBody rest with
        | Some s => Some (String c s)
        | None => None
        end
  end.

(** An environment that sets one variable. *)
Definition envWith (name value : string) (key : string) : option string :=
  if Js.streq key name then Some value else None.

End BuildTerms.

(** * Properties *)

(** ** Time-bucket fallback *)

Section PRTrends.

Import Dashboard.

Variable midnightDaysAgo : nat -> Z.

Lemma bucketMember_no_timestamps starts members buckets :
  noTimestamps members ->
  fold_left (bucketMember starts) members (buckets, false) = (buckets, false).
Proof.
  induction 1 as [|m ms Hm _ IH]; [reflexivity|].
  cbn [fold_left]. unfold bucketMember at 2. rewrite Hm. cbn. exact IH.
Qed.

Lemma fallbackLoop_length n : forall i base rem buckets,
  length (fallbackLoop n i base rem buckets) = length buckets.
Proof.
  induction n as [|n IH]; intros; cbn; [reflexivity|].
  rewrite IH. apply length_insert.
Qed.

(** What the loop leaves in each cell. *)
Lemma fallbackLoop_lookup n : forall i base rem buckets j,
  0 <= rem ->
  (i + n <= length buckets)%nat ->
  fallbackLoop n i base rem buckets !! j =
    if decide (i <= j < i + n)%nat
    then Some (base + (if Z.of_nat (j - i) <? rem then 1 else 0))
    else buckets !! j.
Proof.
  induction n as [|n IH]; intros i base rem buckets j Hrem Hlen; cbn.
  - case_decide; [lia | reflexivity].
  - rewrite IH.
    + destruct (decide (j = i)) as [->|Hne].
      * rewrite decide_False by lia. rewrite decide_True by lia.
        rewrite list_lookup_insert_eq by lia.
        replace (i - i)%nat with O by lia. reflexivity.
      * rewrite list_lookup_insert_ne by congruence.
        destruct (decide (S i <= j < S i + n)%nat) as [Hin|Hout].
        -- rewrite decide_True by lia. f_equal. f_equal.
           destruct (0 <? rem) eqn:Hr.
           ++ apply Z.ltb_lt in Hr.
              destruct (Z.of_nat (j - S i) <? rem - 1) eqn:E1;
                destruct (Z.of_nat (j - i) <? rem) eqn:E2; try reflexivity;
                rewrite ?Z.ltb_lt, ?Z.ltb_ge in *; lia.
           ++ apply Z.ltb_ge in Hr.
              destruct (Z.of_nat (j - S i) <? rem) eqn:E1;
                destruct (Z.of_nat (j - i) <? rem) eqn:E2; try reflexivity;
                rewrite ?Z.ltb_lt, ?Z.ltb_ge in *; lia.
        -- rewrite decide_False by lia. reflexivity.
    + destruct (0 <? rem) eqn:Hr; [apply Z.ltb_lt in Hr|]; lia.
    + rewrite length_insert. lia.
Qed.

(** Summing [n] cells of which the first [r] carry one more than [base]. *)
Lemma sumZ_spread (l : list Z) : forall (base r : Z),
  0 <= r <= Z.of_nat (length l) ->
  (forall j : nat, (j < length l)%nat ->
     l !! j = Some (base + (if Z.of_nat j <? r then 1 else 0))) ->
  sumZ l = base * Z.of_nat (length l) + r.
Proof.
  induction l as [|x l IH]; intros base r Hr Hl.
  - cbn [length] in Hr. cbn [sumZ fold_right length]. lia.
  - cbn [sumZ fold_right length] in *.
    pose proof (Hl O ltac:(lia)) as H0. cbn in H0. injection H0 as ->.
    change (Z.of_nat 0) with 0 in *.
    destruct (0 <? r) eqn:E.
    + apply Z.ltb_lt in E. fold (sumZ l).
      rewrite (IH base (r - 1)).
      * lia.
      * lia.
      * intros j Hj. specialize (Hl (S j) ltac:(lia)).
        etrans; [exact Hl|]. f_equal. f_equal.
        destruct (Z.of_nat (S j) <? r) eqn:E1;
          destruct (Z.of_nat j <? r - 1) eqn:E2; try reflexivity;
          rewrite ?Z.ltb_lt, ?Z.ltb_ge in *; lia.
    + apply Z.ltb_ge in E. assert (r = 0) as -> by lia. fold (sumZ l).
      rewrite (IH base 0).
      * lia.
      * lia.
      * intros j Hj. specialize (Hl (S j) ltac:(lia)).
        etrans; [exact Hl|]. f_equal. f_equal.
        destruct (Z.of_nat (S j) <? 0) eqn:E1;
          destruct (Z.of_nat j <? 0) eqn:E2; try reflexivity;
          rewrite ?Z.ltb_lt, ?Z.ltb_ge in *; lia.
Qed.

(** C3. With no member supplying per-item timestamps, a total of [C >= 0]
    pull requests over [D >= 1] days gives [D] buckets that sum to [C];
    bucket [i] holds [floor(C/D) + 1] when [i < C mod D] and [floor(C/D)]
    otherwise, so the buckets with the extra one are exactly the
    earliest [C mod D] days. *)
Theorem prTrends_fallback_distribution (members : list Member) (D : nat) :
  noTimestamps members ->
  (1 <= D)%nat ->
  0 <= totalPRsOf members ->
  let C := totalPRsOf members in
  let buckets := getPRTrendsData midnightDaysAgo members D in
  length buckets = D /\
  sumZ buckets = C /\
  (forall i b, buckets !! i = Some b ->
     b = C / Z.of_nat D \/ b = C / Z.of_nat D + 1) /\
  (forall i, (i < D)%nat ->
     (buckets !! i = Some (C / Z.of_nat D + 1) <-> Z.of_nat i < C mod Z.of_nat D)).
Proof.
  intros Hno HD HC C buckets.
  assert (Hb : buckets =
    fallbackLoop D 0 (C / Z.of_nat D) (C - C / Z.of_nat D * Z.of_nat D)
      (replicate D 0)).
  { subst buckets. unfold getPRTrendsData.
    rewrite bucketMember_no_timestamps by assumption. reflexivity. }
  assert (Hrem : C - C / Z.of_nat D * Z.of_nat D = C mod Z.of_nat D).
  { rewrite Z.mod_eq by lia. lia. }
  rewrite Hrem in Hb.
  pose proof (Z.mod_pos_bound C (Z.of_nat D) ltac:(lia)) as Hmod.
  assert (Hlen : length buckets = D).
  { rewrite Hb, fallbackLoop_length. apply length_replicate. }
  assert (Hlk : forall j : nat, (j < D)%nat ->
    buckets !! j =
      Some (C / Z.of_nat D + (if Z.of_nat j <? C mod Z.of_nat D then 1 else 0))).
  { intros j Hj. rewrite Hb, fallbackLoop_lookup.
    - rewrite decide_True by lia. replace (j - 0)%nat with j by lia. reflexivity.
    - lia.
    - rewrite length_replicate. lia. }
  split; [exact Hlen|]. split; [|split].
  - rewrite (sumZ_spread buckets (C / Z.of_nat D) (C mod Z.of_nat D)).
    + rewrite Hlen. rewrite (Z.div_mod C (Z.of_nat D)) at 3 by lia. lia.
    + rewrite Hlen. lia.
    + rewrite Hlen. exact Hlk.
  - intros i b Hi.
    assert (i < D)%nat as Hlt by (rewrite <- Hlen; eapply lookup_lt_Some; eauto).
    rewrite Hlk in Hi by assumption. injection Hi as <-.
    destruct (Z.of_nat i <? C mod Z.of_nat D); [right; reflexivity | left; lia].
  - intros i Hi. rewrite Hlk by assumption.
    destruct (Z.of_nat i <? C mod Z.of_nat D) eqn:E.
    + apply Z.ltb_lt in E. split; [intros _; exact E | reflexivity].
    + apply Z.ltb_ge in E. split; [intros H; injection H; lia | lia].
Qed.

End PRTrends.

(** ** [Array.prototype.sort] *)

Section SortAny.

Context {A : Type} (cmp : A -> A -> Z).

Lemma insertBy_perm x l : Js.insertBy cmp x l ≡ₚ x :: l.
Proof.
  induction l as [|y r IH]; cbn; [reflexivity|].
  destruct (cmp x y <=? 0); [reflexivity|].
  rewrite IH. apply Permutation_swap.
Qed.

Lemma sort_perm l : Js.sort cmp l ≡ₚ l.
Proof.
  induction l as [|x l IH]; cbn; [reflexivity|].
  rewrite insertBy_perm. by rewrite IH.
Qed.

End SortAny.

Section SortDescending.

Context {A : Type} (key : A -> Z).

Lemma insertBy_sorted x l : sortedDesc key l -> sortedDesc key (Js.insertBy (descBy key) x l).
Proof.
  unfold sortedDesc. induction 1 as [|y r Hr IH Hy]; cbn.
  - repeat constructor.
  - destruct ((descBy key) x y <=? 0) eqn:E; unfold descBy in E.
    + apply Z.leb_le in E. constructor; [by constructor|].
      constructor; [lia|]. eapply Forall_impl; [exact Hy|]. cbn. intros; lia.
    + apply Z.leb_gt in E. constructor; [exact IH|].
      rewrite (insertBy_perm (descBy key) x r). constructor; [lia | exact Hy].
Qed.

Lemma sort_sorted l : sortedDesc key (Js.sort (descBy key) l).
Proof.
  induction l as [|x l IH]; cbn; [constructor|]. by apply insertBy_sorted.
Qed.

(** Stability: the elements carrying one given key come out in the order
    they went in. *)
Lemma insertBy_stable v x l :
  List.filter (hasKey key v) (Js.insertBy (descBy key) x l)
  = List.filter (hasKey key v) (x :: l).
Proof.
  induction l as [|y r IH]; [reflexivity|].
  cbn [Js.insertBy]. destruct ((descBy key) x y <=? 0) eqn:E; [reflexivity|].
  apply Z.leb_gt in E. unfold descBy in E.
  cbn [List.filter] in *. rewrite IH. unfold hasKey.
  destruct (key y =? v) eqn:Ey; destruct (key x =? v) eqn:Ex; try reflexivity.
  apply Z.eqb_eq in Ey, Ex. lia.
Qed.

Lemma sort_stable v l :
  List.filter (hasKey key v) (Js.sort (descBy key) l) = List.filter (hasKey key v) l.
Proof.
  induction l as [|x l IH]; [reflexivity|].
  cbn [Js.sort fold_right]. rewrite insertBy_stable.
  cbn [List.filter]. fold (Js.sort (descBy key) l). by rewrite IH.
Qed.

Lemma filter_slice0_prefix (p : A -> bool) n l :
  List.filter p (Js.slice0 n l) `prefix_of` List.filter p l.
Proof.
  unfold Js.slice0. exists (List.filter p (skipn n l)).
  rewrite <- List.filter_app. by rewrite firstn_skipn.
Qed.

(** Everything cut off by [slice(0, n)] ranks no higher than anything
    kept. *)
Lemma sorted_slice0_top n l x y :
  sortedDesc key l -> In x (Js.slice0 n l) -> In y (skipn n l) -> key y <= key x.
Proof.
  unfold sortedDesc, Js.slice0. intros Hs Hx Hy.
  rewrite <- (firstn_skipn n l) in Hs.
  apply (StronglySorted_app_1_elem_of _ _ _ x y Hs); by apply list_elem_of_In.
Qed.

End SortDescending.

(** ** Top-N rankings *)

Section TopOfSorted.

Context {A : Type} (key : A -> Z).

Lemma sort_slice0_top n cands :
  TopSpec key n cands (Js.slice0 n (Js.sort (descBy key) cands)).
Proof.
  pose proof (sort_sorted key cands) as Hs.
  pose proof (sort_perm (descBy key) cands) as Hp.
  split.
  - unfold Js.slice0. rewrite length_take. by rewrite (Permutation_length Hp).
  - unfold sortedDesc, Js.slice0 in *.
    rewrite <- (firstn_skipn n (Js.sort (descBy key) cands)) in Hs.
    by apply StronglySorted_app_1_l in Hs.
  - exists (skipn n (Js.sort (descBy key) cands)). split.
    + unfold Js.slice0. by rewrite firstn_skipn.
    + intros x y Hx Hy. by eapply sorted_slice0_top.
  - intros v. rewrite <- (sort_stable key v cands).
    apply filter_slice0_prefix.
Qed.

End TopOfSorted.

Section TopN.

Import Analytics.

Local Open Scope string_scope.

Lemma resolveName_chain member : NameChain member (resolveName member).
Proof.
  unfold NameChain, resolveName.
  destruct (displayName member) as [[|c d]|]; cbn [strOrEmpty Js.truthyStr];
    try reflexivity;
    destruct (Js.trim _) eqn:E; cbn [Js.truthyStr];
    (case_decide; [done || congruence | done || congruence]).
Qed.

Lemma hasCommits_defined member :
  hasCommits member = true <->
  exists a c, githubActivity member = Some a /\ commits a = Some c.
Proof.
  unfold hasCommits. destruct (githubActivity member) as [a|].
  - destruct (commits a) as [c|] eqn:E.
    + split; [intros _; by exists a, c | done].
    + split; [done | intros (a' & c & Ha & Hc)]. congruence.
  - split; [done | intros (a & c & Ha & _); done].
Qed.

Lemma hasPRs_nonzero member :
  hasPRs member = true <->
  exists a, githubActivity member = Some a /\
    (Js.truthyZ (pullRequests a) = true \/ Js.truthyZ (mergedPRs a) = true
     \/ Js.truthyZ (openPRs a) = true).
Proof.
  unfold hasPRs. destruct (githubActivity member) as [a|].
  - unfold Js.orZ.
    destruct (Js.truthyZ (pullRequests a)) eqn:E1; cbn.
    + rewrite E1. cbn. rewrite E1. split; [intros _; exists a; auto | done].
    + destruct (Js.truthyZ (mergedPRs a)) eqn:E2; cbn.
      * rewrite E2. split; [intros _; exists a; auto | done].
      * split.
        -- intros H. exists a. auto.
        -- intros (a' & Ha & [H|[H|H]]); injection Ha as <-; congruence.
  - split; [done | intros (a & Ha & _); done].
Qed.

(** C9, as the code has it. Top committers keep the members whose
    [commits] is defined (neither [undefined] nor [null]); top PR creators
    keep the members with a non-zero [pullRequests], [mergedPRs] or
    [openPRs] count and rank them by [pullRequests || 0]. Both resolve the
    name by the chain display name, trimmed first + last name, "Unknown";
    both are sorted descending by the ranked value, hold the ten highest
    candidates (all of them when there are fewer), and are stable: the
    entries carrying one value come out in their original relative
    order. *)
Theorem topN_rankings (members : list Member) :
  TopSpec committerCommits 10
    (map toCommitter (List.filter hasCommits members))
    (getTopCommitters members)
  /\ TopSpec prs 10
       (map toPRCreator (List.filter hasPRs members))
       (getTopPRCreators members)
  /\ (forall m, hasCommits m = true <->
        exists a c, githubActivity m = Some a /\ commits a = Some c)
  /\ (forall m, hasPRs m = true <->
        exists a, githubActivity m = Some a /\
          (Js.truthyZ (pullRequests a) = true
           \/ Js.truthyZ (mergedPRs a) = true
           \/ Js.truthyZ (openPRs a) = true))
  /\ (forall m, NameChain m (committerName (toCommitter m))
                /\ NameChain m (creatorName (toPRCreator m)))
  /\ (forall m a c, githubActivity m = Some a -> commits a = Some c ->
        committerCommits (toCommitter m) = c)
  /\ (forall m a, githubActivity m = Some a ->
        prs (toPRCreator m) = Js.or0 (pullRequests a)).
Proof.
  split; [apply (sort_slice0_top committerCommits)|].
  split; [apply (sort_slice0_top prs)|].
  split; [apply hasCommits_defined|].
  split; [apply hasPRs_nonzero|].
  split; [|split].
  - intros m. unfold toCommitter, toPRCreator.
    destruct (githubActivity m); cbn; split; apply resolveName_chain.
  - intros m a c Ha Hc. unfold toCommitter. rewrite Ha. cbn. by rewrite Hc.
  - intros m a Ha. unfold toPRCreator. by rewrite Ha.
Qed.

(** The PR ranking does not filter on "the ranked field is defined": it
    drops a member whose [pullRequests] is the defined value [0] and
    keeps one whose [pullRequests] is undefined. *)
Lemma topPRCreators_filter_counterexample :
  getTopPRCreators [zeroPRs; mergedOnly]
  = [ {| creatorName := "Bob"; prs := 0; merged := 2; open := 0;
         closed := 0 |} ].
Proof. reflexivity. Qed.

(** A run of [topN_rankings]: the two members with five commits keep
    their order behind the one with nine. *)
Lemma topN_rankings_witness :
  map committerName (getTopCommitters sampleTeam) = ["Bob"; "Ada"; "Cy"]
  /\ sortedDesc committerCommits (getTopCommitters sampleTeam)
  /\ List.filter (hasKey committerCommits 5) (getTopCommitters sampleTeam)
     `prefix_of` List.filter (hasKey committerCommits 5)
                   (map toCommitter (List.filter hasCommits sampleTeam)).
Proof.
  destruct (topN_rankings sampleTeam) as ([_ Hsorted _ Hstable] & _).
  split; [reflexivity|]. split; [exact Hsorted | apply Hstable].
Defined.

End TopN.

(** ** Objects used as dictionaries *)

Section ObjFacts.

Context {V : Type}.

Implicit Types (o : Js.Obj V) (k : string) (v : V).

Lemma streq_true k1 k2 : Js.streq k1 k2 = true <-> k1 = k2.
Proof. unfold Js.streq. apply bool_decide_eq_true. Qed.

Lemma streq_false k1 k2 : Js.streq k1 k2 = false <-> k1 <> k2.
Proof. unfold Js.streq. apply bool_decide_eq_false. Qed.

Lemma objGet_objSet o k v k' :
  Js.objGet (Js.objSet o k v) k' = if decide (k = k') then Some v else Js.objGet o k'.
Proof.
  induction o as [|[k0 v0] r IH]; cbn.
  - case_decide as E.
    + by apply streq_true in E as ->.
    + by apply streq_false in E as ->.
  - destruct (Js.streq k0 k) eqn:E0; cbn.
    + apply streq_true in E0 as ->. case_decide as E.
      * by apply streq_true in E as ->.
      * by apply streq_false in E as ->.
    + destruct (Js.streq k0 k') eqn:E1; [|exact IH].
      apply streq_true in E1 as ->. apply streq_false in E0.
      by rewrite decide_False by congruence.
Qed.

Lemma objSet_keys o k v :
  map fst (Js.objSet o k v)
  = if decide (k ∈ map fst o) then map fst o else map fst o ++ [k].
Proof.
  induction o as [|[k0 v0] r IH]; cbn.
  - rewrite decide_False; [done | apply not_elem_of_nil].
  - destruct (Js.streq k0 k) eqn:E0; cbn.
    + apply streq_true in E0 as ->. rewrite decide_True; [done | left].
    + apply streq_false in E0. rewrite IH.
      destruct (decide (k ∈ map fst r)) as [Hin|Hin].
      * rewrite decide_True; [done | by right].
      * rewrite decide_False; [done|]. rewrite elem_of_cons.
        intros [?|?]; [congruence | done].
Qed.

Lemma objSet_NoDup o k v :
  NoDup (map fst o) -> NoDup (map fst (Js.objSet o k v)).
Proof.
  intros Hnd. rewrite objSet_keys. case_decide as Hin; [done|].
  apply NoDup_app. split; [done|]. split; [|apply NoDup_singleton].
  intros x Hx Hx'. by apply list_elem_of_singleton in Hx' as ->.
Qed.

Lemma objGet_elem_of o k v :
  NoDup (map fst o) -> ((k, v) ∈ o <-> Js.objGet o k = Some v).
Proof.
  induction o as [|[k0 v0] r IH]; cbn; intros Hnd.
  - split; [by intros ?%not_elem_of_nil | done].
  - apply NoDup_cons in Hnd as [Hk0 Hnd]. rewrite elem_of_cons.
    destruct (Js.streq k0 k) eqn:E.
    + apply streq_true in E as ->. split.
      * intros [H|H]; [congruence|]. exfalso. apply Hk0.
        change k with (fst (k, v)). by apply list_elem_of_fmap_2.
      * intros [= ->]. by left.
    + apply streq_false in E. rewrite <- IH by done. split.
      * intros [H|H]; [congruence | done].
      * by right.
Qed.

Lemma entries_perm o : Js.entries o ≡ₚ o.
Proof.
  unfold Js.entries. rewrite sort_perm.
  induction o as [|e r IH]; [reflexivity|].
  rewrite !filter_cons.
  destruct (decide (Js.isArrayIndex e.1 = true)) as [E|E].
  - rewrite decide_False by tauto. cbn. by rewrite IH.
  - rewrite decide_True by tauto.
    rewrite <- Permutation_middle. by rewrite IH.
Qed.

End ObjFacts.

(** ** [String.prototype.trim] *)

Section TrimFacts.

(** One step of [trimStart]: a white-space code point of one, two or
    three bytes is dropped, or nothing is. *)
Ltac trimStart_step c1 r1 :=
  let c2 := fresh "c" in
  let r2 := fresh "r" in
  let c3 := fresh "c" in
  let r3 := fresh "r" in
  cbn [Js.trimStart];
  destruct (Js.isSpace c1) eqn:?;
  [|destruct r1 as [|c2 r2];
    [|destruct (Js.isSpace2 c1 c2) eqn:?;
      [|destruct r2 as [|c3 r3];
        [|destruct (Js.isSpace3 c1 c2 c3) eqn:?]]]].

Lemma trimStart_shorter n : forall s,
  (String.length s <= n)%nat ->
  (String.length (Js.trimStart s) <= String.length s)%nat.
Proof.
  induction n as [|n IH]; intros [|c1 r1] Hn; cbn [String.length] in *;
    try lia; try reflexivity.
  trimStart_step c1 r1; cbn [String.length] in *; try lia;
    (etrans; [apply IH; cbn [String.length] in *; lia|];
     cbn [String.length]; lia).
Qed.

Lemma trimStart_length s :
  (String.length (Js.trimStart s) <= String.length s)%nat.
Proof. by apply (trimStart_shorter (String.length s)). Qed.

Lemma trimStart_twice n : forall s,
  (String.length s <= n)%nat ->
  Js.trimStart (Js.trimStart s) = Js.trimStart s.
Proof.
  induction n as [|n IH]; intros [|c1 r1] Hn; cbn [String.length] in *;
    try lia; try reflexivity.
  assert (Hrec : forall r, (String.length r <= n)%nat ->
            Js.trimStart (Js.trimStart r) = Js.trimStart r) by exact IH.
  remember (String c1 r1) as s eqn:Es.
  assert (Hs : Js.trimStart s = s
               \/ exists r, (String.length r <= n)%nat
                            /\ Js.trimStart s = Js.trimStart r).
  { subst s. trimStart_step c1 r1; cbn [String.length] in *;
      try (by left); right; eexists; (split; [|reflexivity]);
      cbn [String.length] in *; lia. }
  destruct Hs as [Hs|(r & Hr & Hs)]; rewrite Hs; [exact Hs | by apply Hrec].
Qed.

(** White space followed by white space is white space. *)
Lemma trimStart_blank_app n : forall a w,
  (String.length a <= n)%nat ->
  Js.trimStart a = EmptyString -> Js.trimStart w = EmptyString ->
  Js.trimStart (String.append a w) = EmptyString.
Proof.
  induction n as [|n IH]; intros [|c1 r1] w Hn Ha Hw;
    cbn [String.length] in *; try lia; try exact Hw.
  revert Ha.
  change (String.append (String c1 r1) w) with (String c1 (String.append r1 w)).
  cbn [Js.trimStart]. destruct (Js.isSpace c1).
  { intros Ha. apply IH; [lia | done | done]. }
  destruct r1 as [|c2 r2]; [done|].
  change (String.append (String c2 r2) w) with (String c2 (String.append r2 w)).
  cbv iota. destruct (Js.isSpace2 c1 c2).
  { intros Ha. apply IH; [cbn [String.length] in *; lia | done | done]. }
  destruct r2 as [|c3 r3]; [done|].
  change (String.append (String c3 r3) w) with (String c3 (String.append r3 w)).
  cbv iota. destruct (Js.isSpace3 c1 c2 c3); [|done].
  intros Ha. apply IH; [cbn [String.length] in *; lia | done | done].
Qed.

(** What [trimEnd] cuts off is white space. *)
Lemma trimEnd_split s :
  exists w, s = String.append (Js.trimEnd s) w /\ Js.trimStart w = EmptyString.
Proof.
  induction s as [|c r (w & Hr & Hw)]; [by exists EmptyString|].
  cbn [Js.trimEnd]. destruct (Js.trimStart (String c r)) eqn:E.
  - by exists (String c r).
  - exists w. split; [|exact Hw].
    change (String.append (String c (Js.trimEnd r)) w)
      with (String c (String.append (Js.trimEnd r) w)).
    by rewrite <- Hr.
Qed.

Lemma trimEnd_idemp s : Js.trimEnd (Js.trimEnd s) = Js.trimEnd s.
Proof.
  induction s as [|c r IH]; [reflexivity|].
  cbn [Js.trimEnd]. destruct (Js.trimStart (String c r)) eqn:E; [reflexivity|].
  cbn [Js.trimEnd]. rewrite IH.
  destruct (Js.trimStart (String c (Js.trimEnd r))) eqn:E'; [|reflexivity].
  exfalso. destruct (trimEnd_split r) as (w & Hr & Hw).
  pose proof (trimStart_blank_app _ _ w (Nat.le_refl _) E' Hw) as H.
  change (String.append (String c (Js.trimEnd r)) w)
    with (String c (String.append (Js.trimEnd r) w)) in H.
  rewrite <- Hr, E in H. discriminate H.
Qed.

(** A text that does not start with white space still does not once its
    end is trimmed. *)
Lemma trimStart_trimEnd s :
  Js.trimStart s = s -> Js.trimStart (Js.trimEnd s) = Js.trimEnd s.
Proof.
  destruct s as [|c1 r1]; [reflexivity|]. intros Hs.
  assert (Hlen : forall r, (String.length r < String.length (String c1 r1))%nat ->
            Js.trimStart (String c1 r1) <> Js.trimStart r).
  { intros r Hr Heq. rewrite Hs in Heq.
    pose proof (trimStart_length r) as H. rewrite <- Heq in H. lia. }
  assert (H1 : Js.isSpace c1 = false).
  { destruct (Js.isSpace c1) eqn:E; [|reflexivity]. exfalso.
    apply (Hlen r1); [cbn; lia|]. cbn [Js.trimStart]. by rewrite E. }
  assert (H2 : forall c2 r2, r1 = String c2 r2 -> Js.isSpace2 c1 c2 = false).
  { intros c2 r2 ->. destruct (Js.isSpace2 c1 c2) eqn:E; [|reflexivity].
    exfalso. apply (Hlen r2); [cbn; lia|]. cbn [Js.trimStart].
    by rewrite H1, E. }
  assert (H3 : forall c2 c3 r3, r1 = String c2 (String c3 r3) ->
            Js.isSpace3 c1 c2 c3 = false).
  { intros c2 c3 r3 ->. destruct (Js.isSpace3 c1 c2 c3) eqn:E; [|reflexivity].
    exfalso. apply (Hlen r3); [cbn; lia|]. cbn [Js.trimStart].
    by rewrite H1, (H2 c2 _ eq_refl), E. }
  cbn [Js.trimEnd]. rewrite Hs.
  cbn [Js.trimStart]. rewrite H1.
  destruct r1 as [|c2 r2]; [reflexivity|].
  cbn [Js.trimEnd]. destruct (Js.trimStart (String c2 r2)); [reflexivity|].
  rewrite (H2 c2 r2 eq_refl).
  destruct r2 as [|c3 r3]; [reflexivity|].
  cbn [Js.trimEnd]. destruct (Js.trimStart (String c3 r3)); [reflexivity|].
  by rewrite (H3 c2 c3 r3 eq_refl).
Qed.

Lemma trim_idemp s : Js.trim (Js.trim s) = Js.trim s.
Proof.
  unfold Js.trim.
  rewrite trimStart_trimEnd
    by apply (trimStart_twice (String.length s)), Nat.le_refl.
  apply trimEnd_idemp.
Qed.

End TrimFacts.

(** ** Language distribution *)

Section LanguageDistribution.

Import Analytics.

Local Open Scope string_scope.

Lemma truthyStr_false s : Js.truthyStr s = false <-> s = EmptyString.
Proof. destruct s; cbn; split; congruence. Qed.

Lemma truthyStr_true s : Js.truthyStr s = true <-> s <> EmptyString.
Proof. destruct s; cbn; split; congruence. Qed.

Lemma addMapEntry_spec o e :
  addMapEntry o e
  = match specMapEntry e with
    | Some c => addCount o (fst c) (snd c)
    | None => Some o
    end.
Proof.
  unfold addMapEntry, specMapEntry.
  destruct (Js.truthyStr (Js.trim e.1)) eqn:E1; cbn [andb].
  2:{ apply truthyStr_false in E1. rewrite decide_True; tauto. }
  apply truthyStr_true in E1.
  destruct (0 <? e.2)%Z eqn:E2; cbn [andb].
  2:{ apply Z.ltb_ge in E2. rewrite decide_True; tauto. }
  apply Z.ltb_lt in E2.
  destruct (Js.streq (Js.trim e.1) "Unknown") eqn:E3; cbn [andb negb].
  { apply streq_true in E3. rewrite decide_True; tauto. }
  apply streq_false in E3.
  destruct (Js.streq (Js.trim e.1) "null") eqn:E4; cbn [andb negb].
  { apply streq_true in E4. rewrite decide_True; tauto. }
  apply streq_false in E4.
  rewrite decide_False; [reflexivity|]. intros [?|[?|[?|?]]]; try done. lia.
Qed.

Lemma listCount_spec count value :
  Js.or0 (Js.orZ (Js.orZ (Js.orZ count value) (Some 1)) (Some 1))
  = specListCount count value.
Proof.
  unfold specListCount, Js.orZ, Js.truthyZ.
  destruct count as [c|], value as [v|]; cbn;
    repeat match goal with
      | |- context [(?x =? 0)%Z] =>
          destruct (Z.eqb_spec x 0); subst; cbn
      end;
    repeat case_decide; try reflexivity; try congruence; try lia.
Qed.

Lemma addListEntry_spec o lang :
  addListEntry o lang
  = match specListEntry lang with
    | Some c => addCount o (fst c) (snd c)
    | None => Some o
    end.
Proof.
  destruct lang as [s|[name|] count value|]; cbn [addListEntry specListEntry];
    try reflexivity.
  - destruct (Js.truthyStr (Js.trim s)) eqn:E1; cbn [andb].
    2:{ apply truthyStr_false in E1. rewrite decide_True; tauto. }
    apply truthyStr_true in E1.
    destruct (Js.streq (Js.trim s) "Unknown") eqn:E3; cbn [andb negb].
    { apply streq_true in E3. rewrite decide_True; tauto. }
    apply streq_false in E3. rewrite decide_False; [reflexivity | tauto].
  - rewrite listCount_spec.
    destruct (Js.truthyStr name) eqn:E0.
    2:{ apply truthyStr_false in E0 as ->. cbn. reflexivity. }
    destruct (Js.truthyStr (Js.trim name)) eqn:E1; cbn [andb].
    2:{ apply truthyStr_false in E1. rewrite decide_True; tauto. }
    apply truthyStr_true in E1.
    destruct (Js.streq (Js.trim name) "Unknown") eqn:E3; cbn [andb negb].
    { apply streq_true in E3. rewrite decide_True; tauto. }
    apply streq_false in E3.
    destruct (0 <? specListCount count value)%Z eqn:E2.
    + apply Z.ltb_lt in E2. rewrite decide_False; [reflexivity|].
      intros [?|[?|?]]; try done. lia.
    + apply Z.ltb_ge in E2. rewrite decide_True; tauto.
Qed.

Lemma forEach_omap {X} (step : Js.Obj Z -> X -> option (Js.Obj Z))
      (spec : X -> option (string * Z)) :
  (forall o x, step o x
     = match spec x with
       | Some c => addCount o (fst c) (snd c)
       | None => Some o
       end) ->
  forall es o, forEach step es o = countAll (omap spec es) o.
Proof.
  intros Hstep es. induction es as [|x es IH]; intros o; [reflexivity|].
  cbn [forEach omap list_omap]. rewrite Hstep.
  destruct (spec x) as [c|]; [|apply IH].
  unfold countAll. cbn [forEach]. fold (countAll (omap spec es)).
  destruct (addCount o c.1 c.2); [apply IH | reflexivity].
Qed.

Lemma countAll_app cs1 cs2 : forall o,
  countAll (cs1 ++ cs2) o
  = match countAll cs1 o with
    | Some o' => countAll cs2 o'
    | None => None
    end.
Proof.
  unfold countAll. induction cs1 as [|c cs1 IH]; intros o; [reflexivity|].
  cbn [app forEach]. destruct (addCount o c.1 c.2); [apply IH | reflexivity].
Qed.

Lemma addMember_spec st m :
  fst <$> addMember st m = countAll (specMember m) (fst st).
Proof.
  unfold addMember, specMember.
  destruct (githubActivity m) as [a|]; [|reflexivity].
  destruct (languages a) as [[es|es|]|]; try reflexivity.
  - rewrite (forEach_omap addMapEntry specMapEntry addMapEntry_spec).
    by destruct (countAll _ _).
  - rewrite (forEach_omap addListEntry specListEntry addListEntry_spec).
    by destruct (countAll _ _).
Qed.

Lemma languageCountsOf_fst members : forall st,
  fst <$> forEach addMember members st
  = countAll (specContributions members) (fst st).
Proof.
  induction members as [|m ms IH]; intros st; [reflexivity|].
  unfold specContributions. cbn [forEach map concat].
  rewrite countAll_app, <- addMember_spec.
  destruct (addMember st m) as [st'|]; [apply IH | reflexivity].
Qed.

(** [hasLanguageData] is set before anything is counted. *)
Lemma languageCountsOf_flag members : forall st st',
  forEach addMember members st = Some st' ->
  (snd st = false -> fst st = []) ->
  snd st' = false -> fst st' = [].
Proof.
  induction members as [|m ms IH]; intros st st' E Hst.
  { cbn in E. by injection E as <-. }
  cbn [forEach] in E. destruct (addMember st m) as [st1|] eqn:E1; [|done].
  apply (IH st1 st' E).
  unfold addMember in E1. destruct (githubActivity m) as [a|];
    [|by injection E1 as <-].
  destruct (languages a) as [[es|es|]|].
  - destruct (forEach addMapEntry es st.1); [|done]. by injection E1 as <-.
  - destruct (forEach addListEntry es st.1); [|done]. by injection E1 as <-.
  - by injection E1 as <-.
  - by injection E1 as <-.
Qed.

Lemma inheritedName_cons c cs :
  inheritedName (c :: cs)
  <-> Js.inheritsFunction (fst c) = true \/ inheritedName cs.
Proof.
  unfold inheritedName. split.
  - intros (c' & [->|Hin]%elem_of_cons & Hc'); [by left|].
    right. by exists c'.
  - intros [Hc|(c' & Hin & Hc')].
    + exists c. split; [left | done].
    + exists c'. split; [by right | done].
Qed.

Lemma addCount_proto o k n :
  Js.streq k Js.protoKey = true -> addCount o k n = Some o.
Proof. intros H. unfold addCount. by rewrite H. Qed.

Lemma addCount_inherited o k n :
  Js.inheritsFunction k = true -> Js.objGet o k = None ->
  addCount o k n = None.
Proof.
  intros Hk Ho. unfold addCount. rewrite Ho, Hk.
  destruct (Js.streq k Js.protoKey) eqn:E; [|done].
  apply streq_true in E. subst k. discriminate Hk.
Qed.

Lemma addCount_plain o k n :
  Js.streq k Js.protoKey = false -> Js.inheritsFunction k = false ->
  addCount o k n = Some (addContribution o (k, n)).
Proof.
  intros Hp Hk. unfold addCount, addContribution. rewrite Hp, Hk. cbn [fst snd].
  by destruct (Js.objGet o k).
Qed.

(** The counts stay numbers unless a contribution is named as an
    inherited function; they are then the sums of the contributions that
    are not named [__proto__]. *)
Lemma countAll_cases cs : forall o,
  (forall k, Js.inheritsFunction k = true -> Js.objGet o k = None) ->
  (inheritedName cs /\ countAll cs o = None)
  \/ (~ inheritedName cs
      /\ countAll cs o = Some (fold_left addContribution (written cs) o)).
Proof.
  induction cs as [|c cs IH]; intros o Ho.
  { right. split; [intros (c & Hin & _); by apply elem_of_nil in Hin | done]. }
  unfold countAll, written. cbn [forEach List.filter].
  fold (countAll cs) (written cs).
  rewrite inheritedName_cons.
  destruct (Js.streq c.1 Js.protoKey) eqn:Ep; cbn [negb].
  { rewrite addCount_proto by done. apply streq_true in Ep.
    assert (Js.inheritsFunction c.1 = false) as Hc by (by rewrite Ep).
    destruct (IH o Ho) as [[H1 H2]|[H1 H2]]; [left | right];
      (split; [|done]); [tauto|]. intros [?|?]; [congruence | done]. }
  destruct (Js.inheritsFunction c.1) eqn:Hc.
  { left. rewrite addCount_inherited by auto. split; [by left | done]. }
  rewrite addCount_plain by done.
  replace (c.1, c.2) with c by (by destruct c). cbn [fold_left].
  destruct (IH (addContribution o c)) as [[H1 H2]|[H1 H2]].
  { intros k Hk. unfold addContribution. rewrite objGet_objSet.
    rewrite decide_False by congruence. by apply Ho. }
  - left. split; [tauto | done].
  - right. split; [|done]. intros [?|?]; [congruence | done].
Qed.

Lemma totalFor_cons k c cs :
  totalFor k (c :: cs)
  = if decide (fst c = k) then snd c + totalFor k cs else totalFor k cs.
Proof.
  unfold totalFor. cbn [List.filter].
  destruct (Js.streq c.1 k) eqn:E.
  - apply streq_true in E. by rewrite decide_True.
  - apply streq_false in E. by rewrite decide_False.
Qed.

Lemma totalFor_absent k cs : k ∉ map fst cs -> totalFor k cs = 0.
Proof.
  induction cs as [|c cs IH]; intros Hk; [reflexivity|].
  cbn in Hk. apply not_elem_of_cons in Hk as [Hne Hk].
  rewrite totalFor_cons, decide_False by congruence. by apply IH.
Qed.

(** The merged mapping holds, under each name that contributed, the sum
    of the contributions. *)
Lemma merge_lookup cs : forall (o : Js.Obj Z) k,
  Js.objGet (fold_left addContribution cs o) k
  = if decide (k ∈ map fst cs)
    then Some (Js.or0 (Js.objGet o k) + totalFor k cs)
    else Js.objGet o k.
Proof.
  induction cs as [|[k1 v1] cs IH]; intros o k.
  - cbn. rewrite decide_False; [done | apply not_elem_of_nil].
  - cbn [fold_left map]. rewrite IH, totalFor_cons.
    unfold addContribution. cbn [fst snd].
    rewrite objGet_objSet.
    destruct (decide (k1 = k)) as [->|Hne].
    + rewrite (decide_True (P := k ∈ k :: _)) by left. cbn [Js.or0].
      case_decide; f_equal; [lia|]. rewrite totalFor_absent by done. lia.
    + destruct (decide (k ∈ map fst cs)) as [Hin|Hin].
      * rewrite decide_True by by right. done.
      * rewrite decide_False; [done|].
        rewrite elem_of_cons. intros [?|?]; [congruence | done].
Qed.

Lemma merge_NoDup cs : forall o : Js.Obj Z,
  NoDup (map fst o) -> NoDup (map fst (fold_left addContribution cs o)).
Proof.
  induction cs as [|c cs IH]; intros o Ho; [exact Ho|].
  cbn [fold_left]. apply IH. by apply objSet_NoDup.
Qed.

Lemma specMapEntry_good e c :
  specMapEntry e = Some c -> goodContribution c /\ fst c <> "null".
Proof.
  unfold specMapEntry, goodContribution.
  case_decide as H; [done|]. intros [= <-]. cbn [fst snd].
  rewrite trim_idemp. repeat split; try tauto. lia.
Qed.

Lemma specListEntry_good lang c :
  specListEntry lang = Some c -> goodContribution c.
Proof.
  unfold goodContribution.
  destruct lang as [s|[name|] count value|]; cbn [specListEntry]; try done;
    case_decide as H; try done; intros [= <-]; cbn [fst snd];
    rewrite trim_idemp; repeat split; try tauto; lia.
Qed.

Lemma specMember_good m c : c ∈ specMember m -> goodContribution c.
Proof.
  unfold specMember. destruct (githubActivity m) as [a|].
  2:{ intros H. by apply elem_of_nil in H. }
  destruct (languages a) as [[es|es|]|];
    try (intros H; by apply elem_of_nil in H).
  - intros (e & _ & He)%list_elem_of_omap.
    by apply (specMapEntry_good e c).
  - intros (e & _ & He)%list_elem_of_omap.
    by apply (specListEntry_good e c).
Qed.

Lemma specContributions_good members c :
  c ∈ specContributions members -> goodContribution c.
Proof.
  unfold specContributions. intros Hc%list_elem_of_In.
  apply in_concat in Hc as (l & Hl & Hc).
  apply in_map_iff in Hl as (m & <- & _).
  apply (specMember_good m). by apply list_elem_of_In.
Qed.

Lemma specContributions_not_null members c :
  mappingOnly members -> c ∈ specContributions members -> fst c <> "null".
Proof.
  unfold specContributions. intros Hmap Hc%list_elem_of_In.
  apply in_concat in Hc as (l & Hl & Hc).
  apply in_map_iff in Hl as (m & <- & Hm).
  unfold mappingOnly in Hmap. rewrite List.Forall_forall in Hmap.
  specialize (Hmap m Hm). unfold specMember in Hc.
  destruct (githubActivity m) as [a|]; [|done].
  destruct (languages a) as [[es|es|]|]; try done.
  apply list_elem_of_In, list_elem_of_omap in Hc as (e & _ & He).
  by apply (specMapEntry_good e c).
Qed.

Lemma totalFor_pos k cs :
  (forall c, c ∈ cs -> 0 < snd c) -> k ∈ map fst cs -> 0 < totalFor k cs.
Proof.
  induction cs as [|c cs IH]; intros Hpos Hk.
  - by apply not_elem_of_nil in Hk.
  - rewrite totalFor_cons.
    assert (0 < snd c) by (apply Hpos; left).
    assert (forall c', c' ∈ cs -> 0 < snd c') as Hpos'
      by (intros; apply Hpos; by right).
    destruct (decide (k ∈ map fst cs)) as [Hin|Hin].
    + specialize (IH Hpos' Hin). case_decide; lia.
    + cbn in Hk. apply elem_of_cons in Hk as [->|?]; [|done].
      rewrite decide_True by done. rewrite totalFor_absent by done. lia.
Qed.

Lemma mathMax_spec l mx :
  Js.mathMax l = Some mx -> mx ∈ l /\ forall v, v ∈ l -> v <= mx.
Proof.
  destruct l as [|x r]; [done|]. cbn. intros [= <-].
  revert x. induction r as [|y r IH]; intros x; cbn.
  - split; [left|]. intros v ->%list_elem_of_singleton. lia.
  - destruct (IH (Z.max x y)) as [Hin Hle]. split.
    + apply elem_of_cons in Hin as [Heq|Hin].
      * rewrite Heq. destruct (Z.max_spec x y) as [[_ ->]|[_ ->]];
          [right; left | left].
      * by do 2 right.
    + intros v Hv. apply elem_of_cons in Hv as [->|Hv].
      * etrans; [|apply Hle; left]. lia.
      * apply elem_of_cons in Hv as [->|Hv].
        -- etrans; [|apply Hle; left]. lia.
        -- apply Hle. by right.
Qed.

Lemma filter_all {X} (p : X -> bool) l :
  (forall x, In x l -> p x = true) -> List.filter p l = l.
Proof.
  induction l as [|x l IH]; intros H; [reflexivity|]. cbn.
  rewrite (H x) by by left. f_equal. apply IH. intros; apply H; by right.
Qed.

Lemma combine_fst_snd {X Y} (l : list (X * Y)) :
  combine (map fst l) (map snd l) = l.
Proof. induction l as [|[x y] l IH]; cbn; congruence. Qed.

Lemma written_names cs k :
  k ∈ map fst (written cs) <-> k ∈ map fst cs /\ k <> Js.protoKey.
Proof.
  unfold written. rewrite !list_elem_of_fmap. split.
  - intros (c & -> & Hc%list_elem_of_In). apply filter_In in Hc as [Hin Hk].
    apply negb_true_iff, streq_false in Hk.
    split; [|done]. exists c. split; [done | by apply list_elem_of_In].
  - intros [(c & -> & Hc) Hk]. exists c. split; [done|].
    apply list_elem_of_In, filter_In. split; [by apply list_elem_of_In|].
    by apply negb_true_iff, streq_false.
Qed.

Lemma written_total cs k :
  k <> Js.protoKey -> totalFor k (written cs) = totalFor k cs.
Proof.
  intros Hk. unfold written. induction cs as [|c cs IH]; [reflexivity|].
  cbn [List.filter]. destruct (Js.streq c.1 Js.protoKey) eqn:E; cbn [negb].
  - apply streq_true in E. rewrite (totalFor_cons k c cs).
    by rewrite decide_False by congruence.
  - rewrite !totalFor_cons, IH. reflexivity.
Qed.

Lemma merged_elem_of cs counts k v :
  countAll cs [] = Some counts ->
  (k, v) ∈ Js.entries counts
  <-> k ∈ map fst cs /\ k <> Js.protoKey /\ v = totalFor k cs.
Proof.
  intros E.
  destruct (countAll_cases cs [] ltac:(done)) as [[_ Hnone]|[Hno Hsome]];
    [congruence|].
  rewrite Hsome in E. injection E as <-.
  rewrite entries_perm.
  rewrite objGet_elem_of by (apply merge_NoDup; constructor).
  rewrite merge_lookup. cbn [Js.objGet Js.or0].
  case_decide as Hk.
  - apply written_names in Hk as [Hk Hp]. rewrite written_total by done.
    split.
    + intros [= <-]. repeat split; try done; lia.
    + intros (_ & _ & ->). f_equal; lia.
  - split; [done|]. intros (Hin & Hp & _). destruct Hk.
    by apply written_names.
Qed.

(** C6, as the code has it. The members' language values are merged
    into one mapping from name to the sum of the contributions made under
    that name. A mapping entry contributes its count under its trimmed
    name unless the name is empty, ["Unknown"] or ["null"] or the count is
    not positive; a list entry contributes as [specListEntry] says (a
    string counts 1, an object its [count], else [value], else 1; empty,
    ["Unknown"] and negative counts are left out). The counts are numbers
    unless a contribution is named as a function that every object
    inherits. They are then the sums of the contributions, those named
    [__proto__] left out; the result lists the 15 largest totals in
    descending order, ties in the mapping's enumeration order, and
    [isBytes] holds exactly when the largest retained value exceeds 10000.
    The input [{JS: 500, Unknown: 10, Go: 0}] yields [{JS: 500}]. *)
Theorem languageData_distribution (members : list Member) :
  let cs := specContributions members in
  (getLanguageData members = None <-> inheritedName cs)
  /\ (~ inheritedName cs ->
      exists counts has R,
        languageCountsOf members = Some (counts, has)
        /\ getLanguageData members = Some R
        /\ let merged := Js.entries counts in
           NoDup (map fst merged)
           /\ (forall k v,
                 (k, v) ∈ merged
                 <-> k ∈ map fst cs /\ k <> Js.protoKey
                     /\ v = totalFor k cs)
           /\ (forall k v, (k, v) ∈ merged ->
                 k <> EmptyString /\ k <> "Unknown" /\ 0 < v)
           /\ (mappingOnly members ->
               forall k v, (k, v) ∈ merged -> k <> "null")
           /\ (merged = [] -> R = noLanguageData)
           /\ (merged <> [] ->
               TopSpec snd 15 merged (combine (labels R) (data R))
               /\ length (labels R) = length (data R))
           /\ (exists mx, mx ∈ data R /\ (forall v, v ∈ data R -> v <= mx)
                          /\ isBytes R = (10000 <? mx)%Z))
  /\ getLanguageData [exampleMapping]
     = Some {| labels := ["JS"]; data := [500]; isBytes := false |}.
Proof.
  intros cs.
  pose proof (languageCountsOf_fst members ([], false)) as Hfst.
  fold (languageCountsOf members) in Hfst. cbn [fst] in Hfst. fold cs in Hfst.
  assert (Hcases : (inheritedName cs /\ getLanguageData members = None)
                   \/ (~ inheritedName cs
                       /\ exists counts has R,
                            languageCountsOf members = Some (counts, has)
                            /\ getLanguageData members = Some R
                            /\ countAll cs [] = Some counts
                            /\ counts
                               = fold_left addContribution (written cs) [])).
  { unfold getLanguageData.
    destruct (countAll_cases cs [] ltac:(done)) as [[Hi Hnone]|[Hno Hsome]].
    - left. split; [exact Hi|]. rewrite Hnone in Hfst.
      by destruct (languageCountsOf members) as [[counts has]|].
    - right. split; [exact Hno|]. rewrite Hsome in Hfst.
      destruct (languageCountsOf members) as [[counts has]|]; [|done].
      cbn in Hfst. injection Hfst as Hfst.
      exists counts, has. rewrite Hsome, Hfst.
      destruct (negb has || (length _ =? 0)%nat); [by eexists|].
      destruct (Js.mathMax _); by eexists. }
  split.
  { destruct Hcases as [[Hi ->]|[Hno (counts & has & R & _ & -> & _)]];
      [done|]. split; [done | tauto]. }
  split; [|reflexivity].
  intros Hno.
  destruct Hcases as [[Hi _]|[_ (counts & has & R & Ecounts & ER & Hcounts & Hfold)]];
    [done|].
  exists counts, has, R. split; [exact Ecounts|]. split; [exact ER|].
  cbv zeta. set (merged := Js.entries counts).
  assert (Hnd : NoDup (map fst merged)).
  { subst merged. rewrite entries_perm, Hfold.
    apply merge_NoDup. constructor. }
  assert (Hin : forall k v,
             (k, v) ∈ merged
             <-> k ∈ map fst cs /\ k <> Js.protoKey /\ v = totalFor k cs)
    by (intros k v; by apply merged_elem_of).
  assert (Hgood : forall k v, (k, v) ∈ merged ->
             Js.trim k = k /\ k <> EmptyString /\ k <> "Unknown" /\ 0 < v).
  { intros k v (Hk & _ & ->)%Hin.
    pose proof Hk as Hk'.
    apply list_elem_of_fmap in Hk' as ([k' v'] & -> & Hc).
    destruct (specContributions_good members _ Hc) as (H1 & H2 & H3 & H4).
    cbn [fst] in *. repeat split; try done.
    apply totalFor_pos; [|done].
    intros c Hc'. by apply (specContributions_good members c). }
  (* unfold the code *)
  assert (HR : R = noLanguageData /\ merged = []
               \/ merged <> [] /\
                  exists mx,
                    Js.mathMax (map snd (Js.slice0 15 (Js.sort byCountDesc merged)))
                    = Some mx
                    /\ R = {| labels := map fst (Js.slice0 15 (Js.sort byCountDesc merged));
                              data := map snd (Js.slice0 15 (Js.sort byCountDesc merged));
                              isBytes := (10000 <? mx)%Z |}).
  { unfold getLanguageData in ER. rewrite Ecounts in ER.
    pose proof (languageCountsOf_flag members ([], false) (counts, has)
                  Ecounts (fun _ => eq_refl)) as Hflag.
    cbn [fst snd] in Hflag. subst merged.
    destruct counts as [|c0 counts].
    { left. rewrite orb_true_r in ER. injection ER as <-. done. }
    right.
    assert (Hne : Js.entries (c0 :: counts) <> []).
    { intros Heq. pose proof (entries_perm (c0 :: counts)) as Hp.
      rewrite Heq in Hp. by apply Permutation_nil_cons in Hp. }
    split; [exact Hne|].
    destruct has; [|specialize (Hflag eq_refl); done].
    cbn [negb orb length Nat.eqb] in ER.
    set (top := Js.slice0 15 (Js.sort byCountDesc (Js.entries (c0 :: counts))))
      in *.
    assert (Hsub : forall e, In e top -> e ∈ Js.entries (c0 :: counts)).
    { intros e He. subst top. unfold Js.slice0 in He.
      apply list_elem_of_In, subseteq_take in He.
      by rewrite sort_perm in He. }
    rewrite filter_all in ER.
    2:{ intros [k v] He. apply Hsub, Hgood in He as (Ht & Hk & Hu & _).
        cbn [fst]. rewrite Ht.
        rewrite (proj2 (truthyStr_true k)) by done.
        rewrite (proj2 (streq_false k EmptyString)) by done.
        by rewrite (proj2 (streq_false k "Unknown")) by done. }
    destruct top as [|e top'] eqn:Etop.
    { exfalso. subst top.
      assert (length (Js.slice0 15 (Js.sort byCountDesc (Js.entries (c0 :: counts)))) = 0%nat)
        as Hlen by by rewrite Etop.
      unfold Js.slice0 in Hlen. rewrite length_take in Hlen.
      rewrite (Permutation_length (sort_perm _ _)) in Hlen.
      destruct (Js.entries (c0 :: counts)); [done | cbn in Hlen; lia]. }
    destruct (Js.mathMax (map snd (e :: top'))) as [mx|] eqn:Emx; [|done].
    injection ER as <-. by exists mx. }
  split; [exact Hnd|]. split; [exact Hin|].
  split; [intros k v H; apply Hgood in H; tauto|].
  split.
  { intros Hmap k v (Hk & _)%Hin.
    apply list_elem_of_fmap in Hk as (c & -> & Hc).
    by apply (specContributions_not_null members). }
  split.
  { intros Hm. destruct HR as [[-> _]|[Hne _]]; done. }
  split.
  { intros Hne. destruct HR as [[_ ?]|[_ (mx & _ & ->)]]; [done|].
    cbn [labels data]. rewrite combine_fst_snd, !length_map.
    split; [apply (sort_slice0_top snd) | done]. }
  destruct HR as [[-> _]|[_ (mx & Hmx & ->)]].
  - exists 1. cbn. split; [left|]. split; [|done].
    intros v ->%list_elem_of_singleton. lia.
  - exists mx. cbn [data isBytes].
    apply mathMax_spec in Hmx as [? ?]. done.
Qed.

(** On a list-form value the name ["null"] is kept, and an entry whose
    count is [0] is counted once instead of being left out. *)
Lemma languageData_list_counterexample :
  getLanguageData [exampleList]
  = Some {| labels := ["null"; "Go"]; data := [1; 1]; isBytes := false |}.
Proof. reflexivity. Qed.

(** A language named as an inherited function: its count becomes text. *)
Lemma languageData_inherited_name :
  getLanguageData [exampleInherited] = None.
Proof. reflexivity. Qed.

(** A run of [languageData_distribution] on the specification's
    example. *)
Lemma languageData_distribution_witness :
  exists counts R,
    languageCountsOf [exampleMapping] = Some (counts, true)
    /\ getLanguageData [exampleMapping] = Some R
    /\ TopSpec snd 15 (Js.entries counts) (combine (labels R) (data R))
    /\ (("JS", 500) ∈ Js.entries counts)
    /\ R = {| labels := ["JS"]; data := [500]; isBytes := false |}.
Proof.
  destruct (languageData_distribution [exampleMapping]) as (_ & H & Hex).
  destruct H as (counts & has & R & Hc & HR & _ & Hin & _ & _ & _ & Htop & _).
  - intros (c & Hc & Hf). vm_compute in Hc.
    apply list_elem_of_singleton in Hc as ->. discriminate Hf.
  - assert (has = true) as -> by (vm_compute in Hc; congruence).
    exists counts, R. split; [exact Hc|]. split; [exact HR|].
    assert (counts = [("JS", 500)]) as -> by (vm_compute in Hc; congruence).
    split; [apply Htop; vm_compute; discriminate|].
    split; [apply Hin; repeat split; vm_compute; try (left; done); done|].
    rewrite Hex in HR. by injection HR as <-.
Defined.

End LanguageDistribution.

(** ** [JSON.parse] undoes [JSON.stringify] *)

Section JsonRoundTrip.

Import Json.

Local Open Scope nat_scope.
Local Open Scope string_scope.

Lemma append_cons c (a b : string) :
  String.append (String c a) b = String c (String.append a b).
Proof. reflexivity. Qed.

Lemma append_nil (b : string) : String.append EmptyString b = b.
Proof. reflexivity. Qed.

Lemma append_assoc (a b c : string) :
  String.append (String.append a b) c = String.append a (String.append b c).
Proof.
  induction a as [|x a IH]; [reflexivity|].
  rewrite !append_cons. by rewrite IH.
Qed.

Lemma parseChars_escapeChar c t :
  parseChars (String.append (escapeChar c) t)
  = match parseChars t with
    | Some (x, r) => Some (String c x, r)
    | None => None
    end.
Proof.
  destruct c as [[] [] [] [] [] [] [] []]; reflexivity.
Qed.

Lemma parseChars_escape s rest :
  parseChars (String.append (escape s) (String dquote rest)) = Some (s, rest).
Proof.
  induction s as [|c s IH]; [reflexivity|].
  cbn [escape]. rewrite append_assoc, parseChars_escapeChar. by rewrite IH.
Qed.

Lemma closes_cases rest :
  closes rest = true ->
  rest = EmptyString
  \/ exists c t, rest = String c t
       /\ (c = ","%char \/ c = "]"%char \/ c = "}"%char).
Proof.
  destruct rest as [|c t]; [by left|]. cbn. intros H. right. exists c, t.
  split; [done|].
  apply orb_true_iff in H as [H|H]; [apply orb_true_iff in H as [H|H]|];
    apply Ascii.eqb_eq in H; auto.
Qed.

Lemma allDigits_uint d : Js.allDigits (NilEmpty.string_of_uint d) = true.
Proof. induction d; cbn; try done. Qed.

Lemma digitsValue_acc d : forall acc,
  Js.digitsValue (Npos acc) (NilEmpty.string_of_uint d)
  = Npos (Pos.of_uint_acc d acc).
Proof.
  induction d; intros acc; cbn [NilEmpty.string_of_uint Js.digitsValue
    Pos.of_uint_acc]; try reflexivity;
    match goal with
    | |- Js.digitsValue ?x _ = _ =>
        match goal with
        | |- _ = N.pos (Pos.of_uint_acc _ ?y) =>
            replace x with (N.pos y)
              by (match goal with
                  | |- context [N.of_nat ?n] =>
                      let v := eval vm_compute in (N.of_nat n) in
                      change (N.of_nat n) with v
                  end; lia)
        end
    end; apply IHd.
Qed.

Lemma digitsValue_uint d :
  Js.digitsValue 0 (NilEmpty.string_of_uint d) = Pos.of_uint d.
Proof.
  induction d; cbn [NilEmpty.string_of_uint Js.digitsValue Pos.of_uint];
    try reflexivity; try exact IHd;
    match goal with
    | |- Js.digitsValue ?x _ = N.pos (Pos.of_uint_acc _ ?y) =>
        change x with (N.pos y)
    end; apply digitsValue_acc.
Qed.

Lemma splitDigits_digits d rest :
  Js.allDigits d = true -> closes rest = true ->
  splitDigits (String.append d rest) = (d, rest).
Proof.
  intros Hd Hrest. induction d as [|c d IH].
  - rewrite append_nil.
    destruct (closes_cases rest Hrest) as [->|(c & t & -> & [->|[->| ->]])];
      reflexivity.
  - cbn in Hd. apply andb_true_iff in Hd as [Hc Hd].
    rewrite append_cons. cbn [splitDigits]. rewrite Hc, IH by done.
    reflexivity.
Qed.

Lemma to_uint_head p :
  exists c t, NilEmpty.string_of_uint (Pos.to_uint p) = String c t
    /\ Js.isDigit c = true /\ Ascii.eqb c "0"%char = false.
Proof.
  pose proof (Unsigned.to_of (Pos.to_uint p)) as Hn.
  rewrite Unsigned.of_to in Hn. cbn [N.to_uint] in Hn.
  pose proof (Unsigned.to_uint_nonzero p) as Hz.
  destruct (Pos.to_uint p) as [|u|u|u|u|u|u|u|u|u|u] eqn:E;
    try (eexists _, _; split; [reflexivity|]; split; reflexivity).
  - by destruct (Unsigned.to_uint_nonnil p).
  - exfalso. unfold Decimal.unorm in Hn. rewrite nzhead_D0 in Hn.
    destruct (Decimal.nzhead u) eqn:Eu.
    { by apply Hz. }
    all: rewrite <- Eu in Hn; symmetry in Hn; exact (nzhead_nonzero _ _ Hn).
Qed.

Lemma startsFraction_closes rest : closes rest = true -> startsFraction rest = false.
Proof.
  intros H.
  destruct (closes_cases rest H) as [->|(c & t & -> & [->|[->| ->]])];
    reflexivity.
Qed.

Lemma isDigit_not_minus c : Js.isDigit c = true -> Ascii.eqb c "-"%char = false.
Proof.
  destruct c as [[] [] [] [] [] [] [] []]; try reflexivity; discriminate.
Qed.

(** Digits without a leading zero, closed off by [rest]. *)
Lemma parseNumber_digits c t rest :
  Js.allDigits (String c t) = true ->
  Ascii.eqb c "0"%char && Js.truthyStr t = false ->
  closes rest = true ->
  parseNumber (String.append (String c t) rest)
  = Some (Z.of_N (Js.digitsValue 0 (String c t)), rest).
Proof.
  intros Hd H0 Hrest.
  assert (Hc : Js.isDigit c = true)
    by (cbn in Hd; by apply andb_true_iff in Hd as [? _]).
  unfold parseNumber. rewrite append_cons. cbv beta iota.
  rewrite (isDigit_not_minus c Hc). rewrite <- append_cons.
  rewrite splitDigits_digits by done. cbv beta iota.
  rewrite H0. by rewrite startsFraction_closes.
Qed.

Lemma parseNumber_minus c t rest :
  Js.allDigits (String c t) = true ->
  Ascii.eqb c "0"%char && Js.truthyStr t = false ->
  closes rest = true ->
  parseNumber (String "-" (String.append (String c t) rest))
  = Some ((- Z.of_N (Js.digitsValue 0 (String c t)))%Z, rest).
Proof.
  intros Hd H0 Hrest.
  unfold parseNumber. cbv beta iota.
  change (Ascii.eqb "-" "-") with true. cbv beta iota.
  rewrite splitDigits_digits by done. cbv beta iota.
  rewrite H0. by rewrite startsFraction_closes.
Qed.

Lemma string_of_uint_pos p :
  NilZero.string_of_uint (Pos.to_uint p)
  = NilEmpty.string_of_uint (Pos.to_uint p).
Proof.
  unfold NilZero.string_of_uint.
  destruct (Pos.to_uint p) eqn:E'; try reflexivity.
  by destruct (Unsigned.to_uint_nonnil p).
Qed.

Lemma parseNumber_numToString z rest :
  closes rest = true ->
  parseNumber (String.append (Js.numToString z) rest) = Some (z, rest).
Proof.
  intros Hrest. unfold Js.numToString, NilZero.string_of_int.
  destruct z as [|p|p]; cbn [Z.to_int].
  - change (NilZero.string_of_uint (Decimal.D0 Decimal.Nil))
      with (String "0" EmptyString).
    by rewrite parseNumber_digits.
  - destruct (to_uint_head p) as (c & t & E & Hc & H0).
    rewrite string_of_uint_pos.
    pose proof (allDigits_uint (Pos.to_uint p)) as Hd.
    pose proof (digitsValue_uint (Pos.to_uint p)) as Hv.
    rewrite E in *. rewrite parseNumber_digits; [|done|by rewrite H0|done].
    by rewrite Hv, Unsigned.of_to.
  - destruct (to_uint_head p) as (c & t & E & Hc & H0).
    rewrite string_of_uint_pos.
    pose proof (allDigits_uint (Pos.to_uint p)) as Hd.
    pose proof (digitsValue_uint (Pos.to_uint p)) as Hv.
    rewrite E in *. rewrite (append_cons "-").
    rewrite parseNumber_minus; [|done|by rewrite H0|done].
    by rewrite Hv, Unsigned.of_to.
Qed.

(** Induction over a value and the values inside it. *)
Lemma json_nested_ind (P : json -> Prop) :
  P JNull ->
  (forall b, P (JBool b)) ->
  (forall z, P (JNum z)) ->
  (forall s, P (JStr s)) ->
  (forall l, Forall P l -> P (JArr l)) ->
  (forall fields, Forall (fun kv => P (snd kv)) fields -> P (JObj fields)) ->
  forall v, P v.
Proof.
  intros Hnull Hbool Hnum Hstr Harr Hobj.
  fix IH 1. intros [| b | z | s | l | fields].
  - exact Hnull.
  - apply Hbool.
  - apply Hnum.
  - apply Hstr.
  - apply Harr. induction l as [|x l IHl]; constructor; [apply IH | exact IHl].
  - apply Hobj. induction fields as [|[k x] fields IHf]; constructor;
      [apply IH | exact IHf].
Qed.

Lemma numToString_head z :
  exists c t, Js.numToString z = String c t
    /\ (Js.isDigit c || Ascii.eqb c "-"%char) = true.
Proof.
  unfold Js.numToString, NilZero.string_of_int.
  destruct z as [|p|p]; cbn [Z.to_int].
  - by eexists _, _.
  - destruct (to_uint_head p) as (c & t & E & Hc & _).
    rewrite string_of_uint_pos, E. exists c, t. by rewrite Hc.
  - by eexists _, _.
Qed.

Lemma stringify_head v :
  exists c t, stringify v = String c t /\ valueStart c = true.
Proof.
  destruct v as [| [] | z | s | l | fields]; try (by eexists _, _).
  destruct (numToString_head z) as (c & t & E & Hc).
  exists c, t. split; [exact E|]. unfold valueStart.
  apply orb_true_iff in Hc as [-> | ->]; [reflexivity|].
  rewrite orb_true_r. reflexivity.
Qed.

Lemma parseValue_number fuel c r :
  (Js.isDigit c || Ascii.eqb c "-"%char) = true ->
  parseValue (S fuel) (String c r)
  = option_map (fun p => (JNum (fst p), snd p)) (parseNumber (String c r)).
Proof.
  destruct c as [[] [] [] [] [] [] [] []]; intros H;
    try discriminate H; reflexivity.
Qed.

Lemma parseValue_array fuel c r :
  valueStart c = true ->
  parseValue (S fuel) (String "[" (String c r))
  = parseElements fuel (String c r) [].
Proof.
  destruct c as [[] [] [] [] [] [] [] []]; intros H;
    try discriminate H; reflexivity.
Qed.

Lemma parseElements_step fuel s acc v r :
  parseValue fuel s = Some (v, r) ->
  parseElements (S fuel) s acc
  = match skipWs r with
    | String c r' =>
        if Ascii.eqb c ","%char then parseElements fuel r' (v :: acc)
        else if Ascii.eqb c "]"%char then Some (JArr (rev (v :: acc)), r')
        else None
    | EmptyString => None
    end.
Proof. intros H. cbn [parseElements]. by rewrite H. Qed.

Lemma parseFields_step fuel k r2 acc v r3 :
  parseValue fuel r2 = Some (v, r3) ->
  parseFields (S fuel)
    (String.append (quote k) (String ":" r2)) acc
  = match skipWs r3 with
    | String c r' =>
        if Ascii.eqb c ","%char then parseFields fuel r' ((k, v) :: acc)
        else if Ascii.eqb c "}"%char then Some (JObj (rev ((k, v) :: acc)), r')
        else None
    | EmptyString => None
    end.
Proof.
  intros H. unfold quote. rewrite append_cons, append_assoc, append_cons,
    append_nil.
  cbn [parseFields].
  change (skipWs (String dquote ?x)) with (String dquote x).
  cbv beta iota. change (Ascii.eqb dquote dquote) with true. cbv beta iota.
  rewrite parseChars_escape.
  change (skipWs (String ":" r2)) with (String ":"%char r2).
  cbv beta iota. change (Ascii.eqb ":" ":") with true. cbv beta iota.
  by rewrite H.
Qed.

Lemma parseElements_stringify l : Forall parsesBack l -> l <> [] ->
  forall acc fuel rest,
    needAll l <= fuel -> closes rest = true ->
    parseElements fuel
      (String.append (joinWith "," (map stringify l)) (String "]" rest)) acc
    = Some (JArr (rev acc ++ l), rest).
Proof.
  induction 1 as [|x l Hx Hl IH]; [done|]. intros _ acc fuel rest Hfuel Hrest.
  cbn [needAll fold_right] in Hfuel. fold (needAll l) in Hfuel.
  destruct fuel as [|fuel]; [lia|].
  destruct l as [|y l].
  - cbn [map joinWith].
    rewrite (parseElements_step fuel _ acc x (String "]" rest));
      [|apply Hx; [lia | reflexivity]].
    reflexivity.
  - change (joinWith "," (map stringify (x :: y :: l)))
      with (String.append (stringify x)
              (String.append "," (joinWith "," (map stringify (y :: l))))).
    rewrite !append_assoc, append_cons, append_nil.
    rewrite (parseElements_step fuel _ acc x
               (String "," (String.append (joinWith "," (map stringify (y :: l)))
                              (String "]" rest))));
      [|apply Hx; [lia | reflexivity]].
    change (skipWs (String "," ?r)) with (String ","%char r).
    cbv beta iota. change (Ascii.eqb "," ",") with true. cbv beta iota.
    rewrite IH; [|done|lia|done].
    cbn [rev]. by rewrite <- app_assoc.
Qed.

Lemma parseFields_stringify fields :
  Forall (fun kv => parsesBack (snd kv)) fields -> fields <> [] ->
  forall acc fuel rest,
    needFields fields <= fuel -> closes rest = true ->
    parseFields fuel
      (String.append (joinWith "," (map fieldText fields)) (String "}" rest))
      acc
    = Some (JObj (rev acc ++ fields), rest).
Proof.
  induction 1 as [|[k x] l Hx Hl IH]; [done|].
  intros _ acc fuel rest Hfuel Hrest.
  cbn [needFields fold_right snd] in Hfuel. fold (needFields l) in Hfuel.
  cbn [snd] in Hx.
  destruct fuel as [|fuel]; [lia|].
  destruct l as [|y l].
  - cbn [map joinWith]. unfold fieldText. cbn [fst snd].
    rewrite !append_assoc, append_cons, append_nil.
    rewrite (parseFields_step fuel k _ acc x (String "}" rest));
      [|apply Hx; [lia | reflexivity]].
    reflexivity.
  - change (joinWith "," (map fieldText ((k, x) :: y :: l)))
      with (String.append (fieldText (k, x))
              (String.append "," (joinWith "," (map fieldText (y :: l))))).
    unfold fieldText at 1. cbn [fst snd].
    rewrite !append_assoc, !append_cons, !append_nil.
    rewrite (parseFields_step fuel k _ acc x
               (String "," (String.append (joinWith "," (map fieldText (y :: l)))
                              (String "}" rest))));
      [|apply Hx; [lia | reflexivity]].
    change (skipWs (String "," ?r)) with (String ","%char r).
    cbv beta iota. change (Ascii.eqb "," ",") with true. cbv beta iota.
    rewrite IH; [|done|lia|done].
    cbn [rev]. by rewrite <- app_assoc.
Qed.

Lemma parseValue_stringify v : parsesBack v.
Proof.
  induction v as [| b | z | s | l IH | fields IH] using json_nested_ind;
    intros fuel rest Hfuel Hrest;
    (destruct fuel as [|fuel]; [cbn in Hfuel; lia|]).
  - reflexivity.
  - destruct b; reflexivity.
  - cbn [stringify].
    destruct (numToString_head z) as (c & t & E & Hc).
    pose proof (parseNumber_numToString z rest Hrest) as Hp.
    rewrite E in *. rewrite append_cons in *.
    rewrite parseValue_number by done. by rewrite Hp.
  - cbn [stringify]. unfold quote.
    rewrite append_cons, append_assoc, append_cons, append_nil.
    change (parseValue (S fuel) (String dquote ?x))
      with (option_map (fun p : string * string => (JStr (fst p), snd p))
              (parseChars x)).
    by rewrite parseChars_escape.
  - cbn [stringify need] in *. fold (needAll l) in Hfuel.
    rewrite !append_assoc, !append_cons, !append_nil.
    destruct l as [|x l]; [reflexivity|].
    destruct (stringify_head x) as (c & t & E & Hc).
    assert (Hjoin : exists t',
      String.append (joinWith "," (map stringify (x :: l))) (String "]" rest)
      = String c t').
    { destruct l; cbn [map joinWith]; rewrite E, ?append_cons; eauto. }
    destruct Hjoin as [t' Ht'].
    pose proof (parseElements_stringify (x :: l) IH ltac:(done) [] fuel rest
                  ltac:(lia) Hrest) as Hp.
    rewrite Ht' in *. rewrite parseValue_array by done. exact Hp.
  - cbn [stringify need] in *. fold (needFields fields) in Hfuel.
    fold fieldText.
    change (map (fun kv : string * json =>
                   String.append (quote (fst kv))
                     (String.append ":" (stringify (snd kv)))) fields)
      with (map fieldText fields).
    rewrite !append_assoc, !append_cons, !append_nil.
    destruct fields as [|[k x] fields]; [reflexivity|].
    pose proof (parseFields_stringify ((k, x) :: fields) IH ltac:(done) [] fuel
                  rest ltac:(lia) Hrest) as Hp.
    assert (Hjoin : exists t',
      String.append (joinWith "," (map fieldText ((k, x) :: fields)))
        (String "}" rest)
      = String dquote t').
    { destruct fields; cbn [map joinWith]; unfold fieldText at 1, quote;
        rewrite ?append_cons; eauto. }
    destruct Hjoin as [t' Ht'].
    rewrite Ht' in *.
    change (parseValue (S fuel) (String "{" (String dquote t')))
      with (parseFields fuel (String dquote t') []).
    exact Hp.
Qed.

Lemma length_append (a b : string) :
  String.length (String.append a b) = String.length a + String.length b.
Proof.
  induction a as [|c a IH]; [reflexivity|].
  rewrite append_cons. cbn [String.length]. by rewrite IH.
Qed.

Lemma append_nil_r (a : string) : String.append a EmptyString = a.
Proof.
  induction a as [|c a IH]; [reflexivity|]. rewrite append_cons. by rewrite IH.
Qed.

Lemma needAll_length l :
  Forall (fun x => need x <= String.length (stringify x)) l ->
  needAll l <= String.length (joinWith "," (map stringify l)) + 1.
Proof.
  induction 1 as [|x l Hx Hl IH]; [cbn; lia|].
  cbn [needAll fold_right]. fold (needAll l).
  destruct l as [|y l]; [cbn; lia|].
  change (joinWith "," (map stringify (x :: y :: l)))
    with (String.append (stringify x)
            (String.append "," (joinWith "," (map stringify (y :: l))))).
  rewrite !length_append. cbn [String.length]. lia.
Qed.

Lemma needFields_length fields :
  Forall (fun kv => need (snd kv) <= String.length (stringify (snd kv))) fields ->
  needFields fields <= String.length (joinWith "," (map fieldText fields)) + 1.
Proof.
  assert (Hfield : forall kv,
    String.length (stringify (snd kv)) + 3 <= String.length (fieldText kv)).
  { intros [k x]. unfold fieldText, quote. cbn [fst snd].
    rewrite append_cons. cbn [String.length].
    rewrite !length_append. cbn [String.length]. lia. }
  induction 1 as [|x l Hx Hl IH]; [cbn; lia|].
  cbn [needFields fold_right]. fold (needFields l).
  pose proof (Hfield x).
  destruct l as [|y l]; [cbn [map joinWith needFields fold_right]; lia|].
  change (joinWith "," (map fieldText (x :: y :: l)))
    with (String.append (fieldText x)
            (String.append "," (joinWith "," (map fieldText (y :: l))))).
  rewrite !length_append. cbn [String.length]. lia.
Qed.

Lemma need_length v : need v <= String.length (stringify v).
Proof.
  induction v as [| b | z | s | l IH | fields IH] using json_nested_ind.
  - cbn. lia.
  - destruct b; cbn; lia.
  - cbn [need stringify]. destruct (numToString_head z) as (c & t & -> & _).
    cbn. lia.
  - cbn [need stringify]. unfold quote. cbn [String.length]. lia.
  - cbn [need stringify]. fold (needAll l).
    pose proof (needAll_length l IH).
    rewrite !length_append. cbn [String.length]. lia.
  - cbn [need stringify]. fold (needFields fields).
    change (map (fun kv : string * json =>
                   String.append (quote (fst kv))
                     (String.append ":" (stringify (snd kv)))) fields)
      with (map fieldText fields).
    pose proof (needFields_length fields IH).
    rewrite !length_append. cbn [String.length]. lia.
Qed.

(** [JSON.parse(JSON.stringify(v))] is [v]. *)
Lemma parse_stringify v : parse (stringify v) = Some v.
Proof.
  unfold parse.
  rewrite <- (append_nil_r (stringify v)) at 2.
  rewrite parseValue_stringify; [reflexivity | | reflexivity].
  pose proof (need_length v). lia.
Qed.

End JsonRoundTrip.

(** ** The members cache *)

Section MembersCache.

Import Eff Json DataStore.

Local Open Scope string_scope.

Lemma numToString_nonempty z : Js.truthyStr (Js.numToString z) = true.
Proof.
  unfold Js.numToString, NilZero.string_of_int.
  destruct (Z.to_int z) as [d|d]; [|reflexivity].
  unfold NilZero.string_of_uint. destruct d; reflexivity.
Qed.

Lemma setItem_accepted s k v :
  accepts s k v ->
  setItem k v s = (Ok tt, withStorage (<[ k := v ]> (storage s)) s).
Proof.
  unfold accepts, setItem. intros H.
  by rewrite (proj2 (Nat.leb_le _ _) H).
Qed.

Lemma setItem_refused s k v :
  ~ accepts s k v -> setItem k v s = (Throw QuotaExceededError, s).
Proof.
  unfold accepts, setItem. intros H.
  destruct (Nat.leb_spec (storageSize (<[k:=v]> (storage s))) (quota s));
    [done | reflexivity].
Qed.

Lemma saveToCache_persisted membersData s :
  persistable membersData s ->
  saveToCache membersData s = (Ok tt, savedState membersData s).
Proof.
  intros [H1 H2]. unfold saveToCache, tryCatch, bind, gets. cbn beta iota.
  rewrite (setItem_accepted _ _ _ H1). cbn beta iota.
  rewrite (setItem_accepted _ _ _ H2). reflexivity.
Qed.

Lemma saveToCache_refused membersData s :
  ~ persistable membersData s ->
  exists kept, saveToCache membersData s = (Ok tt, failedState kept s).
Proof.
  intros Hno. unfold saveToCache, tryCatch, bind, gets. cbn beta iota.
  destruct (le_dec (storageSize (<[CACHE_KEY := stringify membersData]> (storage s)))
              (quota s)) as [H1|H1];
    fold (accepts s CACHE_KEY (stringify membersData)) in H1.
  - rewrite (setItem_accepted _ _ _ H1). cbn beta iota.
    rewrite setItem_refused by (intros H2; apply Hno; by split).
    eexists. reflexivity.
  - rewrite (setItem_refused _ _ _ H1). eexists. reflexivity.
Qed.

Lemma failedState_cleared kept s : cacheCleared (failedState kept s).
Proof.
  unfold cacheCleared, failedState. cbn. split.
  - rewrite lookup_delete_ne by done. apply lookup_delete_eq.
  - apply lookup_delete_eq.
Qed.

Lemma loadFromCache_hit s text stamp v :
  storage s !! CACHE_KEY = Some text ->
  storage s !! CACHE_TIMESTAMP_KEY = Some stamp ->
  Js.truthyStr text = true -> Js.truthyStr stamp = true ->
  parse text = Some v ->
  loadFromCache s
  = (Ok v,
     withConsole ((LevelLog, "Loaded members from cache") :: console s)
       (withLastFetchTime (Js.parseInt stamp) (withMembers v s))).
Proof.
  intros Hk Ht Hkt Htt Hp.
  unfold loadFromCache, tryCatch, bind, getItem, gets. cbn beta iota.
  rewrite Hk, Ht. cbn [missing textOf]. rewrite Hkt, Htt. cbn [negb orb].
  unfold JSON_parse. rewrite Hp. reflexivity.
Qed.

Lemma persistable_dec membersData s :
  {persistable membersData s} + {~ persistable membersData s}.
Proof.
  unfold persistable, accepts.
  destruct (le_dec (storageSize (<[CACHE_KEY := stringify membersData]> (storage s)))
              (quota s)) as [H1|H1]; [|right; tauto].
  match goal with
  | |- {_ /\ (?a <= ?b)%nat} + {_} => destruct (le_dec a b) as [H2|H2]
  end; [left | right]; tauto.
Qed.

Lemma stringify_nonempty v : Js.truthyStr (stringify v) = true.
Proof.
  destruct v as [| [|] | z | t | l | fs]; try reflexivity.
  apply numToString_nonempty.
Qed.

Lemma savedState_valid membersData s : cacheValid (savedState membersData s).
Proof.
  unfold cacheValid, isCacheFresh, bind, getItem, gets, ret.
  cbn beta iota.
  cbn [storage savedState withConsole withLastFetchTime withStorage].
  rewrite lookup_insert_ne by done. rewrite !lookup_insert_eq. cbn [missing].
  by rewrite numToString_nonempty, stringify_nonempty.
Qed.

(** [saveToCache] never throws and touches neither the collection in
    memory nor the document store. *)
Lemma saveToCache_frame membersData s :
  exists s',
    saveToCache membersData s = (Ok tt, s')
    /\ members s' = members s /\ queries s' = queries s
    /\ firestore s' = firestore s
    /\ (persistable membersData s -> cacheValid s').
Proof.
  destruct (persistable_dec membersData s) as [Hp|Hp].
  - exists (savedState membersData s).
    split; [by apply saveToCache_persisted|]. repeat split.
    intros _. apply savedState_valid.
  - destruct (saveToCache_refused membersData s Hp) as [kept E].
    exists (failedState kept s). split; [exact E|]. repeat split. done.
Qed.

(** What [loadFromCache] does, case by case: it answers with a truthy
    value exactly when the persisted copy can be used. *)
Lemma loadFromCache_cases s :
  (exists v, cacheUsable s v
     /\ exists s', loadFromCache s = (Ok v, s')
        /\ members s' = v /\ queries s' = queries s
        /\ storage s' = storage s /\ firestore s' = firestore s
        /\ quota s' = quota s /\ now s' = now s)
  \/ ((forall v, ~ cacheUsable s v)
      /\ exists v s', loadFromCache s = (Ok v, s')
         /\ truthy v = false /\ queries s' = queries s
         /\ storage s' = storage s /\ firestore s' = firestore s
         /\ quota s' = quota s /\ now s' = now s).
Proof.
  unfold loadFromCache, tryCatch, bind, getItem, gets. cbn beta iota.
  destruct (storage s !! CACHE_KEY) as [text|] eqn:Hk.
  2:{ right. split; [intros v (t & st & H & _); congruence|].
      cbn. eexists _, _. by repeat split. }
  destruct (storage s !! CACHE_TIMESTAMP_KEY) as [stamp|] eqn:Ht.
  2:{ right. split; [intros v (t & st & _ & H & _); congruence|].
      cbn [missing]. rewrite orb_true_r. eexists _, _. by repeat split. }
  cbn [missing textOf].
  destruct (Js.truthyStr text) eqn:Hkt.
  2:{ right. split; [intros v (t & st & H1 & _ & H2 & _); congruence|].
      cbn. eexists _, _. by repeat split. }
  destruct (Js.truthyStr stamp) eqn:Htt.
  2:{ right. split; [intros v (t & st & _ & H1 & _ & H2 & _); congruence|].
      cbn. eexists _, _. by repeat split. }
  cbn [negb orb]. unfold JSON_parse.
  destruct (parse text) as [v|] eqn:Hp.
  2:{ right. split; [intros v (t & st & H1 & _ & _ & _ & H2 & _); congruence|].
      cbn. eexists _, _. by repeat split. }
  cbn. destruct (truthy v) eqn:Hv.
  - left. exists v. split; [by exists text, stamp|].
    eexists. by repeat split.
  - right. split.
    + intros v' (t & st & H1 & _ & _ & _ & H2 & H3).
      assert (t = text) as -> by congruence. congruence.
    + eexists _, _. by repeat split.
Qed.

(** The refresh path: the query is sent, and the function returns. *)
Lemma loadMembersData_forced s :
  exists v s',
    loadMembersData true s = (Ok v, s')
    /\ members s' = v /\ queries s' = S (queries s)
    /\ (forall docs, firestore s (queries s) = Some docs ->
          v = membersOf docs
          /\ (persistable (membersOf docs) s -> cacheValid s'))
    /\ (firestore s (queries s) = None ->
          storage s' = storage s
          /\ (forall c, cacheUsable s c -> v = c)
          /\ ((forall c, ~ cacheUsable s c) -> v = JArr [])).
Proof.
  unfold loadMembersData, bind, tryCatch, consoleLog, modify, getDocs, gets, ret.
  cbn beta iota zeta. cbn [negb firestore queries withConsole].
  destruct (firestore s (queries s)) as [docs|] eqn:Hq; cbn beta iota zeta.
  - match goal with
    | |- context [saveToCache ?v ?st] =>
        destruct (saveToCache_frame v st) as (s' & E & Hm & Hqs & _ & Hvalid);
        rewrite E
    end.
    cbn beta iota. exists (members s'), s'. split; [done|]. split; [done|].
    split; [by rewrite Hqs|]. split; [|done].
    intros docs' [= <-]. split; [by rewrite Hm|].
    intros Hp. apply Hvalid. exact Hp.
  - unfold consoleError, modify. cbn beta iota.
    match goal with
    | |- context [loadFromCache ?st] => set (s0 := st)
    end.
    assert (Husable : forall c, cacheUsable s0 c <-> cacheUsable s c) by done.
    destruct (loadFromCache_cases s0)
      as [(v & Hu & s' & E & Hm & Hqs & Hst & _)
         | (Hno & v & s' & E & Hv & Hqs & Hst & _)];
      rewrite E; cbn beta iota.
    + destruct Hu as (t & st & H1 & H2 & H3 & H4 & H5 & H6). rewrite H6.
      cbn. exists v. eexists. split; [reflexivity|]. cbn.
      split; [done|]. split; [by rewrite Hqs|]. split; [done|].
      intros _. split; [by rewrite Hst|]. split.
      * intros c (t' & st' & H1' & _ & _ & _ & H5' & _).
        cbn in H1. congruence.
      * intros Hnone. exfalso. apply (Hnone v). by exists t, st.
    + rewrite Hv. cbn. eexists _, _. split; [reflexivity|]. cbn.
      split; [done|]. split; [by rewrite Hqs|]. split; [done|].
      intros _. split; [by rewrite Hst|]. split; [|done].
      intros c Hc. exfalso. by apply (Hno c), Husable.
Qed.

(** With the cache skipped only when it cannot be used, the load is the
    cached value or the refresh. *)
Lemma loadMembersData_cached s :
  (exists v, cacheUsable s v
     /\ fst (loadMembersData false s) = Ok v
     /\ members (snd (loadMembersData false s)) = v
     /\ queries (snd (loadMembersData false s)) = queries s)
  \/ ((forall v, ~ cacheUsable s v)
      /\ exists s1,
           loadMembersData false s = loadMembersData true s1
           /\ queries s1 = queries s /\ storage s1 = storage s
           /\ firestore s1 = firestore s /\ quota s1 = quota s
           /\ now s1 = now s).
Proof.
  destruct (loadFromCache_cases s)
    as [(v & Hu & s' & E & Hm & Hqs & Hst & Hfs & _)
       | (Hno & v & s' & E & Hv & Hqs & Hst & Hfs & Hqu & Hnow)].
  - left. exists v. split; [exact Hu|].
    destruct Hu as (_ & _ & _ & _ & _ & _ & _ & Htruthy).
    unfold loadMembersData, bind. cbn [negb]. rewrite E. cbn beta iota.
    rewrite Htruthy. cbn. by repeat split.
  - right. split; [exact Hno|]. exists s'.
    split; [|by repeat split].
    unfold loadMembersData at 1, bind at 1. cbn [negb].
    unfold bind at 1. rewrite E. cbn beta iota. rewrite Hv.
    reflexivity.
Qed.



(** C2, as the code has it. For every collection [X] of JSON records,
    [set(X)] does not throw, leaves [X] in memory and sends no query. When
    [localStorage] accepts its two writes, both persisted keys exist after
    [set(X)], and [load(false)] returns exactly [X] and leaves it in memory
    without a query to the document store. When a write is refused,
    [set(X)] leaves neither key behind, and [load(false)] sends one query
    to the document store. *)
Theorem set_then_load_hits_cache (s : State) (l : list json) :
  let afterSet := setMembers (JArr l) s in
  let afterLoad := loadMembersData false (snd afterSet) in
  fst afterSet = Ok tt
  /\ members (snd afterSet) = JArr l
  /\ queries (snd afterSet) = queries s
  /\ (persistable (JArr l) s ->
      cacheValid (snd afterSet)
      /\ fst afterLoad = Ok (JArr l)
      /\ members (snd afterLoad) = JArr l
      /\ queries (snd afterLoad) = queries s)
  /\ (~ persistable (JArr l) s ->
      cacheCleared (snd afterSet)
      /\ ~ cacheValid (snd afterSet)
      /\ queries (snd afterLoad) = S (queries s)).
Proof.
  intros afterSet afterLoad.
  pose proof (parse_stringify (JArr l)) as Hround.
  assert (Hsplit : afterSet = saveToCache (JArr l) (withMembers (JArr l) s))
    by reflexivity.
  destruct (saveToCache_frame (JArr l) (withMembers (JArr l) s))
    as (s' & E & Hm & Hq & _).
  split; [by rewrite Hsplit, E|].
  split; [by rewrite Hsplit, E|].
  split; [by rewrite Hsplit, E|].
  split.
  - intros Hfit.
    assert (Hset : afterSet
                   = (Ok tt, savedState (JArr l) (withMembers (JArr l) s))).
    { rewrite Hsplit. by apply saveToCache_persisted. }
    set (s1 := savedState (JArr l) (withMembers (JArr l) s)) in *.
    assert (Hk : storage s1 !! CACHE_KEY = Some (stringify (JArr l))).
    { subst s1. cbn. rewrite lookup_insert_ne by done. apply lookup_insert_eq. }
    assert (Ht : storage s1 !! CACHE_TIMESTAMP_KEY
                 = Some (Js.numToString (now s))).
    { subst s1. cbn. apply lookup_insert_eq. }
    assert (Hload : loadFromCache s1
      = (Ok (JArr l),
         withConsole ((LevelLog, "Loaded members from cache") :: console s1)
           (withLastFetchTime (Js.parseInt (Js.numToString (now s)))
              (withMembers (JArr l) s1)))).
    { apply (loadFromCache_hit s1 (stringify (JArr l))
               (Js.numToString (now s))); try done.
      apply numToString_nonempty. }
    subst afterLoad. rewrite Hset. cbn [fst snd].
    split; [apply savedState_valid|].
    unfold loadMembersData, bind. cbn [negb]. rewrite Hload. by cbn.
  - intros Hno.
    destruct (saveToCache_refused (JArr l) (withMembers (JArr l) s) Hno)
      as [kept Hset].
    rewrite <- Hsplit in Hset.
    pose proof (failedState_cleared kept (withMembers (JArr l) s))
      as [Hk Ht].
    subst afterLoad. rewrite Hset. cbn [fst snd].
    set (s1 := failedState kept (withMembers (JArr l) s)) in *.
    split; [by split|]. split.
    { unfold cacheValid, isCacheFresh, bind, getItem, gets, ret.
      cbn beta iota. by rewrite Hk, Ht. }
    destruct (loadMembersData_cached s1)
      as [(v & (t & _ & H & _) & _) | (_ & s2 & E2 & Hq2 & _)];
      [congruence|].
    rewrite E2.
    destruct (loadMembersData_forced s2) as (v & s3 & E3 & _ & Hq3 & _).
    rewrite E3. cbn [snd]. by rewrite Hq3, Hq2.
Qed.

(** A run of [set_then_load_hits_cache]: the storage has room. *)
Lemma set_then_load_hits_cache_witness :
  fst (loadMembersData false (snd (setMembers sampleMembers roomyBrowser)))
  = Ok sampleMembers
  /\ queries (snd (loadMembersData false
                     (snd (setMembers sampleMembers roomyBrowser)))) = 0%nat.
Proof.
  destruct (set_then_load_hits_cache roomyBrowser
              [JObj [("id", JStr "m1"); ("displayName", JStr "Ada")]])
    as (_ & _ & _ & H & _).
  destruct H as (_ & H1 & _ & H2).
  - split; vm_compute; lia.
  - split; [exact H1 | exact H2].
Defined.

(** With the storage full, [set(X)] leaves neither key behind and
    [load(false)] queries the document store. *)
Lemma set_then_load_counterexample :
  let afterSet := setMembers sampleMembers fullBrowser in
  let afterLoad := loadMembersData false (snd afterSet) in
  ~ cacheValid (snd afterSet)
  /\ queries (snd afterSet) = 0%nat
  /\ queries (snd afterLoad) = 1%nat.
Proof.
  cbv zeta. split; [|split].
  - unfold cacheValid. vm_compute. discriminate.
  - vm_compute. reflexivity.
  - vm_compute. reflexivity.
Qed.

(** The in-memory collection is emptied when the query fails and no
    cached copy exists. *)
Lemma loadMembersData_query_fails s :
  firestore s (queries s) = None ->
  storage s !! CACHE_KEY = None ->
  fst (loadMembersData true s) = Ok (JArr [])
  /\ members (snd (loadMembersData true s)) = JArr [].
Proof.
  intros Hq Hk.
  unfold loadMembersData, bind, tryCatch, consoleLog, consoleError, modify,
    getDocs, gets, ret.
  cbn beta iota zeta. cbn [negb firestore queries withConsole].
  rewrite Hq. cbn beta iota zeta.
  unfold loadFromCache, tryCatch, bind, getItem, gets. cbn beta iota zeta.
  cbn [storage withConsole withQueries]. rewrite Hk. cbn. done.
Qed.

(** C7, as the code has it. When [localStorage] refuses a write of
    [saveToCache], nothing is thrown, the failure is logged, both persisted
    keys are cleared, and the in-memory collection stays the one being
    saved: [setMembers X] leaves [X] in memory, and a refresh returns and
    keeps the collection just fetched. *)
Theorem persist_failure_keeps_members (s : State) (X : json) (docs : list Doc) :
  ~ persistable X s ->
  firestore s (queries s) = Some docs ->
  ~ persistable (JArr (map docToMember docs)) s ->
  let afterSet := setMembers X s in
  let afterLoad := loadMembersData true s in
  (fst afterSet = Ok tt
   /\ head (console (snd afterSet)) = Some (LevelError, "Error saving to cache:")
   /\ cacheCleared (snd afterSet)
   /\ members (snd afterSet) = X)
  /\ (fst afterLoad = Ok (JArr (map docToMember docs))
      /\ head (console (snd afterLoad))
         = Some (LevelError, "Error saving to cache:")
      /\ cacheCleared (snd afterLoad)
      /\ members (snd afterLoad) = JArr (map docToMember docs)).
Proof.
  intros HX Hdocs Hfetched afterSet afterLoad. split.
  - subst afterSet. unfold setMembers, bind, modify. cbn beta iota.
    destruct (saveToCache_refused X (withMembers X s)) as [kept ->]; [done|].
    cbn [fst snd]. split; [done|]. split; [done|].
    split; [apply failedState_cleared | reflexivity].
  - subst afterLoad.
    unfold loadMembersData, bind, tryCatch, consoleLog, modify, getDocs, gets,
      ret.
    cbn beta iota zeta. cbn [negb firestore queries withConsole].
    rewrite Hdocs. cbn beta iota zeta.
    match goal with
    | |- context [saveToCache ?v ?st] =>
        destruct (saveToCache_refused v st) as [kept ->]; [done|]
    end.
    cbn [fst snd]. split; [done|]. split; [done|].
    split; [apply failedState_cleared | reflexivity].
Qed.

(** A run of [persist_failure_keeps_members]. *)
Lemma persist_failure_keeps_members_witness :
  members (snd (setMembers sampleMembers fullBrowser)) = sampleMembers
  /\ fst (loadMembersData true fullBrowser) = Ok sampleMembers.
Proof.
  destruct (persist_failure_keeps_members fullBrowser sampleMembers [sampleDoc])
    as ((_ & _ & _ & H1) & (H2 & _)).
  - intros [H _]. vm_compute in H. lia.
  - reflexivity.
  - intros [H _]. vm_compute in H. lia.
  - split; [exact H1 | exact H2].
Defined.

(** After a refused write the in-memory collection is not empty: it is
    the collection that was being saved. *)
Lemma persist_failure_counterexample :
  let afterSet := setMembers sampleMembers fullBrowser in
  let afterLoad := loadMembersData true fullBrowser in
  fst afterSet = Ok tt
  /\ cacheCleared (snd afterSet)
  /\ members (snd afterSet) = sampleMembers
  /\ members (snd afterSet) <> JArr []
  /\ members (snd afterLoad) = sampleMembers
  /\ members (snd afterLoad) <> JArr [].
Proof.
  cbv zeta. repeat split; try (vm_compute; reflexivity);
    vm_compute; discriminate.
Qed.

End MembersCache.

(** ** The HTTP client wrapper *)

Section ClientWrapper.

Import Eff Json GitHubApi.

Local Open Scope string_scope.

Lemma fetch_reply req w r :
  replyAt w 0 req = Some r -> fetch req w = (Ok r, fetched req w).
Proof.
  unfold replyAt, fetch. rewrite Nat.add_0_r. by intros ->.
Qed.

Lemma fetch_rejects req w :
  replyAt w 0 req = None -> fetch req w = (Throw NetworkError, fetched req w).
Proof.
  unfold replyAt, fetch. rewrite Nat.add_0_r. by intros ->.
Qed.

Lemma parseInt_zero : Js.parseInt "0" = Js.Num 0.
Proof. reflexivity. Qed.

Lemma handleRateLimit_waits r w :
  throttled r = true -> handleRateLimit r w = (Ok tt, waited r w).
Proof.
  unfold throttled, handleRateLimit, waited, delayFor, resetAfter,
    remainingAfter.
  intros Hthr. unfold bind, modify, gets, ret, consoleWarn, sleep.
  destruct (headerGet (headers r) "X-RateLimit-Remaining") as [rem|] eqn:Hrem;
    destruct (headerGet (headers r) "X-RateLimit-Reset") as [rst|] eqn:Hrst;
    cbn beta iota zeta;
    cbn [rateLimitRemaining rateLimitReset withRemaining withReset clock
           withConsole trace console];
    destruct (status r =? 429)%Z eqn:E429; cbn [orb] in *;
    try reflexivity;
    try (apply andb_true_iff in Hthr as [_ Hthr]; try discriminate;
         apply streq_true in Hthr; subst rem; rewrite parseInt_zero;
         reflexivity).
Qed.

Lemma fetchCount_fetched req w : fetchCount (fetched req w) = S (fetchCount w).
Proof. reflexivity. Qed.

Lemma replyAt_fetched req w k q :
  replyAt (fetched req w) k q = replyAt w (S k) q.
Proof.
  unfold replyAt. rewrite fetchCount_fetched.
  replace (S (fetchCount w) + k)%nat with (fetchCount w + S k)%nat by lia.
  reflexivity.
Qed.

Lemma replyAt_waited r w k q : replyAt (waited r w) k q = replyAt w k q.
Proof. reflexivity. Qed.

Lemma attempt_returns left attempt req hasToken w r :
  replyAt w 0 req = Some r -> throttled r = false ->
  attemptLoop (S left) attempt 3 req hasToken w
  = (Ok r, reported hasToken r (fetched req w)).
Proof.
  intros Hr Hthr. cbn [attemptLoop]. unfold bind at 1.
  rewrite (fetch_reply _ _ _ Hr). unfold throttled in Hthr.
  apply orb_false_iff in Hthr as [H429 H403]. rewrite H429.
  unfold reported.
  destruct (status r =? 403)%Z eqn:E403; [|reflexivity].
  cbn [andb] in H403.
  unfold bind, ret, consoleWarn, modify.
  destruct (headerGet (headers r) "X-RateLimit-Remaining") as [rem|];
    [rewrite H403|]; destruct hasToken; reflexivity.
Qed.

(** One turn of the loop on a throttling response: wait, then go round
    again while attempts are left, else return the response. *)
Lemma attempt_retries left attempt req hasToken w r :
  replyAt w 0 req = Some r -> throttled r = true ->
  attemptLoop (S left) attempt 3 req hasToken w
  = if (attempt <? 2)%nat
    then attemptLoop left (S attempt) 3 req hasToken (waited r (fetched req w))
    else (Ok r, reported hasToken r (waited r (fetched req w))).
Proof.
  intros Hr Hthr. cbn [attemptLoop]. unfold bind at 1.
  rewrite (fetch_reply _ _ _ Hr).
  pose proof (handleRateLimit_waits r (fetched req w) Hthr) as Hw.
  unfold throttled in Hthr. unfold reported.
  destruct (status r =? 429)%Z eqn:E429.
  - assert ((status r =? 403)%Z = false) as ->
      by (apply Z.eqb_eq in E429; rewrite E429; reflexivity).
    unfold bind. rewrite Hw. cbn [Nat.sub].
    destruct (attempt <? 2)%nat; reflexivity.
  - cbn [orb] in Hthr. apply andb_true_iff in Hthr as [E403 Hrem].
    rewrite E403.
    destruct (headerGet (headers r) "X-RateLimit-Remaining") as [rem|];
      [|discriminate].
    rewrite Hrem. unfold bind. rewrite Hw. cbn [Nat.sub]. unfold ret.
    destruct (attempt <? 2)%nat; [reflexivity|].
    unfold consoleWarn, modify. destruct hasToken; reflexivity.
Qed.

Lemma githubApiRequest_unfold target n w :
  githubApiRequest target n w
  = attemptLoop n 0 n (requestFor target w) (hasTokenOf (GITHUB_TOKEN w))
      (prelude w).
Proof.
  unfold githubApiRequest, prelude, requestFor, bind, gets, ret, consoleWarn,
    modify.
  cbn beta iota. destruct (hasTokenOf (GITHUB_TOKEN w)); [reflexivity|].
  cbn beta iota. destruct (tokenWarningShown w); reflexivity.
Qed.

Lemma prelude_frame w :
  trace (prelude w) = trace w /\ clock (prelude w) = clock w
  /\ rateLimitReset (prelude w) = rateLimitReset w
  /\ githubUserCache (prelude w) = githubUserCache w
  /\ GITHUB_TOKEN (prelude w) = GITHUB_TOKEN w
  /\ forall k q, replyAt (prelude w) k q = replyAt w k q.
Proof.
  unfold prelude.
  destruct (hasTokenOf (GITHUB_TOKEN w)); [done|].
  destruct (tokenWarningShown w); done.
Qed.

Lemma reported_frame hasToken r w :
  trace (reported hasToken r w) = trace w
  /\ clock (reported hasToken r w) = clock w
  /\ githubUserCache (reported hasToken r w) = githubUserCache w.
Proof. unfold reported. destruct (status r =? 403)%Z; done. Qed.

(** The wait policy of a throttled attempt, in the words of the
    specification: with a reset time of [secs] seconds since the epoch
    the delay runs until one second past it, and is never negative; with
    no reset time known it is 60 seconds. *)
Lemma waitTimeOf_policy :
  (forall secs nowMs, secs <> 0 ->
     waitTimeOf (Some (timesThousand (Js.Num secs))) nowMs
     = Z.max 0 (secs * 1000 - nowMs + 1000))
  /\ (forall nowMs, waitTimeOf None nowMs = 60000)
  /\ (forall nowMs, waitTimeOf (Some Js.NaN) nowMs = 60000).
Proof.
  split; [|split]; try reflexivity.
  intros secs nowMs Hs. cbn.
  destruct (Z.eqb_spec (secs * 1000) 0); [lia | reflexivity].
Qed.

(** A first reply that is not a throttling one is returned after that one
    request. *)
Lemma githubApiRequest_single target w r0 :
  replyAt w 0 (requestFor target w) = Some r0 -> throttled r0 = false ->
  fst (githubApiRequest target 3 w) = Ok r0
  /\ trace (snd (githubApiRequest target 3 w))
     = EvFetch (requestFor target w) :: trace w
  /\ clock (snd (githubApiRequest target 3 w)) = clock w.
Proof.
  intros H0 T0.
  destruct (prelude_frame w) as (Htr & Hclk & Hrst & _ & _ & Hnet).
  rewrite githubApiRequest_unfold.
  rewrite (attempt_returns _ _ _ _ _ r0) by (by rewrite ?Hnet).
  cbn [fst snd].
  destruct (reported_frame (hasTokenOf (GITHUB_TOKEN w)) r0
              (fetched (requestFor target w) (prelude w))) as (-> & -> & _).
  cbn. by rewrite Htr, Hclk.
Qed.

(** C1. [githubApiRequest] with its three attempts: a response that is
    neither 429 nor 403 with [X-RateLimit-Remaining: 0] is returned at
    once after a single request and no wait; a throttling response makes
    it wait [delayFor] (computed from [X-RateLimit-Reset], 60 seconds when
    no reset time is known) and then request again; after the third
    throttling response it waits once more and returns that last response
    without throwing. *)
Theorem githubApiRequest_retry_policy (target : string) (w : World) :
  let req := requestFor target w in
  let run := githubApiRequest target 3 w in
  let d0 r0 := delayFor r0 (rateLimitReset w) (clock w) in
  let d1 r0 r1 :=
    delayFor r1 (resetAfter r0 (rateLimitReset w)) (clock w + d0 r0) in
  let d2 r0 r1 r2 :=
    delayFor r2 (resetAfter r1 (resetAfter r0 (rateLimitReset w)))
      (clock w + d0 r0 + d1 r0 r1) in
  (forall r0,
     replyAt w 0 req = Some r0 -> throttled r0 = false ->
     fst run = Ok r0
     /\ trace (snd run) = EvFetch req :: trace w
     /\ clock (snd run) = clock w)
  /\ (forall r0 r1,
        replyAt w 0 req = Some r0 -> throttled r0 = true ->
        replyAt w 1 req = Some r1 -> throttled r1 = false ->
        fst run = Ok r1
        /\ trace (snd run)
           = ([EvFetch req; EvSleep (d0 r0); EvFetch req] ++ trace w)%list
        /\ clock (snd run) = clock w + d0 r0)
  /\ (forall r0 r1 r2,
        replyAt w 0 req = Some r0 -> throttled r0 = true ->
        replyAt w 1 req = Some r1 -> throttled r1 = true ->
        replyAt w 2 req = Some r2 ->
        fst run = Ok r2
        /\ trace (snd run)
           = ((if throttled r2 then [EvSleep (d2 r0 r1 r2)] else [])
              ++ [EvFetch req; EvSleep (d1 r0 r1); EvFetch req;
                  EvSleep (d0 r0); EvFetch req] ++ trace w)%list
        /\ clock (snd run)
           = clock w + d0 r0 + d1 r0 r1
             + (if throttled r2 then d2 r0 r1 r2 else 0))
  /\ (forall secs nowMs, secs <> 0 ->
        waitTimeOf (Some (timesThousand (Js.Num secs))) nowMs
        = Z.max 0 (secs * 1000 - nowMs + 1000))
  /\ (forall nowMs, waitTimeOf None nowMs = 60000).
Proof.
  intros req run d0 d1 d2.
  destruct (prelude_frame w) as (Htr & Hclk & Hrst & _ & _ & Hnet).
  assert (Hrun : run = attemptLoop 3 0 3 req (hasTokenOf (GITHUB_TOKEN w))
                         (prelude w))
    by apply githubApiRequest_unfold.
  split; [|split; [|split]].
  - intros r0 H0 T0. by apply githubApiRequest_single.
  - intros r0 r1 H0 T0 H1 T1. rewrite Hrun.
    rewrite (attempt_retries _ _ _ _ _ r0) by (by rewrite ?Hnet).
    cbn [Nat.ltb Nat.leb].
    rewrite (attempt_returns _ _ _ _ _ r1);
      [|by rewrite replyAt_waited, replyAt_fetched, Hnet | done].
    cbn [fst snd].
    match goal with
    | |- context [reported ?t ?r ?x] =>
        destruct (reported_frame t r x) as (-> & -> & _)
    end.
    subst d0. cbn. by rewrite Htr, Hclk, Hrst.
  - intros r0 r1 r2 H0 T0 H1 T1 H2. rewrite Hrun.
    rewrite (attempt_retries _ _ _ _ _ r0) by (by rewrite ?Hnet).
    cbn [Nat.ltb Nat.leb].
    rewrite (attempt_retries _ _ _ _ _ r1);
      [|by rewrite replyAt_waited, replyAt_fetched, Hnet | done].
    cbn [Nat.ltb Nat.leb].
    destruct (throttled r2) eqn:T2.
    + rewrite (attempt_retries _ _ _ _ _ r2);
        [|by rewrite replyAt_waited, replyAt_fetched, replyAt_waited,
                    replyAt_fetched, Hnet | done].
      cbn [Nat.ltb Nat.leb fst snd].
      match goal with
      | |- context [reported ?t ?r ?x] =>
          destruct (reported_frame t r x) as (-> & -> & _)
      end.
      subst d0 d1 d2. cbn. by rewrite Htr, Hclk, Hrst.
    + rewrite (attempt_returns _ _ _ _ _ r2);
        [| by rewrite replyAt_waited, replyAt_fetched, replyAt_waited,
                     replyAt_fetched, Hnet | done].
      cbn [fst snd].
      match goal with
      | |- context [reported ?t ?r ?x] =>
          destruct (reported_frame t r x) as (-> & -> & _)
      end.
      subst d0 d1. cbn. rewrite Htr, Hclk, Hrst. split; [done|].
      split; [done | lia].
  - destruct waitTimeOf_policy as (H1 & H2 & _). by split.
Qed.

(** A run of [githubApiRequest_retry_policy]: one wait of six seconds,
    then the retry succeeds. *)
Lemma githubApiRequest_retry_policy_witness :
  let run := githubApiRequest "https://api.github.com/users/ada" 3 throttledOnce in
  let req := requestFor "https://api.github.com/users/ada" throttledOnce in
  fst run = Ok {| status := 200; headers := [];
                  body := Some (JObj [("login", JStr "ada")]) |}
  /\ trace (snd run) = [EvFetch req; EvSleep 6000; EvFetch req]
  /\ clock (snd run) = 1700000006000.
Proof.
  destruct (githubApiRequest_retry_policy
              "https://api.github.com/users/ada" throttledOnce)
    as (_ & H & _).
  apply (H {| status := 429;
              headers := [("x-ratelimit-reset", "1700000005")];
              body := None |}
           {| status := 200; headers := [];
              body := Some (JObj [("login", JStr "ada")]) |});
    reflexivity.
Defined.

Lemma framed_refl w : framed w w.
Proof. by repeat split. Qed.

Lemma framed_trans w1 w2 w3 : framed w1 w2 -> framed w2 w3 -> framed w1 w3.
Proof.
  intros (A1 & B1 & C1 & D1) (A2 & B2 & C2 & D2).
  repeat split; try congruence. lia.
Qed.

Lemma handleRateLimit_frame r w :
  exists w', handleRateLimit r w = (Ok tt, w') /\ framed w w'.
Proof.
  unfold handleRateLimit, bind, modify, gets, ret, consoleWarn, sleep.
  destruct (headerGet (headers r) "X-RateLimit-Remaining");
    destruct (headerGet (headers r) "X-RateLimit-Reset");
    cbn beta iota zeta;
    match goal with
    | |- context [if ?c then _ else _] => destruct c
    end;
    eexists; (split; [reflexivity | by repeat split]).
Qed.

Lemma fetch_snd req w : snd (fetch req w) = fetched req w.
Proof. unfold fetch. by destruct (network w (fetchCount w) req). Qed.

Lemma fetched_frame req w : framed w (fetched req w).
Proof. repeat split; try done. rewrite fetchCount_fetched. lia. Qed.

Lemma framed_count w w' : framed w w' -> (fetchCount w <= fetchCount w')%nat.
Proof. by intros (_ & _ & _ & ?). Qed.

(** Every run of the attempt loop sends at least one request. *)
Lemma attemptLoop_frame left : forall attempt req hasToken w,
  exists res w',
    attemptLoop left attempt 3 req hasToken w = (res, w')
    /\ framed w w' /\ (fetchCount w < fetchCount w')%nat.
Proof.
  induction left as [|left IH]; intros attempt req hasToken w.
  - cbn [attemptLoop]. pose proof (fetch_snd req w) as Hs.
    destruct (fetch req w) as [res w1]. cbn in Hs. subst w1.
    exists res, (fetched req w). split; [done|].
    split; [apply fetched_frame | rewrite fetchCount_fetched; lia].
  - cbn [attemptLoop]. unfold bind at 1.
    pose proof (fetch_snd req w) as Hs.
    destruct (fetch req w) as [[r|e] w1]; cbn in Hs; subst w1.
    2:{ eexists _, _. split; [reflexivity|].
        split; [apply fetched_frame | rewrite fetchCount_fetched; lia]. }
    pose proof (fetched_frame req w) as Hf.
    pose proof (fetchCount_fetched req w) as Hc.
    set (w1 := fetched req w) in *.
    destruct (handleRateLimit_frame r w1) as (w2 & Hh & Hf2).
    pose proof (framed_count _ _ Hf2) as Hle.
    assert (Hend : forall w', framed w1 w' ->
      exists res w'',
        (let (r0, s') :=
           (if hasToken
            then consoleWarn
                   "GitHub API 403 Forbidden - token may be invalid or expired."
            else consoleWarn
                   "GitHub API 403 Forbidden - token may be missing or invalid.")
             w' in
         match r0 with
         | Ok _ => ret r s'
         | Throw e => (Throw e, s')
         end) = (res, w'')
        /\ framed w w'' /\ (fetchCount w < fetchCount w'')%nat).
    { intros w' Hw'. pose proof (framed_count _ _ Hw') as Hle'.
      destruct hasToken; cbn; eexists _, _; (split; [reflexivity|]);
        (split; [eapply framed_trans; [exact Hf|];
                 eapply framed_trans; [exact Hw'|]; by repeat split
                | change (fetchCount w < fetchCount w')%nat; lia]). }
    assert (Hgo : exists res w',
      attemptLoop left (S attempt) 3 req hasToken w2 = (res, w')
      /\ framed w w' /\ (fetchCount w < fetchCount w')%nat).
    { destruct (IH (S attempt) req hasToken w2) as (res & w' & E & H1 & H2).
      exists res, w'. split; [done|]. split; [|lia].
      eapply framed_trans; [exact Hf|]. by eapply framed_trans. }
    assert (Hstop : forall w', framed w1 w' ->
      exists res w'', ret r w' = (res, w'')
        /\ framed w w'' /\ (fetchCount w < fetchCount w'')%nat).
    { intros w' Hw'. pose proof (framed_count _ _ Hw').
      exists (Ok r), w'. split; [done|].
      split; [by eapply framed_trans | lia]. }
    destruct (status r =? 429)%Z.
    + unfold bind. rewrite Hh.
      destruct (attempt <? 3 - 1)%nat; [exact Hgo | by apply Hstop].
    + destruct (status r =? 403)%Z; [|apply Hstop, framed_refl].
      unfold bind.
      destruct (headerGet (headers r) "X-RateLimit-Remaining") as [rem|].
      * destruct (Js.streq rem "0").
        -- rewrite Hh. cbn beta iota. unfold ret at 1.
           destruct (attempt <? 3 - 1)%nat; [exact Hgo | by apply Hend].
        -- unfold ret at 1. apply Hend, framed_refl.
      * unfold ret at 1. apply Hend, framed_refl.
Qed.

Lemma hasTokenOf_noToken token : hasTokenOf token = negb (noToken token).
Proof.
  unfold hasTokenOf, noToken.
  destruct (Js.truthyStr token), (Js.streq token PLACEHOLDER),
    (Js.streq (Js.trim token) EmptyString); reflexivity.
Qed.

Lemma githubApiRequest_frame target w :
  exists res w',
    githubApiRequest target 3 w = (res, w')
    /\ framed w w' /\ (fetchCount w < fetchCount w')%nat.
Proof.
  rewrite githubApiRequest_unfold.
  destruct (attemptLoop_frame 3 0 (requestFor target w)
              (hasTokenOf (GITHUB_TOKEN w)) (prelude w))
    as (res & w' & E & H1 & H2).
  destruct (prelude_frame w) as (Ht & _ & _ & Hc & Hk & Hn).
  assert (Hfc : fetchCount (prelude w) = fetchCount w)
    by (unfold fetchCount; by rewrite Ht).
  assert (Hp : framed w (prelude w)).
  { repeat split; try done; [|lia].
    unfold prelude. destruct (hasTokenOf _); [done|].
    by destruct (tokenWarningShown w). }
  exists res, w'. split; [done|]. split; [by eapply framed_trans | lia].
Qed.

End ClientWrapper.

(** ** The user profile fetch *)

Section UserProfile.

Import Eff Json GitHubApi.

Local Open Scope string_scope.

Lemma buildUserInfo_pure userData w :
  buildUserInfo userData w = (userInfoOf userData, w).
Proof.
  unfold buildUserInfo, userInfoOf, getProp, lift, bind, ret.
  destruct userData; reflexivity.
Qed.

(** What has been written under a handle the cache had nothing for, its
    own or inherited, is what it yields under that handle. *)
Lemma cacheGet_cacheSet c u v :
  cacheGet c u = None ->
  cacheGet (cacheSet c u v) u
  = Some (match v with Some info => Profile info | None => Null end).
Proof.
  unfold cacheGet, cacheSet. destruct (own c !! u) as [[info|]|] eqn:E; try done.
  assert (Hstored : forall p,
    match <[u := v]> (own c) !! u with
    | Some (Some info) => Some (Profile info)
    | Some None => Some Null
    | None => p
    end = Some (match v with Some info => Profile info | None => Null end))
    by (intros p; rewrite lookup_insert_eq; by destruct v).
  destruct (prototype c) as [|info|] eqn:Ep; cbn [own prototype].
  - destruct (Js.streq u Js.protoKey); [done|]. intros _. apply Hstored.
  - destruct (Js.streq u Js.protoKey); [done|]. intros _. apply Hstored.
  - intros _. apply Hstored.
Qed.

(** A hit in the cache is returned as it is, and the world is left as it
    was: no request is sent. *)
Lemma fetchGitHubUserInfo_hit u w v :
  cacheGet (githubUserCache w) u = Some v ->
  fetchGitHubUserInfo u true w = (Ok v, w).
Proof.
  intros H. unfold fetchGitHubUserInfo, bind, gets. by rewrite H.
Qed.

(** What the fetch does once the wrapper has answered with [r]. *)
Lemma fetchGitHubUserInfo_answered u w r w1 :
  githubApiRequest (userUrl u) 3 w = (Ok r, w1) ->
  fetchGitHubUserInfo u false w
  = if ok r then
      match body r with
      | Some userData =>
          match userInfoOf userData with
          | Ok info => (Ok (Profile info), remembered u (Some info) w1)
          | Throw _ =>
              (Ok Null,
               withConsole
                 ((LevelError, "Error fetching GitHub user info:") :: console w1)
                 w1)
          end
      | None =>
          (Ok Null,
           withConsole
             ((LevelError, "Error fetching GitHub user info:") :: console w1)
             w1)
      end
    else if (status r =? 404)%Z then
      (Ok Null, remembered u None (warned "GitHub user not found (404)" w1))
    else if isThrottled r then
      (Ok Null, warned "GitHub API 403/429 for user - skipping" w1)
    else
      (Ok Null,
       withConsole ((LevelError, "GitHub API error") :: console w1) w1).
Proof.
  intros Hreq.
  unfold fetchGitHubUserInfo, bind at 1, gets.
  unfold tryCatch, bind at 1. rewrite Hreq.
  destruct (ok r).
  - unfold jsonOf, bind. destruct (body r) as [userData|]; [|reflexivity].
    unfold ret at 1. rewrite buildUserInfo_pure.
    destruct (userInfoOf userData); reflexivity.
  - destruct (status r =? 404)%Z; [reflexivity|].
    unfold isThrottled. destruct ((status r =? 403)%Z || (status r =? 429)%Z);
      reflexivity.
Qed.

(** Without a hit the cache is not consulted further. *)
Lemma fetchGitHubUserInfo_unknown u w :
  cacheGet (githubUserCache w) u = None ->
  fetchGitHubUserInfo u true w = fetchGitHubUserInfo u false w.
Proof.
  intros H. unfold fetchGitHubUserInfo, bind at 1 3, gets. by rewrite H.
Qed.

Lemma fetchGitHubUserInfo_miss u w r w1 :
  cacheGet (githubUserCache w) u = None ->
  githubApiRequest (userUrl u) 3 w = (Ok r, w1) ->
  fetchGitHubUserInfo u true w
  = if ok r then
      match body r with
      | Some userData =>
          match userInfoOf userData with
          | Ok info => (Ok (Profile info), remembered u (Some info) w1)
          | Throw _ =>
              (Ok Null,
               withConsole
                 ((LevelError, "Error fetching GitHub user info:") :: console w1)
                 w1)
          end
      | None =>
          (Ok Null,
           withConsole
             ((LevelError, "Error fetching GitHub user info:") :: console w1)
             w1)
      end
    else if (status r =? 404)%Z then
      (Ok Null, remembered u None (warned "GitHub user not found (404)" w1))
    else if isThrottled r then
      (Ok Null, warned "GitHub API 403/429 for user - skipping" w1)
    else
      (Ok Null,
       withConsole ((LevelError, "GitHub API error") :: console w1) w1).
Proof.
  intros Hmiss Hreq. rewrite fetchGitHubUserInfo_unknown by done.
  by apply fetchGitHubUserInfo_answered.
Qed.

(** C10. When the wrapper answers 403 or 429 the fetch returns [null]
    and writes nothing into the cache, so the handle is still unknown and
    the next call sends a request again; after a 404 the handle is cached
    as [null] and the next call sends none. *)
Theorem userInfo_throttled_not_cached (u : string) (w w1 : World) (r : Response) :
  cacheGet (githubUserCache w) u = None ->
  githubApiRequest (userUrl u) 3 w = (Ok r, w1) ->
  let first := fetchGitHubUserInfo u true w in
  let second := fetchGitHubUserInfo u true (snd first) in
  (status r = 403 \/ status r = 429 ->
   fst first = Ok Null
   /\ githubUserCache (snd first) = githubUserCache w
   /\ cacheGet (githubUserCache (snd first)) u = None
   /\ (fetchCount (snd first) < fetchCount (snd second))%nat)
  /\ (status r = 404 ->
      fst first = Ok Null
      /\ cacheGet (githubUserCache (snd first)) u = Some Null
      /\ fst second = Ok Null
      /\ fetchCount (snd second) = fetchCount (snd first)).
Proof.
  intros Hmiss Hreq first second.
  destruct (githubApiRequest_frame (userUrl u) w)
    as (res & w' & E & (_ & Hcache & _) & _).
  rewrite Hreq in E. injection E as <- <-.
  pose proof (fetchGitHubUserInfo_miss u w r w1 Hmiss Hreq) as Hfirst.
  fold first in Hfirst.
  split.
  - intros Hst.
    assert (ok r = false) as Hok
      by (unfold ok; destruct Hst as [-> | ->]; reflexivity).
    assert ((status r =? 404)%Z = false) as H404
      by (destruct Hst as [-> | ->]; reflexivity).
    assert (isThrottled r = true) as Hthr
      by (unfold isThrottled; destruct Hst as [-> | ->]; reflexivity).
    rewrite Hok, H404, Hthr in Hfirst.
    assert (Hc : githubUserCache (snd first) = githubUserCache w)
      by (rewrite Hfirst; cbn; exact Hcache).
    split; [by rewrite Hfirst|]. split; [exact Hc|].
    split; [by rewrite Hc|].
    (* the second call misses the cache and goes through the wrapper *)
    subst second.
    destruct (githubApiRequest_frame (userUrl u) (snd first))
      as (res2 & w2 & E2 & _ & Hlt).
    unfold fetchGitHubUserInfo, bind at 1, gets.
    rewrite Hc, Hmiss. unfold tryCatch, bind at 1. rewrite E2.
    destruct res2 as [r2|e2]; [|cbn; exact Hlt].
    destruct (ok r2).
    + unfold jsonOf, bind. destruct (body r2) as [d|]; [|cbn; exact Hlt].
      unfold ret at 1. rewrite buildUserInfo_pure.
      destruct (userInfoOf d); cbn; exact Hlt.
    + destruct (status r2 =? 404)%Z; [cbn; exact Hlt|].
      destruct ((status r2 =? 403)%Z || (status r2 =? 429)%Z); cbn; exact Hlt.
  - intros H404.
    assert (ok r = false) as Hok by (unfold ok; rewrite H404; reflexivity).
    rewrite Hok, H404 in Hfirst. cbn [Z.eqb Pos.eqb] in Hfirst.
    assert (Hhit : cacheGet (githubUserCache (snd first)) u = Some Null).
    { rewrite Hfirst. cbn [snd remembered githubUserCache withCache warned
                             withConsole].
      rewrite <- Hcache in Hmiss.
      by rewrite (cacheGet_cacheSet _ u None Hmiss). }
    subst second. rewrite (fetchGitHubUserInfo_hit u (snd first) Null Hhit).
    split; [by rewrite Hfirst|]. done.
Qed.

(** A run of [userInfo_throttled_not_cached]: a forbidden request. *)
Lemma userInfo_throttled_not_cached_witness :
  let first := fetchGitHubUserInfo "ada" true (answering 403 None) in
  let second := fetchGitHubUserInfo "ada" true (snd first) in
  fst first = Ok Null
  /\ cacheGet (githubUserCache (snd first)) "ada" = None
  /\ (fetchCount (snd first) < fetchCount (snd second))%nat.
Proof.
  destruct (userInfo_throttled_not_cached "ada" (answering 403 None)
              (snd (githubApiRequest (userUrl "ada") 3 (answering 403 None)))
              {| status := 403; headers := []; body := None |})
    as (H & _).
  - reflexivity.
  - reflexivity.
  - destruct (H (or_introl eq_refl)) as (H1 & _ & H2 & H3). by repeat split.
Defined.

End UserProfile.

(** ** The repository list fetch *)

Section RepositoryList.

Import Eff Json GitHubApi.

Local Open Scope string_scope.

Lemma pushRepos_length limit items : forall allRepos allRepos',
  pushRepos limit items allRepos = Ok allRepos' ->
  (length allRepos <= length allRepos')%nat
  /\ ((length allRepos <= limit)%nat -> (length allRepos' <= limit)%nat)
  /\ (items <> [] -> (length allRepos < limit)%nat ->
      (length allRepos < length allRepos')%nat).
Proof.
  induction items as [|repo rest IH]; intros allRepos allRepos' H.
  - cbn in H. injection H as <-. repeat split; try lia. done.
  - cbn [pushRepos] in H.
    destruct (Nat.ltb_spec (length allRepos) limit) as [Hlt|Hge].
    + unfold bindR in H. destruct (summarizeRepo repo) as [summary|e]; [|done].
      apply IH in H as (H1 & H2 & _). rewrite length_app in *. cbn in *.
      repeat split; try lia.
    + apply IH in H as (H1 & H2 & _). repeat split; try lia.
Qed.

Ltac loop_done :=
  eexists _, _; split; [reflexivity|]; cbn [boundedOutcome]; try done; try lia.

Lemma reposLoop_total u limit fuel : forall allRepos page hasMore w,
  (hasMore = true -> (limit - length allRepos <= fuel)%nat) ->
  (length allRepos <= limit)%nat ->
  exists res w',
    reposLoop fuel u limit allRepos page hasMore w = (res, w')
    /\ boundedOutcome limit res.
Proof.
  induction fuel as [|fuel IH]; intros allRepos page hasMore w Hfuel Hlen.
  - cbn [reposLoop].
    destruct hasMore; [|loop_done].
    destruct (Nat.ltb_spec (length allRepos) limit); [|loop_done].
    specialize (Hfuel eq_refl). lia.
  - cbn [reposLoop].
    destruct hasMore; [|loop_done].
    destruct (Nat.ltb_spec (length allRepos) limit) as [Hlt|]; [|loop_done].
    cbn [andb]. unfold bind at 1.
    destruct (githubApiRequest (reposPageUrl u page) 3 w) as [[r|e] w1];
      [|loop_done].
    destruct (ok r); cbn [negb].
    2:{ destruct (status r =? 404)%Z; [loop_done|].
        destruct (isThrottled r); loop_done. }
    unfold jsonOf, bind at 1.
    destruct (body r) as [repos|]; [|loop_done].
    unfold ret at 1.
    assert (Hstop : exists res w',
      reposLoop fuel u limit allRepos page false w1 = (res, w')
      /\ boundedOutcome limit res) by (by apply IH).
    destruct repos as [| b | z | t | items | fields];
      unfold lengthOf, getProp, lift, propOf, bind at 1; try loop_done.
    + (* a string *)
      destruct (String.length t); cbn [Z.of_nat]; unfold ret at 1;
        cbn beta iota; [exact Hstop | loop_done].
    + (* an array *)
      destruct items as [|item items]; cbn [length Z.of_nat]; unfold ret at 1;
        cbn beta iota; [exact Hstop|].
      unfold elementsOf, lift, bind at 1.
      destruct (pushRepos limit (item :: items) allRepos) as [allRepos'|e]
        eqn:Hpush; [|loop_done].
      apply pushRepos_length in Hpush as (_ & H2 & H3).
      specialize (H2 Hlen). specialize (H3 ltac:(done) Hlt).
      specialize (Hfuel eq_refl).
      unfold bind.
      match goal with
      | |- context [if ?c then sleep 100 else ret tt] => destruct c
      end; cbn beta iota; apply IH; try done; intros _; lia.
    + (* an object *)
      destruct (Js.objGet fields "length") as [[| | [| |] | | |]|];
        cbn beta iota; try exact Hstop; loop_done.
Qed.

Lemma reposLoop_stop fuel u limit allRepos page w :
  reposLoop fuel u limit allRepos page false w = (Ok (Some allRepos), w).
Proof. destruct fuel; reflexivity. Qed.



Lemma reposLoop_last_page fuel u limit allRepos page w r w1 items allRepos' :
  (length allRepos < limit)%nat ->
  githubApiRequest (reposPageUrl u page) 3 w = (Ok r, w1) ->
  ok r = true -> body r = Some (JArr items) ->
  pushRepos limit items allRepos = Ok allRepos' ->
  (length items < perPage)%nat \/ noNextPage r ->
  reposLoop (S fuel) u limit allRepos page true w = (Ok (Some allRepos'), w1).
Proof.
  intros Hlt Hreq Hok Hbody Hpush Hlast. cbn [reposLoop].
  rewrite (proj2 (Nat.ltb_lt _ _) Hlt). cbn [andb].
  unfold bind at 1. rewrite Hreq, Hok. cbn [negb].
  unfold jsonOf, bind at 1. rewrite Hbody. unfold ret at 1.
  unfold lengthOf, bind at 1.
  destruct items as [|item items]; cbn [length Z.of_nat]; unfold ret at 1;
    cbn beta iota.
  { cbn in Hpush. injection Hpush as <-. apply reposLoop_stop. }
  unfold elementsOf, lift, bind at 1. rewrite Hpush.
  assert (((length (item :: items) =? perPage)%nat
           && mayHaveNext (headerGet (headers r) "Link")) = false) as ->.
  { destruct Hlast as [Hshort | (h & Hh & Ht & Hn)].
    - rewrite (proj2 (Nat.eqb_neq _ _)) by lia. reflexivity.
    - rewrite Hh. cbn [mayHaveNext]. rewrite Ht, Hn. apply andb_false_r. }
  unfold bind, ret. apply reposLoop_stop.
Qed.





End RepositoryList.

(** ** The fetchers degrade to defaults *)

Section Degrade.

Import Eff Json GitHubApi.

Local Open Scope string_scope.

Variable dateOf : jsval -> Js.JsNum.

Lemma tryCatch_returns {S A} (m : M S A) (h : Error -> M S A) :
  (forall e s, exists a s', h e s = (Ok a, s')) ->
  forall s, exists a s', tryCatch m h s = (Ok a, s').
Proof.
  intros Hh s. unfold tryCatch. destruct (m s) as [[a|e] s']; [eauto|].
  apply Hh.
Qed.

Lemma githubApiRequest_rejects target w :
  replyAt w 0 (requestFor target w) = None ->
  githubApiRequest target 3 w
  = (Throw NetworkError, fetched (requestFor target w) (prelude w)).
Proof.
  intros H. rewrite githubApiRequest_unfold. cbn [attemptLoop].
  unfold bind at 1. rewrite fetch_rejects; [done|].
  destruct (prelude_frame w) as (_ & _ & _ & _ & _ & ->). exact H.
Qed.

(** Without a usable token the requests carry no [Authorization]. *)
Lemma requestFor_noToken target w :
  noToken (GITHUB_TOKEN w) = true ->
  requestFor target w = {| url := target; authorization := None |}.
Proof.
  intros H. unfold requestFor. by rewrite hasTokenOf_noToken, H.
Qed.

(** On a network that always answers [r0], the wrapper ends with [r0]. *)
Lemma attemptLoop_steady left : forall attempt n req hasToken w r0,
  (forall k q, network w k q = Some r0) ->
  exists w', attemptLoop left attempt n req hasToken w = (Ok r0, w').
Proof.
  induction left as [|left IH]; intros attempt n req hasToken w r0 Hnet.
  - cbn [attemptLoop]. unfold fetch. rewrite Hnet. by eexists.
  - cbn [attemptLoop]. unfold bind at 1, fetch. rewrite Hnet.
    set (w1 := withTrace _ w).
    assert (Hnet1 : forall k q, network w1 k q = Some r0) by exact Hnet.
    destruct (handleRateLimit_frame r0 w1) as (w2 & Eh & (_ & _ & Hn2 & _)).
    assert (Hnet2 : forall k q, network w2 k q = Some r0)
      by (intros k q; by rewrite Hn2).
    destruct (status r0 =? 429)%Z.
    { unfold bind at 1. rewrite Eh.
      destruct (attempt <? n - 1)%nat; [by apply IH | by eexists]. }
    destruct (status r0 =? 403)%Z; [|by eexists].
    unfold bind at 1.
    destruct (headerGet (headers r0) "X-RateLimit-Remaining") as [text|].
    2:{ unfold ret at 1. cbn beta iota. unfold bind, consoleWarn, modify, ret.
        destruct hasToken; by eexists. }
    destruct (Js.streq text "0").
    2:{ unfold ret at 1. cbn beta iota. unfold bind, consoleWarn, modify, ret.
        destruct hasToken; by eexists. }
    unfold bind at 1. rewrite Eh. unfold ret at 1. cbn beta iota.
    destruct (attempt <? n - 1)%nat; [by apply IH|].
    unfold bind, consoleWarn, modify, ret. destruct hasToken; by eexists.
Qed.

Lemma githubApiRequest_steady target w r0 :
  (forall k q, network w k q = Some r0) ->
  exists w1, githubApiRequest target 3 w = (Ok r0, w1).
Proof.
  intros Hnet. rewrite githubApiRequest_unfold. apply attemptLoop_steady.
  intros k q. unfold prelude.
  destruct (hasTokenOf (GITHUB_TOKEN w)); [apply Hnet|].
  destruct (tokenWarningShown w); apply Hnet.
Qed.

Lemma fetchers_return (u : string) (limit : nat) (useCache : bool) (w : World) :
  (exists v w', fetchGitHubUserInfo u useCache w = (Ok v, w'))
  /\ (exists v w', fetchUserRepositories u limit w = (Ok (Some v), w'))
  /\ (exists v w', fetchUserLanguages u limit w = (Ok v, w'))
  /\ (exists v w', fetchRecentCommits dateOf u limit w = (Ok v, w')).
Proof.
  split; [|split; [|split]].
  - unfold fetchGitHubUserInfo, bind at 1, gets.
    destruct (if useCache then cacheGet (githubUserCache w) u else None)
      as [hit|]; [by eexists _, _|].
    apply tryCatch_returns. intros e s. by eexists _, _.
  - unfold fetchUserRepositories, tryCatch.
    destruct (reposLoop_total u limit limit [] 1 true w)
      as (res & w' & E & Hres); [intros _; cbn; lia | cbn; lia |].
    rewrite E. destruct res as [[l|]|e]; cbn in Hres; [|done|];
      by eexists _, _.
  - apply tryCatch_returns. intros e s. by eexists _, _.
  - apply tryCatch_returns. intros e s. by eexists _, _.
Qed.

Lemma fetchers_without_token (u : string) (limit : nat) (w : World) :
  noToken (GITHUB_TOKEN w) = true ->
  fetchUserLanguages u limit w = (Ok [], w)
  /\ fetchRecentCommits dateOf u limit w = (Ok [], w).
Proof.
  intros H. unfold fetchUserLanguages, fetchRecentCommits, tryCatch, bind, gets.
  by rewrite H.
Qed.

Lemma logged_error (msg : string) (w0 : World) :
  errorLogged (withConsole ((LevelError, msg) :: console w0) w0).
Proof. by exists msg. Qed.

(** The profile fetch, once its call of the wrapper has failed or ended
    with an error status. *)
Lemma profile_degrades u (useCache : bool) w res w1 :
  (if useCache then cacheGet (githubUserCache w) u else None) = None ->
  githubApiRequest (userUrl u) 3 w = (res, w1) ->
  (forall r, res = Ok r -> ok r = false) ->
  fst (fetchGitHubUserInfo u useCache w) = Ok Null
  /\ (forall e, res = Throw e ->
      errorLogged (snd (fetchGitHubUserInfo u useCache w))).
Proof.
  intros Hmiss Hreq Hbad.
  assert (exists w', fetchGitHubUserInfo u useCache w = (Ok Null, w')
                     /\ (forall e, res = Throw e -> errorLogged w'))
    as (w' & -> & H); [|done].
  unfold fetchGitHubUserInfo, bind at 1, gets. rewrite Hmiss.
  unfold tryCatch, bind at 1. rewrite Hreq.
  destruct res as [r|e].
  - rewrite (Hbad r eq_refl).
    destruct (status r =? 404)%Z; [by eexists|].
    destruct ((status r =? 403)%Z || (status r =? 429)%Z); by eexists.
  - eexists. split; [reflexivity|]. intros _ _. apply logged_error.
Qed.

Lemma repositories_degrade u limit w res w1 :
  githubApiRequest (reposPageUrl u 1) 3 w = (res, w1) ->
  (forall r, res = Ok r -> ok r = false) ->
  fst (fetchUserRepositories u limit w) = Ok (Some [])
  /\ ((0 < limit)%nat -> forall e, res = Throw e ->
      errorLogged (snd (fetchUserRepositories u limit w))).
Proof.
  intros Hreq Hbad.
  assert (exists w', fetchUserRepositories u limit w = (Ok (Some []), w')
                     /\ ((0 < limit)%nat -> forall e, res = Throw e ->
                         errorLogged w'))
    as (w' & -> & H); [|done].
  unfold fetchUserRepositories, tryCatch.
  destruct limit as [|limit]; [eexists; split; [reflexivity | lia]|].
  cbn [reposLoop length Nat.ltb Nat.leb andb]. unfold bind at 1. rewrite Hreq.
  destruct res as [r|e].
  - rewrite (Hbad r eq_refl). cbn [negb].
    destruct (status r =? 404)%Z; [by eexists|].
    destruct (isThrottled r); by eexists.
  - eexists. split; [reflexivity|]. intros _ _ _. apply logged_error.
Qed.

Lemma languages_degrade u limit w res w1 :
  githubApiRequest
    (userReposUrl u
       (String.append "&per_page=" (Js.numToString (Z.of_nat limit)))) 3 w
  = (res, w1) ->
  (forall r, res = Ok r -> ok r = false) ->
  fst (fetchUserLanguages u limit w) = Ok []
  /\ (noToken (GITHUB_TOKEN w) = false -> forall e, res = Throw e ->
      errorLogged (snd (fetchUserLanguages u limit w))).
Proof.
  intros Hreq Hbad.
  assert (exists w', fetchUserLanguages u limit w = (Ok [], w')
                     /\ (noToken (GITHUB_TOKEN w) = false ->
                         forall e, res = Throw e -> errorLogged w'))
    as (w' & -> & H); [|done].
  unfold fetchUserLanguages, tryCatch, bind at 1, gets.
  destruct (noToken (GITHUB_TOKEN w)); [by eexists|].
  unfold bind at 1. rewrite Hreq. destruct res as [r|e].
  - rewrite (Hbad r eq_refl). by eexists.
  - eexists. split; [reflexivity|]. intros _ _ _. apply logged_error.
Qed.

Lemma commits_degrade u limit w res w1 :
  githubApiRequest (userReposUrl u "&per_page=10") 3 w = (res, w1) ->
  (forall r, res = Ok r -> ok r = false) ->
  fst (fetchRecentCommits dateOf u limit w) = Ok []
  /\ (noToken (GITHUB_TOKEN w) = false -> forall e, res = Throw e ->
      errorLogged (snd (fetchRecentCommits dateOf u limit w))).
Proof.
  intros Hreq Hbad.
  assert (exists w', fetchRecentCommits dateOf u limit w = (Ok [], w')
                     /\ (noToken (GITHUB_TOKEN w) = false ->
                         forall e, res = Throw e -> errorLogged w'))
    as (w' & -> & H); [|done].
  unfold fetchRecentCommits, tryCatch, bind at 1, gets.
  destruct (noToken (GITHUB_TOKEN w)); [by eexists|].
  unfold bind at 1. rewrite Hreq. destruct res as [r|e].
  - rewrite (Hbad r eq_refl). by eexists.
  - eexists. split; [reflexivity|]. intros _ _ _. apply logged_error.
Qed.

(** What the four fetchers return when each one's first call of the
    wrapper yields [res]: their defaults. *)
Lemma fetchers_default (u : string) (limit : nat) (useCache : bool)
      (w : World) :
  (forall target, exists res w1,
     githubApiRequest target 3 w = (res, w1)
     /\ forall r, res = Ok r -> ok r = false) ->
  ((if useCache then cacheGet (githubUserCache w) u else None) = None ->
   fst (fetchGitHubUserInfo u useCache w) = Ok Null)
  /\ fst (fetchUserRepositories u limit w) = Ok (Some [])
  /\ fst (fetchUserLanguages u limit w) = Ok []
  /\ fst (fetchRecentCommits dateOf u limit w) = Ok [].
Proof.
  intros Hall. split; [|split; [|split]].
  - intros Hmiss. destruct (Hall (userUrl u)) as (res & w1 & E & Hbad).
    by destruct (profile_degrades u useCache w res w1).
  - destruct (Hall (reposPageUrl u 1)) as (res & w1 & E & Hbad).
    by destruct (repositories_degrade u limit w res w1).
  - match goal with
    | |- context [fetchUserLanguages] =>
        destruct (Hall (userReposUrl u
                          (String.append "&per_page="
                             (Js.numToString (Z.of_nat limit)))))
          as (res & w1 & E & Hbad)
    end.
    by destruct (languages_degrade u limit w res w1).
  - destruct (Hall (userReposUrl u "&per_page=10")) as (res & w1 & E & Hbad).
    by destruct (commits_degrade u limit w res w1).
Qed.

(** With no credential the profile and repository fetchers send their
    request without an [Authorization] header and return what the server
    sends. *)
Lemma fetchers_unauthenticated (u : string) (limit : nat) (useCache : bool)
      (w : World) :
  noToken (GITHUB_TOKEN w) = true ->
  (forall r0 userData info,
     (if useCache then cacheGet (githubUserCache w) u else None) = None ->
     replyAt w 0 {| url := userUrl u; authorization := None |} = Some r0 ->
     throttled r0 = false -> ok r0 = true ->
     body r0 = Some userData -> userInfoOf userData = Ok info ->
     fst (fetchGitHubUserInfo u useCache w) = Ok (Profile info)
     /\ trace (snd (fetchGitHubUserInfo u useCache w))
        = EvFetch {| url := userUrl u; authorization := None |} :: trace w)
  /\ (forall r0 items repos,
        (0 < limit)%nat ->
        replyAt w 0 {| url := reposPageUrl u 1; authorization := None |}
        = Some r0 ->
        throttled r0 = false -> ok r0 = true ->
        body r0 = Some (JArr items) -> (length items < perPage)%nat ->
        pushRepos limit items [] = Ok repos ->
        fst (fetchUserRepositories u limit w) = Ok (Some repos)
        /\ trace (snd (fetchUserRepositories u limit w))
           = EvFetch {| url := reposPageUrl u 1; authorization := None |}
             :: trace w).
Proof.
  intros Htok. split.
  - intros r0 userData info Hmiss Hreply Hthr Hok Hbody Hinfo.
    rewrite <- (requestFor_noToken (userUrl u) w Htok) in *.
    destruct (githubApiRequest_single (userUrl u) w r0 Hreply Hthr)
      as (Hres & Htr & _).
    destruct (githubApiRequest (userUrl u) 3 w) as [res w1] eqn:E.
    cbn [fst snd] in Hres, Htr. subst res.
    assert (exists w', fetchGitHubUserInfo u useCache w
                       = (Ok (Profile info), w') /\ trace w' = trace w1)
      as (w' & -> & Ht); [|by rewrite <- Htr].
    unfold fetchGitHubUserInfo, bind at 1, gets. rewrite Hmiss.
    unfold tryCatch, bind at 1. rewrite E, Hok.
    unfold jsonOf, bind. rewrite Hbody. unfold ret at 1.
    rewrite buildUserInfo_pure, Hinfo. by eexists.
  - intros r0 items repos Hlimit Hreply Hthr Hok Hbody Hshort Hpush.
    rewrite <- (requestFor_noToken (reposPageUrl u 1) w Htok) in *.
    destruct (githubApiRequest_single (reposPageUrl u 1) w r0 Hreply Hthr)
      as (Hres & Htr & _).
    destruct (githubApiRequest (reposPageUrl u 1) 3 w) as [res w1] eqn:E.
    cbn [fst snd] in Hres, Htr. subst res.
    unfold fetchUserRepositories, tryCatch.
    destruct limit as [|limit]; [lia|].
    rewrite (reposLoop_last_page limit u (S limit) [] 1 w r0 w1 items repos
               ltac:(cbn; lia) E Hok Hbody Hpush (or_introl Hshort)).
    by rewrite <- Htr.
Qed.

(** C5, as the code has it. None of the four fetchers ever throws. With
    no credential configured the language and commit fetchers return their
    empty result without a request, while every call of the wrapper
    sends its request without an [Authorization] header, and the profile
    and repository fetchers return what the server sends. When a fetcher's call of the wrapper is
    rejected, or ends with an error status (for a throttling status: once
    the wrapper has used its retries), the fetcher returns its empty
    result ([null], [[]], [{}]), and a rejected call is logged as an
    error. So it is when the network rejects the first request, and when
    it answers every request with the same error status, a throttling one
    included. *)
Theorem fetchers_degrade (u : string) (limit : nat) (useCache : bool)
        (w : World) :
  let unknown :=
    (if useCache then cacheGet (githubUserCache w) u else None) = None in
  let languagesUrl :=
    userReposUrl u
      (String.append "&per_page=" (Js.numToString (Z.of_nat limit))) in
  ((exists v w', fetchGitHubUserInfo u useCache w = (Ok v, w'))
   /\ (exists v w', fetchUserRepositories u limit w = (Ok (Some v), w'))
   /\ (exists v w', fetchUserLanguages u limit w = (Ok v, w'))
   /\ (exists v w', fetchRecentCommits dateOf u limit w = (Ok v, w')))
  /\ (noToken (GITHUB_TOKEN w) = true ->
      fetchUserLanguages u limit w = (Ok [], w)
      /\ fetchRecentCommits dateOf u limit w = (Ok [], w)
      /\ (forall target n,
            githubApiRequest target n w
            = attemptLoop n 0 n {| url := target; authorization := None |}
                false (prelude w))
      /\ (forall r0 userData info,
            unknown ->
            replyAt w 0 {| url := userUrl u; authorization := None |}
            = Some r0 ->
            throttled r0 = false -> ok r0 = true ->
            body r0 = Some userData -> userInfoOf userData = Ok info ->
            fst (fetchGitHubUserInfo u useCache w) = Ok (Profile info)
            /\ trace (snd (fetchGitHubUserInfo u useCache w))
               = EvFetch {| url := userUrl u; authorization := None |}
                 :: trace w)
      /\ (forall r0 items repos,
            (0 < limit)%nat ->
            replyAt w 0 {| url := reposPageUrl u 1; authorization := None |}
            = Some r0 ->
            throttled r0 = false -> ok r0 = true ->
            body r0 = Some (JArr items) -> (length items < perPage)%nat ->
            pushRepos limit items [] = Ok repos ->
            fst (fetchUserRepositories u limit w) = Ok (Some repos)
            /\ trace (snd (fetchUserRepositories u limit w))
               = EvFetch {| url := reposPageUrl u 1; authorization := None |}
                 :: trace w))
  /\ (forall res w1,
        unknown ->
        githubApiRequest (userUrl u) 3 w = (res, w1) ->
        (forall r, res = Ok r -> ok r = false) ->
        fst (fetchGitHubUserInfo u useCache w) = Ok Null
        /\ (forall e, res = Throw e ->
            errorLogged (snd (fetchGitHubUserInfo u useCache w))))
  /\ (forall res w1,
        githubApiRequest (reposPageUrl u 1) 3 w = (res, w1) ->
        (forall r, res = Ok r -> ok r = false) ->
        fst (fetchUserRepositories u limit w) = Ok (Some [])
        /\ ((0 < limit)%nat -> forall e, res = Throw e ->
            errorLogged (snd (fetchUserRepositories u limit w))))
  /\ (forall res w1,
        githubApiRequest languagesUrl 3 w = (res, w1) ->
        (forall r, res = Ok r -> ok r = false) ->
        fst (fetchUserLanguages u limit w) = Ok []
        /\ (noToken (GITHUB_TOKEN w) = false -> forall e, res = Throw e ->
            errorLogged (snd (fetchUserLanguages u limit w))))
  /\ (forall res w1,
        githubApiRequest (userReposUrl u "&per_page=10") 3 w = (res, w1) ->
        (forall r, res = Ok r -> ok r = false) ->
        fst (fetchRecentCommits dateOf u limit w) = Ok []
        /\ (noToken (GITHUB_TOKEN w) = false -> forall e, res = Throw e ->
            errorLogged (snd (fetchRecentCommits dateOf u limit w))))
  /\ ((forall q, replyAt w 0 q = None) ->
      (unknown ->
       fst (fetchGitHubUserInfo u useCache w) = Ok Null
       /\ errorLogged (snd (fetchGitHubUserInfo u useCache w)))
      /\ fst (fetchUserRepositories u limit w) = Ok (Some [])
      /\ ((0 < limit)%nat ->
          errorLogged (snd (fetchUserRepositories u limit w)))
      /\ fst (fetchUserLanguages u limit w) = Ok []
      /\ (noToken (GITHUB_TOKEN w) = false ->
          errorLogged (snd (fetchUserLanguages u limit w)))
      /\ fst (fetchRecentCommits dateOf u limit w) = Ok []
      /\ (noToken (GITHUB_TOKEN w) = false ->
          errorLogged (snd (fetchRecentCommits dateOf u limit w))))
  /\ (forall r0,
        (forall k q, network w k q = Some r0) -> ok r0 = false ->
        (unknown -> fst (fetchGitHubUserInfo u useCache w) = Ok Null)
        /\ fst (fetchUserRepositories u limit w) = Ok (Some [])
        /\ fst (fetchUserLanguages u limit w) = Ok []
        /\ fst (fetchRecentCommits dateOf u limit w) = Ok []).
Proof.
  intros unknown languagesUrl. subst unknown languagesUrl.
  split; [apply fetchers_return|].
  split.
  { intros Htok. destruct (fetchers_without_token u limit w Htok) as [H1 H2].
    destruct (fetchers_unauthenticated u limit useCache w Htok) as [H3 H4].
    split; [exact H1|]. split; [exact H2|]. split; [|done].
    intros target n. rewrite githubApiRequest_unfold.
    rewrite (requestFor_noToken target w Htok).
    by rewrite hasTokenOf_noToken, Htok. }
  split; [intros res w1; apply profile_degrades|].
  split; [intros res w1; apply repositories_degrade|].
  split; [intros res w1; apply languages_degrade|].
  split; [intros res w1; apply commits_degrade|].
  split.
  - intros Hdown.
    assert (Hrej : forall target,
              githubApiRequest target 3 w
              = (Throw NetworkError,
                 fetched (requestFor target w) (prelude w)))
      by (intros target; by apply githubApiRequest_rejects).
    assert (Hbad : forall r : Response,
              Throw NetworkError = Ok r -> ok r = false) by discriminate.
    split.
    { intros Hmiss.
      destruct (profile_degrades u useCache w _ _ Hmiss (Hrej _) Hbad)
        as [H1 H2].
      split; [exact H1 | by eapply H2]. }
    destruct (repositories_degrade u limit w _ _ (Hrej _) Hbad) as [H1 H2].
    destruct (languages_degrade u limit w _ _ (Hrej _) Hbad) as [H3 H4].
    destruct (commits_degrade u limit w _ _ (Hrej _) Hbad) as [H5 H6].
    split; [exact H1|]. split; [intros Hl; by eapply H2|].
    split; [exact H3|]. split; [intros Ht; by eapply H4|].
    split; [exact H5|]. intros Ht; by eapply H6.
  - intros r0 Hnet Hok. apply fetchers_default. intros target.
    destruct (githubApiRequest_steady target w r0 Hnet) as [w1 E].
    exists (Ok r0), w1. split; [exact E|]. by intros r [= <-].
Qed.

End Degrade.

Section DegradeExamples.

Import Eff Json GitHubApi.

Local Open Scope string_scope.

(** A run of [fetchers_degrade]: the network is down, and GitHub
    throttles every request. *)
Lemma fetchers_degrade_witness :
  (fst (fetchGitHubUserInfo "ada" true offline) = Ok Null
   /\ fst (fetchUserRepositories "ada" 100 offline) = Ok (Some [])
   /\ fst (fetchUserLanguages "ada" 100 offline) = Ok []
   /\ fst (fetchRecentCommits (fun _ => Js.NaN) "ada" 100 offline) = Ok [])
  /\ (fst (fetchGitHubUserInfo "ada" true alwaysThrottled) = Ok Null
      /\ fst (fetchUserRepositories "ada" 100 alwaysThrottled) = Ok (Some [])
      /\ fst (fetchUserLanguages "ada" 100 alwaysThrottled) = Ok []
      /\ fst (fetchRecentCommits (fun _ => Js.NaN) "ada" 100 alwaysThrottled)
         = Ok []).
Proof.
  destruct (fetchers_degrade (fun _ => Js.NaN) "ada" 100 true offline)
    as (_ & _ & _ & _ & _ & _ & H & _).
  destruct (H (fun _ => eq_refl)) as (H1 & H2 & _ & H3 & _ & H4 & _).
  destruct (fetchers_degrade (fun _ => Js.NaN) "ada" 100 true alwaysThrottled)
    as (_ & _ & _ & _ & _ & _ & _ & H').
  destruct (H' {| status := 429; headers := []; body := None |}
              (fun _ _ => eq_refl) eq_refl) as (H5 & H6 & H7 & H8).
  split; [split; [by apply H1 | done]|].
  split; [by apply H5 | done].
Defined.

(** With no credential configured the profile and repository fetchers
    still return what GitHub sends. *)
Lemma fetchers_without_token_counterexample :
  let w1 := answering 200 (Some (JObj [("login", JStr "ada")])) in
  let w2 := answering 200 (Some (JArr [sampleRepo])) in
  noToken (GITHUB_TOKEN w1) = true
  /\ noToken (GITHUB_TOKEN w2) = true
  /\ (exists info,
        fst (fetchGitHubUserInfo "ada" true w1) = Ok (Profile info)
        /\ username info = Some (JStr "ada"))
  /\ returnedCount (fetchUserRepositories "ada" 10 w2) = Some 1%nat.
Proof.
  cbv zeta. split; [reflexivity|]. split; [reflexivity|].
  split; [|vm_compute; reflexivity].
  eexists. split; vm_compute; reflexivity.
Qed.

End DegradeExamples.

Section PRTrendsExample.

Import Dashboard.

Local Open Scope string_scope.

(** A run of [prTrends_fallback_distribution]: 11 pull requests over 3
    days. *)
Lemma prTrends_fallback_distribution_witness :
  let buckets :=
    getPRTrendsData (fun _ => 0) [memberWithPRs 7; memberWithPRs 4] 3 in
  length buckets = 3%nat /\ sumZ buckets = 11
  /\ buckets !! 0%nat = Some 4 /\ buckets !! 1%nat = Some 4
  /\ buckets !! 2%nat = Some 3.
Proof.
  destruct (prTrends_fallback_distribution (fun _ => 0)
              [memberWithPRs 7; memberWithPRs 4] 3) as (H1 & H2 & _ & _).
  - repeat constructor.
  - lia.
  - vm_compute. discriminate.
  - cbv zeta. split; [exact H1|]. split; [exact H2|].
    repeat split; reflexivity.
Defined.

End PRTrendsExample.

(** ** The members cache: refresh, clear and lookup *)

Section MembersCacheMore.

Import Eff Json DataStore MemberLookup.

Local Open Scope string_scope.

(** X1. A forced refresh always sends the query to the document store,
    exactly once and whatever the cache holds, and never throws; when the
    query succeeds it returns the collection built from the documents and
    leaves it in memory. *)
Theorem load_forced_always_queries (s : State) :
  let run := loadMembersData true s in
  queries (snd run) = S (queries s)
  /\ (exists v, fst run = Ok v /\ members (snd run) = v)
  /\ (forall docs, firestore s (queries s) = Some docs ->
        fst run = Ok (membersOf docs)
        /\ members (snd run) = membersOf docs).
Proof.
  intros run. subst run.
  destruct (loadMembersData_forced s) as (v & s' & E & Hm & Hq & Hdocs & _).
  rewrite E. cbn [fst snd]. split; [exact Hq|]. split; [by exists v|].
  intros docs Hd. destruct (Hdocs docs Hd) as [-> _]. by rewrite Hm.
Qed.

(** X2. [clear()] always succeeds and leaves a cache that is not valid;
    the [load(false)] that follows queries the document store once and,
    when the query succeeds, returns the collection built from the
    documents; when the storage accepts the two writes, both keys are
    there again afterwards. *)
Theorem clear_then_load_refetches (s : State) (docs : list Doc) :
  firestore s (queries s) = Some docs ->
  let cleared := clearMembersCache s in
  let run := loadMembersData false (snd cleared) in
  fst cleared = Ok tt
  /\ cacheCleared (snd cleared)
  /\ isCacheFresh (snd cleared) = (Ok false, snd cleared)
  /\ fst run = Ok (membersOf docs)
  /\ members (snd run) = membersOf docs
  /\ queries (snd run) = S (queries s)
  /\ (persistable (membersOf docs) (snd cleared) -> cacheValid (snd run)).
Proof.
  intros Hdocs cleared run.
  assert (Hc : cleared
    = (Ok tt,
       withConsole ((LevelLog, "Cleared members cache") :: console s)
         (withStorage (delete CACHE_TIMESTAMP_KEY (delete CACHE_KEY (storage s)))
            s))) by reflexivity.
  set (s0 := snd cleared) in *.
  assert (Hk : storage s0 !! CACHE_KEY = None).
  { subst s0. rewrite Hc. cbn. rewrite lookup_delete_ne by done.
    apply lookup_delete_eq. }
  assert (Ht : storage s0 !! CACHE_TIMESTAMP_KEY = None).
  { subst s0. rewrite Hc. cbn. apply lookup_delete_eq. }
  split; [by rewrite Hc|]. split; [by split|].
  split.
  { unfold isCacheFresh, bind, getItem, gets, ret. cbn beta iota.
    by rewrite Hk, Ht. }
  destruct (loadMembersData_cached s0)
    as [(v & (t & _ & H & _) & _) | (_ & s1 & E & Hq1 & Hst1 & Hfs1 & Hqu1 & Hn1)];
    [congruence|].
  subst run. rewrite E.
  destruct (loadMembersData_forced s1) as (v & s' & E' & Hm & Hq & Hd & _).
  rewrite E'. cbn [fst snd].
  assert (Hdocs1 : firestore s1 (queries s1) = Some docs).
  { rewrite Hfs1, Hq1. subst s0. rewrite Hc. exact Hdocs. }
  destruct (Hd docs Hdocs1) as [-> Hvalid].
  split; [done|]. split; [done|].
  split; [rewrite Hq, Hq1; subst s0; by rewrite Hc|].
  intros Hp. apply Hvalid.
  unfold persistable, accepts in *. cbn [storage quota withStorage] in *.
  rewrite Hst1, Hqu1, Hn1. exact Hp.
Qed.

(** A run of [clear_then_load_refetches]. *)
Lemma clear_then_load_refetches_witness :
  let cleared := clearMembersCache (snd (setMembers sampleMembers roomyBrowser)) in
  let run := loadMembersData false (snd cleared) in
  fst run = Ok sampleMembers /\ queries (snd run) = 1%nat
  /\ cacheValid (snd run).
Proof.
  destruct (clear_then_load_refetches
              (snd (setMembers sampleMembers roomyBrowser)) [sampleDoc])
    as (_ & _ & _ & H1 & _ & H2 & H3).
  - reflexivity.
  - split; [exact H1|]. split; [exact H2|].
    apply H3. split; vm_compute; lia.
Defined.




Lemma docToMember_fields d :
  exists fields,
    docToMember d = JObj fields
    /\ Js.objGet fields "id"
       = match Js.objGet (rev (docData d)) "id" with
         | Some v => Some v
         | None => Some (JStr (docId d))
         end.
Proof.
  unfold docToMember. eexists. split; [reflexivity|].
  generalize (docId d). intros i.
  induction (docData d) as [|[k v] r IH] using rev_ind; [reflexivity|].
  rewrite fold_left_app. cbn [fold_left fst snd].
  rewrite objGet_objSet, rev_app_distr. cbn [rev app Js.objGet].
  case_decide as Hk.
  - subst k. by rewrite (proj2 (streq_true "id" "id")).
  - rewrite (proj2 (streq_false k "id")) by done. exact IH.
Qed.

Lemma objGet_absent {V} (o : Js.Obj V) k :
  k ∉ map fst o -> Js.objGet o k = None.
Proof.
  induction o as [|[k0 v0] r IH]; [done|]. cbn. intros Hk.
  apply not_elem_of_cons in Hk as [Hne Hk].
  rewrite (proj2 (streq_false k0 k)) by congruence. by apply IH.
Qed.

Lemma idOf_plain d :
  "id" ∉ map fst (docData d) ->
  idOf (docToMember d) = Ok (Some (JStr (docId d))).
Proof.
  intros Hplain. destruct (docToMember_fields d) as (fields & -> & Hid).
  cbn [idOf]. rewrite Hid, objGet_absent; [done|].
  rewrite map_rev. intros Hin. apply Hplain.
  apply list_elem_of_In, in_rev. by apply list_elem_of_In.
Qed.

Lemma findById_docs docs k :
  plainDocs docs ->
  findById (map docToMember docs) k
  = Ok (docToMember <$> List.find (fun d => Js.streq (docId d) k) docs).
Proof.
  induction 1 as [|d docs Hd _ IH]; [reflexivity|].
  cbn [map findById List.find]. rewrite (idOf_plain d Hd). cbn [sameId].
  destruct (Js.streq (docId d) k); [reflexivity | exact IH].
Qed.

(** X5. After a refresh whose documents carry no [id] field of their own
    and have distinct ids, [getMemberById] finds every member under the id
    of its document and answers [undefined] for any other id; it leaves
    the store as it is. *)
Theorem getMemberById_after_refresh (s : State) (docs : list Doc) :
  firestore s (queries s) = Some docs ->
  plainDocs docs ->
  NoDup (map docId docs) ->
  let s1 := snd (loadMembersData true s) in
  (forall d, d ∈ docs ->
     getMemberById (docId d) s1 = (Ok (Some (docToMember d)), s1))
  /\ (forall k, k ∉ map docId docs -> getMemberById k s1 = (Ok None, s1)).
Proof.
  intros Hq Hplain Hnd s1.
  assert (Hm : members s1 = membersOf docs).
  { subst s1. destruct (loadMembersData_forced s) as (v & s' & E & Hm & _ & Hd & _).
    rewrite E. cbn [snd]. rewrite Hm. by destruct (Hd docs Hq). }
  assert (Hget : forall k,
    getMemberById k s1
    = (Ok (docToMember <$> List.find (fun d => Js.streq (docId d) k) docs), s1)).
  { intros k. unfold getMemberById, bind, gets. rewrite Hm.
    unfold membersOf. by rewrite findById_docs. }
  split.
  - intros d Hd. rewrite Hget. do 3 f_equal.
    clear Hget Hm Hq Hplain. induction docs as [|d0 docs IH]; [by apply elem_of_nil in Hd|].
    cbn [List.find]. apply NoDup_cons in Hnd as [Hd0 Hnd].
    apply elem_of_cons in Hd as [->|Hd].
    + by rewrite (proj2 (streq_true (docId d0) (docId d0))).
    + rewrite (proj2 (streq_false (docId d0) (docId d))).
      * by apply IH.
      * intros Heq. apply Hd0. rewrite Heq. by apply list_elem_of_fmap_2.
  - intros k Hk. rewrite Hget. do 2 f_equal.
    clear Hget Hm Hq Hplain Hnd. induction docs as [|d0 docs IH]; [done|].
    cbn [List.find]. cbn in Hk. apply not_elem_of_cons in Hk as [Hne Hk].
    rewrite (proj2 (streq_false (docId d0) k)) by congruence. by apply IH.
Qed.

(** A run of [getMemberById_after_refresh]. *)
Lemma getMemberById_after_refresh_witness :
  let s1 := snd (loadMembersData true roomyBrowser) in
  getMemberById "m1" s1 = (Ok (Some (docToMember sampleDoc)), s1)
  /\ getMemberById "m2" s1 = (Ok None, s1).
Proof.
  destruct (getMemberById_after_refresh roomyBrowser [sampleDoc])
    as [H1 H2].
  - reflexivity.
  - constructor; [|constructor]. cbn.
    intros Hin%list_elem_of_singleton. discriminate.
  - cbn. constructor; [apply not_elem_of_nil | constructor].
  - split.
    + apply (H1 sampleDoc). by apply list_elem_of_singleton.
    + apply H2. cbn. intros Hin%list_elem_of_singleton. discriminate.
Defined.

End MembersCacheMore.

(** ** The HTTP client wrapper: bounds, requests and warnings *)

Section ClientWrapperMore.

Import Eff Json GitHubApi.

Local Open Scope string_scope.

Lemma advanced_refl w : advanced w w [] [].
Proof. unfold advanced, sleptFor. cbn. repeat split; lia. Qed.

Lemma sleptFor_app a b : sleptFor (a ++ b) = sleptFor a + sleptFor b.
Proof.
  unfold sleptFor.
  induction a as [|[q|ms] a IH]; cbn [app fold_right];
    [lia | exact IH | rewrite IH; lia].
Qed.

Lemma advanced_trans w1 w2 w3 evs1 msgs1 evs2 msgs2 :
  advanced w1 w2 evs1 msgs1 -> advanced w2 w3 evs2 msgs2 ->
  advanced w1 w3 (evs2 ++ evs1) (msgs2 ++ msgs1).
Proof.
  intros (A1 & B1 & C1 & D1 & E1 & F1 & G1) (A2 & B2 & C2 & D2 & E2 & F2 & G2).
  unfold advanced. rewrite A2, A1, B2, B1, C2, C1, sleptFor_app, <- !app_assoc.
  repeat split; try congruence. lia.
Qed.

Lemma fetches_app a b : fetches (a ++ b) = (fetches a + fetches b)%nat.
Proof. unfold fetches. by rewrite List.filter_app, length_app. Qed.

Lemma sleeps_app a b : sleeps (a ++ b) = (sleeps a + sleeps b)%nat.
Proof. unfold sleeps. by rewrite List.filter_app, length_app. Qed.

Lemma waitTimeOf_nonneg reset nowMs : 0 <= waitTimeOf reset nowMs.
Proof.
  unfold waitTimeOf. destruct reset as [[|z]|]; try lia.
  destruct (negb (z =? 0)%Z); lia.
Qed.

(** [fetch] adds the request to the trace, whatever the reply. *)
Lemma fetch_advanced req w :
  exists res, fetch req w = (res, fetched req w)
              /\ advanced w (fetched req w) [EvFetch req] []
              /\ (forall e, res = Throw e -> e = NetworkError).
Proof.
  unfold fetch. destruct (network w (fetchCount w) req);
    eexists; (split; [reflexivity|]);
    (split; [unfold advanced; cbn; repeat split; lia|]);
    intros e [=]; done.
Qed.

(** [handleRateLimit] never throws; it waits at most once, never for a
    negative time. *)
Lemma handleRateLimit_advanced r w :
  exists w' evs msgs,
    handleRateLimit r w = (Ok tt, w') /\ advanced w w' evs msgs
    /\ (evs = [] \/ exists d, evs = [EvSleep d] /\ 0 <= d)
    /\ Forall (fun m => isTokenWarning m = false) msgs.
Proof.
  unfold handleRateLimit, bind, modify, gets, ret, consoleWarn, sleep.
  destruct (headerGet (headers r) "X-RateLimit-Remaining");
    destruct (headerGet (headers r) "X-RateLimit-Reset");
    cbn beta iota zeta;
    match goal with
    | |- context [if ?c then _ else _] => destruct c
    end;
    lazymatch goal with
    | |- context [EvSleep ?d] =>
        eexists; exists [EvSleep d],
          [(LevelWarn, "Rate limit hit. Waiting before retrying...")];
        (split; [reflexivity|]); split;
        [ unfold advanced, sleptFor; cbn; repeat split; lia
        | split; [right; eexists; split; [reflexivity | apply waitTimeOf_nonneg]
                 | by repeat constructor ] ]
    | |- _ =>
        eexists; exists [], []; (split; [reflexivity|]); split;
        [ unfold advanced, sleptFor; cbn; repeat split; lia
        | split; [by left | constructor] ]
    end.
Qed.

Lemma settled_one req most w w1 w2 evs msgs :
  advanced w w1 [EvFetch req] [] ->
  advanced w1 w2 evs msgs ->
  (evs = [] \/ exists d, evs = [EvSleep d] /\ 0 <= d) ->
  Forall (fun m => isTokenWarning m = false) msgs ->
  settled req (S most) w w2.
Proof.
  intros H1 H2 Hevs Hq. exists (evs ++ [EvFetch req])%list, (msgs ++ [])%list.
  split; [by eapply advanced_trans|].
  destruct Hevs as [-> | (d & -> & Hd)]; cbn.
  - split; [by repeat constructor|]. unfold fetches, sleeps. cbn.
    split; [lia|]. split; [lia|]. by rewrite app_nil_r.
  - split; [by repeat constructor|]. unfold fetches, sleeps. cbn.
    split; [lia|]. split; [lia|]. by rewrite app_nil_r.
Qed.

Lemma settled_more req most w w1 w2 w3 evs msgs :
  advanced w w1 [EvFetch req] [] ->
  advanced w1 w2 evs msgs ->
  (evs = [] \/ exists d, evs = [EvSleep d] /\ 0 <= d) ->
  Forall (fun m => isTokenWarning m = false) msgs ->
  (1 <= most)%nat ->
  settled req most w2 w3 ->
  settled req (S most) w w3.
Proof.
  intros H1 H2 Hevs Hq Hmost (evs3 & msgs3 & H3 & Hw3 & Hf3 & Hs3 & Hq3).
  exists (evs3 ++ evs ++ [EvFetch req])%list, (msgs3 ++ msgs ++ [])%list.
  split; [eapply advanced_trans; [|exact H3]; by eapply advanced_trans|].
  rewrite !fetches_app, !sleeps_app, app_nil_r.
  split.
  { apply Forall_app. split; [done|]. apply Forall_app. split; [|by repeat constructor].
    destruct Hevs as [-> | (d & -> & Hd)]; by repeat constructor. }
  split; [|split; [|by apply Forall_app]];
    destruct Hevs as [-> | (d & -> & Hd)]; unfold fetches, sleeps in *; cbn; lia.
Qed.

Lemma settled_warned req most w w' msg :
  settled req most w w' -> Js.streq msg tokenWarning = false ->
  settled req most w (withConsole ((LevelWarn, msg) :: console w') w').
Proof.
  intros (evs & msgs & (A & B & C & D & E & F & G) & Hw & Hf & Hs & Hq) Hmsg.
  exists evs, ((LevelWarn, msg) :: msgs).
  split; [unfold advanced; cbn; rewrite B; by repeat split|].
  split; [done|]. split; [done|]. split; [done|].
  constructor; [exact Hmsg | exact Hq].
Qed.

(** The attempt loop, [left] turns before its end. *)
Lemma attemptLoop_settled left : forall attempt n req hasToken w,
  (left + attempt = n)%nat ->
  exists res w',
    attemptLoop left attempt n req hasToken w = (res, w')
    /\ settled req left w w'
    /\ (forall e, res = Throw e -> e = NetworkError).
Proof.
  induction left as [|left IH]; intros attempt n req hasToken w Hn.
  - cbn [attemptLoop]. destruct (fetch_advanced req w) as (res & E & Ha & He).
    exists res, (fetched req w). split; [exact E|]. split; [|exact He].
    exists [EvFetch req], []. split; [exact Ha|].
    split; [by repeat constructor|]. unfold fetches, sleeps. cbn.
    split; [lia|]. split; [lia | constructor].
  - cbn [attemptLoop]. unfold bind at 1.
    destruct (fetch_advanced req w) as (res & E & Ha & He). rewrite E.
    set (w1 := fetched req w) in *.
    destruct res as [r|e].
    2:{ eexists _, _. split; [reflexivity|]. split; [|exact He].
        apply (settled_one req left w w1 w1 [] []);
          [exact Ha | apply advanced_refl | by left | constructor]. }
    clear He.
    destruct (handleRateLimit_advanced r w1) as (w2 & evs & msgs & Eh & Ha2 & Hevs & Hq).
    assert (Hstay : settled req (S left) w w1).
    { apply (settled_one req left w w1 w1 [] []);
        [exact Ha | apply advanced_refl | by left | constructor]. }
    assert (Hwait : settled req (S left) w w2)
      by (by apply (settled_one req left w w1 w2 evs msgs)).
    assert (Hgo : (attempt <? n - 1)%nat = true ->
      exists res w',
        attemptLoop left (S attempt) n req hasToken w2 = (res, w')
        /\ settled req (S left) w w'
        /\ (forall e, res = Throw e -> e = NetworkError)).
    { intros Hlt%Nat.ltb_lt.
      destruct (IH (S attempt) n req hasToken w2) as (res & w' & E' & Hs & He);
        [lia|].
      exists res, w'. split; [exact E'|]. split; [|exact He].
      apply (settled_more req left w w1 w2 w' evs msgs); try done. lia. }
    assert (Hend : forall w', settled req (S left) w w' ->
      exists res w'',
        ((if hasToken
          then consoleWarn
                 "GitHub API 403 Forbidden - token may be invalid or expired."
          else consoleWarn
                 "GitHub API 403 Forbidden - token may be missing or invalid.") ;;;
         ret r)%eff w' = (res, w'')
        /\ settled req (S left) w w''
        /\ (forall e, res = Throw e -> e = NetworkError)).
    { intros w' Hw'. unfold bind, consoleWarn, modify, ret.
      destruct hasToken; cbn beta iota; eexists _, _;
        (split; [reflexivity|]); (split; [by apply settled_warned | done]). }
    destruct (status r =? 429)%Z.
    + unfold bind. rewrite Eh. cbn beta iota.
      destruct (attempt <? n - 1)%nat eqn:Hlt; [by apply Hgo|].
      eexists _, _. split; [reflexivity|]. split; [exact Hwait | done].
    + destruct (status r =? 403)%Z.
      2:{ eexists _, _. split; [reflexivity|]. split; [exact Hstay | done]. }
      unfold bind at 1.
      destruct (headerGet (headers r) "X-RateLimit-Remaining") as [rem|].
      * destruct (Js.streq rem "0").
        -- unfold bind at 1. rewrite Eh. cbn beta iota. unfold ret at 1.
           destruct (attempt <? n - 1)%nat eqn:Hlt; [by apply Hgo|].
           by apply Hend.
        -- unfold ret at 1. by apply Hend.
      * unfold ret at 1. by apply Hend.
Qed.

Lemma prelude_console w :
  console (prelude w)
  = ((if noToken (GITHUB_TOKEN w) && negb (tokenWarningShown w)
      then [(LevelWarn, tokenWarning)] else []) ++ console w)%list
  /\ tokenWarningShown (prelude w)
     = (noToken (GITHUB_TOKEN w) || tokenWarningShown w)
  /\ trace (prelude w) = trace w /\ clock (prelude w) = clock w
  /\ GITHUB_TOKEN (prelude w) = GITHUB_TOKEN w
  /\ githubUserCache (prelude w) = githubUserCache w
  /\ network (prelude w) = network w.
Proof.
  unfold prelude. rewrite hasTokenOf_noToken.
  destruct (noToken (GITHUB_TOKEN w)); cbn [negb andb orb]; [|done].
  destruct (tokenWarningShown w) eqn:Hs; cbn [negb]; by rewrite ?Hs.
Qed.

(** A call of the wrapper, whatever the number of attempts. *)
Lemma githubApiRequest_settled target n w :
  exists res w',
    githubApiRequest target n w = (res, w')
    /\ settled (requestFor target w) n (prelude w) w'
    /\ (forall e, res = Throw e -> e = NetworkError).
Proof.
  rewrite githubApiRequest_unfold.
  apply attemptLoop_settled. lia.
Qed.

Lemma sleptFor_nonneg req evs : Forall (wrapperEvent req) evs -> 0 <= sleptFor evs.
Proof.
  unfold sleptFor. induction 1 as [|[q|ms] evs He _ IH]; cbn in *; lia.
Qed.

(** X6. Whatever [maxRetries] is, a call of the wrapper sends at least
    one request and at most [maxRetries] of them (one when [maxRetries]
    is [0], through the [fetch] after the loop), and waits at most
    [maxRetries] times. It throws only when a request is rejected by the
    network. *)
Theorem githubApiRequest_request_bound (target : string) (n : nat) (w : World) :
  exists res w' evs,
    githubApiRequest target n w = (res, w')
    /\ trace w' = (evs ++ trace w)%list
    /\ (1 <= fetches evs <= Nat.max 1 n)%nat
    /\ (sleeps evs <= n)%nat
    /\ fetchCount w' = (fetchCount w + fetches evs)%nat
    /\ (n = 0%nat -> evs = [EvFetch (requestFor target w)])
    /\ (forall e, res = Throw e -> e = NetworkError).
Proof.
  destruct (githubApiRequest_settled target n w)
    as (res & w' & E & (evs & msgs & Ha & Hw & Hf & Hs & Hq) & He).
  destruct (prelude_console w) as (_ & _ & Htr & _).
  destruct Ha as (Htrace & _).
  exists res, w', evs. split; [exact E|].
  split; [by rewrite Htrace, Htr|]. split; [exact Hf|].
  split; [exact Hs|]. split.
  { unfold fetchCount, fetches. rewrite Htrace, Htr.
    rewrite List.filter_app, length_app. lia. }
  split; [|exact He].
  intros ->. rewrite githubApiRequest_unfold in E. cbn [attemptLoop] in E.
  destruct (fetch_advanced (requestFor target w) (prelude w)) as (res' & E' & _).
  rewrite E' in E. injection E as _ <-. cbn in Htrace.
  change (EvFetch (requestFor target w) :: trace (prelude w))
    with ([EvFetch (requestFor target w)] ++ trace (prelude w))%list in Htrace.
  symmetry. by apply app_inv_tail in Htrace.
Qed.

(** X7. Every request a call of the wrapper sends is the one for its
    URL, with an [Authorization] header made of the configured token, and
    with none when the token is missing, blank or still the placeholder.
    It never waits for a negative time, so the clock only moves forward,
    by the sum of the delays; the token, the user cache and the network
    are left as they were. *)
Theorem githubApiRequest_sends_only_its_request (target : string) (n : nat)
        (w : World) :
  let req := requestFor target w in
  let w' := snd (githubApiRequest target n w) in
  url req = target
  /\ authorization req
     = (if noToken (GITHUB_TOKEN w) then None
        else Some (String.append "token " (GITHUB_TOKEN w)))
  /\ (exists evs,
        trace w' = (evs ++ trace w)%list
        /\ Forall (wrapperEvent req) evs
        /\ clock w' = clock w + sleptFor evs)
  /\ clock w <= clock w'
  /\ GITHUB_TOKEN w' = GITHUB_TOKEN w
  /\ githubUserCache w' = githubUserCache w
  /\ network w' = network w.
Proof.
  intros req w'. subst req w'.
  destruct (githubApiRequest_settled target n w)
    as (res & w' & E & (evs & msgs & Ha & Hw & Hf & Hs & Hq) & He).
  destruct (prelude_console w) as (_ & _ & Htr & Hclk & Htok & Hc & Hn).
  destruct Ha as (A & B & C & D & F & G & H).
  rewrite E. cbn [snd].
  split; [reflexivity|].
  split; [unfold requestFor; cbn; rewrite hasTokenOf_noToken;
          by destruct (noToken (GITHUB_TOKEN w))|].
  pose proof (sleptFor_nonneg _ _ Hw) as Hpos.
  split; [exists evs; by rewrite A, C, Htr, Hclk|].
  split; [rewrite C, Hclk; lia|].
  split; [by rewrite D|]. split; [by rewrite F | by rewrite G].
Qed.

Lemma tokenWarnings_after target n w :
  let w' := snd (githubApiRequest target n w) in
  tokenWarnings w'
  = (tokenWarnings w
     + (if noToken (GITHUB_TOKEN w) && negb (tokenWarningShown w)
        then 1 else 0))%nat
  /\ tokenWarningShown w' = (noToken (GITHUB_TOKEN w) || tokenWarningShown w)
  /\ GITHUB_TOKEN w' = GITHUB_TOKEN w.
Proof.
  intros w'. subst w'.
  destruct (githubApiRequest_settled target n w)
    as (res & w' & E & (evs & msgs & Ha & Hw & Hf & Hs & Hq) & He).
  destruct (prelude_console w) as (Hcon & Hflag & _ & _ & Htok & _).
  destruct Ha as (A & B & C & D & F & G & H).
  rewrite E. cbn [snd]. split; [|split; [by rewrite H | by rewrite D]].
  unfold tokenWarnings. rewrite B, Hcon.
  rewrite !List.filter_app, !length_app.
  assert (List.filter isTokenWarning msgs = []) as ->.
  { clear -Hq. induction Hq as [|m msgs Hm _ IH]; [done|].
    cbn. by rewrite Hm. }
  assert (Hyes : isTokenWarning (LevelWarn, tokenWarning) = true)
    by (unfold isTokenWarning; cbn [fst snd]; by apply streq_true).
  destruct (noToken (GITHUB_TOKEN w) && negb (tokenWarningShown w));
    cbn [List.filter]; rewrite ?Hyes; cbn [length app]; lia.
Qed.

(** X8. The warning about a missing token is logged at most once: the
    first call of the wrapper made without a usable token logs it and
    sets the flag, and no later call, whatever its URL and number of
    attempts, logs it again. With a usable token it is never logged. *)
Theorem token_warning_logged_once (t1 t2 : string) (n1 n2 : nat) (w : World) :
  let w1 := snd (githubApiRequest t1 n1 w) in
  let w2 := snd (githubApiRequest t2 n2 w1) in
  tokenWarnings w2 = tokenWarnings w1
  /\ (noToken (GITHUB_TOKEN w) = true -> tokenWarningShown w = false ->
      tokenWarnings w1 = S (tokenWarnings w) /\ tokenWarningShown w1 = true)
  /\ (tokenWarningShown w = true -> tokenWarnings w1 = tokenWarnings w)
  /\ (noToken (GITHUB_TOKEN w) = false ->
      tokenWarnings w1 = tokenWarnings w
      /\ tokenWarningShown w1 = tokenWarningShown w).
Proof.
  intros w1 w2.
  destruct (tokenWarnings_after t1 n1 w) as (H1 & F1 & T1).
  destruct (tokenWarnings_after t2 n2 w1) as (H2 & _).
  fold w1 in H1, F1, T1. fold w2 in H2.
  split.
  { rewrite H2, T1, F1.
    destruct (noToken (GITHUB_TOKEN w)), (tokenWarningShown w); cbn; lia. }
  split; [intros Hn Hs; rewrite H1, F1, Hn, Hs; cbn; split; [lia | done]|].
  split; [intros Hs; rewrite H1, Hs, andb_false_r; lia|].
  intros Hn. rewrite H1, F1, Hn. cbn. split; [lia | done].
Qed.

(** A run of [githubApiRequest_request_bound]: a server that throttles
    every request is asked three times, with three waits. *)
Lemma githubApiRequest_request_bound_example :
  let w' := snd (githubApiRequest "https://api.github.com/users/ada" 3
                   alwaysThrottled) in
  fetchCount w' = 3%nat /\ sleeps (trace w') = 3%nat.
Proof. split; reflexivity. Qed.

End ClientWrapperMore.

(** ** The fetchers: what they ask GitHub for *)

Section FetcherBounds.

Import Eff Json GitHubApi ActivitySnapshot.

Local Open Scope string_scope.

Lemma asked_refl w : asked 0 0 w w.
Proof. unfold asked. repeat split; lia. Qed.

Lemma asked_trans a1 b1 a2 b2 w1 w2 w3 :
  asked a1 b1 w1 w2 -> asked a2 b2 w2 w3 -> asked (a1 + a2) (b1 + b2) w1 w3.
Proof.
  intros (A1 & B1 & C1 & D1) (A2 & B2 & C2 & D2).
  unfold asked. repeat split; try congruence; lia.
Qed.

Lemma asked_weaken a b a' b' w w' :
  asked a b w w' -> (a' <= a)%nat -> (b <= b')%nat -> asked a' b' w w'.
Proof. intros (A & B & C & D) ? ?. unfold asked. repeat split; try done; lia. Qed.

(** A call of the wrapper with its three attempts. *)
Lemma githubApiRequest_asked target w :
  exists res w',
    githubApiRequest target 3 w = (res, w')
    /\ asked 1 3 w w'
    /\ githubUserCache w' = githubUserCache w.
Proof.
  destruct (githubApiRequest_settled target 3 w)
    as (res & w' & E & (evs & msgs & Ha & Hw & Hf & Hs & Hq) & He).
  destruct (prelude_console w) as (_ & _ & Htr & _ & Htok & Hc & Hn).
  destruct Ha as (A & B & C & D & F & G & H).
  exists res, w'. split; [exact E|]. split; [|by rewrite F].
  assert (fetchCount w' = (fetchCount w + fetches evs)%nat) as Hcount.
  { unfold fetchCount, fetches. rewrite A, Htr.
    rewrite List.filter_app, length_app. lia. }
  unfold asked. rewrite Hcount. cbn in Hf.
  split; [lia|]. split; [lia|]. split; [by rewrite D | by rewrite G].
Qed.

(** Steps that wait, log or write to the cache send nothing. *)
Ltac no_request :=
  unfold asked, fetchCount; cbn; repeat split; lia.

(** The profile fetch on a miss: it goes through the wrapper. *)
Lemma fetchGitHubUserInfo_asked u useCache w :
  exists v w',
    fetchGitHubUserInfo u useCache w = (Ok v, w')
    /\ asked 0 3 w w'
    /\ ((if useCache then cacheGet (githubUserCache w) u else None) = None ->
        asked 1 3 w w').
Proof.
  unfold fetchGitHubUserInfo, bind at 1, gets.
  destruct (if useCache then cacheGet (githubUserCache w) u else None)
    as [hit|].
  { eexists _, _. split; [reflexivity|].
    split; [eapply asked_weaken; [apply asked_refl | lia | lia] | done]. }
  unfold tryCatch, bind at 1.
  destruct (githubApiRequest_asked (userUrl u) w) as (res & w1 & E & Ha & _).
  rewrite E.
  assert (Hdone : forall (v : Cached) (w' : World), asked 0 0 w1 w' ->
    exists v0 w'0, (Ok v, w') = (Ok v0, w'0) /\ asked 0 3 w w'0
                   /\ (@None Cached = None -> asked 1 3 w w'0)).
  { intros v w' Hs. exists v, w'. split; [done|].
    pose proof (asked_trans _ _ _ _ _ _ _ Ha Hs) as H.
    split; [|intros _]; (eapply asked_weaken; [exact H | lia | lia]). }
  destruct res as [r|e]; [|apply Hdone; no_request].
  destruct (ok r).
  - unfold jsonOf, bind. destruct (body r) as [d|]; [|apply Hdone; no_request].
    unfold ret at 1. rewrite buildUserInfo_pure.
    destruct (userInfoOf d); apply Hdone; no_request.
  - destruct (status r =? 404)%Z; [apply Hdone; no_request|].
    destruct ((status r =? 403)%Z || (status r =? 429)%Z);
      apply Hdone; no_request.
Qed.

(** X9. The cache of profiles can be bypassed and can be emptied. A call
    with [useCache] off never answers from the cache: it always sends a
    request, and on a 2xx reply it writes the profile under the handle,
    over whatever was cached. [clearGitHubCache] sets the cache to a new
    empty object without a request; the next call for a handle under which
    an empty object yields nothing sends a request, and the call for a
    handle under which an empty object yields an inherited property is
    answered with that property, without a request. *)
Theorem profile_cache_bypass_and_clear (u : string) (w : World) :
  let forced := fetchGitHubUserInfo u false w in
  let cleared := clearGitHubCache w in
  let again := fetchGitHubUserInfo u true (snd cleared) in
  (exists v, fst forced = Ok v)
  /\ (fetchCount w < fetchCount (snd forced))%nat
  /\ (forall r w1 d info,
        githubApiRequest (userUrl u) 3 w = (Ok r, w1) ->
        ok r = true -> body r = Some d -> userInfoOf d = Ok info ->
        forced = (Ok (Profile info), remembered u (Some info) w1))
  /\ fst cleared = Ok tt
  /\ githubUserCache (snd cleared) = emptyObject
  /\ trace (snd cleared) = trace w
  /\ (cacheGet emptyObject u = None ->
      (fetchCount w < fetchCount (snd again))%nat)
  /\ (forall v, cacheGet emptyObject u = Some v ->
      again = (Ok v, snd cleared)).
Proof.
  intros forced cleared again.
  destruct (fetchGitHubUserInfo_asked u false w) as (v & w' & E & _ & Ha).
  specialize (Ha eq_refl). destruct Ha as (Hlt & _).
  split; [exists v; subst forced; by rewrite E|].
  split; [subst forced; rewrite E; cbn; lia|].
  split.
  { intros r w1 d info Hreq Hok Hbody Hinfo. subst forced.
    unfold fetchGitHubUserInfo, bind at 1, gets.
    unfold tryCatch, bind at 1. rewrite Hreq, Hok.
    unfold jsonOf, bind. rewrite Hbody. unfold ret at 1.
    rewrite buildUserInfo_pure, Hinfo. reflexivity. }
  split; [reflexivity|]. split; [reflexivity|]. split; [reflexivity|].
  split.
  - intros Hmiss.
    destruct (fetchGitHubUserInfo_asked u true (snd cleared))
      as (v2 & w2 & E2 & _ & Ha2).
    subst again. rewrite E2. cbn [snd].
    destruct Ha2 as (Hlt2 & _); [subst cleared; exact Hmiss|].
    change (fetchCount (snd cleared)) with (fetchCount w) in Hlt2. lia.
  - intros hit Hhit. subst again cleared.
    unfold fetchGitHubUserInfo, bind at 1, gets.
    change (githubUserCache (snd (clearGitHubCache w))) with emptyObject.
    by rewrite Hhit.
Qed.

(** X10. The activity snapshot is made of the profile fetch and nothing
    else: it sends what that fetch sends, never throws and never reaches
    its error handler. Its three profile numbers are those of the profile
    where they are truthy and [0] otherwise, [0] for all three when there
    is no profile; every activity counter is [0] and [recentPRs] is
    empty. *)
Theorem snapshot_from_profile (u : string) (w : World) :
  let profile := fetchGitHubUserInfo u true w in
  exists githubInfo snap,
    fst profile = Ok githubInfo
    /\ getUserActivitySnapshot u w = (Ok snap, snd profile)
    /\ snapPublicRepos snap
       = orElse (optField githubInfo "public_repos" public_repos) (JNum 0)
    /\ snapFollowers snap
       = orElse (optField githubInfo "followers" followers) (JNum 0)
    /\ snapFollowing snap
       = orElse (optField githubInfo "following" following) (JNum 0)
    /\ (githubInfo = Null ->
        snapPublicRepos snap = Some (JNum 0)
        /\ snapFollowers snap = Some (JNum 0)
        /\ snapFollowing snap = Some (JNum 0))
    /\ [snapContributions snap; snapCommits snap; snapPullRequests snap;
        snapMergedPRs snap; snapOpenPRs snap; snapClosedPRs snap;
        snapIssues snap; snapTotalStars snap; snapTotalForks snap]
       = replicate 9 0
    /\ snapRecentPRs snap = [].
Proof.
  intros profile.
  destruct (fetchGitHubUserInfo_asked u true w) as (v & w' & E & _).
  subst profile. exists v. eexists. rewrite E. cbn [fst snd].
  split; [reflexivity|].
  unfold getUserActivitySnapshot, tryCatch, bind. rewrite E. cbn beta iota.
  unfold ret. split; [reflexivity|]. cbn.
  split; [reflexivity|]. split; [reflexivity|]. split; [reflexivity|].
  split; [by intros ->|]. split; reflexivity.
Qed.

Lemma addLanguage_namedOnce breakdown e :
  namedOnce breakdown -> namedOnce (addLanguage breakdown e).
Proof.
  intros [Hnames Hnd]. unfold addLanguage.
  destruct (Js.truthyStr (fst e) && Js.truthyStr (Js.trim (fst e))) eqn:He;
    [|by split].
  apply andb_true_iff in He as [_ He]. split.
  - rewrite objSet_keys. case_decide; [done|].
    apply Forall_app. split; [done | by repeat constructor].
  - by apply objSet_NoDup.
Qed.

Lemma fold_addLanguage_namedOnce es : forall breakdown,
  namedOnce breakdown -> namedOnce (fold_left addLanguage es breakdown).
Proof.
  induction es as [|e es IH]; intros breakdown H; [done|].
  cbn. by apply IH, addLanguage_namedOnce.
Qed.

(** The loop over the repositories asks at most three times for each. *)
Lemma languagesLoop_asked repos : forall breakdown w,
  namedOnce breakdown ->
  exists res w',
    languagesLoop repos breakdown w = (Ok res, w')
    /\ asked 0 (3 * length repos) w w' /\ namedOnce res.
Proof.
  induction repos as [|repo rest IH]; intros breakdown w Hb.
  { cbn [languagesLoop]. eexists _, _. split; [reflexivity|].
    split; [apply asked_refl | done]. }
  cbn [languagesLoop]. unfold bind at 1.
  assert (Hstep : exists step w1,
    tryCatch
      (fullName <- getProp (Some repo) "full_name" ;;
       langResponse <- githubApiRequest (languagesUrl fullName) 3 ;;
       if ok langResponse then
         repoLanguages <- jsonOf langResponse ;;
         es <- objectEntries repoLanguages ;;
         sleep 300 ;;;
         ret (fold_left addLanguage es breakdown, false)
       else if isThrottled langResponse then ret (breakdown, true)
       else
         sleep 300 ;;;
         ret (breakdown, false))%eff
      (fun _ =>
         consoleError "Error fetching languages for repository:" ;;;
         ret (breakdown, false))%eff w = (Ok step, w1)
    /\ asked 0 3 w w1 /\ namedOnce (fst step)).
  { unfold tryCatch, bind at 1, getProp, lift.
    destruct (propOf (Some repo) "full_name") as [fullName|e].
    2:{ eexists _, _. split; [reflexivity|]. split; [no_request | done]. }
    unfold bind at 1.
    destruct (githubApiRequest_asked (languagesUrl fullName) w)
      as (res & w1 & E & Ha & _).
    rewrite E.
    assert (Hdone : forall (st : Js.Obj Z * bool) (w' : World),
      asked 0 0 w1 w' -> namedOnce (fst st) ->
      exists step w2, (Ok st, w') = (Ok step, w2)
                      /\ asked 0 3 w w2 /\ namedOnce (fst step)).
    { intros st w' Hs Hn. exists st, w'. split; [done|]. split; [|done].
      pose proof (asked_trans _ _ _ _ _ _ _ Ha Hs) as H.
      eapply asked_weaken; [exact H | lia | lia]. }
    destruct res as [r|e]; [|apply Hdone; [no_request | done]].
    destruct (ok r).
    - unfold jsonOf, bind at 1.
      destruct (body r) as [d|]; [|apply Hdone; [no_request | done]].
      unfold ret at 1. unfold bind at 1.
      destruct (objectEntries d w1) as [[es|e] w2] eqn:Ees.
      + assert (w2 = w1) as ->
          by (destruct d; cbn in Ees; try discriminate; by injection Ees).
        apply Hdone; [no_request|]. by apply fold_addLanguage_namedOnce.
      + assert (w2 = w1) as ->
          by (destruct d; cbn in Ees; try discriminate; by injection Ees).
        apply Hdone; [no_request | done].
    - destruct (isThrottled r); (apply Hdone; [no_request | done]). }
  destruct Hstep as (step & w1 & -> & Ha1 & Hn1). cbn beta iota.
  destruct (snd step).
  - eexists _, _. split; [reflexivity|]. split; [|done].
    eapply asked_weaken; [exact Ha1 | lia | cbn [length]; lia].
  - destruct (IH (fst step) w1 Hn1) as (res & w' & E' & Ha' & Hn').
    exists res, w'. split; [exact E'|]. split; [|done].
    pose proof (asked_trans _ _ _ _ _ _ _ Ha1 Ha') as H.
    eapply asked_weaken; [exact H | lia | cbn [length]; lia].
Qed.

Lemma sliceOf_length repos n w res w' :
  sliceOf repos n w = (res, w') ->
  w' = w /\ forall l, res = Ok l -> (length l <= n)%nat.
Proof.
  destruct repos; unfold sliceOf, ret, throw; intros [= <- <-];
    (split; [done|]); intros l' [= <-];
    unfold Js.slice0; rewrite length_take; lia.
Qed.

Lemma lengthOf_state repos w : snd (lengthOf repos w) = w.
Proof. by destruct repos. Qed.

(** X11. The language fetch always returns, after at most 63 requests:
    three attempts for the list of repositories and three for each of at
    most 20 repositories. Every language of its result has a name that is
    not blank and appears once. *)
Theorem fetchUserLanguages_bounded (u : string) (limit : nat) (w : World) :
  exists res w',
    fetchUserLanguages u limit w = (Ok res, w')
    /\ (fetchCount w' <= fetchCount w + languageRequests)%nat
    /\ namedOnce res.
Proof.
  assert (Hempty : namedOnce []) by (split; constructor).
  assert (Hdone : forall (w' : World), asked 0 3 w w' ->
    exists res w'0, (Ok ([] : Js.Obj Z), w') = (Ok res, w'0)
      /\ (fetchCount w'0 <= fetchCount w + languageRequests)%nat
      /\ namedOnce res).
  { intros w' (_ & H & _). exists [], w'. split; [done|].
    split; [unfold languageRequests; lia | done]. }
  unfold fetchUserLanguages, tryCatch, bind at 1, gets.
  destruct (noToken (GITHUB_TOKEN w)).
  { apply Hdone. eapply asked_weaken; [apply asked_refl | lia | lia]. }
  unfold bind at 1.
  match goal with
  | |- context [githubApiRequest ?t 3 w] =>
      destruct (githubApiRequest_asked t w) as (res & w1 & E & Ha & _)
  end.
  rewrite E.
  assert (Ha0 : asked 0 3 w w1) by (eapply asked_weaken; [exact Ha | lia | lia]).
  assert (Hlog : forall msg,
    asked 0 3 w (withConsole ((LevelError, msg) :: console w1) w1)).
  { intros msg. destruct Ha0 as (A & B & C & D). by repeat split. }
  destruct res as [r|e]; [|apply Hdone, Hlog].
  destruct (ok r); cbn [negb]; [|by apply Hdone].
  unfold jsonOf, bind at 1. destruct (body r) as [repos|]; [|apply Hdone, Hlog].
  unfold ret at 1. unfold bind at 1.
  pose proof (lengthOf_state repos w1) as Hst.
  destruct (lengthOf repos w1) as [[len|e] w2]; cbn in Hst; subst w2;
    [|apply Hdone, Hlog].
  unfold bind at 1.
  destruct (sliceOf repos (Nat.min 20 (natOfLength len)) w1)
    as [[reposToCheck|e] w2] eqn:Eslice;
    apply sliceOf_length in Eslice as [-> Hlen]; [|apply Hdone, Hlog].
  specialize (Hlen _ eq_refl).
  destruct (languagesLoop_asked reposToCheck [] w1 Hempty)
    as (res & w' & E' & Ha' & Hn').
  rewrite E'. exists res, w'. split; [done|]. split; [|done].
  destruct (asked_trans _ _ _ _ _ _ _ Ha0 Ha') as (_ & H & _).
  unfold languageRequests. lia.
Qed.

(** A run of the language fetch: two repositories, one blank name left
    out. *)
Lemma fetchUserLanguages_bounded_example :
  fst (fetchUserLanguages "ada" 100 twoRepositories)
  = Ok [("Rocq", 1400); ("OCaml", 600)]
  /\ fetchCount (snd (fetchUserLanguages "ada" 100 twoRepositories)) = 3%nat.
Proof. split; vm_compute; reflexivity. Qed.

Lemma pushCommits_length limit fullName htmlUrl commits : forall allCommits,
  (length allCommits <= limit)%nat ->
  (length (fst (pushCommits limit fullName htmlUrl commits allCommits))
   <= limit)%nat.
Proof.
  induction commits as [|commit rest IH]; intros allCommits Hlen; [done|].
  cbn [pushCommits].
  destruct (Nat.ltb_spec (length allCommits) limit) as [Hlt|Hge];
    [|by apply IH].
  destruct (summarizeCommit fullName htmlUrl commit); [|done].
  apply IH. rewrite length_app. cbn. lia.
Qed.

(** The loop over the repositories asks at most three times for each and
    never holds more than [limit] commits. *)
Lemma commitsLoop_asked u limit repos : forall allCommits w,
  (length allCommits <= limit)%nat ->
  exists res w',
    commitsLoop u limit repos allCommits w = (Ok res, w')
    /\ asked 0 (3 * length repos) w w' /\ (length res <= limit)%nat.
Proof.
  induction repos as [|repo rest IH]; intros allCommits w Hlen.
  { cbn [commitsLoop]. eexists _, _. split; [reflexivity|].
    split; [apply asked_refl | done]. }
  cbn [commitsLoop].
  destruct (limit <=? length allCommits)%nat.
  { eexists _, _. split; [reflexivity|]. split; [no_request | done]. }
  unfold bind at 1.
  assert (Hstep : exists step w1,
    tryCatch
      (fullName <- getProp (Some repo) "full_name" ;;
       commitsResponse <- githubApiRequest (commitsUrl fullName u) 3 ;;
       if ok commitsResponse then
         commits <- jsonOf commitsResponse ;;
         items <- lift (elementsOf commits) ;;
         htmlUrl <- getProp (Some repo) "html_url" ;;
         match pushCommits limit fullName htmlUrl items allCommits with
         | (pushed, None) =>
             sleep 300 ;;;
             ret (pushed, false)
         | (pushed, Some _) =>
             consoleError "Error fetching commits from repository:" ;;;
             ret (pushed, false)
         end
       else if isThrottled commitsResponse then ret (allCommits, true)
       else
         sleep 300 ;;;
         ret (allCommits, false))%eff
      (fun _ =>
         consoleError "Error fetching commits from repository:" ;;;
         ret (allCommits, false))%eff w = (Ok step, w1)
    /\ asked 0 3 w w1 /\ (length (fst step) <= limit)%nat).
  { unfold tryCatch, bind at 1, getProp, lift.
    destruct (propOf (Some repo) "full_name") as [fullName|e].
    2:{ eexists _, _. split; [reflexivity|]. split; [no_request | done]. }
    unfold bind at 1.
    destruct (githubApiRequest_asked (commitsUrl fullName u) w)
      as (res & w1 & E & Ha & _).
    rewrite E.
    assert (Hdone : forall (st : list CommitSummary * bool) (w' : World),
      asked 0 0 w1 w' -> (length (fst st) <= limit)%nat ->
      exists step w2, (Ok st, w') = (Ok step, w2)
                      /\ asked 0 3 w w2 /\ (length (fst step) <= limit)%nat).
    { intros st w' Hs Hn. exists st, w'. split; [done|]. split; [|done].
      pose proof (asked_trans _ _ _ _ _ _ _ Ha Hs) as H.
      eapply asked_weaken; [exact H | lia | lia]. }
    destruct res as [r|e]; [|apply Hdone; [no_request | done]].
    destruct (ok r).
    - unfold jsonOf, bind at 1.
      destruct (body r) as [d|]; [|apply Hdone; [no_request | done]].
      unfold ret at 1. unfold bind at 1.
      destruct (elementsOf d) as [items|e]; [|apply Hdone; [no_request | done]].
      unfold bind at 1.
      destruct (propOf (Some repo) "html_url") as [htmlUrl|e];
        [|apply Hdone; [no_request | done]].
      pose proof (pushCommits_length limit fullName htmlUrl items allCommits Hlen)
        as Hpush.
      destruct (pushCommits limit fullName htmlUrl items allCommits)
        as [pushed [e|]]; (apply Hdone; [no_request | exact Hpush]).
    - destruct (isThrottled r); (apply Hdone; [no_request | done]). }
  destruct Hstep as (step & w1 & -> & Ha1 & Hn1). cbn beta iota.
  destruct (snd step).
  - eexists _, _. split; [reflexivity|]. split; [|done].
    eapply asked_weaken; [exact Ha1 | lia | cbn [length]; lia].
  - destruct (IH (fst step) w1 Hn1) as (res & w' & E' & Ha' & Hn').
    exists res, w'. split; [exact E'|]. split; [|done].
    pose proof (asked_trans _ _ _ _ _ _ _ Ha1 Ha') as H.
    eapply asked_weaken; [exact H | lia | cbn [length]; lia].
Qed.

Section SortAgreement.

Context {A : Type} (cmp cmp' : A -> A -> Z).

(** Sorting looks at the comparator only on the elements it sorts. *)
Lemma insertBy_agree x l :
  Forall (fun y => cmp x y = cmp' x y) l ->
  Js.insertBy cmp x l = Js.insertBy cmp' x l.
Proof.
  induction 1 as [|y r Hy _ IH]; [reflexivity|].
  cbn. rewrite Hy, IH. reflexivity.
Qed.

Lemma sort_agree l :
  (forall x y, x ∈ l -> y ∈ l -> cmp x y = cmp' x y) ->
  Js.sort cmp l = Js.sort cmp' l.
Proof.
  induction l as [|x l IH]; intros H; [reflexivity|].
  cbn [Js.sort fold_right]. fold (Js.sort cmp l) (Js.sort cmp' l).
  rewrite <- IH by (intros; apply H; by right).
  apply insertBy_agree. apply Forall_forall. intros y Hy.
  apply H; [by left|]. right. by rewrite <- (sort_perm cmp l).
Qed.

End SortAgreement.

Section RecentCommits.

Variable dateOf : jsval -> Js.JsNum.

(** X12. The commit fetch always returns, with at most [limit] commits
    and after at most 33 requests: three attempts for the list of
    repositories and three for each of at most 10 repositories. When every
    commit it returns carries a date that can be read, the commits come
    in descending order of date. *)
Theorem fetchRecentCommits_bounded (u : string) (limit : nat) (w : World) :
  exists out w',
    fetchRecentCommits dateOf u limit w = (Ok out, w')
    /\ (length out <= limit)%nat
    /\ (fetchCount w' <= fetchCount w + commitRequests)%nat
    /\ (Forall (validDate dateOf) out -> sortedDesc (dateKey dateOf) out).
Proof.
  assert (Hdone : forall (w' : World), asked 0 3 w w' ->
    exists out w'0, (Ok ([] : list CommitSummary), w') = (Ok out, w'0)
      /\ (length out <= limit)%nat
      /\ (fetchCount w'0 <= fetchCount w + commitRequests)%nat
      /\ (Forall (validDate dateOf) out -> sortedDesc (dateKey dateOf) out)).
  { intros w' (_ & H & _). exists [], w'. split; [done|].
    split; [cbn; lia|]. split; [unfold commitRequests; lia|].
    intros _. constructor. }
  unfold fetchRecentCommits, tryCatch, bind at 1, gets.
  destruct (noToken (GITHUB_TOKEN w)).
  { apply Hdone. eapply asked_weaken; [apply asked_refl | lia | lia]. }
  unfold bind at 1.
  match goal with
  | |- context [githubApiRequest ?t 3 w] =>
      destruct (githubApiRequest_asked t w) as (res & w1 & E & Ha & _)
  end.
  rewrite E.
  assert (Ha0 : asked 0 3 w w1) by (eapply asked_weaken; [exact Ha | lia | lia]).
  assert (Hlog : forall msg,
    asked 0 3 w (withConsole ((LevelError, msg) :: console w1) w1)).
  { intros msg. destruct Ha0 as (A & B & C & D). by repeat split. }
  destruct res as [r|e]; [|apply Hdone, Hlog].
  destruct (ok r); cbn [negb]; [|by apply Hdone].
  unfold jsonOf, bind at 1. destruct (body r) as [repos|]; [|apply Hdone, Hlog].
  unfold ret at 1. unfold bind at 1.
  destruct (sliceOf repos 10 w1) as [[firstTen|e] w2] eqn:Eslice;
    apply sliceOf_length in Eslice as [-> Hlen]; [|apply Hdone, Hlog].
  specialize (Hlen _ eq_refl). unfold bind at 1.
  destruct (commitsLoop_asked u limit firstTen [] w1)
    as (allCommits & w' & E' & Ha' & Hn'); [cbn; lia|].
  rewrite E'. cbn beta iota. unfold ret.
  eexists _, _. split; [reflexivity|].
  pose proof (sort_perm (byDateDesc dateOf) allCommits) as Hperm.
  split; [unfold Js.slice0; rewrite length_take; lia|].
  split.
  { destruct (asked_trans _ _ _ _ _ _ _ Ha0 Ha') as (_ & H & _).
    unfold commitRequests. lia. }
  intros Hvalid.
  assert (Hall : Js.slice0 limit (Js.sort (byDateDesc dateOf) allCommits)
                 = Js.sort (byDateDesc dateOf) allCommits).
  { unfold Js.slice0. apply firstn_all2.
    rewrite (Permutation_length Hperm). exact Hn'. }
  rewrite Hall in *.
  rewrite (sort_agree (byDateDesc dateOf) (descBy (dateKey dateOf))).
  { apply sort_sorted. }
  assert (Hv : forall c, c ∈ allCommits -> validDate dateOf c).
  { intros c Hc. rewrite <- Hperm in Hc.
    by apply (proj1 (Forall_forall _ _) Hvalid). }
  intros x y Hx Hy. apply Hv in Hx, Hy.
  unfold byDateDesc, descBy, dateKey, validDate in *.
  destruct (dateOf (date x)), (dateOf (date y)); done.
Qed.

End RecentCommits.

Lemma pushRepos_exact limit items : forall allRepos allRepos',
  (length allRepos <= limit)%nat ->
  pushRepos limit items allRepos = Ok allRepos' ->
  length allRepos' = Nat.min (length allRepos + length items) limit.
Proof.
  induction items as [|repo rest IH]; intros allRepos allRepos' Hlen H.
  - cbn in H. injection H as <-. cbn. lia.
  - cbn [pushRepos] in H.
    destruct (Nat.ltb_spec (length allRepos) limit) as [Hlt|Hge].
    + unfold bindR in H. destruct (summarizeRepo repo) as [summary|e]; [|done].
      apply IH in H; [|rewrite length_app; cbn; lia].
      rewrite H, length_app. cbn. lia.
    + apply IH in H; [|done]. rewrite H. cbn. lia.
Qed.

Lemma pagesFor_step d : (1 <= d)%nat -> (S (pagesFor (d - 100)) <= pagesFor d)%nat.
Proof.
  unfold pagesFor. intros Hd.
  destruct (Nat.le_gt_cases d 100) as [Hle|Hgt].
  - replace (d - 100)%nat with 0%nat by lia. cbn.
    apply (Nat.div_le_lower_bound (d + 99) 100 1); lia.
  - replace (d + 99)%nat with ((d - 100 + 99) + 1 * 100)%nat by lia.
    rewrite Nat.div_add by lia. lia.
Qed.

(** The pages still to be asked for once [held] repositories are held. *)
Lemma reposLoop_asked u limit fuel : forall allRepos page hasMore w,
  (length allRepos <= limit)%nat ->
  exists res w',
    reposLoop fuel u limit allRepos page hasMore w = (res, w')
    /\ asked 0 (3 * (if hasMore then pagesFor (limit - length allRepos) else 0))
         w w'.
Proof.
  induction fuel as [|fuel IH]; intros allRepos page hasMore w Hlen.
  - cbn [reposLoop]. destruct (hasMore && (length allRepos <? limit)%nat);
      eexists _, _; (split; [reflexivity|]);
      (eapply asked_weaken; [apply asked_refl | lia | lia]).
  - cbn [reposLoop]. destruct hasMore; cbn [andb].
    2:{ eexists _, _. split; [reflexivity | apply asked_refl]. }
    destruct (Nat.ltb_spec (length allRepos) limit) as [Hlt|Hge].
    2:{ eexists _, _. split; [reflexivity|].
        eapply asked_weaken; [apply asked_refl | lia | lia]. }
    pose proof (pagesFor_step (limit - length allRepos) ltac:(lia)) as Hpages.
    set (pages := pagesFor (limit - length allRepos)) in *.
    unfold bind at 1.
    destruct (githubApiRequest_asked (reposPageUrl u page) w)
      as (res & w1 & E & Ha & _).
    rewrite E.
    assert (Hdone : forall (res0 : Result (option (list RepoSummary)))
                           (w' : World),
      asked 0 0 w1 w' ->
      exists res1 w2, (res0, w') = (res1, w2) /\ asked 0 (3 * pages) w w2).
    { intros res0 w' Hs. exists res0, w'. split; [done|].
      pose proof (asked_trans _ _ _ _ _ _ _ Ha Hs) as H.
      eapply asked_weaken; [exact H | lia | lia]. }
    assert (Hstop : forall held pg w', asked 0 0 w1 w' ->
      exists res1 w2,
        reposLoop fuel u limit held pg false w' = (res1, w2)
        /\ asked 0 (3 * pages) w w2).
    { intros held pg w' Hs. rewrite reposLoop_stop. by apply Hdone. }
    destruct res as [r|e]; [|apply Hdone; no_request].
    destruct (ok r); cbn [negb].
    2:{ destruct (status r =? 404)%Z; [apply Hdone; no_request|].
        destruct (isThrottled r); apply Hdone; no_request. }
    unfold jsonOf, bind at 1.
    destruct (body r) as [repos|]; [|apply Hdone; no_request].
    unfold ret at 1.
    destruct repos as [| b | z | t | items | fields];
      unfold lengthOf, getProp, lift, propOf, bind at 1;
      try (apply Hdone; no_request).
    + destruct (String.length t); cbn [Z.of_nat]; unfold ret at 1;
        cbn beta iota; [apply Hstop; no_request | apply Hdone; no_request].
    + destruct items as [|item items]; cbn [length Z.of_nat]; unfold ret at 1;
        cbn beta iota; [apply Hstop; no_request|].
      change (Z.of_nat (S (length items)))
        with (Z.pos (Pos.of_succ_nat (length items))).
      cbn beta iota.
      unfold elementsOf, lift, bind at 1.
      destruct (pushRepos limit (item :: items) allRepos) as [allRepos'|e]
        eqn:Hpush; [|apply Hdone; no_request].
      apply pushRepos_exact in Hpush; [|done].
      unfold bind at 1.
      destruct ((length (item :: items) =? perPage)%nat
                && mayHaveNext (headerGet (headers r) "Link")) eqn:Hmore;
        cbn beta iota.
      * apply andb_true_iff in Hmore as [Hfull%Nat.eqb_eq _].
        unfold perPage in Hfull. rewrite Hfull in Hpush.
        unfold sleep, modify, bind. cbn beta iota.
        match goal with
        | |- context [reposLoop fuel u limit allRepos' (S page) true ?w2] =>
            destruct (IH allRepos' (S page) true w2) as (res1 & w3 & E1 & Ha1);
            [lia|];
            assert (Hs : asked 0 0 w1 w2) by no_request
        end.
        rewrite E1. exists res1, w3. split; [done|].
        pose proof (asked_trans _ _ _ _ _ _ _
                      (asked_trans _ _ _ _ _ _ _ Ha Hs) Ha1) as H.
        eapply asked_weaken; [exact H | lia |].
        replace (limit - length allRepos')%nat
          with (limit - length allRepos - 100)%nat by lia.
        fold pages. lia.
      * unfold ret at 1. apply Hstop. no_request.
    + destruct (Js.objGet fields "length") as [[| | [| |] | | |]|];
        cbn beta iota; first [apply Hstop; no_request | apply Hdone; no_request].
Qed.

(** X13. The repository fetch asks for at most [limit / 100] pages,
    rounded up, with at most three requests for each: none at all when
    [limit] is [0], and a single page for any [limit] up to 100, the
    default included. *)
Theorem fetchUserRepositories_page_bound (u : string) (limit : nat) (w : World) :
  let w' := snd (fetchUserRepositories u limit w) in
  (fetchCount w' <= fetchCount w + 3 * pagesFor limit)%nat
  /\ (limit = 0%nat -> fetchUserRepositories u limit w = (Ok (Some []), w))
  /\ ((limit <= 100)%nat -> (fetchCount w' <= fetchCount w + 3)%nat).
Proof.
  intros w'.
  assert (Hbound : (fetchCount w' <= fetchCount w + 3 * pagesFor limit)%nat).
  { subst w'. unfold fetchUserRepositories, tryCatch.
    destruct (reposLoop_asked u limit limit [] 1 true w) as (res & w1 & E & Ha);
      [cbn; lia|].
    rewrite E. cbn [length] in Ha. rewrite Nat.sub_0_r in Ha.
    destruct Ha as (_ & H & _). destruct res as [v|e]; exact H. }
  split; [exact Hbound|]. split; [by intros ->|].
  intros Hle. etrans; [exact Hbound|].
  assert (pagesFor limit <= 1)%nat; [|lia].
  unfold pagesFor. apply Nat.lt_succ_r, Nat.Div0.div_lt_upper_bound; lia.
Qed.

End FetcherBounds.

(** ** The profile cache *)

Section UserProfileCache.

Import Eff Json GitHubApi.

Local Open Scope string_scope.

(** The profile fetch when its call of the wrapper is rejected. *)
Lemma fetchGitHubUserInfo_rejected u w e w1 :
  cacheGet (githubUserCache w) u = None ->
  githubApiRequest (userUrl u) 3 w = (Throw e, w1) ->
  fetchGitHubUserInfo u true w
  = (Ok Null,
     withConsole
       ((LevelError, "Error fetching GitHub user info:") :: console w1) w1).
Proof.
  intros Hmiss Hreq. unfold fetchGitHubUserInfo, bind at 1, gets.
  rewrite Hmiss. unfold tryCatch, bind at 1. by rewrite Hreq.
Qed.

(** C8, as the code has it. With caching enabled and a handle under
    which the cache yields nothing, the profile fetch calls the wrapper
    once, which sends the request one to three times, and once when the
    first reply is not a throttling one. A profile read from a 2xx reply
    is written into the cache under the handle, and so is [null] after a
    404; the next call for the handle then returns what was written and
    leaves the world as it is: no request is sent. After any other outcome
    of the call the fetch returns [null], the cache is as it was and the
    next call for the handle sends a request again. Whatever the cache
    yields under a handle is returned without a request. *)
Theorem userInfo_cached_by_handle (u : string) (w : World) :
  cacheGet (githubUserCache w) u = None ->
  let first := fetchGitHubUserInfo u true w in
  let second := fetchGitHubUserInfo u true (snd first) in
  (fetchCount w < fetchCount (snd first) <= fetchCount w + 3)%nat
  /\ (forall r0,
        replyAt w 0 (requestFor (userUrl u) w) = Some r0 ->
        throttled r0 = false ->
        trace (snd first) = EvFetch (requestFor (userUrl u) w) :: trace w
        /\ fetchCount (snd first) = S (fetchCount w))
  /\ (forall r w1 userData info,
        githubApiRequest (userUrl u) 3 w = (Ok r, w1) ->
        ok r = true -> body r = Some userData ->
        userInfoOf userData = Ok info ->
        fst first = Ok (Profile info)
        /\ githubUserCache (snd first)
           = cacheSet (githubUserCache w) u (Some info)
        /\ cacheGet (githubUserCache (snd first)) u = Some (Profile info)
        /\ trace (snd first) = trace w1
        /\ second = (Ok (Profile info), snd first))
  /\ (forall r w1,
        githubApiRequest (userUrl u) 3 w = (Ok r, w1) -> status r = 404 ->
        fst first = Ok Null
        /\ githubUserCache (snd first) = cacheSet (githubUserCache w) u None
        /\ cacheGet (githubUserCache (snd first)) u = Some Null
        /\ trace (snd first) = trace w1
        /\ second = (Ok Null, snd first))
  /\ (forall res w1,
        githubApiRequest (userUrl u) 3 w = (res, w1) ->
        (forall r, res = Ok r ->
           status r <> 404
           /\ (ok r = true ->
               forall userData info,
                 body r = Some userData -> userInfoOf userData <> Ok info)) ->
        fst first = Ok Null
        /\ githubUserCache (snd first) = githubUserCache w
        /\ trace (snd first) = trace w1
        /\ (fetchCount (snd first) < fetchCount (snd second))%nat)
  /\ (forall w' v,
        cacheGet (githubUserCache w') u = Some v ->
        fetchGitHubUserInfo u true w' = (Ok v, w')).
Proof.
  intros Hmiss first second.
  destruct (fetchGitHubUserInfo_asked u true w) as (v & w' & E & _ & Ha).
  destruct (Ha Hmiss) as (Hlo & Hhi & _).
  assert (Hstored : forall r w1,
    githubApiRequest (userUrl u) 3 w = (Ok r, w1) ->
    githubUserCache w1 = githubUserCache w).
  { intros r w1 Hreq.
    destruct (githubApiRequest_asked (userUrl u) w) as (res & w2 & E2 & _ & Hc).
    rewrite Hreq in E2. by injection E2 as <- <-. }
  split; [subst first; rewrite E; cbn [snd]; lia|].
  split.
  { intros r0 H0 T0.
    destruct (githubApiRequest_single (userUrl u) w r0 H0 T0)
      as (Hres & Htr & _).
    destruct (githubApiRequest (userUrl u) 3 w) as [res w1] eqn:Hreq.
    cbn [fst snd] in Hres, Htr. subst res.
    pose proof (fetchGitHubUserInfo_miss u w r0 w1 Hmiss Hreq) as Hfirst.
    fold first in Hfirst.
    assert (Htrace : trace (snd first) = trace w1).
    { rewrite Hfirst. destruct (ok r0); [destruct (body r0) as [d|];
        [destruct (userInfoOf d)|]|destruct (status r0 =? 404)%Z;
        [|destruct (isThrottled r0)]]; reflexivity. }
    split; [by rewrite Htrace|].
    unfold fetchCount. rewrite Htrace, Htr. reflexivity. }
  split.
  { intros r w1 userData info Hreq Hok Hbody Hinfo.
    pose proof (fetchGitHubUserInfo_miss u w r w1 Hmiss Hreq) as Hfirst.
    fold first in Hfirst. rewrite Hok, Hbody, Hinfo in Hfirst.
    assert (Hhit : cacheGet (githubUserCache (snd first)) u
                   = Some (Profile info)).
    { rewrite Hfirst. cbn [snd remembered githubUserCache withCache].
      rewrite (Hstored r w1 Hreq).
      by rewrite (cacheGet_cacheSet _ u (Some info) Hmiss). }
    split; [by rewrite Hfirst|].
    split; [rewrite Hfirst; cbn; by rewrite (Hstored r w1 Hreq)|].
    split; [exact Hhit|]. split; [by rewrite Hfirst|].
    subst second. by apply fetchGitHubUserInfo_hit. }
  split.
  { intros r w1 Hreq H404.
    pose proof (fetchGitHubUserInfo_miss u w r w1 Hmiss Hreq) as Hfirst.
    fold first in Hfirst.
    assert (ok r = false) as Hok by (unfold ok; rewrite H404; reflexivity).
    rewrite Hok, H404 in Hfirst. cbn [Z.eqb Pos.eqb] in Hfirst.
    assert (Hhit : cacheGet (githubUserCache (snd first)) u = Some Null).
    { rewrite Hfirst. cbn [snd remembered githubUserCache withCache warned
                             withConsole].
      rewrite (Hstored r w1 Hreq).
      by rewrite (cacheGet_cacheSet _ u None Hmiss). }
    split; [by rewrite Hfirst|].
    split; [rewrite Hfirst; cbn; by rewrite (Hstored r w1 Hreq)|].
    split; [exact Hhit|]. split; [by rewrite Hfirst|].
    subst second. by apply fetchGitHubUserInfo_hit. }
  split.
  { intros res w1 Hreq Hother.
    assert (Hc1 : githubUserCache w1 = githubUserCache w).
    { destruct (githubApiRequest_asked (userUrl u) w)
        as (res2 & w2 & E2 & _ & Hc).
      rewrite Hreq in E2. by injection E2 as <- <-. }
    assert (Hfirst : fst first = Ok Null
                     /\ githubUserCache (snd first) = githubUserCache w
                     /\ trace (snd first) = trace w1).
    { destruct res as [r|e].
      - pose proof (fetchGitHubUserInfo_miss u w r w1 Hmiss Hreq) as Hfirst.
        fold first in Hfirst. destruct (Hother r eq_refl) as [H404 Hbody].
        rewrite Hfirst. destruct (ok r).
        + destruct (body r) as [d|]; [|done].
          destruct (userInfoOf d) as [info|e] eqn:Ei; [|done].
          by destruct (Hbody eq_refl d info).
        + rewrite (proj2 (Z.eqb_neq _ _) H404).
          by destruct (isThrottled r).
      - subst first. by rewrite (fetchGitHubUserInfo_rejected u w e w1). }
    destruct Hfirst as (H1 & H2 & H3).
    split; [exact H1|]. split; [exact H2|]. split; [exact H3|].
    destruct (fetchGitHubUserInfo_asked u true (snd first))
      as (v2 & w2 & E2 & _ & Ha2).
    subst second. rewrite E2. cbn [snd].
    destruct Ha2 as (Hlt & _); [by rewrite H2|]. lia. }
  intros w0 hit Hhit. by apply fetchGitHubUserInfo_hit.
Qed.

(** A run of [userInfo_cached_by_handle]: an unknown handle, and a handle
    GitHub does not know. *)
Lemma userInfo_cached_by_handle_witness :
  (let first :=
     fetchGitHubUserInfo "ada" true
       (answering 200 (Some (JObj [("login", JStr "ada")]))) in
   fetchCount (snd first) = 1%nat
   /\ exists info,
        fst first = Ok (Profile info)
        /\ fetchGitHubUserInfo "ada" true (snd first)
           = (Ok (Profile info), snd first))
  /\ (let first := fetchGitHubUserInfo "ghost" true (answering 404 None) in
      fst first = Ok Null
      /\ fetchGitHubUserInfo "ghost" true (snd first) = (Ok Null, snd first)).
Proof.
  split.
  - destruct (userInfo_cached_by_handle "ada"
                (answering 200 (Some (JObj [("login", JStr "ada")])))
                eq_refl)
      as (_ & H1 & H2 & _).
    destruct (H1 {| status := 200; headers := [];
                    body := Some (JObj [("login", JStr "ada")]) |}
                eq_refl eq_refl) as [_ Hcount].
    split; [exact Hcount|].
    eexists.
    destruct (H2 {| status := 200; headers := [];
                    body := Some (JObj [("login", JStr "ada")]) |}
                _ (JObj [("login", JStr "ada")]) _
                eq_refl eq_refl eq_refl eq_refl)
      as (Hfirst & _ & _ & _ & Hsecond).
    split; [exact Hfirst | exact Hsecond].
  - destruct (userInfo_cached_by_handle "ghost" (answering 404 None) eq_refl)
      as (_ & _ & _ & H & _).
    destruct (H {| status := 404; headers := []; body := None |} _
                eq_refl eq_refl) as (Hfirst & _ & _ & _ & Hsecond).
    split; [exact Hfirst | exact Hsecond].
Defined.

(** The profile fetch does not send a single request for every handle,
    and does not cache every result. Under a handle that an empty object
    inherits a property for, no request is sent and the answer is that
    property; a throttled request is sent again; the [null] of a server
    error is not stored, and the next call asks again. *)
Lemma userInfo_cached_by_handle_counterexample :
  (let first :=
     fetchGitHubUserInfo "constructor" true
       (answering 200 (Some (JObj [("login", JStr "constructor")]))) in
   fst first = Ok (Builtin "constructor")
   /\ fetchCount (snd first) = 0%nat)
  /\ (let first := fetchGitHubUserInfo "ada" true throttledOnce in
      (exists info, fst first = Ok (Profile info))
      /\ fetchCount (snd first) = 2%nat)
  /\ (let first := fetchGitHubUserInfo "ada" true (answering 500 None) in
      let second := fetchGitHubUserInfo "ada" true (snd first) in
      fst first = Ok Null
      /\ fetchCount (snd first) = 1%nat
      /\ cacheGet (githubUserCache (snd first)) "ada" = None
      /\ fst second = Ok Null
      /\ fetchCount (snd second) = 2%nat).
Proof.
  cbv zeta. split; [split; vm_compute; reflexivity|].
  split; [split; [eexists|]; vm_compute; reflexivity|].
  repeat split; vm_compute; reflexivity.
Qed.

End UserProfileCache.

(** ** Pull requests by day *)

Section PRTrendsTimestamps.

Import Dashboard AnalyticsStats.

Variable midnightDaysAgo : nat -> Z.

Lemma findDay_range created starts : forall k i,
  findDay created starts k = Some i -> (k <= i < k + length starts)%nat.
Proof.
  induction starts as [|start rest IH]; intros k i H; [done|].
  cbn in H.
  destruct ((start <=? created) && (created <? start + 24 * 60 * 60 * 1000)).
  - injection H as <-. cbn. lia.
  - apply IH in H. cbn. lia.
Qed.

(** [findDay] answers with the first day whose 24 hours hold the time. *)
Lemma findDay_first created starts : forall k i,
  findDay created starts k = Some i <->
  exists j start,
    i = (k + j)%nat /\ starts !! j = Some start /\ inDay start created
    /\ forall j' start', (j' < j)%nat -> starts !! j' = Some start' ->
                         ~ inDay start' created.
Proof.
  unfold inDay.
  induction starts as [|start rest IH]; intros k i.
  { split; [done | intros (j & s & _ & H & _); done]. }
  cbn [findDay].
  destruct ((start <=? created) && (created <? start + 24 * 60 * 60 * 1000))
    eqn:E.
  - apply andb_true_iff in E as [E1%Z.leb_le E2%Z.ltb_lt]. split.
    + intros [= <-]. exists 0%nat, start. split; [lia|]. split; [done|].
      split; [lia|]. intros j' s' Hj'. lia.
    + intros (j & s & -> & Hj & Hin & Hfirst).
      destruct j as [|j]; [f_equal; lia|].
      exfalso. apply (Hfirst 0%nat start); [lia | done | lia].
  - assert (~ (start <= created < start + 24 * 60 * 60 * 1000)) as Hout.
    { apply andb_false_iff in E as [E%Z.leb_gt | E%Z.ltb_ge]; lia. }
    rewrite IH. split.
    + intros (j & s & -> & Hj & Hin & Hfirst).
      exists (S j), s. split; [lia|]. split; [done|]. split; [done|].
      intros [|j'] s' Hlt Hs'; [by injection Hs' as <-|].
      apply (Hfirst j' s'); [lia | done].
    + intros (j & s & -> & Hj & Hin & Hfirst).
      destruct j as [|j]; [by injection Hj as <-|].
      exists j, s. split; [lia|]. split; [done|]. split; [done|].
      intros j' s' Hlt Hs'. apply (Hfirst (S j') s'); [lia | done].
Qed.

Lemma bucketPR_length starts buckets pr :
  length (bucketPR starts buckets pr) = length buckets.
Proof.
  unfold bucketPR. destruct (created_at pr) as [c|]; [|done].
  destruct (findDay c starts 0); [apply length_alter | done].
Qed.

Lemma bucketPR_lookup starts buckets pr i :
  bucketPR starts buckets pr !! i
  = (fun n => n + (if landsOn starts i pr then 1 else 0)) <$> buckets !! i.
Proof.
  unfold bucketPR, landsOn, dayOf.
  assert (Hid : buckets !! i = (fun n => n + 0) <$> buckets !! i).
  { destruct (buckets !! i); cbn; [f_equal; lia | done]. }
  destruct (created_at pr) as [c|];
    [|rewrite bool_decide_eq_false_2 by done; exact Hid].
  destruct (findDay c starts 0) as [d|];
    [|rewrite bool_decide_eq_false_2 by done; exact Hid].
  destruct (decide (d = i)) as [->|Hne].
  - rewrite bool_decide_eq_true_2 by done. apply list_lookup_alter_eq.
  - rewrite bool_decide_eq_false_2 by congruence.
    rewrite list_lookup_alter_ne by done. exact Hid.
Qed.

Lemma sumZ_alter (l : list Z) i :
  (i < length l)%nat -> sumZ (alter (fun n => n + 1) i l) = sumZ l + 1.
Proof.
  revert i. induction l as [|x l IH]; intros i Hi; [cbn in Hi; lia|].
  destruct i as [|i]; cbn [alter list_alter sumZ fold_right] in *.
  - lia.
  - fold (sumZ l). fold (sumZ (alter (fun n => n + 1) i l)).
    rewrite IH by (cbn in Hi; lia). lia.
Qed.

Lemma bucketPR_sum starts buckets pr :
  length buckets = length starts ->
  sumZ (bucketPR starts buckets pr)
  = sumZ buckets + (if counted starts pr then 1 else 0).
Proof.
  intros Hlen. unfold bucketPR, counted, dayOf.
  destruct (created_at pr) as [c|];
    [|rewrite bool_decide_eq_false_2 by (by intros [? ?]); lia].
  destruct (findDay c starts 0) as [d|] eqn:E;
    [|rewrite bool_decide_eq_false_2 by (by intros [? ?]); lia].
  rewrite bool_decide_eq_true_2 by done.
  apply sumZ_alter. apply findDay_range in E. lia.
Qed.

Lemma fold_bucketPR starts prs : forall buckets,
  length buckets = length starts ->
  length (fold_left (bucketPR starts) prs buckets) = length buckets
  /\ (forall i,
        fold_left (bucketPR starts) prs buckets !! i
        = (fun n => n + Z.of_nat (length (List.filter (landsOn starts i) prs)))
            <$> buckets !! i)
  /\ sumZ (fold_left (bucketPR starts) prs buckets)
     = sumZ buckets + Z.of_nat (length (List.filter (counted starts) prs)).
Proof.
  induction prs as [|pr prs IH]; intros buckets Hlen.
  - cbn [fold_left List.filter length]. split; [done|]. split; [|lia].
    intros i. destruct (buckets !! i); cbn; [f_equal; lia | done].
  - cbn [fold_left List.filter].
    destruct (IH (bucketPR starts buckets pr)) as (H1 & H2 & H3);
      [by rewrite bucketPR_length|].
    split; [by rewrite H1, bucketPR_length|]. split.
    + intros i. rewrite H2, bucketPR_lookup.
      destruct (buckets !! i); [|done]. cbn. f_equal.
      destruct (landsOn starts i pr); cbn [length]; lia.
    + rewrite H3, bucketPR_sum by done.
      destruct (counted starts pr); cbn [length]; lia.
Qed.

Lemma fold_bucketMember starts members : forall buckets has,
  fold_left (bucketMember starts) members (buckets, has)
  = (fold_left (bucketPR starts) (allRecent members) buckets,
     has || existsb (fun m => (0 <? length (recentOf m))%nat) members).
Proof.
  induction members as [|m ms IH]; intros buckets has.
  - cbn. by rewrite orb_false_r.
  - cbn [fold_left]. unfold bucketMember at 2. cbn [fst snd].
    rewrite IH. unfold allRecent. cbn [map concat existsb].
    rewrite fold_left_app. f_equal.
    destruct (0 <? length (recentOf m))%nat; cbn [orb];
      [by rewrite orb_true_r | reflexivity].
Qed.

(** X14. When some member supplies [recentPRs], the trend holds one
    bucket for each of the [days] days and counts every pull request at
    most once: under the first day whose 24 hours from local midnight
    hold its creation time, and not at all when no day of the window
    does or the time cannot be read. The buckets therefore add up to the
    number of pull requests that fall in the window, and the fallback
    distribution of the aggregate count is not used. *)
Theorem prTrends_by_timestamp (members : list Member) (days : nat) :
  Exists (fun m => recentOf m <> []) members ->
  let starts := dayStarts midnightDaysAgo days in
  let buckets := getPRTrendsData midnightDaysAgo members days in
  length buckets = days
  /\ (forall i, (i < days)%nat ->
        buckets !! i
        = Some (Z.of_nat (length (List.filter (landsOn starts i)
                                    (allRecent members)))))
  /\ sumZ buckets
     = Z.of_nat (length (List.filter (counted starts) (allRecent members)))
  /\ sumZ buckets <= Z.of_nat (length (allRecent members))
  /\ (forall created i,
        findDay created starts 0 = Some i <->
        exists start,
          starts !! i = Some start /\ inDay start created
          /\ forall j start', (j < i)%nat -> starts !! j = Some start' ->
                              ~ inDay start' created).
Proof.
  intros Hsome starts buckets.
  assert (Hstarts : length starts = days).
  { subst starts. unfold dayStarts. by rewrite length_map, length_seq. }
  assert (Hhas : existsb (fun m => (0 <? length (recentOf m))%nat) members = true).
  { apply existsb_exists. apply Exists_exists in Hsome as (m & Hm & Hne).
    exists m. split; [by apply list_elem_of_In|].
    apply Nat.ltb_lt. destruct (recentOf m); [done | cbn; lia]. }
  assert (Hb : buckets
    = fold_left (bucketPR starts) (allRecent members) (replicate days 0)).
  { subst buckets. unfold getPRTrendsData. fold starts.
    rewrite fold_bucketMember, Hhas. reflexivity. }
  destruct (fold_bucketPR starts (allRecent members) (replicate days 0))
    as (H1 & H2 & H3); [by rewrite length_replicate|].
  assert (Hzero : sumZ (replicate days 0) = 0).
  { clear. induction days as [|d IH]; [done|]. cbn. fold (sumZ (replicate d 0)).
    lia. }
  rewrite <- Hb in H1, H2, H3.
  split; [by rewrite H1, length_replicate|]. split.
  { intros i Hi. rewrite H2, lookup_replicate_2 by done. cbn. f_equal. }
  split; [rewrite H3, Hzero; lia|]. split.
  { rewrite H3, Hzero.
    pose proof (filter_length_le (counted starts) (allRecent members)).
    lia. }
  intros created i. rewrite findDay_first. split.
  - intros (j & s & -> & Hj & Hin & Hfirst). exists s.
    cbn [Nat.add]. split; [done|]. split; [done | exact Hfirst].
  - intros (s & Hi & Hin & Hfirst). exists i, s.
    split; [done|]. split; [done|]. split; [done | exact Hfirst].
Qed.

End PRTrendsTimestamps.

Section PRTrendsTimestampsExample.

Import Dashboard.

(** A run of [prTrends_by_timestamp] over three days, today's midnight
    being time [0]: one pull request yesterday, one today, one before
    the window and one without a readable date. *)
Lemma prTrends_by_timestamp_witness :
  let calendar := fun k => - (86400000 * Z.of_nat k) in
  let team := [memberCreatedAt [Some (-1); Some 5; Some (-432000000); None]] in
  let buckets := getPRTrendsData calendar team 3 in
  buckets = [0; 1; 1] /\ sumZ buckets = 2
  /\ sumZ buckets <= Z.of_nat (length (allRecent team)).
Proof.
  destruct (prTrends_by_timestamp (fun k => - (86400000 * Z.of_nat k))
              [memberCreatedAt [Some (-1); Some 5; Some (-432000000); None]] 3)
    as (_ & _ & _ & H & _).
  - constructor. discriminate.
  - cbv zeta. split; [reflexivity|]. split; [reflexivity | exact H].
Defined.

End PRTrendsTimestampsExample.

(** ** Rankings and totals across the pages *)

Section Rankings.

Import Dashboard Analytics AnalyticsStats DashboardStats.

Local Open Scope string_scope.

Lemma insertBy_map {A B} (f : A -> B) (cmpA : A -> A -> Z) (cmpB : B -> B -> Z)
      x l :
  (forall a b, cmpB (f a) (f b) = cmpA a b) ->
  Js.insertBy cmpB (f x) (map f l) = map f (Js.insertBy cmpA x l).
Proof.
  intros H. induction l as [|y r IH]; [reflexivity|].
  cbn. rewrite H. destruct (cmpA x y <=? 0)%Z; [reflexivity|].
  cbn. by rewrite IH.
Qed.

Lemma sort_map {A B} (f : A -> B) (cmpA : A -> A -> Z) (cmpB : B -> B -> Z) l :
  (forall a b, cmpB (f a) (f b) = cmpA a b) ->
  Js.sort cmpB (map f l) = map f (Js.sort cmpA l).
Proof.
  intros H. induction l as [|x l IH]; [reflexivity|].
  cbn [map Js.sort fold_right].
  fold (Js.sort cmpB (map f l)) (Js.sort cmpA l).
  rewrite IH. by apply insertBy_map.
Qed.

(** X15. The dashboard and the analytics page rank the same committers
    in the same order: the dashboard's list is the analytics list with
    each entry cut down to its name and its commits. *)
Theorem top_committers_agree (members : list Member) :
  DashboardStats.getTopCommitters members
  = map (fun c => {| topName := committerName c;
                     topCommits := committerCommits c |})
      (Analytics.getTopCommitters members)
  /\ map topName (DashboardStats.getTopCommitters members)
     = map committerName (Analytics.getTopCommitters members)
  /\ length (DashboardStats.getTopCommitters members)
     = Nat.min 10 (length (List.filter hasCommits members)).
Proof.
  set (cut := fun c => {| topName := committerName c;
                          topCommits := committerCommits c |}).
  assert (Heq : DashboardStats.getTopCommitters members
                = map cut (Analytics.getTopCommitters members)).
  { unfold DashboardStats.getTopCommitters, Analytics.getTopCommitters, Js.slice0.
    rewrite <- firstn_map.
    rewrite <- (sort_map cut (fun a b => committerCommits b - committerCommits a)
                  (fun a b => topCommits b - topCommits a)) by done.
    rewrite map_map. do 2 f_equal. apply map_ext. intros m.
    unfold toTopCommitter, toCommitter. by destruct (githubActivity m). }
  split; [exact Heq|]. split.
  - rewrite Heq, map_map. reflexivity.
  - rewrite Heq, length_map.
    unfold Analytics.getTopCommitters, Js.slice0.
    rewrite length_take, (Permutation_length (sort_perm _ _)), length_map.
    reflexivity.
Qed.

Lemma hasContributions_defined member :
  hasContributions member = true <->
  exists a c, githubActivity member = Some a /\ contributions a = Some c.
Proof.
  unfold hasContributions. destruct (githubActivity member) as [a|].
  - destruct (contributions a) as [c|] eqn:E.
    + split; [intros _; by exists a, c | done].
    + split; [done | intros (a' & c & Ha & Hc)]. congruence.
  - split; [done | intros (a & c & Ha & _); done].
Qed.

(** X16. Top contributors keep the members whose [contributions] is
    defined, name them by the chain display name, trimmed first + last
    name, "Unknown", count their repositories as public plus private,
    and hold the ten highest by contributions in descending order, members
    with equal contributions in their original order. *)
Theorem top_contributors_ranking (members : list Member) :
  TopSpec contributorContributions 10
    (map toContributor (List.filter hasContributions members))
    (getTopContributors members)
  /\ (forall m, hasContributions m = true <->
        exists a c, githubActivity m = Some a /\ contributions a = Some c)
  /\ (forall m a c, githubActivity m = Some a -> contributions a = Some c ->
        contributorContributions (toContributor m) = c
        /\ contributorRepos (toContributor m)
           = Js.or0 (publicRepos a) + Js.or0 (privateRepos a)
        /\ NameChain m (contributorName (toContributor m))).
Proof.
  split; [apply (sort_slice0_top contributorContributions)|].
  split; [apply hasContributions_defined|].
  intros m a c Ha Hc. unfold toContributor. rewrite Ha. cbn. rewrite Hc.
  split; [done|]. split; [done | apply resolveName_chain].
Qed.

Lemma sumZ_cons x l : sumZ (x :: l) = x + sumZ l.
Proof. reflexivity. Qed.

Lemma sumZ_perMember g members :
  sumZ (map (perMember g) members) = sumZ (map g (omap githubActivity members)).
Proof.
  induction members as [|m ms IH]; [reflexivity|].
  cbn [map]. rewrite sumZ_cons, IH. unfold perMember.
  cbn [omap list_omap]. fold (omap githubActivity ms).
  destruct (githubActivity m); cbn [map]; rewrite ?sumZ_cons; lia.
Qed.

Lemma fold_addPRs members : forall acc,
  fold_left addPRs members acc
  = {| prTotal :=
         prTotal acc
         + sumZ (map (perMember (fun a => Js.or0 (pullRequests a))) members);
       prOpen :=
         prOpen acc
         + sumZ (map (perMember (fun a => Js.or0 (openPRs a))) members);
       prMerged :=
         prMerged acc
         + sumZ (map (perMember (fun a => Js.or0 (mergedPRs a))) members);
       prClosed :=
         prClosed acc
         + sumZ (map (perMember (fun a => Js.or0 (closedPRs a))) members) |}.
Proof.
  induction members as [|m ms IH]; intros acc.
  - destruct acc. cbn. f_equal; lia.
  - cbn [fold_left map]. rewrite IH, !sumZ_cons. unfold addPRs, perMember.
    destruct (githubActivity m); cbn [prTotal prOpen prMerged prClosed];
      f_equal; lia.
Qed.

Lemma totalPRsOf_sum members :
  totalPRsOf members = sumZ (map pullRequestsOf members).
Proof.
  unfold totalPRsOf.
  assert (H : forall acc,
    fold_left (fun sum m => sum + pullRequestsOf m) members acc
    = acc + sumZ (map pullRequestsOf members)).
  { induction members as [|m ms IH]; intros acc; cbn; [lia|].
    rewrite IH. fold (sumZ (map pullRequestsOf ms)). lia. }
  rewrite H. lia.
Qed.

Section TrendTotal.

Variable midnightDaysAgo : nat -> Z.

(** The fallback buckets add up to the aggregate count, whatever its
    sign. *)
Lemma fallback_sum members (D : nat) :
  noTimestamps members -> (1 <= D)%nat ->
  sumZ (getPRTrendsData midnightDaysAgo members D) = totalPRsOf members.
Proof.
  intros Hno HD. set (C := totalPRsOf members).
  assert (Hb : getPRTrendsData midnightDaysAgo members D =
    fallbackLoop D 0 (C / Z.of_nat D) (C - C / Z.of_nat D * Z.of_nat D)
      (replicate D 0)).
  { unfold getPRTrendsData.
    rewrite bucketMember_no_timestamps by assumption. reflexivity. }
  assert (Hrem : C - C / Z.of_nat D * Z.of_nat D = C mod Z.of_nat D).
  { rewrite Z.mod_eq by lia. lia. }
  rewrite Hrem in Hb.
  pose proof (Z.mod_pos_bound C (Z.of_nat D) ltac:(lia)) as Hmod.
  set (buckets := getPRTrendsData midnightDaysAgo members D) in *.
  assert (Hlen : length buckets = D).
  { rewrite Hb, fallbackLoop_length. apply length_replicate. }
  rewrite (sumZ_spread buckets (C / Z.of_nat D) (C mod Z.of_nat D)).
  - rewrite Hlen. rewrite (Z.div_mod C (Z.of_nat D)) at 3 by lia. lia.
  - rewrite Hlen. lia.
  - rewrite Hlen. intros j Hj. rewrite Hb, fallbackLoop_lookup.
    + rewrite decide_True by lia. replace (j - 0)%nat with j by lia. reflexivity.
    + lia.
    + rewrite length_replicate. lia.
Qed.

(** X17. The pull-request totals of the analytics page are the sums of
    the members' stored counts, a missing count or snapshot taken as [0].
    The total equals the aggregate count the dashboard's trend falls back
    on, so when no member supplies [recentPRs] the buckets of the trend,
    over any number of days, add up to the total of the analytics page. *)
Theorem pr_totals_agree (members : list Member) :
  let stats := getPRActivityData members in
  prTotal stats = sumZ (map pullRequestsOf members)
  /\ prOpen stats
     = sumZ (map (fun a => Js.or0 (openPRs a)) (omap githubActivity members))
  /\ prMerged stats
     = sumZ (map (fun a => Js.or0 (mergedPRs a)) (omap githubActivity members))
  /\ prClosed stats
     = sumZ (map (fun a => Js.or0 (closedPRs a)) (omap githubActivity members))
  /\ prTotal stats = totalPRsOf members
  /\ (forall D, noTimestamps members -> (1 <= D)%nat ->
        sumZ (getPRTrendsData midnightDaysAgo members D) = prTotal stats).
Proof.
  intros stats. subst stats. unfold getPRActivityData. rewrite fold_addPRs.
  cbn [prTotal prOpen prMerged prClosed].
  rewrite <- !sumZ_perMember.
  change (map (perMember (fun a => Js.or0 (pullRequests a))) members)
    with (map pullRequestsOf members).
  split; [lia|]. split; [lia|]. split; [lia|]. split; [lia|].
  split; [rewrite totalPRsOf_sum; lia|].
  intros D Hno HD. rewrite fallback_sum by done. rewrite totalPRsOf_sum. lia.
Qed.

End TrendTotal.

End Rankings.

(** ** Statistics of the analytics page and of the dashboard *)

Section Statistics.

Import Eff Json GitHubApi Analytics AnalyticsStats DashboardStats Utils.

Local Open Scope string_scope.

Lemma connectedActivities_cons m members :
  connectedActivities (m :: members)
  = match (if githubConnected m then githubActivity (person m) else None) with
    | Some a => a :: connectedActivities members
    | None => connectedActivities members
    end.
Proof. reflexivity. Qed.

Lemma fold_countMember members : forall t,
  fold_left countMember members t
  = let acts := connectedActivities members in
    {| tallyRepos := tallyRepos t + sumZ (map reposOf acts);
       tallyStars := tallyStars t + sumZ (map (fun a => Js.or0 (totalStars a)) acts);
       tallyPRs := tallyPRs t + sumZ (map (fun a => Js.or0 (pullRequests a)) acts);
       tallyCommits := tallyCommits t + sumZ (map (fun a => Js.or0 (commits a)) acts);
       tallyIssues := tallyIssues t + sumZ (map (fun a => Js.or0 (issues a)) acts);
       tallyForks := tallyForks t + sumZ (map (fun a => Js.or0 (totalForks a)) acts);
       memberCount :=
         memberCount t + Z.of_nat (length (List.filter averagedOver members));
       tallyConnected :=
         tallyConnected t
         + Z.of_nat (length (List.filter githubConnected members)) |}.
Proof.
  induction members as [|m ms IH]; intros t.
  - destruct t. cbn. f_equal; lia.
  - cbn [fold_left]. rewrite IH. cbv zeta.
    rewrite connectedActivities_cons. cbn [List.filter].
    unfold countMember, averagedOver, reposOf.
    destruct (githubConnected m); cbn [andb]; [|reflexivity].
    destruct (githubActivity (person m)) as [a|].
    + rewrite bool_decide_eq_true_2 by eauto. cbn [orb map length].
      rewrite !sumZ_cons.
      cbn [tallyRepos tallyStars tallyPRs tallyCommits tallyIssues tallyForks
             memberCount tallyConnected].
      unfold Js.or0. f_equal; lia.
    + rewrite bool_decide_eq_false_2 by (by intros [? ?]). cbn [orb].
      destruct (hasUsername m); cbn [length];
        cbn [tallyRepos tallyStars tallyPRs tallyCommits tallyIssues tallyForks
               memberCount tallyConnected];
        f_equal; lia.
Qed.

Lemma roundDiv_nearest sum count :
  0 < count -> nearest sum count (roundDiv sum count).
Proof.
  intros Hc. unfold nearest, roundDiv.
  pose proof (Z.div_mod (2 * sum + count) (2 * count) ltac:(lia)) as Hdm.
  pose proof (Z.mod_pos_bound (2 * sum + count) (2 * count) ltac:(lia)) as Hm.
  nia.
Qed.

Lemma connectedActivities_filter members :
  connectedActivities (List.filter githubConnected members)
  = connectedActivities members.
Proof.
  induction members as [|m ms IH]; [reflexivity|].
  cbn [List.filter]. rewrite connectedActivities_cons.
  destruct (githubConnected m) eqn:E; [|exact IH].
  rewrite connectedActivities_cons, E, IH. reflexivity.
Qed.

Lemma filter_filter_connected (p : Account -> bool) members :
  (forall m, p m = true -> githubConnected m = true) ->
  List.filter p (List.filter githubConnected members) = List.filter p members.
Proof.
  intros Hp. induction members as [|m ms IH]; [reflexivity|].
  cbn [List.filter]. destruct (githubConnected m) eqn:E; cbn [List.filter].
  - by rewrite IH.
  - destruct (p m) eqn:Ep; [|exact IH]. apply Hp in Ep. congruence.
Qed.

(** X18. The activity statistics add up the snapshots of the connected
    members only, a missing number taken as [0], and count the connected
    members. Each average is the total over the number of connected
    members that have a snapshot or at least a handle, rounded to the
    nearest integer with a half going up; with no such member it is [0]
    and nothing is divided. Members that are not connected change
    nothing. *)
Theorem activity_stats_totals_and_averages (members : list Account) :
  let stats := getActivityStats members in
  let acts := connectedActivities members in
  let n := Z.of_nat (length (List.filter averagedOver members)) in
  actTotalRepos stats = sumZ (map reposOf acts)
  /\ actTotalStars stats = sumZ (map (fun a => Js.or0 (totalStars a)) acts)
  /\ actTotalPRs stats = sumZ (map (fun a => Js.or0 (pullRequests a)) acts)
  /\ actTotalCommits stats = sumZ (map (fun a => Js.or0 (commits a)) acts)
  /\ actTotalIssues stats = sumZ (map (fun a => Js.or0 (issues a)) acts)
  /\ actTotalForks stats = sumZ (map (fun a => Js.or0 (totalForks a)) acts)
  /\ connectedMembers stats
     = Z.of_nat (length (List.filter githubConnected members))
  /\ (n = 0 -> avgRepos stats = 0 /\ avgStars stats = 0 /\ avgPRs stats = 0)
  /\ (0 < n ->
      nearest (actTotalRepos stats) n (avgRepos stats)
      /\ nearest (actTotalStars stats) n (avgStars stats)
      /\ nearest (actTotalPRs stats) n (avgPRs stats))
  /\ getActivityStats (List.filter githubConnected members) = stats.
Proof.
  intros stats acts n.
  assert (Hstats : forall ms,
    getActivityStats ms
    = let a := connectedActivities ms in
      let k := Z.of_nat (length (List.filter averagedOver ms)) in
      {| actTotalRepos := sumZ (map reposOf a);
         actTotalStars := sumZ (map (fun a => Js.or0 (totalStars a)) a);
         actTotalPRs := sumZ (map (fun a => Js.or0 (pullRequests a)) a);
         actTotalCommits := sumZ (map (fun a => Js.or0 (commits a)) a);
         actTotalIssues := sumZ (map (fun a => Js.or0 (issues a)) a);
         actTotalForks := sumZ (map (fun a => Js.or0 (totalForks a)) a);
         avgRepos := average (sumZ (map reposOf a)) k;
         avgStars := average (sumZ (map (fun a => Js.or0 (totalStars a)) a)) k;
         avgPRs := average (sumZ (map (fun a => Js.or0 (pullRequests a)) a)) k;
         connectedMembers :=
           Z.of_nat (length (List.filter githubConnected ms)) |}).
  { intros ms. unfold getActivityStats. rewrite fold_countMember. cbv zeta.
    cbn [tallyRepos tallyStars tallyPRs tallyCommits tallyIssues tallyForks
           memberCount tallyConnected].
    repeat match goal with |- context [0 + ?x] => change (0 + x) with x end.
    reflexivity. }
  assert (Hs : stats = getActivityStats members) by reflexivity.
  rewrite Hstats in Hs. cbv zeta in Hs. fold acts n in Hs.
  split; [by rewrite Hs|]. split; [by rewrite Hs|]. split; [by rewrite Hs|].
  split; [by rewrite Hs|]. split; [by rewrite Hs|]. split; [by rewrite Hs|].
  split; [by rewrite Hs|]. split.
  { intros Hn. rewrite Hs. cbn. unfold average. rewrite Hn. done. }
  split.
  { intros Hn. rewrite Hs. cbn. unfold average.
    rewrite (proj2 (Z.ltb_lt 0 n) Hn).
    repeat split; by apply roundDiv_nearest. }
  rewrite Hs, Hstats. cbv zeta.
  rewrite connectedActivities_filter.
  rewrite (filter_filter_connected averagedOver).
  2:{ intros m Hm. unfold averagedOver in Hm.
      by apply andb_true_iff in Hm as [? _]. }
  rewrite (filter_filter_connected githubConnected) by done.
  reflexivity.
Qed.

Lemma fold_addStats members : forall st,
  fold_left addStats members st
  = {| statMembers := statMembers st;
       statRepos := statRepos st + sumZ (map (perMember reposOf) members);
       statStars :=
         statStars st
         + sumZ (map (perMember (fun a => Js.or0 (totalStars a))) members);
       statPRs :=
         statPRs st
         + sumZ (map (perMember (fun a => Js.or0 (pullRequests a))) members);
       statCommits :=
         statCommits st
         + sumZ (map (perMember (fun a => Js.or0 (commits a))) members) |}.
Proof.
  induction members as [|m ms IH]; intros st.
  - destruct st. cbn. f_equal; lia.
  - cbn [fold_left map]. rewrite IH, !sumZ_cons.
    unfold addStats, perMember, reposOf.
    destruct (githubActivity m);
      cbn [statMembers statRepos statStars statPRs statCommits];
      unfold Js.or0; f_equal; lia.
Qed.

Lemma connected_sums g accounts :
  snapshotsConnected accounts ->
  sumZ (map (perMember g) (map person accounts))
  = sumZ (map g (connectedActivities accounts)).
Proof.
  induction 1 as [|m ms Hm _ IH]; [reflexivity|].
  cbn [map]. rewrite sumZ_cons, IH, connectedActivities_cons.
  unfold perMember. destruct (githubActivity (person m)) as [a|].
  - rewrite Hm by eauto. cbn [map]. by rewrite sumZ_cons.
  - destruct (githubConnected m); lia.
Qed.

(** X19. The dashboard counts every member and adds up the snapshots of
    all of them, connected or not. When every member that has a snapshot
    is connected, its totals of repositories, stars, pull requests and
    commits are those of the analytics page. *)
Theorem dashboard_totals_match_analytics (accounts : list Account) :
  snapshotsConnected accounts ->
  let dash := updateDashboardStats (map person accounts) in
  let stats := getActivityStats accounts in
  statMembers dash = Z.of_nat (length accounts)
  /\ statRepos dash = actTotalRepos stats
  /\ statStars dash = actTotalStars stats
  /\ statPRs dash = actTotalPRs stats
  /\ statCommits dash = actTotalCommits stats.
Proof.
  intros Hall dash stats. subst dash stats.
  unfold updateDashboardStats, getActivityStats.
  rewrite fold_addStats, fold_countMember. cbv zeta.
  cbn [statMembers statRepos statStars statPRs statCommits actTotalRepos
         actTotalStars actTotalPRs actTotalCommits tallyRepos tallyStars
         tallyPRs tallyCommits].
  rewrite !connected_sums by done. rewrite length_map.
  repeat split; lia.
Qed.

(** A run of [dashboard_totals_match_analytics]. *)
Lemma dashboard_totals_match_analytics_witness :
  let dash := updateDashboardStats (map person sampleAccounts) in
  statMembers dash = 3 /\ statRepos dash = 7
  /\ statRepos dash = actTotalRepos (getActivityStats sampleAccounts)
  /\ avgRepos (getActivityStats sampleAccounts) = 2.
Proof.
  destruct (dashboard_totals_match_analytics sampleAccounts) as (_ & H & _).
  - repeat constructor; intros [a Ha]; reflexivity || discriminate.
  - cbv zeta. split; [reflexivity|]. split; [reflexivity|].
    split; [exact H | reflexivity].
Defined.

End Statistics.

(** ** Repository totals of the analytics page, and the display name *)

Section RepositoryData.

Import Eff Json GitHubApi Analytics AnalyticsStats Utils.

Local Open Scope string_scope.

Lemma trackedActivities_cons m members :
  trackedActivities (m :: members)
  = match (if tracked m then githubActivity (person m) else None) with
    | Some a => a :: trackedActivities members
    | None => trackedActivities members
    end.
Proof. reflexivity. Qed.

Lemma plusNum_plusNum p a b : plusNum (plusNum p a) b = plusNum p (a + b).
Proof. destruct p; cbn; [f_equal; lia | reflexivity]. Qed.

Lemma plusNum_0 p : plusNum p 0 = p.
Proof. destruct p; cbn; [f_equal; lia | reflexivity]. Qed.

(** What the stored part of a turn adds. *)
Lemma addStored_fields t m :
  repoPublic (addStored t m)
  = plusNum (repoPublic t)
      (perMember (fun a => Js.or0 (publicRepos a)) (person m))
  /\ repoPrivate (addStored t m)
     = repoPrivate t + perMember (fun a => Js.or0 (privateRepos a)) (person m)
  /\ repoStars (addStored t m)
     = repoStars t + perMember (fun a => Js.or0 (totalStars a)) (person m)
  /\ repoForks (addStored t m)
     = repoForks t + perMember (fun a => Js.or0 (totalForks a)) (person m)
  /\ repoPRs (addStored t m)
     = repoPRs t + perMember (fun a => Js.or0 (pullRequests a)) (person m)
  /\ repoCommits (addStored t m)
     = repoCommits t + perMember (fun a => Js.or0 (commits a)) (person m).
Proof.
  unfold addStored, perMember. destruct (githubActivity (person m)) as [a|].
  - done.
  - rewrite plusNum_0, !Z.add_0_r. done.
Qed.

Lemma sumZ_tracked g m members :
  tracked m = true ->
  sumZ (map g (trackedActivities (m :: members)))
  = perMember g (person m) + sumZ (map g (trackedActivities members)).
Proof.
  intros Ht. rewrite trackedActivities_cons, Ht. unfold perMember.
  destruct (githubActivity (person m)); [|lia].
  cbn [map]. by rewrite sumZ_cons.
Qed.

Lemma sumZ_untracked g m members :
  tracked m = false ->
  sumZ (map g (trackedActivities (m :: members)))
  = sumZ (map g (trackedActivities members)).
Proof. intros Ht. by rewrite trackedActivities_cons, Ht. Qed.

Lemma repositoryLoop_totals members : forall t w,
  exists t' w',
    repositoryLoop members t w = (Ok t', w')
    /\ (let acts := trackedActivities members in
        repoPrivate t'
        = repoPrivate t + sumZ (map (fun a => Js.or0 (privateRepos a)) acts)
        /\ repoStars t'
           = repoStars t + sumZ (map (fun a => Js.or0 (totalStars a)) acts)
        /\ repoForks t'
           = repoForks t + sumZ (map (fun a => Js.or0 (totalForks a)) acts)
        /\ repoPRs t'
           = repoPRs t + sumZ (map (fun a => Js.or0 (pullRequests a)) acts)
        /\ repoCommits t'
           = repoCommits t + sumZ (map (fun a => Js.or0 (commits a)) acts)
        /\ (List.filter needsLookup members = [] ->
            w' = w
            /\ repoPublic t'
               = plusNum (repoPublic t)
                   (sumZ (map (fun a => Js.or0 (publicRepos a)) acts))))
    /\ asked 0 (3 * length (List.filter needsLookup members)) w w'.
Proof.
  induction members as [|m ms IH]; intros t w.
  { exists t, w. split; [reflexivity|]. split; [|apply asked_refl].
    cbv zeta. change (trackedActivities []) with (@nil GithubActivity).
    change (sumZ (map _ [])) with 0. rewrite plusNum_0, !Z.add_0_r. done. }
  cbn [repositoryLoop List.filter].
  assert (Hn : needsLookup m = tracked m && lacksPublicRepos m) by reflexivity.
  rewrite Hn. clear Hn.
  change (githubConnected m && hasUsername m) with (tracked m).
  destruct (tracked m) eqn:Ht; cbn [andb].
  2:{ destruct (IH t w) as (t' & w' & E & Hf & Ha).
      exists t', w'. split; [exact E|]. split; [|exact Ha].
      cbv zeta. rewrite !sumZ_untracked by done. exact Hf. }
  assert (Hu : hasUsername m = true).
  { unfold tracked in Ht. by apply andb_true_iff in Ht as [_ ?]. }
  rewrite Hu, andb_true_r.
  destruct (addStored_fields t m) as (S0 & S1 & S2 & S3 & S4 & S5).
  destruct (lacksPublicRepos m) eqn:El.
  - unfold bind at 1, tryCatch.
    destruct (fetchGitHubUserInfo_asked (strOrEmpty (githubUsername m)) true w)
      as (v & w1 & E1 & Ha1 & _).
    unfold bind at 1. rewrite E1.
    set (t2 := if truthyCached v
               then withPublic
                      (plusVal (repoPublic (addStored t m))
                         (optField v "public_repos" public_repos))
                      (addStored t m)
               else addStored t m).
    assert (Hstep :
      (if truthyCached v
       then ret (withPublic
                   (plusVal (repoPublic (addStored t m))
                      (optField v "public_repos" public_repos))
                   (addStored t m))
       else ret (addStored t m)) w1 = (Ok t2, w1))
      by (subst t2; by destruct (truthyCached v)).
    rewrite Hstep.
    assert (Hsame : repoPrivate t2 = repoPrivate (addStored t m)
                    /\ repoStars t2 = repoStars (addStored t m)
                    /\ repoForks t2 = repoForks (addStored t m)
                    /\ repoPRs t2 = repoPRs (addStored t m)
                    /\ repoCommits t2 = repoCommits (addStored t m))
      by (subst t2; by destruct (truthyCached v)).
    destruct Hsame as (Q1 & Q2 & Q3 & Q4 & Q5).
    destruct (IH t2 w1) as (t' & w' & E & (F1 & F2 & F3 & F4 & F5 & _) & Ha).
    exists t', w'. split; [exact E|]. split.
    + cbv zeta. rewrite !sumZ_tracked by done.
      split; [lia|]. split; [lia|]. split; [lia|]. split; [lia|].
      split; [lia|]. intros Hnil. discriminate Hnil.
    + cbn [length].
      eapply asked_weaken; [exact (asked_trans _ _ _ _ _ _ _ Ha1 Ha)| |]; lia.
  - destruct (IH (addStored t m) w)
      as (t' & w' & E & (F1 & F2 & F3 & F4 & F5 & F0) & Ha).
    exists t', w'. split; [exact E|]. split; [|exact Ha].
    cbv zeta. rewrite !sumZ_tracked by done.
    split; [lia|]. split; [lia|]. split; [lia|]. split; [lia|].
    split; [lia|]. intros Hnil. destruct (F0 Hnil) as [-> F].
    split; [reflexivity|]. rewrite F, S0, plusNum_plusNum. reflexivity.
Qed.

(** X20. The repository totals of the analytics page never fail. The
    private repositories, stars, forks, pull requests and commits are the
    sums over the snapshots of the members that are connected and have a
    handle. GitHub is asked only for such members whose snapshot is
    missing or has no public repositories, three requests at most for
    each; when there is none, nothing is sent, the world is left as it
    was and the public total is the sum of the snapshots as well. *)
Theorem getRepositoryData_totals (members : list Account) (w : World) :
  exists t w',
    getRepositoryData members w = (Ok t, w')
    /\ (let acts := trackedActivities members in
        repoPrivate t = sumZ (map (fun a => Js.or0 (privateRepos a)) acts)
        /\ repoStars t = sumZ (map (fun a => Js.or0 (totalStars a)) acts)
        /\ repoForks t = sumZ (map (fun a => Js.or0 (totalForks a)) acts)
        /\ repoPRs t = sumZ (map (fun a => Js.or0 (pullRequests a)) acts)
        /\ repoCommits t = sumZ (map (fun a => Js.or0 (commits a)) acts)
        /\ (List.filter needsLookup members = [] ->
            w' = w
            /\ repoPublic t
               = Some (sumZ (map (fun a => Js.or0 (publicRepos a)) acts))))
    /\ asked 0 (3 * length (List.filter needsLookup members)) w w'.
Proof.
  unfold getRepositoryData.
  destruct (repositoryLoop_totals members
              {| repoPublic := Some 0; repoPrivate := 0; repoStars := 0;
                 repoForks := 0; repoPRs := 0; repoCommits := 0 |} w)
    as (t & w' & E & F & Ha).
  exists t, w'. split; [exact E|]. split; [|exact Ha].
  cbv zeta in *. cbn [repoPublic repoPrivate repoStars repoForks repoPRs
                        repoCommits plusNum] in F.
  destruct F as (F1 & F2 & F3 & F4 & F5 & F0).
  split; [lia|]. split; [lia|]. split; [lia|]. split; [lia|]. split; [lia|].
  exact F0.
Qed.

(** X21. The display name of the member pages is never empty. It is the
    name the rankings show, except for a member with no name at all,
    which the pages show as N/A and the rankings as Unknown. *)
Theorem getMemberDisplayName_vs_rankings (member : Member) :
  getMemberDisplayName member <> EmptyString
  /\ (~ nameless member ->
      getMemberDisplayName member = resolveName member)
  /\ (nameless member ->
      getMemberDisplayName member = "N/A"
      /\ resolveName member = "Unknown").
Proof.
  unfold getMemberDisplayName, resolveName, nameless. cbv zeta.
  destruct (Js.truthyStr (strOrEmpty (displayName member))) eqn:Ed.
  - split.
    { intros H. rewrite H in Ed. discriminate Ed. }
    split; [done|]. intros [H _]. discriminate H.
  - destruct (Js.trim _) as [|c s] eqn:Et; cbn [Js.truthyStr].
    + split; [done|]. split; [|done]. intros H. by destruct H.
    + split; [done|]. split; [done|]. intros [_ H]. discriminate H.
Qed.

End RepositoryData.

(** ** The admin session *)

Section AdminSession.

Import Auth.

Local Open Scope string_scope.

Variable ADMIN_EMAIL : string.

Lemma isAdmin_email u :
  isAdmin ADMIN_EMAIL u = true <-> email u = Some ADMIN_EMAIL.
Proof.
  unfold isAdmin. destruct (email u) as [e|].
  - rewrite streq_true. split; congruence.
  - split; discriminate.
Qed.

Lemma adminLogin_keeps address password s :
  adminOrNone ADMIN_EMAIL s ->
  adminOrNone ADMIN_EMAIL (snd (adminLogin ADMIN_EMAIL address password s)).
Proof.
  intros Hs. unfold adminLogin, orCatch.
  destruct (notConfigured ADMIN_EMAIL) eqn:Ec; [exact Hs|].
  unfold andThen, signInWithEmailAndPassword.
  destruct (signInReply s (length (calls s)) address password) as [user|e];
    [|exact Hs].
  destruct (isAdmin ADMIN_EMAIL user) eqn:Ea; cbn [negb].
  - split; [by apply isAdmin_email | exact Ec].
  - unfold signOut. cbn [calls withCalls signOutReply].
    destruct (signOutReply s _); exact Hs.
Qed.

Lemma adminLogout_keeps s :
  adminOrNone ADMIN_EMAIL s -> adminOrNone ADMIN_EMAIL (snd (adminLogout s)).
Proof.
  intros Hs. unfold adminLogout, orCatch, andThen, signOut.
  destruct (signOutReply s (length (calls s))); [exact Hs | exact I].
Qed.

Lemma signOut_then_keeps h s :
  keeps ADMIN_EMAIL (notify h) ->
  adminOrNone ADMIN_EMAIL s ->
  adminOrNone ADMIN_EMAIL (snd (andThen signOut (fun _ => notify h) s)).
Proof.
  intros Hh Hs. unfold andThen, signOut.
  destruct (signOutReply s (length (calls s))); [exact Hs|].
  apply Hh. exact Hs.
Qed.

Lemma authStateChanged_keeps onAuthenticated onUnauthenticated user s :
  (forall h u, onAuthenticated = Some h -> keeps ADMIN_EMAIL (h u)) ->
  (forall h, onUnauthenticated = Some h -> keeps ADMIN_EMAIL h) ->
  adminOrNone ADMIN_EMAIL s ->
  adminOrNone ADMIN_EMAIL
    (snd (authStateChanged ADMIN_EMAIL onAuthenticated onUnauthenticated
            user s)).
Proof.
  intros Ha Hu Hs.
  assert (Hn : keeps ADMIN_EMAIL (notify onUnauthenticated)).
  { destruct onUnauthenticated as [h|]; [by apply Hu|]. intros s0 H0. exact H0. }
  assert (Hlog : forall msg s0,
            adminOrNone ADMIN_EMAIL s0 ->
            adminOrNone ADMIN_EMAIL (logError msg s0)) by (intros ? ? H0; exact H0).
  destruct user as [u|]; cbn [authStateChanged].
  2:{ apply Hn. exact I. }
  unfold orCatch, andThen at 1, checkAdminStatus.
  destruct (notConfigured ADMIN_EMAIL) eqn:Ec.
  - pose proof (signOut_then_keeps onUnauthenticated _ Hn
                  (Hlog "ADMIN_EMAIL not configured. Authentication will fail."
                     s Hs)) as H1.
    destruct (andThen signOut _ _) as [[[]|e] s1]; [exact H1|].
    apply signOut_then_keeps; [exact Hn|]. apply Hlog. exact H1.
  - destruct (isAdmin ADMIN_EMAIL u) eqn:Ea.
    + assert (H1 : adminOrNone ADMIN_EMAIL
                     (snd (notify (option_map (fun h => h u) onAuthenticated)
                             (withUser (Some u) s)))).
      { assert (H0 : adminOrNone ADMIN_EMAIL (withUser (Some u) s))
          by (split; [by apply isAdmin_email | exact Ec]).
        destruct onAuthenticated as [h|]; cbn [option_map notify];
          [by apply (Ha h u) | exact H0]. }
      destruct (notify _ _) as [[[]|e] s1]; [exact H1|].
      apply signOut_then_keeps; [exact Hn|]. apply Hlog. exact H1.
    + pose proof (signOut_then_keeps onUnauthenticated _ Hn Hs) as H1.
      destruct (andThen signOut _ _) as [[[]|e] s1]; [exact H1|].
      apply signOut_then_keeps; [exact Hn|]. apply Hlog. exact H1.
Qed.

(** X22. Whatever logins, logouts and reports of the provider follow
    one another, and whether they return or throw, the current user of
    the module is the configured administrator or nobody: a session that
    starts that way stays that way, as long as the caller's handlers
    leave the current user alone. *)
Theorem current_user_is_admin
  (onAuthenticated : option (User -> Act unit))
  (onUnauthenticated : option (Act unit)) (ops : list Op) (s : Session) :
  (forall h u, onAuthenticated = Some h -> keeps ADMIN_EMAIL (h u)) ->
  (forall h, onUnauthenticated = Some h -> keeps ADMIN_EMAIL h) ->
  adminOrNone ADMIN_EMAIL s ->
  match fst (getCurrentUser
               (run ADMIN_EMAIL onAuthenticated onUnauthenticated ops s)) with
  | inl (Some u) =>
      email u = Some ADMIN_EMAIL /\ notConfigured ADMIN_EMAIL = false
  | inl None => True
  | inr _ => False
  end.
Proof.
  intros Ha Hu Hs.
  assert (H : adminOrNone ADMIN_EMAIL
                (run ADMIN_EMAIL onAuthenticated onUnauthenticated ops s)).
  { unfold run. revert s Hs. induction ops as [|op ops IH]; intros s Hs.
    - exact Hs.
    - cbn [fold_left]. apply IH. destruct op as [a p| |user]; cbn [perform].
      + by apply adminLogin_keeps.
      + by apply adminLogout_keeps.
      + by apply authStateChanged_keeps. }
  unfold getCurrentUser. cbn [fst]. exact H.
Qed.

(** X23. Logging in. With no administrator configured the login throws
    before the provider is called. A login returns a user only when the
    provider accepted the credentials and the user's address is the
    administrator's; that user becomes the current user and nothing is
    logged. A login that throws leaves the current user as it was and logs at
    least one line. A
    user the provider accepts but who is not the administrator is signed
    out again, and the login throws, with the access-denied message when
    the sign-out succeeded. *)
Theorem adminLogin_gate (address password : string) (s : Session) :
  let out := adminLogin ADMIN_EMAIL address password s in
  (notConfigured ADMIN_EMAIL = true ->
   fst out
   = inr (newError
            "Admin email not configured. Please contact the administrator.")
   /\ calls (snd out) = calls s)
  /\ (forall user, fst out = inl user ->
      notConfigured ADMIN_EMAIL = false
      /\ signInReply s (length (calls s)) address password = inl user
      /\ email user = Some ADMIN_EMAIL
      /\ currentUser (snd out) = Some user
      /\ calls (snd out) = SignIn address password :: calls s
      /\ console (snd out) = console s)
  /\ (forall e, fst out = inr e ->
      currentUser (snd out) = currentUser s
      /\ exists line lines,
           console (snd out) = (line :: lines ++ console s)%list)
  /\ (notConfigured ADMIN_EMAIL = false ->
      forall user,
        signInReply s (length (calls s)) address password = inl user ->
        email user <> Some ADMIN_EMAIL ->
        calls (snd out) = SignOut :: SignIn address password :: calls s
        /\ exists e, fst out = inr e
           /\ (signOutReply s (S (length (calls s))) = None ->
               e = newError "Access denied. Admin privileges required.")).
Proof.
  cbv zeta. unfold adminLogin, orCatch.
  destruct (notConfigured ADMIN_EMAIL) eqn:Ec.
  { cbn. split; [done|]. split; [discriminate|]. split; [|discriminate].
    intros e _. split; [reflexivity|]. by eexists _, [_]. }
  unfold andThen, signInWithEmailAndPassword.
  destruct (signInReply s (length (calls s)) address password) as [user|e] eqn:Er.
  2:{ cbn. split; [discriminate|]. split; [discriminate|]. split.
      - intros e0 _. split; [reflexivity|]. by eexists _, [].
      - intros _ user Hu. discriminate Hu. }
  destruct (isAdmin ADMIN_EMAIL user) eqn:Ea; cbn [negb].
  - apply isAdmin_email in Ea. cbn. split; [discriminate|]. split.
    { intros user0 [= <-]. done. }
    split; [discriminate|]. intros _ user0 [= <-] Hne. contradiction.
  - unfold signOut. cbn [calls withCalls signOutReply length].
    destruct (signOutReply s (S (length (calls s)))) as [e|] eqn:Eo; cbn.
    + split; [discriminate|]. split; [discriminate|]. split.
      { intros e0 _. split; [reflexivity|]. by eexists _, []. }
      intros _ user0 _ _. split; [reflexivity|]. eexists. split; [reflexivity|].
      discriminate.
    + split; [discriminate|]. split; [discriminate|]. split.
      { intros e0 _. split; [reflexivity|]. by eexists _, []. }
      intros _ user0 _ _. split; [reflexivity|]. eexists. split; [reflexivity|].
      reflexivity.
Qed.

Lemma translate_other e :
  (forall c, code e = Some c -> c ∉ knownCodes) -> translate e = e.
Proof.
  intros Hc. unfold translate. destruct (code e) as [c|]; [|reflexivity].
  specialize (Hc c eq_refl). unfold knownCodes in Hc.
  repeat match goal with
         | |- context [Js.streq c ?k] =>
             rewrite (proj2 (streq_false c k))
               by (intros ->; apply Hc; set_solver)
         end.
  reflexivity.
Qed.

Lemma translate_badCredentials e :
  badCredentials e -> translate e = newError "Invalid email or password.".
Proof.
  unfold translate. intros [-> | ->]; reflexivity.
Qed.

(** X24. A login the provider rejects. The provider is called once, the
    current user is unchanged, one line is logged, and the login throws:
    for a rejection without a code, or with a code that is not one of
    the six known ones, the provider's error as it is; for an unknown
    account and for a wrong password the same error, from which the two
    cannot be told apart. *)
Theorem adminLogin_rejected (address password : string) (s : Session)
  (e : Failure) :
  notConfigured ADMIN_EMAIL = false ->
  signInReply s (length (calls s)) address password = inr e ->
  let out := adminLogin ADMIN_EMAIL address password s in
  fst out = inr (translate e)
  /\ calls (snd out) = SignIn address password :: calls s
  /\ currentUser (snd out) = currentUser s
  /\ console (snd out) = (Eff.LevelError, "Login error:") :: console s
  /\ ((forall c, code e = Some c -> c ∉ knownCodes) -> translate e = e)
  /\ (badCredentials e ->
      translate e = newError "Invalid email or password."
      /\ forall e', badCredentials e' -> translate e' = translate e).
Proof.
  intros Ec Er. cbv zeta. unfold adminLogin, orCatch. rewrite Ec.
  unfold andThen, signInWithEmailAndPassword. rewrite Er. cbn.
  split; [reflexivity|]. split; [reflexivity|]. split; [reflexivity|].
  split; [reflexivity|]. split; [apply translate_other|].
  intros Hb. split; [by apply translate_badCredentials|].
  intros e' Hb'. by rewrite !translate_badCredentials.
Qed.

(** X25. The provider reports a user who is not the administrator, or
    no administrator is configured. The authenticated handler plays no
    part and the user is signed out; the current user of the module is
    not reset. Without an unauthenticated handler: when the sign-out
    succeeds that is all; when it fails, the failure is logged, the
    sign-out is tried once more and its outcome is the outcome. *)
Theorem authStateChanged_turned_away
  (onAuthenticated : option (User -> Act unit))
  (onUnauthenticated : option (Act unit)) (u : User) (s : Session) :
  turnedAway ADMIN_EMAIL u ->
  authStateChanged ADMIN_EMAIL onAuthenticated onUnauthenticated (Some u) s
  = authStateChanged ADMIN_EMAIL None onUnauthenticated (Some u) s
  /\ (let out := authStateChanged ADMIN_EMAIL onAuthenticated None (Some u) s in
      let n := length (calls s) in
      currentUser (snd out) = currentUser s
      /\ match signOutReply s n with
         | None => fst out = inl tt /\ calls (snd out) = SignOut :: calls s
         | Some _ =>
             calls (snd out) = SignOut :: SignOut :: calls s
             /\ fst out = match signOutReply s (S n) with
                          | None => inl tt
                          | Some e => inr e
                          end
             /\ exists line rest,
                  console (snd out) = (Eff.LevelError, line) :: rest
                  /\ line = "Auth error:"
         end).
Proof.
  intros Hu.
  assert (Hc : forall s0, exists s1,
            checkAdminStatus ADMIN_EMAIL u s0 = (inl false, s1)
            /\ currentUser s1 = currentUser s0 /\ calls s1 = calls s0
            /\ signOutReply s1 = signOutReply s0).
  { intros s0. unfold checkAdminStatus.
    destruct (notConfigured ADMIN_EMAIL) eqn:Ec; [by eexists|].
    destruct Hu as [Hu|Hu]; [congruence|].
    destruct (isAdmin ADMIN_EMAIL u) eqn:Ea;
      [by apply isAdmin_email in Ea | by eexists]. }
  assert (Hsame : forall onA onU,
            authStateChanged ADMIN_EMAIL onA onU (Some u) s
            = orCatch (andThen signOut (fun _ => notify onU))
                (fun _ s0 =>
                   andThen signOut (fun _ => notify onU)
                     (logError "Auth error:" s0))
                (snd (checkAdminStatus ADMIN_EMAIL u s))).
  { intros onA onU. cbn [authStateChanged]. unfold orCatch, andThen at 1.
    destruct (Hc s) as (s1 & -> & _). reflexivity. }
  split; [by rewrite !Hsame|].
  cbv zeta. rewrite Hsame.
  destruct (Hc s) as (s1 & -> & Hcu & Hca & Hso). cbn [snd].
  unfold orCatch, andThen, signOut, notify. rewrite Hso, Hca.
  destruct (signOutReply s (length (calls s))) as [e|].
  - cbn [calls withCalls logError signOutReply length currentUser snd fst].
    rewrite ?Hso, ?Hca.
    destruct (signOutReply s (S (length (calls s)))) as [e2|];
      cbn [calls withCalls logError signOutReply length currentUser snd fst
             console];
      rewrite ?Hcu, ?Hca; (split; [reflexivity|]); (split; [reflexivity|]);
      (split; [reflexivity|]); eauto.
  - cbn [calls withCalls currentUser snd fst]. rewrite ?Hcu, ?Hca. done.
Qed.

End AdminSession.

Section AdminSessionExamples.

Import Auth.

Local Open Scope string_scope.

(** A run of [current_user_is_admin]: the guest is let in by the
    provider and turned away by the module. *)
Lemma current_user_is_admin_witness :
  currentUser
    (run "admin@vedam.org" None None
       [Login "guest@vedam.org" "pw"; StateChanged None;
        Login "admin@vedam.org" "pw"] freshSession)
  = Some {| uid := "admin@vedam.org"; email := Some "admin@vedam.org" |}
  /\ match fst (getCurrentUser
                  (run "admin@vedam.org" None None
                     [Login "guest@vedam.org" "pw"; StateChanged None;
                      Login "admin@vedam.org" "pw"] freshSession)) with
     | inl (Some u) =>
         email u = Some "admin@vedam.org"
         /\ notConfigured "admin@vedam.org" = false
     | inl None => True
     | inr _ => False
     end.
Proof.
  split; [reflexivity|].
  apply (current_user_is_admin "admin@vedam.org" None None).
  - intros h u H. discriminate H.
  - intros h H. discriminate H.
  - exact I.
Defined.

(** A run of [adminLogin_rejected]: an address the provider does not
    know. *)
Lemma adminLogin_rejected_witness :
  fst (adminLogin "admin@vedam.org" "nobody@vedam.org" "pw" freshSession)
  = inr (newError "Invalid email or password.").
Proof.
  destruct (adminLogin_rejected "admin@vedam.org" "nobody@vedam.org" "pw"
              freshSession
              {| code := Some "auth/user-not-found";
                 message := "There is no user record for this identifier." |})
    as (H & _).
  - reflexivity.
  - reflexivity.
  - exact H.
Defined.

(** A run of [authStateChanged_turned_away]. *)
Lemma authStateChanged_turned_away_witness :
  calls (snd (authStateChanged "admin@vedam.org" None None
                (Some {| uid := "7"; email := Some "guest@vedam.org" |})
                freshSession))
  = [SignOut].
Proof.
  destruct (authStateChanged_turned_away "admin@vedam.org" None None
              {| uid := "7"; email := Some "guest@vedam.org" |} freshSession)
    as (_ & _ & _ & H).
  - right. discriminate.
  - exact H.
Defined.

End AdminSessionExamples.

(** ** The literals of the build script *)

Section BuildLiterals.

Import Json Build.

Local Open Scope string_scope.

Lemma append_empty t : EmptyString ++ t = t.
Proof. reflexivity. Qed.

Lemma replaceAll_app c b s1 s2 :
  replaceAll c b (s1 ++ s2) = replaceAll c b s1 ++ replaceAll c b s2.
Proof.
  induction s1 as [|x s1 IH]; [reflexivity|].
  rewrite append_cons. cbn [replaceAll]. rewrite IH.
  destruct (Ascii.eqb x c); [by rewrite append_assoc | reflexivity].
Qed.

Lemma escapeValue_app s1 s2 :
  escapeValue (s1 ++ s2) = escapeValue s1 ++ escapeValue s2.
Proof. unfold escapeValue. by rewrite !replaceAll_app. Qed.

(** The five replacements do not get in each other's way: together they
    encode one character at a time. *)
Lemma escapeValue_cons c s :
  escapeValue (String c s)
  = (if Ascii.eqb c backslash then String backslash (String backslash EmptyString)
     else if Ascii.eqb c dquote then String backslash (String dquote EmptyString)
     else if Ascii.eqb c "010"%char then String backslash "n"
     else if Ascii.eqb c "013"%char then String backslash "r"
     else if Ascii.eqb c "009"%char then String backslash "t"
     else String c EmptyString) ++ escapeValue s.
Proof.
  change (String c s) with (String c EmptyString ++ s).
  rewrite escapeValue_app. f_equal.
  destruct (Ascii.eqb_spec c backslash) as [->|H1]; [reflexivity|].
  destruct (Ascii.eqb_spec c dquote) as [->|H2]; [reflexivity|].
  destruct (Ascii.eqb_spec c "010"%char) as [->|H3]; [reflexivity|].
  destruct (Ascii.eqb_spec c "013"%char) as [->|H4]; [reflexivity|].
  destruct (Ascii.eqb_spec c "009"%char) as [->|H5]; [reflexivity|].
  apply Ascii.eqb_neq in H1, H2, H3, H4, H5.
  unfold escapeValue. cbn [replaceAll].
  rewrite H1. cbn [replaceAll]. rewrite H2. cbn [replaceAll].
  rewrite H3. cbn [replaceAll]. rewrite H4. cbn [replaceAll].
  rewrite H5. reflexivity.
Qed.

Lemma readBody_escapeValue value : readBody (escapeValue value) = Some value.
Proof.
  induction value as [|c s IH]; [reflexivity|].
  rewrite escapeValue_cons.
  destruct (Ascii.eqb_spec c backslash) as [->|H1].
  { rewrite !append_cons, append_empty. cbn [readBody].
    change (Ascii.eqb backslash backslash) with true. cbv iota.
    by rewrite IH. }
  destruct (Ascii.eqb_spec c dquote) as [->|H2].
  { rewrite !append_cons, append_empty. cbn [readBody].
    change (Ascii.eqb backslash backslash) with true. cbv iota.
    by rewrite IH. }
  destruct (Ascii.eqb_spec c "010"%char) as [->|H3].
  { rewrite !append_cons, append_empty. cbn [readBody].
    change (Ascii.eqb backslash backslash) with true. cbv iota.
    by rewrite IH. }
  destruct (Ascii.eqb_spec c "013"%char) as [->|H4].
  { rewrite !append_cons, append_empty. cbn [readBody].
    change (Ascii.eqb backslash backslash) with true. cbv iota.
    by rewrite IH. }
  destruct (Ascii.eqb_spec c "009"%char) as [->|H5].
  { rewrite !append_cons, append_empty. cbn [readBody].
    change (Ascii.eqb backslash backslash) with true. cbv iota.
    by rewrite IH. }
  apply Ascii.eqb_neq in H1, H2, H3, H4.
  rewrite append_cons, append_empty. cbn [readBody].
  rewrite H1, H2, H3, H4. cbn [orb]. by rewrite IH.
Qed.

(** X26. The literal the build script writes for a required variable.
    A variable that is unset, empty or blank gives an error; any other
    value gives its text between double quotes, escaped so that the
    literal reads back as exactly that value, whatever backslashes,
    quotes and line breaks it holds. The optional variant writes the
    same literal and, where the required one fails, the placeholder. *)
Theorem getEnvValue_literal_reads_back (env : string -> option string)
  (key placeholder : string) :
  match getEnvValue env key with
  | Some lit =>
      exists value body,
        env key = Some value
        /\ Js.trim value <> EmptyString
        /\ lit = String dquote (body ++ String dquote EmptyString)
        /\ readBody body = Some value
        /\ getOptionalEnvValue env key placeholder = lit
  | None =>
      (forall value, env key = Some value -> Js.trim value = EmptyString)
      /\ getOptionalEnvValue env key placeholder = placeholder
  end.
Proof.
  unfold getEnvValue, getOptionalEnvValue.
  destruct (env key) as [value|]; [|by split].
  unfold unset. destruct value as [|c s].
  { cbn. split; [|reflexivity]. by intros ? [= <-]. }
  cbn [Js.truthyStr negb orb].
  destruct (Js.streq (Js.trim (String c s)) EmptyString) eqn:Et.
  - apply streq_true in Et. split; [|reflexivity]. by intros ? [= <-].
  - apply streq_false in Et. exists (String c s), (escapeValue (String c s)).
    split; [reflexivity|]. split; [exact Et|]. split; [reflexivity|].
    split; [apply readBody_escapeValue | reflexivity].
Qed.

End BuildLiterals.
